(** * Roo plan generator: the multi-stage reasoning engine

    A shallow embedding of [src/engine.js], [src/utils.js], the LLM
    client of [src/llm.js], the handler of [src/ipcHandlers.js] and the
    click handler of [renderer.js], with the JavaScript library functions
    they rely on (strings, regular expressions, JSON, the retry
    library), and the properties of the pipeline proved over it. *)

From Stdlib Require Import List NArith ZArith Bool Ascii String Lia.
From stdpp Require Import gmap.
Import ListNotations.

Set Default Proof Using "Type".
Local Open Scope N_scope.

(** ** JavaScript strings

    A JavaScript string is a sequence of 16-bit code units; a code unit is
    an [N]. *)

Module JsString.

Definition jsstring := list N.

(** [js] reads a literal, with the escapes [\n], [\t], [\r], [\\] and
    [\q] (a double quote). *)
Fixpoint js (s : string) : jsstring :=
  match s with
  | EmptyString => []
  | String "\" (String c t) =>
      (match c with
       | "n" => 10 | "t" => 9 | "r" => 13 | "q" => 34
       | _ => N_of_ascii c
       end)%char :: js t
  | String c t => N_of_ascii c :: js t
  end.

(** WhiteSpace and LineTerminator code points (ECMA-262, 12.2 and 12.3):
    what [String.prototype.trim] strips and what [\s] matches. *)
Definition isLineTerminator (c : N) : bool :=
  (c =? 10) || (c =? 13) || (c =? 0x2028) || (c =? 0x2029).

Definition isWhiteSpace (c : N) : bool :=
  (c =? 9) || (c =? 11) || (c =? 12) || (c =? 32) || (c =? 0xA0)
  || (c =? 0x1680) || ((0x2000 <=? c) && (c <=? 0x200A))
  || (c =? 0x202F) || (c =? 0x205F) || (c =? 0x3000) || (c =? 0xFEFF)
  || isLineTerminator c.

Fixpoint trimStart (s : jsstring) : jsstring :=
  match s with
  | c :: t => if isWhiteSpace c then trimStart t else s
  | [] => []
  end.

Definition trimEnd (s : jsstring) : jsstring := rev (trimStart (rev s)).

Definition trim (s : jsstring) : jsstring := trimEnd (trimStart s).

Fixpoint startsWith (p s : jsstring) : bool :=
  match p, s with
  | [], _ => true
  | a :: p', b :: s' => (a =? b) && startsWith p' s'
  | _ :: _, [] => false
  end.

Definition endsWith (p s : jsstring) : bool := startsWith (rev p) (rev s).

(** [indexOfFrom p s i] is the index of the first occurrence of [p] in [s],
    counted from [i] at the head of [s]; -1 when there is none. *)
Fixpoint indexOfFrom (p s : jsstring) (i : Z) : Z :=
  if startsWith p s then i
  else match s with
       | [] => (-1)%Z
       | _ :: t => indexOfFrom p t (i + 1)
       end.

Definition indexOf (p s : jsstring) : Z := indexOfFrom p s 0.

Definition includes (p s : jsstring) : bool := negb (indexOf p s =? -1)%Z.

(** The last occurrence: the best of the occurrences met from left to right. *)
Fixpoint lastIndexOfFrom (p s : jsstring) (i best : Z) : Z :=
  let best' := if startsWith p s then i else best in
  match s with
  | [] => best'
  | _ :: t => lastIndexOfFrom p t (i + 1) best'
  end.

Definition lastIndexOf (p s : jsstring) : Z := lastIndexOfFrom p s 0 (-1).

Definition len (s : jsstring) : Z := Z.of_nat (length s).

Definition clamp (s : jsstring) (i : Z) : Z := Z.min (Z.max i 0) (len s).

(** [s.substring(a, b)]: both ends clamped to [0, length], swapped when
    [a > b]. *)
Definition substring (s : jsstring) (a b : Z) : jsstring :=
  let a' := clamp s a in
  let b' := clamp s b in
  let lo := Z.min a' b' in
  let hi := Z.max a' b' in
  firstn (Z.to_nat (hi - lo)) (skipn (Z.to_nat lo) s).

(** [s.slice(a, b)]: a negative index counts from the end, no swap. *)
Definition sliceIndex (s : jsstring) (i : Z) : Z :=
  if (i <? 0)%Z then Z.max (len s + i) 0 else Z.min i (len s).

Definition slice (s : jsstring) (a b : Z) : jsstring :=
  let lo := sliceIndex s a in
  let hi := sliceIndex s b in
  firstn (Z.to_nat (hi - lo)) (skipn (Z.to_nat lo) s).

Definition sliceFrom (s : jsstring) (a : Z) : jsstring := slice s a (len s).

(** [s.split(sep)] for a non-empty separator. [skip] counts the code units
    of a separator still to step over, [cur] is the current piece, reversed. *)
Fixpoint splitGo (sep s cur : jsstring) (skip : nat) : list jsstring :=
  match s with
  | [] => [rev cur]
  | c :: t =>
      match skip with
      | S n => splitGo sep t cur n
      | O =>
          if startsWith sep s
          then rev cur :: splitGo sep t [] (Nat.pred (length sep))
          else splitGo sep t (c :: cur) O
      end
  end.

Definition splitStr (sep s : jsstring) : list jsstring := splitGo sep s [] O.

(** Case conversion of the letters a-z and A-Z. The engine converts case
    only to compare with the constants "OK" and "gitignore", or on text
    already matched by [[a-z0-9-]+]; no code unit outside ASCII maps to a
    letter of those constants, so the comparisons come out as with the
    full Unicode mapping. *)
Definition upperChar (c : N) : N :=
  if (97 <=? c) && (c <=? 122) then c - 32 else c.

Definition lowerChar (c : N) : N :=
  if (65 <=? c) && (c <=? 90) then c + 32 else c.

Definition toUpperCase (s : jsstring) : jsstring := map upperChar s.
Definition toLowerCase (s : jsstring) : jsstring := map lowerChar s.

(** Strict equality of strings, as a boolean. *)
Definition streq (a b : jsstring) : bool := bool_decide (a = b).

(** A string is truthy when it is not empty. *)
Definition truthy (s : jsstring) : bool :=
  match s with [] => false | _ => true end.

(** [Array.prototype.join] on strings. *)
Fixpoint join (sep : jsstring) (l : list jsstring) : jsstring :=
  match l with
  | [] => []
  | [x] => x
  | x :: t => x ++ sep ++ join sep t
  end.

End JsString.
Export JsString.

(** ** Regular expressions

    A backtracking matcher in continuation-passing style, after the
    pattern semantics of ECMA-262 (22.2.2), for the constructs the engine's
    patterns use. Alternatives are tried left to right, a greedy quantifier
    tries one more iteration before the continuation and a lazy one the
    continuation first, so the first match found is the one JavaScript
    reports. *)

Module Regex.

Inductive regex :=
| RChar (c : N)                          (* a literal code unit *)
| RSet (p : N -> bool)                   (* a class, an escape such as \s, or . *)
| REmpty
| RSeq (r1 r2 : regex)
| RAlt (r1 r2 : regex)
| RQuant (min : nat) (max : option nat) (greedy : bool) (r : regex)
| RGroup (r : regex)                     (* the capturing group ( ... ) *)
| RBol                                   (* ^ *)
| REol.                                  (* $ *)

Record flags := { ignoreCase : bool; multiline : bool }.

Definition noFlags := {| ignoreCase := false; multiline := false |}.
Definition flagI := {| ignoreCase := true; multiline := false |}.
Definition flagM := {| ignoreCase := false; multiline := true |}.
Definition flagIM := {| ignoreCase := true; multiline := true |}.

(** The matcher state: the index reached, the code unit before it, the
    input from it on, and the text of the capturing group. None of the
    engine's patterns has more than one capturing group, or a group under a
    quantifier. *)
Record mstate := {
  pos : nat;
  prev : option N;
  rest : jsstring;
  cap : option jsstring
}.

Definition advance (x : mstate) (c : N) (t : jsstring) : mstate :=
  {| pos := S (pos x); prev := Some c; rest := t; cap := cap x |}.

(** Canonicalize (22.2.2.7.3) compares upper-cased code units; on the
    ASCII patterns of the engine that is comparison up to the case of
    a-z. *)
Definition charMatches (fl : flags) (a c : N) : bool :=
  if ignoreCase fl then upperChar a =? upperChar c else a =? c.

Definition setMatches (fl : flags) (p : N -> bool) (c : N) : bool :=
  if ignoreCase fl then p c || p (upperChar c) || p (lowerChar c) else p c.

Definition atBol (fl : flags) (x : mstate) : bool :=
  match prev x with
  | None => true
  | Some c => multiline fl && isLineTerminator c
  end.

Definition atEol (fl : flags) (x : mstate) : bool :=
  match rest x with
  | [] => true
  | c :: _ => multiline fl && isLineTerminator c
  end.

Definition orElse {A} (a b : option A) : option A :=
  match a with Some _ => a | None => b end.

Section Matcher.
Context {A : Type} (fl : flags).

(** RepeatMatcher, over the matcher [m] of the quantified pattern and the
    continuation [k]: with [min = 0] an iteration that consumes nothing
    fails. The fuel bounds the iterations by [min] plus the code units
    left, which they cannot exceed. *)
Fixpoint repeatMatcher (m : mstate -> (mstate -> option A) -> option A)
    (k : mstate -> option A) (greedy : bool)
    (fuel mn : nat) (mx : option nat) (x : mstate) {struct fuel} : option A :=
  match mx with
  | Some O => k x
  | _ =>
      match fuel with
      | O => None
      | S fuel' =>
          let d := fun y : mstate =>
            if Nat.eqb mn 0 && Nat.eqb (pos y) (pos x) then None
            else repeatMatcher m k greedy fuel' (Nat.pred mn)
                   (option_map Nat.pred mx) y in
          if negb (Nat.eqb mn 0) then m x d
          else if greedy then orElse (m x d) (k x)
          else orElse (k x) (m x d)
      end
  end.

Fixpoint matcher (r : regex) (x : mstate) (k : mstate -> option A) {struct r}
  : option A :=
  match r with
  | RChar a =>
      match rest x with
      | c :: t => if charMatches fl a c then k (advance x c t) else None
      | [] => None
      end
  | RSet p =>
      match rest x with
      | c :: t => if setMatches fl p c then k (advance x c t) else None
      | [] => None
      end
  | REmpty => k x
  | RSeq r1 r2 => matcher r1 x (fun y => matcher r2 y k)
  | RAlt r1 r2 => orElse (matcher r1 x k) (matcher r2 x k)
  | RQuant mn mx g r' =>
      repeatMatcher (matcher r') k g (S (mn + length (rest x))) mn mx x
  | RGroup r' =>
      matcher r' x (fun y =>
        k {| pos := pos y; prev := prev y; rest := rest y;
             cap := Some (firstn (pos y - pos x) (rest x)) |})
  | RBol => if atBol fl x then k x else None
  | REol => if atEol fl x then k x else None
  end.

End Matcher.

(** What [exec] and [match] return: the index of the match, its text
    [m[0]], the text of group 1 ([None] for undefined) and the index after
    the match. *)
Record matchResult := {
  index : nat;
  whole : jsstring;
  group1 : option jsstring;
  endIndex : nat
}.

Definition matchAt (fl : flags) (r : regex) (x : mstate) : option matchResult :=
  matcher fl r x (fun y =>
    Some {| index := pos x;
            whole := firstn (pos y - pos x) (rest x);
            group1 := cap y;
            endIndex := pos y |}).

(** The search loop of RegExpBuiltinExec: the first start index, from left
    to right, at which the pattern matches. *)
Fixpoint search (fl : flags) (r : regex) (i : nat) (p : option N) (s : jsstring)
  : option matchResult :=
  orElse (matchAt fl r {| pos := i; prev := p; rest := s; cap := None |})
         (match s with
          | [] => None
          | c :: t => search fl r (S i) (Some c) t
          end).

(** [s.match(r)] for a pattern without the g flag. *)
Definition exec (fl : flags) (r : regex) (s : jsstring) : option matchResult :=
  search fl r 0 None s.

Definition test (fl : flags) (r : regex) (s : jsstring) : bool :=
  match exec fl r s with Some _ => true | None => false end.

(** [exec] from [lastIndex = i], for the g flag. *)
Definition execFrom (fl : flags) (r : regex) (s : jsstring) (i : nat)
  : option matchResult :=
  if Nat.ltb (length s) i then None
  else search fl r i (match i with O => None | S j => nth_error s j end)
              (skipn i s).

(** Pattern syntax. *)
Fixpoint str (s : jsstring) : regex :=
  match s with
  | [] => REmpty
  | [c] => RChar c
  | c :: t => RSeq (RChar c) (str t)
  end.

Definition star r := RQuant 0 None true r.
Definition starLazy r := RQuant 0 None false r.
Definition plus r := RQuant 1 None true r.
Definition opt r := RQuant 0 (Some 1%nat) true r.
Definition anyChar := RSet (fun _ => true).                     (* [\s\S] *)
Definition dot := RSet (fun c => negb (isLineTerminator c)).    (* . *)
Definition space := RSet isWhiteSpace.                         (* \s *)
Definition slugChar :=                                          (* [a-z0-9-] *)
  RSet (fun c => ((97 <=? c) && (c <=? 122)) || ((48 <=? c) && (c <=? 57))
                 || (c =? 45)).

Fixpoint rseq (l : list regex) : regex :=
  match l with
  | [] => REmpty
  | [r] => r
  | r :: t => RSeq r (rseq t)
  end.

End Regex.
Export Regex.

(** ** JSON values, [JSON.parse] and [JSON.stringify] *)

Module Json.

(** A number keeps the exact decimal value [m * 10^e] of its literal. An
    object keeps its members in the order written. *)
#[warnings="-register-all"]
Inductive json :=
| JNull
| JBool (b : bool)
| JNum (m e : Z)
| JStr (s : jsstring)
| JArr (l : list json)
| JObj (members : list (jsstring * json)).

Definition isJsonWs (c : N) : bool :=
  (c =? 32) || (c =? 9) || (c =? 10) || (c =? 13).

Fixpoint skipWs (s : jsstring) : jsstring :=
  match s with
  | c :: t => if isJsonWs c then skipWs t else s
  | [] => []
  end.

Definition isDigit (c : N) : bool := (48 <=? c) && (c <=? 57).

Definition hexValue (c : N) : option N :=
  if isDigit c then Some (c - 48)
  else if (97 <=? c) && (c <=? 102) then Some (c - 87)
  else if (65 <=? c) && (c <=? 70) then Some (c - 55)
  else None.

Definition hex4 (a b c d : N) : option N :=
  match hexValue a, hexValue b, hexValue c, hexValue d with
  | Some x, Some y, Some z, Some w => Some (((x * 16 + y) * 16 + z) * 16 + w)
  | _, _, _, _ => None
  end.

(** The characters of a string literal after its opening quote, up to the
    closing quote. Control characters below U+0020 are not allowed. *)
Fixpoint parseChars (s : jsstring) (acc : jsstring) : option (jsstring * jsstring) :=
  match s with
  | [] => None
  | 34 :: t => Some (rev acc, t)
  | 92 :: 117 :: a :: b :: c :: d :: t =>
      match hex4 a b c d with
      | Some u => parseChars t (u :: acc)
      | None => None
      end
  | 92 :: e :: t =>
      if e =? 34 then parseChars t (34 :: acc)
      else if e =? 92 then parseChars t (92 :: acc)
      else if e =? 47 then parseChars t (47 :: acc)
      else if e =? 98 then parseChars t (8 :: acc)
      else if e =? 102 then parseChars t (12 :: acc)
      else if e =? 110 then parseChars t (10 :: acc)
      else if e =? 114 then parseChars t (13 :: acc)
      else if e =? 116 then parseChars t (9 :: acc)
      else None
  | [92] => None
  | c :: t => if c <? 32 then None else parseChars t (c :: acc)
  end.

Fixpoint takeDigits (s : jsstring) (acc : jsstring) : jsstring * jsstring :=
  match s with
  | c :: t => if isDigit c then takeDigits t (c :: acc) else (rev acc, s)
  | [] => (rev acc, [])
  end.

Definition digitsValue (ds : jsstring) : Z :=
  fold_left (fun v c => (v * 10 + Z.of_N (c - 48))%Z) ds 0%Z.

(** A number: an optional minus, then 0 or a digit 1-9 with more digits,
    then an optional fraction (a point and digits) and an optional exponent
    (e or E, a sign, digits). *)
Definition parseNumber (s : jsstring) : option (json * jsstring) :=
  let '(neg, s1) := match s with 45 :: t => (true, t) | _ => (false, s) end in
  let intPart :=
    match s1 with
    | 48 :: t => Some ([48], t)
    | c :: _ => if isDigit c then Some (takeDigits s1 []) else None
    | [] => None
    end in
  match intPart with
  | None => None
  | Some (ids, s2) =>
      let frac :=
        match s2 with
        | 46 :: t =>
            match takeDigits t [] with
            | ([], _) => None
            | (fds, s3) => Some (fds, s3)
            end
        | _ => Some ([], s2)
        end in
      match frac with
      | None => None
      | Some (fds, s3) =>
          let expo :=
            match s3 with
            | c :: t =>
                if (c =? 101) || (c =? 69) then
                  let '(eneg, t') :=
                    match t with
                    | 45 :: u => (true, u)
                    | 43 :: u => (false, u)
                    | _ => (false, t)
                    end in
                  match takeDigits t' [] with
                  | ([], _) => None
                  | (eds, s4) =>
                      Some ((if eneg then - digitsValue eds else digitsValue eds)%Z, s4)
                  end
                else Some (0%Z, s3)
            | [] => Some (0%Z, s3)
            end in
          match expo with
          | None => None
          | Some (ev, s4) =>
              let mag := digitsValue (ids ++ fds) in
              Some (JNum (if neg then - mag else mag)%Z
                         (ev - Z.of_nat (length fds))%Z, s4)
          end
      end
  end.

Inductive mode :=
| MValue
| MElems (acc : list json)
| MMembers (acc : list (jsstring * json)).

(** One parser for values, for the elements of an array after its first
    bracket and for the members of an object after its first brace. Every
    call on a value consumes input, so fuel of twice the length is enough. *)
Fixpoint parse (fuel : nat) (md : mode) (s : jsstring) : option (json * jsstring) :=
  match fuel with
  | O => None
  | S f =>
      match md with
      | MValue =>
          match skipWs s with
          | 110 :: 117 :: 108 :: 108 :: t => Some (JNull, t)
          | 116 :: 114 :: 117 :: 101 :: t => Some (JBool true, t)
          | 102 :: 97 :: 108 :: 115 :: 101 :: t => Some (JBool false, t)
          | 34 :: t =>
              match parseChars t [] with
              | Some (str, t') => Some (JStr str, t')
              | None => None
              end
          | 91 :: t =>
              match skipWs t with
              | 93 :: t' => Some (JArr [], t')
              | _ => parse f (MElems []) t
              end
          | 123 :: t =>
              match skipWs t with
              | 125 :: t' => Some (JObj [], t')
              | _ => parse f (MMembers []) t
              end
          | s' => parseNumber s'
          end
      | MElems acc =>
          match parse f MValue s with
          | Some (v, t) =>
              match skipWs t with
              | 44 :: t' => parse f (MElems (v :: acc)) t'
              | 93 :: t' => Some (JArr (rev (v :: acc)), t')
              | _ => None
              end
          | None => None
          end
      | MMembers acc =>
          match skipWs s with
          | 34 :: t =>
              match parseChars t [] with
              | Some (key, t1) =>
                  match skipWs t1 with
                  | 58 :: t2 =>
                      match parse f MValue t2 with
                      | Some (v, t3) =>
                          match skipWs t3 with
                          | 44 :: t4 => parse f (MMembers ((key, v) :: acc)) t4
                          | 125 :: t4 => Some (JObj (rev ((key, v) :: acc)), t4)
                          | _ => None
                          end
                      | None => None
                      end
                  | _ => None
                  end
              | None => None
              end
          | _ => None
          end
      end
  end.

(** [JSON.parse(text)]; [None] stands for the SyntaxError it throws. *)
Definition JSON_parse (text : jsstring) : option json :=
  match parse (2 * length text + 2) MValue text with
  | Some (v, t) => match skipWs t with [] => Some v | _ => None end
  | None => None
  end.

(** [v[key]] on a parsed value: the last member written under [key] for an
    object, undefined ([None]) for anything else. The keys the engine reads
    (customModes, slug, type, path) are on no prototype. *)
Fixpoint lookupMember (key : jsstring) (ms : list (jsstring * json)) : option json :=
  match ms with
  | [] => None
  | (k, v) :: t =>
      match lookupMember key t with
      | Some w => Some w
      | None => if streq k key then Some v else None
      end
  end.

Definition getProp (v : json) (key : jsstring) : option json :=
  match v with
  | JObj ms => lookupMember key ms
  | _ => None
  end.

(** A literal rounds to the Number zero when its magnitude is at most
    2^-1075, half the least positive double. *)
Definition numberIsZero (m e : Z) : bool :=
  ((m =? 0) || ((e <? 0) && (Z.abs m * 2 ^ 1075 <=? 10 ^ (- e))))%Z.

(** ToBoolean. *)
Definition truthyJ (v : json) : bool :=
  match v with
  | JNull => false
  | JBool b => b
  | JNum m e => negb (numberIsZero m e)
  | JStr s => truthy s
  | JArr _ | JObj _ => true
  end.

Definition hasMember (key : jsstring) (ms : list (jsstring * json)) : bool :=
  existsb (fun kv => streq (fst kv) key) ms.

Section ToString.
(** Number::toString, the shortest decimal that reads back as the same
    double, is left to the platform. *)
Variable numberToString : Z -> Z -> jsstring.

(** ToString of a parsed value; [None] stands for the TypeError of
    OrdinaryToPrimitive, raised for an object with a member named toString
    (a member is never callable, and Object.prototype.valueOf returns the
    object). An array is joined with commas, null elements left empty. *)
Fixpoint toStringJ (v : json) : option jsstring :=
  match v with
  | JNull => Some (js "null")
  | JBool true => Some (js "true")
  | JBool false => Some (js "false")
  | JNum m e => Some (numberToString m e)
  | JStr s => Some s
  | JArr l =>
      (fix joinElems (l : list json) : option jsstring :=
         match l with
         | [] => Some []
         | x :: t =>
             match (match x with JNull => Some [] | _ => toStringJ x end) with
             | None => None
             | Some sx =>
                 match t with
                 | [] => Some sx
                 | _ => match joinElems t with
                        | Some st => Some (sx ++ js "," ++ st)
                        | None => None
                        end
                 end
             end
         end) l
  | JObj ms =>
      if hasMember (js "toString") ms then None else Some (js "[object Object]")
  end.

(** [arr.join(sep)] on an array of parsed values. *)
Fixpoint joinJ (sep : jsstring) (l : list json) : option jsstring :=
  match l with
  | [] => Some []
  | x :: t =>
      match (match x with JNull => Some [] | _ => toStringJ x end) with
      | None => None
      | Some sx =>
          match t with
          | [] => Some sx
          | _ => match joinJ sep t with
                 | Some st => Some (sx ++ sep ++ st)
                 | None => None
                 end
          end
      end
  end.

Definition hexDigit (n : N) : N := if n <? 10 then 48 + n else 87 + n.

Definition isLeadSurrogate (c : N) : bool := (0xD800 <=? c) && (c <=? 0xDBFF).
Definition isTrailSurrogate (c : N) : bool := (0xDC00 <=? c) && (c <=? 0xDFFF).

Definition unicodeEscape (c : N) : jsstring :=
  js "\\u" ++ [hexDigit (c / 4096 mod 16); hexDigit (c / 256 mod 16);
               hexDigit (c / 16 mod 16); hexDigit (c mod 16)].

(** QuoteJSONString without its quotes; [lead] is a leading surrogate
    waiting for its trailing half. *)
Fixpoint quoteChars (s : jsstring) : jsstring :=
  match s with
  | [] => []
  | c :: t =>
      if c =? 8 then js "\\b" ++ quoteChars t
      else if c =? 9 then js "\\t" ++ quoteChars t
      else if c =? 10 then js "\\n" ++ quoteChars t
      else if c =? 12 then js "\\f" ++ quoteChars t
      else if c =? 13 then js "\\r" ++ quoteChars t
      else if c =? 34 then js "\\\q" ++ quoteChars t
      else if c =? 92 then js "\\\\" ++ quoteChars t
      else if c <? 32 then unicodeEscape c ++ quoteChars t
      else if isLeadSurrogate c then
        match t with
        | d :: t' =>
            if isTrailSurrogate d then c :: d :: quoteChars t'
            else unicodeEscape c ++ quoteChars t
        | [] => unicodeEscape c
        end
      else if isTrailSurrogate c then unicodeEscape c ++ quoteChars t
      else c :: quoteChars t
  end.

Definition quoteJSONString (s : jsstring) : jsstring :=
  js "\q" ++ quoteChars s ++ js "\q".

(** [JSON.stringify(v, null, gap)] for a non-empty [gap], at the current
    indentation [indent]. *)
Fixpoint serialize (gap indent : jsstring) (v : json) : jsstring :=
  match v with
  | JNull => js "null"
  | JBool true => js "true"
  | JBool false => js "false"
  | JNum m e => numberToString m e
  | JStr s => quoteJSONString s
  | JArr l =>
      let inner := indent ++ gap in
      match l with
      | [] => js "[]"
      | _ =>
          js "[\n" ++ inner
          ++ join (js ",\n" ++ inner) (map (serialize gap inner) l)
          ++ js "\n" ++ indent ++ js "]"
      end
  | JObj ms =>
      let inner := indent ++ gap in
      match ms with
      | [] => js "{}"
      | _ =>
          js "{\n" ++ inner
          ++ join (js ",\n" ++ inner)
               (map (fun kv => quoteJSONString (fst kv) ++ js ": "
                               ++ serialize gap inner (snd kv)) ms)
          ++ js "\n" ++ indent ++ js "}"
      end
  end.

Definition JSON_stringify2 (v : json) : jsstring := serialize (js "  ") [] v.

End ToString.

End Json.
Export Json.

(** ** [String.prototype.replace] *)

Module Replace.

(** GetSubstitution for a string pattern (no captures): [$$] is a dollar,
    [$&] the matched text, [$`] the text before it and [$'] the text after
    it; any other dollar stands for itself. *)
Fixpoint getSubstitution (matched before after repl : jsstring) : jsstring :=
  match repl with
  | [] => []
  | 36 :: 36 :: t => 36 :: getSubstitution matched before after t
  | 36 :: 38 :: t => matched ++ getSubstitution matched before after t
  | 36 :: 96 :: t => before ++ getSubstitution matched before after t
  | 36 :: 39 :: t => after ++ getSubstitution matched before after t
  | c :: t => c :: getSubstitution matched before after t
  end.

(** [s.replace(pattern, repl)] with a string pattern: the first occurrence
    only. *)
Definition replaceString (s pattern repl : jsstring) : jsstring :=
  let i := indexOf pattern s in
  if (i =? -1)%Z then s
  else
    let before := firstn (Z.to_nat i) s in
    let after := skipn (Z.to_nat i + length pattern) s in
    before ++ getSubstitution pattern before after repl ++ after.

(** [s.replace(r, repl)] with a pattern without the g flag and a
    replacement without dollars. *)
Definition replaceFirst (fl : flags) (r : regex) (s repl : jsstring) : jsstring :=
  match exec fl r s with
  | None => s
  | Some m => firstn (index m) s ++ repl ++ skipn (endIndex m) s
  end.

(** [s.replace(/c/g, repl)] for a pattern that is one code unit. *)
Definition replaceAllChar (c : N) (s repl : jsstring) : jsstring :=
  flat_map (fun x => if x =? c then repl else [x]) s.

End Replace.
Export Replace.

(** ** [src/utils.js]: the text extractors *)

Module Utils.

(** A JavaScript object used as a map from names to text. Assigning to the
    name [__proto__] calls the setter of Object.prototype, which ignores a
    value that is not an object: no entry appears. *)
Definition objSet (key value : jsstring) (o : gmap jsstring jsstring)
  : gmap jsstring jsstring :=
  if streq key (js "__proto__") then o else <[key := value]> o.

Inductive itemType := dir | file.

Record structureItem := { type : itemType; path : jsstring }.

(** /[#]{2,3}\s*Proposed (?:File )?Structure(?:\s*\(JSON\))?[\s\S]*?```(?:json)?\s*([\s\S]*?)\s*```/im *)
Definition primaryRegex : regex :=
  rseq [RQuant 2 (Some 3%nat) true (RChar 35); star space;
        str (js "Proposed "); opt (str (js "File ")); str (js "Structure");
        opt (rseq [star space; str (js "(JSON)")]);
        starLazy anyChar; str (js "```"); opt (str (js "json")); star space;
        RGroup (starLazy anyChar); star space; str (js "```")].

(** /```json\s*([\s\S]*?)\s*```/m *)
Definition fallbackRegex : regex :=
  rseq [str (js "```json"); star space; RGroup (starLazy anyChar);
        star space; str (js "```")].

(** [jsonMatch && jsonMatch[1]]: a match whose group is not empty. *)
Definition capture (m : option matchResult) : option jsstring :=
  match m with
  | Some r => match group1 r with
              | Some g => if truthy g then Some g else None
              | None => None
              end
  | None => None
  end.

(** The filter of [parseStructureFromJsonMd]: an object (an array counts)
    whose type is 'dir' or 'file' and whose path is a string that is not
    blank; then the path is trimmed, its backslashes become slashes and one
    trailing slash goes. *)
Definition structureItemOfJson (item : json) : option structureItem :=
  match item with
  | JObj _ =>
      let ty :=
        match getProp item (js "type") with
        | Some (JStr t) =>
            if streq t (js "dir") then Some dir
            else if streq t (js "file") then Some file
            else None
        | _ => None
        end in
      match ty, getProp item (js "path") with
      | Some t, Some (JStr p) =>
          if truthy (trim p) then
            Some {| type := t;
                    path := replaceFirst noFlags (rseq [RChar 47; REol])
                              (replaceAllChar 92 (trim p) (js "/")) [] |}
          else None
      | _, _ => None
      end
  | _ => None
  end.

Definition fixGitignore (item : structureItem) : structureItem :=
  if streq (toLowerCase (path item)) (js "gitignore")
  then {| type := type item; path := js ".gitignore" |}
  else item.

(** The text of the JSON block: the primary pattern, then any json fence. *)
Definition extractJsonBlock (markdownContent : jsstring) : option jsstring :=
  match capture (exec flagIM primaryRegex markdownContent) with
  | Some g => Some (trim g)
  | None =>
      match capture (exec flagM fallbackRegex markdownContent) with
      | Some g => Some (trim g)
      | None => None
      end
  end.

Definition parseStructureFromJsonMd (markdownContent : jsstring)
  : list structureItem :=
  match extractJsonBlock markdownContent with
  | Some extractedJsonString =>
      if truthy extractedJsonString then
        match JSON_parse extractedJsonString with
        | Some (JArr parsedJson) =>
            map fixGitignore (omap structureItemOfJson parsedJson)
        | Some _ => []
        | None => []
        end
      else []
  | None => []
  end.

(** /^[#]{2,3}\s*Core Logic Outlines\s*([\s\S]*?)(?:^[#]{2,}\s|\s*$)/m *)
Definition outlineSectionRegex : regex :=
  rseq [RBol; RQuant 2 (Some 3%nat) true (RChar 35); star space;
        str (js "Core Logic Outlines"); star space;
        RGroup (starLazy anyChar);
        RAlt (rseq [RBol; RQuant 2 None true (RChar 35); space])
             (rseq [star space; REol])].

(** /^\s*-\s*`([^`]+)`:/ *)
Definition outlineFileRegex : regex :=
  rseq [RBol; star space; RChar 45; star space; RChar 96;
        RGroup (plus (RSet (fun c => negb (c =? 96)))); RChar 96; RChar 58].

(** The loop variables of [parseOutlinesFromMd]. [currentOutlineFile] is
    [None] for null. *)
Record outlineState := {
  coreLogicOutlines : gmap jsstring jsstring;
  currentOutlineFile : option jsstring;
  currentOutline : jsstring
}.

Definition fileIsSet (f : option jsstring) : bool :=
  match f with Some name => truthy name | None => false end.

(** [if (currentOutlineFile && currentOutline.trim()) coreLogicOutlines[...] = ...] *)
Definition saveOutline (st : outlineState) : gmap jsstring jsstring :=
  match currentOutlineFile st with
  | Some name =>
      if truthy name && truthy (trim (currentOutline st))
      then objSet name (trim (currentOutline st)) (coreLogicOutlines st)
      else coreLogicOutlines st
  | None => coreLogicOutlines st
  end.

Definition outlineStep (st : outlineState) (line : jsstring) : outlineState :=
  match exec noFlags outlineFileRegex line with
  | Some fileMatch =>
      {| coreLogicOutlines := saveOutline st;
         currentOutlineFile :=
           Some (trim (match group1 fileMatch with Some g => g | None => [] end));
         currentOutline := [] |}
  | None =>
      if fileIsSet (currentOutlineFile st) then
        if truthy (currentOutline st) || truthy (trim line)
        then {| coreLogicOutlines := coreLogicOutlines st;
                currentOutlineFile := currentOutlineFile st;
                currentOutline := currentOutline st ++ line ++ js "\n" |}
        else st
      else st
  end.

Definition parseOutlinesFromMd (markdownContent : jsstring)
  : gmap jsstring jsstring :=
  match capture (exec flagM outlineSectionRegex markdownContent) with
  | Some outlineContent =>
      let outlineLines := splitStr (js "\n") outlineContent in
      saveOutline
        (fold_left outlineStep outlineLines
           {| coreLogicOutlines := ∅; currentOutlineFile := None;
              currentOutline := [] |})
  | None => ∅
  end.

End Utils.
Export Utils.

(** ** [src/llm.js]: the LLM client

    The model behind [model.generateContent] is an oracle. A run of the
    engine calls the client at most once from each place in the code, so
    the oracle is indexed by that place and by the attempt; this covers any
    dependence of a reply on the prompt, which is fixed by the replies
    before it. Prompt texts are built by template substitution, feed only
    the oracle, and are left out, as are logging and progress reports. *)

Module Llm.

(** The places that call [callLLM], named after the stage comments of
    [src/engine.js]. *)
Inductive CallSite :=
| Stage1 | Stage1_5 | Stage2 | Stage2_5 | Stage3
| Stage4 | Stage4_1 | Stage4_5 | Stage4_5_1 | Stage4_6 | Stage4_6_1
| Stage4_7 | Stage4_7_refinement | Stage5 | Stage6 | Stage6_1 | Stage6_5.

(** What one attempt meets: a response, with its text and the
    [promptFeedback.blockReason] if any, or an exception, with its message
    and, for a GoogleGenerativeAIFetchError, its HTTP status. *)
Inductive rawReply :=
| Response (text : jsstring) (blockReason : option jsstring)
| Exception (message : jsstring) (fetchStatus : option N).

(** The surroundings of one run. The user can only set the cancellation
    token while the engine waits for a reply: [cancelRequestedDuring] tells
    during which attempt. *)
Record World := {
  initializationError : option jsstring;
  modelAvailable : bool;
  MODEL_NAME : jsstring;
  generateContent : CallSite -> nat -> rawReply;
  cancelRequestedDuring : CallSite -> nat -> bool;
  numberToString : Z -> Z -> jsstring
}.

(** The cancellation token and the calls made to the model so far. The flag
    is only ever set. *)
Record State := {
  isCancellationRequested : bool;
  llmCalls : list (CallSite * nat)
}.

Inductive llmResult :=
| Resolved (text : jsstring)
| Rejected (message : jsstring).

Fixpoint decimalGo (fuel : nat) (n : N) (acc : jsstring) : jsstring :=
  match fuel with
  | O => acc
  | S f =>
      let acc' := (48 + n mod 10) :: acc in
      if n <? 10 then acc' else decimalGo f (n / 10) acc'
  end.

(** The decimal digits of an integer. *)
Definition decimal (n : N) : jsstring := decimalGo (S (N.to_nat n)) n [].

Inductive attemptOutcome :=
| Done (text : jsstring)
| Bail (message : jsstring)
| Retry (message : jsstring).

(** The body of the function given to [retry]. *)
Definition attemptOutcomeOf (r : rawReply) : attemptOutcome :=
  match r with
  | Response text (Some reason) =>
      if truthy reason
      then Bail (js "LLM call blocked due to safety settings: " ++ reason)
      else if negb (truthy text) || (length (trim text) =? 0)%nat
      then Retry (js "LLM returned an empty response.")
      else Done text
  | Response text None =>
      if negb (truthy text) || (length (trim text) =? 0)%nat
      then Retry (js "LLM returned an empty response.")
      else Done text
  | Exception message status =>
      if includes (js "API key not valid") message
      then Bail (js "LLM API call failed due to invalid API key: " ++ message)
      else if includes (js "LLM call blocked") message
      then Bail message
      else match status with
           | Some st =>
               if (400 <=? st) && (st <? 500) && negb (st =? 429)
               then Bail (js "LLM call failed with client error " ++ decimal st
                          ++ js ": " ++ message)
               else Retry message
           | None => Retry message
           end
  end.

(** [op.mainError()] of the retry operation, over the messages of the
    errors it has kept, in their order: the messages are counted one by
    one, and an error whose count reaches the highest count so far
    becomes the main error. So the main error is the one that occurred
    most often, and of several such the one whose count was completed
    last. The counts are kept in an object used as a map; a message that
    is the name of a property every object inherits, which no error of
    the SDK or of this file has, would not be counted as a number there
    and is outside this model. *)
Fixpoint mainErrorFrom (errors : list jsstring) (counts : gmap jsstring nat)
    (mainError : option jsstring) (mainErrorCount : nat) : option jsstring :=
  match errors with
  | [] => mainError
  | message :: rest =>
      let count := S (default 0%nat (counts !! message)) in
      let counts := <[message := count]> counts in
      if (mainErrorCount <=? count)%nat
      then mainErrorFrom rest counts (Some message) count
      else mainErrorFrom rest counts mainError mainErrorCount
  end.

Definition mainError (errors : list jsstring) : option jsstring :=
  mainErrorFrom errors ∅ None 0%nat.

(** [retry(fn, { retries })] of async-retry: [fn] runs again after a
    retryable error while retries are left. [bail] rejects with its
    error. When no retry is left the library rejects with the main error
    of the errors of all attempts, [errors] being those of the attempts
    before; it is never null then, since the error of this attempt is
    among them. *)
Fixpoint retry (w : World) (site : CallSite) (retries attempt : nat)
    (errors : list jsstring) (st : State) : llmResult * State :=
  if isCancellationRequested st
  then (Rejected (js "LLM call cancelled before attempt "
                  ++ decimal (N.of_nat attempt) ++ js "."), st)
  else
    let st' := {| isCancellationRequested :=
                    isCancellationRequested st
                    || cancelRequestedDuring w site attempt;
                  llmCalls := llmCalls st ++ [(site, attempt)] |} in
    match attemptOutcomeOf (generateContent w site attempt) with
    | Done text => (Resolved text, st')
    | Bail message => (Rejected message, st')
    | Retry message =>
        let errors := errors ++ [message] in
        match retries with
        | O => (Rejected (default message (mainError errors)), st')
        | S n => retry w site n (S attempt) errors st'
        end
    end.

(** [callLLM(prompt, undefined, cancellationToken)], with the default of
    three retries. *)
Definition callLLM (w : World) (site : CallSite) (st : State)
  : llmResult * State :=
  if isCancellationRequested st
  then (Rejected (js "LLM call cancelled before starting."), st)
  else if match initializationError w with Some e => truthy e | None => false end
  then (Rejected (js "LLM Initialization Error: "
                  ++ default [] (initializationError w)), st)
  else if negb (modelAvailable w)
  then (Rejected (js "LLM model (\q" ++ MODEL_NAME w
                  ++ js "\q) is not available. Check configuration and logs."), st)
  else retry w site 3 1 [] st.

End Llm.
Export Llm.

(** ** [src/engine.js]: the stages *)

Module Engine.

(** What a stage can throw: the engine's CancellationError, or any other
    error. *)
Inductive exn :=
| CancellationError (message : jsstring)
| Error (message : jsstring).

(** A computation reads and updates the state and returns or throws. *)
Definition M (A : Type) : Type := State -> (exn + A) * State.

Definition ret {A} (a : A) : M A := fun st => (inr a, st).

Definition throw {A} (e : exn) : M A := fun st => (inl e, st).

Definition bind {A B} (m : M A) (k : A -> M B) : M B :=
  fun st =>
    match m st with
    | (inl e, st') => (inl e, st')
    | (inr a, st') => k a st'
    end.

Notation "'let!' x ':=' m 'in' k" := (bind m (fun x => k))
  (at level 10, x pattern, m at level 100, k at level 200).

Definition defaultCancellation : exn :=
  CancellationError (js "Operation cancelled by user.").

(** [if (cancellationToken.isCancellationRequested) throw new CancellationError();] *)
Definition checkCancellation : M unit :=
  fun st => if isCancellationRequested st then (inl defaultCancellation, st)
            else (inr tt, st).

(** [await callLLM(...)] inside a try block: the rejection is handed to the
    catch clause of the caller. *)
Definition awaitLLM (w : World) (site : CallSite) : M llmResult :=
  fun st => let '(r, st') := callLLM w site st in (inr r, st').

(** [text.trim().toUpperCase() !== "OK"] *)
Definition isNotOK (response : jsstring) : bool :=
  negb (streq (toUpperCase (trim response)) (js "OK")).

(** *** Stage 1: analysis *)
Definition runAnalysisStage (w : World) (projectIdea : jsstring) : M jsstring :=
  let! _ := checkCancellation in
  let! r := awaitLLM w Stage1 in
  match r with
  | Rejected message => throw (Error (js "Analysis stage failed: " ++ message))
  | Resolved analysisResult =>
      let! _ := checkCancellation in
      let! v := awaitLLM w Stage1_5 in
      match v with
      | Rejected _ => ret analysisResult
      | Resolved validationResponse =>
          if isNotOK validationResponse then ret validationResponse
          else ret analysisResult
      end
  end.

(** *** Stage 2: structuring *)
Definition separator : jsstring := js "--- CONCISE ONE-SHOT COMMAND BELOW ---".

Definition structurePlaceholder : jsstring :=
  js "# Error: Could not parse structured result after validation.".

Definition commandPlaceholder : jsstring :=
  js "Build the project as described (parsing error).".

(** [x || fallback] for a string that may be undefined. *)
Definition orDefault (x : option jsstring) (fallback : jsstring) : jsstring :=
  match x with
  | Some s => if truthy s then s else fallback
  | None => fallback
  end.

(** The split of the structure response and its placeholders. *)
Definition splitStructure (structureResultRaw : jsstring) : jsstring * jsstring :=
  let structureParts := splitStr separator structureResultRaw in
  let structureResultMd := option_map trim (nth_error structureParts 0) in
  let conciseCommand := option_map trim (nth_error structureParts 1) in
  (orDefault structureResultMd structurePlaceholder,
   orDefault conciseCommand commandPlaceholder).

Definition runStructuringStage (w : World) (projectIdea analysisResult : jsstring)
  : M (jsstring * jsstring) :=
  let! _ := checkCancellation in
  let! r := awaitLLM w Stage2 in
  match r with
  | Rejected message => throw (Error (js "Structuring stage failed: " ++ message))
  | Resolved structureResultRaw =>
      let! _ := checkCancellation in
      let! v := awaitLLM w Stage2_5 in
      let validated :=
        match v with
        | Resolved response =>
            if truthy response && isNotOK response then response
            else structureResultRaw
        | Rejected _ => structureResultRaw
        end in
      ret (splitStructure validated)
  end.

(** *** Stage 3: outline refinement *)

(** /### Core Logic Outlines\s*([\s\S]*?)(?:##|$)/ *)
Definition prelimOutlineParser : regex :=
  rseq [str (js "### Core Logic Outlines"); star space;
        RGroup (starLazy anyChar); RAlt (str (js "##")) REol].

(** /```\s*$/m *)
Definition structureJsonEndRegex : regex :=
  rseq [str (js "```"); star space; REol].

(** The splice of the refined outlines into the structure document. *)
Definition spliceOutlines (structureResultMd refinedOutlinesContent : jsstring)
  : jsstring :=
  match exec noFlags prelimOutlineParser structureResultMd with
  | Some prelimOutlineMatch =>
      replaceString structureResultMd (whole prelimOutlineMatch)
        (js "\n" ++ trim refinedOutlinesContent ++ js "\n")
  | None =>
      match exec flagM structureJsonEndRegex structureResultMd with
      | Some matchJsonEnd =>
          let insertIndex :=
            Z.of_nat (index matchJsonEnd + length (whole matchJsonEnd)) in
          slice structureResultMd 0 insertIndex
          ++ js "\n\n" ++ trim refinedOutlinesContent
          ++ sliceFrom structureResultMd insertIndex
      | None => structureResultMd ++ js "\n\n" ++ trim refinedOutlinesContent
      end
  end.

(** The second check of the token sits inside the try block, right after
    the first one: it cannot differ from it. *)
Definition runOutlineRefinementStage (w : World)
    (analysisResult structureResultMd : jsstring) : M jsstring :=
  let! _ := checkCancellation in
  let! r := awaitLLM w Stage3 in
  match r with
  | Rejected _ => ret structureResultMd
  | Resolved refinedOutlinesContent =>
      ret (spliceOutlines structureResultMd refinedOutlinesContent)
  end.

(** *** Stage 4: .clinerules-code *)

(** /^(here is|here's) the content:?\s*/i *)
Definition preambleRegex : regex :=
  rseq [RBol; RGroup (RAlt (str (js "here is")) (str (js "here's")));
        str (js " the content"); opt (RChar 58); star space].

(** /^\/\/ \.clinerules-code for .*/ *)
Definition rulesHeaderRegex : regex :=
  rseq [RBol; str (js "// .clinerules-code for "); star dot].

(** /^\/\/ Primary Tech Stack:/m *)
Definition rulesTechStackRegex : regex :=
  rseq [RBol; str (js "// Primary Tech Stack:")].

(** The inside of a wrapping fence: from after the first line break to the
    last fence, trimmed. *)
Definition unfenceRules (rulesResult : jsstring) : jsstring :=
  if startsWith (js "```") rulesResult && endsWith (js "```") rulesResult
  then trim (substring rulesResult (indexOf (js "\n") rulesResult + 1)
               (lastIndexOf (js "```") rulesResult))
  else rulesResult.

(** [rulesResult.replace(/^(here is|here's) the content:?\s*/i, '')] *)
Definition stripPreamble (rulesResult : jsstring) : jsstring :=
  replaceFirst flagI preambleRegex rulesResult [].

(** Trim, take the inside of a wrapping fence, drop the preamble. *)
Definition normalizeRules (raw : jsstring) : jsstring :=
  stripPreamble (unfenceRules (trim raw)).

Definition isValidRules (rulesResult : jsstring) : bool :=
  truthy rulesResult && test noFlags rulesHeaderRegex rulesResult
  && test flagM rulesTechStackRegex rulesResult.

(** [None] is the null the stage returns when it gives the artifact up. *)
Definition runRulesGenerationStage (w : World) (structureResultMd : jsstring)
  : M (option jsstring) :=
  let! _ := checkCancellation in
  let! r := awaitLLM w Stage4 in
  match r with
  | Rejected _ => ret None
  | Resolved rawRulesResult =>
      let rulesResult := normalizeRules rawRulesResult in
      if isValidRules rulesResult then ret (Some rulesResult)
      else
        let! _ := checkCancellation in
        let! r2 := awaitLLM w Stage4_1 in
        match r2 with
        | Rejected _ => ret None
        | Resolved refinedRawResult =>
            let rulesResult := normalizeRules refinedRawResult in
            if isValidRules rulesResult then ret (Some rulesResult)
            else ret None
        end
  end.

(** *** Stages 4.5 and 4.6: .rooignore and the workspace .clinerules *)

(** /^# \.rooignore for .*/ *)
Definition rooignoreHeaderRegex : regex :=
  rseq [RBol; str (js "# .rooignore for "); star dot].

(** /^\/\/ General Workspace \.clinerules for .*/ *)
Definition workspaceRulesHeaderRegex : regex :=
  rseq [RBol; str (js "// General Workspace .clinerules for "); star dot].

(** The two stages differ in their call sites and header pattern only. *)
Definition headerValid (header : regex) (result : jsstring) : bool :=
  truthy result && test noFlags header result.

Definition runHeaderStage (w : World) (first refinement : CallSite)
    (header : regex) : M (option jsstring) :=
  let! _ := checkCancellation in
  let! r := awaitLLM w first in
  match r with
  | Rejected _ => ret None
  | Resolved result =>
      if headerValid header result then ret (Some result)
      else
        let! _ := checkCancellation in
        let! r2 := awaitLLM w refinement in
        match r2 with
        | Rejected _ => ret None
        | Resolved refined =>
            if headerValid header refined then ret (Some refined)
            else ret None
        end
  end.

Definition runRooignoreGenerationStage (w : World) (structureResultMd : jsstring)
  : M (option jsstring) :=
  runHeaderStage w Stage4_5 Stage4_5_1 rooignoreHeaderRegex.

Definition runWorkspaceRulesGenerationStage (w : World)
    (structureResultMd : jsstring) : M (option jsstring) :=
  runHeaderStage w Stage4_6 Stage4_6_1 workspaceRulesHeaderRegex.

(** *** Stage 4.7: the optional footgun prompt *)

(** /override system prompt for mode\s+([a-z0-9-]+)/i *)
Definition footgunRegex : regex :=
  rseq [str (js "override system prompt for mode"); plus space;
        RGroup (plus slugChar)].

Record footgunResult := {
  footgunPromptResult : option jsstring;
  footgunTargetMode : option jsstring
}.

Definition noFootgun : footgunResult :=
  {| footgunPromptResult := None; footgunTargetMode := None |}.

Definition isBlank (s : jsstring) : bool :=
  negb (truthy s) || (length (trim s) =? 0)%nat.

Definition runFootgunPromptGenerationStage (w : World)
    (analysisResult structureResultMd : jsstring) : M footgunResult :=
  match capture (exec flagI footgunRegex
                   (analysisResult ++ js "\n" ++ structureResultMd)) with
  | Some g =>
      let target := toLowerCase (trim g) in
      let! _ := checkCancellation in
      let! r := awaitLLM w Stage4_7 in
      match r with
      | Rejected _ => ret noFootgun
      | Resolved result =>
          if isBlank result then
            let! _ := checkCancellation in
            let! r2 := awaitLLM w Stage4_7_refinement in
            match r2 with
            | Rejected _ => ret noFootgun
            | Resolved refined =>
                if isBlank refined then ret noFootgun
                else ret {| footgunPromptResult := Some refined;
                            footgunTargetMode := Some target |}
            end
          else ret {| footgunPromptResult := Some result;
                      footgunTargetMode := Some target |}
      end
  | None => ret noFootgun
  end.

(** *** Stage 5: .roomodes *)

Record modesResult := {
  roomodesResult : jsstring;
  techSpecificSlugs : list json;
  parsedModesSuccessfully : bool
}.

(** The mode objects of the fallback, as the object literals of the source. *)
Definition modeObject (slug name roleDefinition : jsstring)
    (groups : list jsstring) (customInstructions : jsstring) : json :=
  JObj [(js "slug", JStr slug); (js "name", JStr name);
        (js "roleDefinition", JStr roleDefinition);
        (js "groups", JArr (map JStr groups));
        (js "customInstructions", JStr customInstructions)].

Definition developerMode : json :=
  modeObject (js "developer") (js "Developer")
    (js "Implement the project based on the analysis.")
    [js "read"; js "edit"; js "command"; js "attempt_completion"]
    (js "Implement features based on the project plan and requirements. Follow any available coding standards. (Fallback due to modes generation error)").

Definition projectManagerMode : json :=
  modeObject (js "project-manager") (js "Project Manager")
    (js "Manage the build based on the analysis, delegate tasks.")
    [js "read"; js "new_task"; js "switch_mode"]
    (js "Delegate tasks via <new_task> to the 'code' mode. Monitor progress. Use information from the analysis and structure documents. (Fallback due to modes generation error)").

Definition codeMode : json :=
  modeObject (js "code") (js "General Developer")
    (js "Implement delegated tasks.")
    [js "read"; js "edit"; js "command"; js "attempt_completion"]
    (js "Implement features based on delegated tasks. Follow any available coding standards. (Fallback due to modes generation error)").

Definition simpleProjectHeuristic (structureResultMd : jsstring) : bool :=
  (length (splitStr (js "\n") structureResultMd) <? 20)%nat.

(** The catch clause: the fallback mode-set and its delegate slugs. *)
Definition fallbackModes (structureResultMd : jsstring) : json * list json :=
  if simpleProjectHeuristic structureResultMd
  then (JObj [(js "customModes", JArr [developerMode])],
        [JStr (js "developer")])
  else (JObj [(js "customModes", JArr [projectManagerMode; codeMode])],
        [JStr (js "code")]).

(** Clean potential Markdown fences. *)
Definition stripModesFence (roomodesResult : jsstring) : jsstring :=
  if startsWith (js "```json") roomodesResult && endsWith (js "```") roomodesResult
  then trim (substring roomodesResult 7 (len roomodesResult - 3))
  else if startsWith (js "```") roomodesResult && endsWith (js "```") roomodesResult
  then trim (substring roomodesResult 3 (len roomodesResult - 3))
  else roomodesResult.

(** [customModes.map(mode => mode.slug)]: reading a property of null
    throws a TypeError ([None]); a mode without the property gives
    undefined (the inner [None]). *)
Fixpoint slugsOf (customModes : list json) : option (list (option json)) :=
  match customModes with
  | [] => Some []
  | JNull :: _ => None
  | mode :: t =>
      match slugsOf t with
      | Some l => Some (getProp mode (js "slug") :: l)
      | None => None
      end
  end.

(** [.filter(Boolean)] on values that may be undefined. *)
Definition filterTruthy (l : list (option json)) : list json :=
  omap (fun o => match o with
                 | Some v => if truthyJ v then Some v else None
                 | None => None
                 end) l.

Definition isOrchestrator (v : json) : bool :=
  match v with
  | JStr s => streq s (js "project-orchestrator")
  | _ => false
  end.

(** The try block up to the log line: the slugs of the parsed modes that
    are truthy, or [None] when it throws (a syntax error, a [customModes]
    that is no non-empty array, a null mode, a slug that cannot be made a
    string for the log line). *)
Definition parsedSlugs (w : World) (roomodesResult : jsstring)
  : option (list json) :=
  match JSON_parse roomodesResult with
  | None => None
  | Some parsedModes =>
      if truthyJ parsedModes then
        match getProp parsedModes (js "customModes") with
        | Some (JArr (mode :: modes)) =>
            match slugsOf (mode :: modes) with
            | None => None
            | Some slugs =>
                match joinJ (numberToString w) (js ", ") (filterTruthy slugs) with
                | None => None
                | Some _ => Some (filterTruthy slugs)
                end
            end
        | _ => None
        end
      else None
  end.

(** The rest of the try block: project-orchestrator is no delegate, and
    'code' stands in when no delegate is left, whether or not a mode of
    that slug exists. *)
Definition delegatesOf (slugs : list json) : list json :=
  match List.filter (fun slug => negb (isOrchestrator slug)) slugs with
  | [] => [JStr (js "code")]
  | techSpecificSlugs => techSpecificSlugs
  end.

Definition delegateSlugs (w : World) (roomodesResult : jsstring)
  : option (list json) :=
  option_map delegatesOf (parsedSlugs w roomodesResult).

(** The stage after its LLM call; a failed call is handed on as "{}". *)
Definition modesFromRaw (w : World) (structureResultMd rawRoomodesResult : jsstring)
  : modesResult :=
  let roomodesResult := stripModesFence (trim rawRoomodesResult) in
  match delegateSlugs w roomodesResult with
  | Some slugs =>
      {| roomodesResult := roomodesResult;
         techSpecificSlugs := slugs;
         parsedModesSuccessfully := true |}
  | None =>
      let '(modes, slugs) := fallbackModes structureResultMd in
      {| roomodesResult := JSON_stringify2 (numberToString w) modes;
         techSpecificSlugs := slugs;
         parsedModesSuccessfully := false |}
  end.

Definition runModesGenerationStage (w : World) (structureResultMd : jsstring)
  : M modesResult :=
  let! _ := checkCancellation in
  let! r := awaitLLM w Stage5 in
  let rawRoomodesResult :=
    match r with
    | Resolved text => text
    | Rejected _ => js "{}"
    end in
  ret (modesFromRaw w structureResultMd rawRoomodesResult).

(** *** Stage 6: roo-plan.md *)

Definition planTitle : jsstring := js "# Roo Code Execution Plan:".

(** /1\.\s+\*\*.*?Switch.*?\*\*:\s*<switch_mode><mode_slug>[a-z0-9-]+<\/mode_slug><\/switch_mode>/ *)
Definition switchModeRegex : regex :=
  rseq [str (js "1."); plus space; str (js "**"); starLazy dot;
        str (js "Switch"); starLazy dot; str (js "**:"); star space;
        str (js "<switch_mode><mode_slug>"); plus slugChar;
        str (js "</mode_slug></switch_mode>")].

(** /<message>([\s\S]*?)<\/message>/g *)
Definition messageJsonRegex : regex :=
  rseq [str (js "<message>"); RGroup (starLazy anyChar); str (js "</message>")].

(** The while loop over the <message> spans: false at the first span whose
    text does not parse. Every match is longer than its tags, so the
    length of the plan bounds the iterations. *)
Fixpoint messagesParse (fuel : nat) (finalPlan : jsstring) (lastIndex : nat) : bool :=
  match fuel with
  | O => true
  | S f =>
      match execFrom noFlags messageJsonRegex finalPlan lastIndex with
      | None => true
      | Some m =>
          match JSON_parse (default [] (group1 m)) with
          | None => false
          | Some _ => messagesParse f finalPlan (endIndex m)
          end
      end
  end.

(** The issues pushed by the validation; the last one carries, in the
    source, the message of the SyntaxError after its colon. *)
Definition planValidationIssues (finalPlan : jsstring) : list jsstring :=
  (if includes planTitle finalPlan then [] else [js "Missing Title"])
  ++ (if includes (js "**Concise Goal:**") finalPlan then []
      else [js "Missing Concise Goal"])
  ++ (if test noFlags switchModeRegex finalPlan then []
      else [js "Missing or invalid initial <switch_mode> step (Step 1)"])
  ++ (if includes (js "## ") finalPlan then []
      else [js "Missing phase headers (e.g., ## Phase 1: ...)"])
  ++ (if includes (js "<new_task>") finalPlan then []
      else [js "Missing at least one <new_task> delegation"])
  ++ (if messagesParse (S (length finalPlan)) finalPlan 0 then []
      else [js "Invalid JSON in <message>: "]).

(** [slug.includes(word)]: the method of a string or of an array; any
    other value has no such method and the call throws ([None]). *)
Definition includesJ (slug : json) (word : jsstring) : option bool :=
  match slug with
  | JStr s => Some (includes word s)
  | JArr l => Some (existsb (fun x => match x with
                                      | JStr t => streq t word
                                      | _ => false
                                      end) l)
  | _ => None
  end.

Definition hintsCoordination (slug : json) : option bool :=
  match includesJ slug (js "manager"), includesJ slug (js "orchestrator"),
        includesJ slug (js "lead") with
  | Some a, Some b, Some c => Some (a || b || c)
  | _, _, _ => None
  end.

(** [arr.find(p)] for a predicate that may throw: the outer [None] is the
    exception, the inner one undefined. *)
Fixpoint find (p : json -> option bool) (l : list json) : option (option json) :=
  match l with
  | [] => Some None
  | x :: t =>
      match p x with
      | None => None
      | Some true => Some (Some x)
      | Some false => find p t
      end
  end.

(** [found || fallback], then the conversion to a string of the template
    literal. *)
Definition slugText (w : World) (found : option json) (fallback : jsstring)
  : option jsstring :=
  match found with
  | Some v => if truthyJ v then toStringJ (numberToString w) v else Some fallback
  | None => Some fallback
  end.

Definition fallbackMessageContent (conciseCommand : jsstring) : json :=
  JObj [(js "goal", JStr (js "Implement the core logic for: " ++ conciseCommand));
        (js "contextSummary",
         JStr (js "The detailed plan generation failed. Refer to the full project structure and analysis provided separately. Key goal: " ++ conciseCommand));
        (js "detailedInstructions",
         JStr (js "1. Review the full project analysis and structure markdown.\n2. Implement the core features required to meet the concise goal.\n3. Adhere strictly to any available .clinerules-code or general coding best practices.\n4. Use attempt_completion with a summary upon success."));
        (js "toolNotes",
         JStr (js "No specific tool notes available due to fallback generation."));
        (js "completionCriteria",
         JStr (js "Core functionality implemented as per the concise goal and available analysis."))].

Definition fallbackPlanText (w : World) (conciseCommand primary delegate : jsstring)
  : jsstring :=
  js "\n# Roo Code Execution Plan: Fallback Plan\n\n**Concise Goal:** "
  ++ conciseCommand
  ++ js "\n\n*(Ensure generated .roomodes and .clinerules files are saved in the project root before starting this plan. Plan generation encountered issues, using fallback.)*\n\n## Phase 1: Initialization (Fallback)\n\n1.  **Switch to Primary Mode:**\n    <switch_mode><mode_slug>"
  ++ primary
  ++ js "</mode_slug></switch_mode>\n    *(This mode will now delegate the main task based on the fallback plan below)*\n\n## Phase 2: Core Implementation (Fallback)\n\n2.  **Delegate General Implementation Task:**\n    <new_task>\n    <mode>"
  ++ delegate
  ++ js "</mode> *(Fallback delegate mode)*\n    <message>"
  ++ JSON_stringify2 (numberToString w) (fallbackMessageContent conciseCommand)
  ++ js "</message>\n    </new_task>\n*(Primary mode should monitor completion)*\n".

(** The TypeError of a call to a missing [includes], with the wording of
    V8, or of a slug that cannot be made a string. *)
Definition notAFunction : exn := Error (js "slug.includes is not a function").
Definition notPrimitive : exn :=
  Error (js "Cannot convert object to primitive value").

Definition fallbackPlan (w : World) (conciseCommand : jsstring)
    (techSpecificSlugs : list json) : M jsstring :=
  match find hintsCoordination techSpecificSlugs with
  | None => throw notAFunction
  | Some primaryFound =>
      match find (fun slug => option_map negb (hintsCoordination slug))
                 techSpecificSlugs with
      | None => throw notAFunction
      | Some delegateFound =>
          match slugText w primaryFound (js "developer"),
                slugText w delegateFound (js "code") with
          | Some primary, Some delegate =>
              ret (fallbackPlanText w conciseCommand primary delegate)
          | _, _ => throw notPrimitive
          end
      end
  end.

Definition runPlanAssemblyStage (w : World)
    (conciseCommand structureResultMd : jsstring) (techSpecificSlugs : list json)
  : M (jsstring * bool) :=
  let! _ := checkCancellation in
  let! r := awaitLLM w Stage6 in
  let! (finalPlan, planIsValid) :=
    match r with
    | Resolved draft =>
        if truthy draft then
          match planValidationIssues draft with
          | [] => ret (draft, true)
          | _ =>
              let! _ := checkCancellation in
              let! r2 := awaitLLM w Stage6_1 in
              match r2 with
              | Resolved refined =>
                  ret (refined, truthy refined && includes planTitle refined)
              | Rejected _ => ret (draft, false)
              end
          end
        else ret ([], false)
    | Rejected _ => ret ([], false)
    end in
  if planIsValid then ret (finalPlan, planIsValid)
  else
    let! plan := fallbackPlan w conciseCommand techSpecificSlugs in
    ret (plan, planIsValid).

(** *** Stage 6.5: plan review *)
Definition runPlanRefinementStage (w : World)
    (finalPlan roomodesResult structureResultMd : jsstring) : M jsstring :=
  let! _ := checkCancellation in
  let! r := awaitLLM w Stage6_5 in
  match r with
  | Resolved planRefinementResponse =>
      if isNotOK planRefinementResponse then ret (trim planRefinementResponse)
      else ret finalPlan
  | Rejected _ => ret finalPlan
  end.

(** *** The main engine function *)

(** A branch of [Promise.all] starts from the token as it stands and
    records its own calls. *)
Definition fork {A} (m : M A) (st : State) : (exn + A) * State :=
  m {| isCancellationRequested := isCancellationRequested st; llmCalls := [] |}.

(** [await Promise.all([a, b, c, d, e])]. The branches share nothing but
    the token: a request seen by one of them is seen at the join, and the
    first rejection rejects the whole. Every rejection of a branch is a
    CancellationError. *)
Definition promiseAll5 {A B C D E} (a : M A) (b : M B) (c : M C) (d : M D)
    (e : M E) : M (A * B * C * D * E) :=
  fun st =>
    let '(ra, sa) := fork a st in
    let '(rb, sb) := fork b st in
    let '(rc, sc) := fork c st in
    let '(rd, sd) := fork d st in
    let '(re, se) := fork e st in
    let st' :=
      {| isCancellationRequested :=
           isCancellationRequested sa || isCancellationRequested sb
           || isCancellationRequested sc || isCancellationRequested sd
           || isCancellationRequested se;
         llmCalls := llmCalls st ++ llmCalls sa ++ llmCalls sb ++ llmCalls sc
                     ++ llmCalls sd ++ llmCalls se |} in
    match ra, rb, rc, rd, re with
    | inr xa, inr xb, inr xc, inr xd, inr xe => (inr (xa, xb, xc, xd, xe), st')
    | inl x, _, _, _, _ => (inl x, st')
    | _, inl x, _, _, _ => (inl x, st')
    | _, _, inl x, _, _ => (inl x, st')
    | _, _, _, inl x, _ => (inl x, st')
    | _, _, _, _, inl x => (inl x, st')
    end.

Record engineResult := {
  artifacts : gmap jsstring jsstring;
  structureList : list structureItem;
  outlines : gmap jsstring jsstring
}.

(** [if (value) generatedArtifacts[name] = value;] for a value that may be
    null. None of the names is [__proto__]. *)
Definition addArtifact (name : jsstring) (value : option jsstring)
    (generatedArtifacts : gmap jsstring jsstring) : gmap jsstring jsstring :=
  match value with
  | Some text => if truthy text then <[name := text]> generatedArtifacts
                 else generatedArtifacts
  | None => generatedArtifacts
  end.

Definition addFootgun (f : footgunResult)
    (generatedArtifacts : gmap jsstring jsstring) : gmap jsstring jsstring :=
  match footgunPromptResult f, footgunTargetMode f with
  | Some prompt, Some target =>
      if truthy prompt && truthy target
      then <[js ".roo/system-prompt-" ++ target := prompt]> generatedArtifacts
      else generatedArtifacts
  | _, _ => generatedArtifacts
  end.

(** The try block of [runAdvancedReasoningEngine]. *)
Definition engineBody (w : World) (projectIdea : jsstring) : M engineResult :=
  let! analysisResult := runAnalysisStage w projectIdea in
  let! _ := checkCancellation in
  let! (structureResultMd, conciseCommand) :=
    runStructuringStage w projectIdea analysisResult in
  let! _ := checkCancellation in
  let! structureResultMd :=
    runOutlineRefinementStage w analysisResult structureResultMd in
  let! _ := checkCancellation in
  let! (rulesResult, rooignoreResult, workspaceRulesResult, footgun, modes) :=
    promiseAll5
      (runRulesGenerationStage w structureResultMd)
      (runRooignoreGenerationStage w structureResultMd)
      (runWorkspaceRulesGenerationStage w structureResultMd)
      (runFootgunPromptGenerationStage w analysisResult structureResultMd)
      (runModesGenerationStage w structureResultMd) in
  let! _ :=
    (fun st =>
       if isCancellationRequested st
       then (inl (CancellationError
                    (js "Cancelled during parallel generation stages.")), st)
       else (inr tt, st)) in
  let generatedArtifacts :=
    addArtifact (js ".roomodes") (Some (roomodesResult modes))
      (addFootgun footgun
         (addArtifact (js ".clinerules") workspaceRulesResult
            (addArtifact (js ".rooignore") rooignoreResult
               (addArtifact (js ".clinerules-code") rulesResult ∅)))) in
  let proposedStructureList := parseStructureFromJsonMd structureResultMd in
  let coreLogicOutlines := parseOutlinesFromMd structureResultMd in
  let! (finalPlan, planIsValid) :=
    runPlanAssemblyStage w conciseCommand structureResultMd
      (techSpecificSlugs modes) in
  let! _ := checkCancellation in
  let! finalPlan :=
    if planIsValid && parsedModesSuccessfully modes
       && truthy (roomodesResult modes)
    then runPlanRefinementStage w finalPlan (roomodesResult modes)
           structureResultMd
    else ret finalPlan in
  let! _ := checkCancellation in
  ret {| artifacts := addArtifact (js "roo-plan.md") (Some finalPlan)
                        generatedArtifacts;
         structureList := proposedStructureList;
         outlines := coreLogicOutlines |}.

(** The catch clause: a CancellationError is thrown again as it is, any
    other error wrapped. *)
Definition runAdvancedReasoningEngine (w : World) (projectIdea : jsstring)
  : M engineResult :=
  fun st =>
    match engineBody w projectIdea st with
    | (inl (CancellationError message), st') =>
        (inl (CancellationError message), st')
    | (inl (Error message), st') =>
        (inl (Error (js "Advanced Reasoning Engine failed: "
                     ++ (if truthy message then message
                         else js "An unknown internal error occurred."))), st')
    | (inr result, st') => (inr result, st')
    end.

(** The state in which the handler of [generate-plan] starts a run. *)
Definition initialState (cancelled : bool) : State :=
  {| isCancellationRequested := cancelled; llmCalls := [] |}.

End Engine.
Export Engine.

(** ** [src/utils.js]: scaffolding *)

Module Scaffold.

(** [s.replace(r, repl)] with the g flag, for a replacement without
    dollars (RegExp.prototype[Symbol.replace], 22.2.6.11): the matches are
    collected from [lastIndex] 0 on, an empty match moves [lastIndex] one
    code unit further, and the text between the matches is kept. Each
    search starts further than the one before, so the length of the text
    bounds the iterations. *)
Fixpoint replaceAllGo (fuel : nat) (fl : flags) (r : regex) (s repl : jsstring)
    (lastIndex nextSourcePosition : nat) : jsstring :=
  match fuel with
  | O => skipn nextSourcePosition s
  | S f =>
      match execFrom fl r s lastIndex with
      | None => skipn nextSourcePosition s
      | Some m =>
          let lastIndex' :=
            if Nat.eqb (endIndex m) (index m) then S (endIndex m) else endIndex m in
          if Nat.leb nextSourcePosition (index m)
          then firstn (index m - nextSourcePosition) (skipn nextSourcePosition s)
               ++ repl
               ++ replaceAllGo f fl r s repl lastIndex' (endIndex m)
          else replaceAllGo f fl r s repl lastIndex' nextSourcePosition
      end
  end.

Definition replaceAll (fl : flags) (r : regex) (s repl : jsstring) : jsstring :=
  replaceAllGo (S (S (length s))) fl r s repl 0 0.

(** [[\/\.]] *)
Definition dotOrSlash : regex := RSet (fun c => (c =? 47) || (c =? 46)).

(** /^[\/\.]+|[\/\.]+$/g *)
Definition sanitizeRegex : regex :=
  RAlt (rseq [RBol; plus dotOrSlash]) (rseq [plus dotOrSlash; REol]).

(** The platform under the scaffolding: the functions of Node's [path]
    module, which differ between POSIX and Windows, and the outcome of the
    calls of [fs.promises], numbered from 0 in the order in which they are
    made: [None] for a call that succeeds, else the message of the error
    it throws, which has the code [fsErrorCode]. *)
Record Platform := {
  extname : jsstring -> jsstring;
  normalize : jsstring -> jsstring;
  joinPath : jsstring -> jsstring -> jsstring;
  dirname : jsstring -> jsstring;
  fsError : nat -> option jsstring;
  fsErrorCode : nat -> jsstring
}.

Inductive fsCall :=
| Mkdir (directory : jsstring)              (* fs.mkdir(directory, { recursive: true }) *)
| WriteFile (file content : jsstring).      (* fs.writeFile(file, content) *)

(** [toLowerCase] as far as a comparison with the extensions of the
    switch can tell: they are ASCII, and the one code unit outside ASCII
    whose lower case is an ASCII letter is the Kelvin sign. *)
Definition lowerCaseUnit (c : N) : N :=
  if c =? 0x212A then 107 else lowerChar c.

Definition getCommentPrefix (pf : Platform) (filePath : jsstring) : jsstring :=
  let ext := map lowerCaseUnit (extname pf filePath) in
  if existsb (streq ext)
       [js ".js"; js ".jsx"; js ".ts"; js ".tsx"; js ".css"; js ".scss";
        js ".less"; js ".java"; js ".c"; js ".cpp"; js ".h"; js ".cs";
        js ".go"; js ".swift"; js ".kt"; js ".rs"]
  then js "//"
  else if existsb (streq ext)
            [js ".py"; js ".rb"; js ".sh"; js ".yaml"; js ".yml";
             js ".dockerfile"; js ".r"]
  then js "#"
  else if existsb (streq ext) [js ".html"; js ".xml"; js ".vue"; js ".md"]
  then js "<!--"
  else if existsb (streq ext) [js ".sql"; js ".lua"]
  then js "--"
  else js "//".

(** What the scaffolding has done so far: the calls of [fs.promises], and
    the errors collected. *)
Record scaffoldError := { errorPath : jsstring; errorMessage : jsstring }.

Record scaffoldState := {
  fsCalls : list fsCall;
  errors : list scaffoldError
}.

(** An awaited call of [fs.promises]: [Some message] when it throws. *)
Definition fsDo (pf : Platform) (call : fsCall) (st : scaffoldState)
  : option jsstring * scaffoldState :=
  (fsError pf (length (fsCalls st)),
   {| fsCalls := fsCalls st ++ [call]; errors := errors st |}).

(** The catch clause: [errors.push({ path: normalizedPath, error: error.message })]. *)
Definition pushError (normalizedPath message : jsstring) (st : scaffoldState)
  : scaffoldState :=
  {| fsCalls := fsCalls st;
     errors := errors st ++ [{| errorPath := normalizedPath;
                                errorMessage := message |}] |}.

(** The names that every object inherits from Object.prototype. *)
Definition objectPrototypeNames : list jsstring :=
  [js "constructor"; js "hasOwnProperty"; js "isPrototypeOf";
   js "propertyIsEnumerable"; js "toLocaleString"; js "toString";
   js "valueOf"; js "__proto__"; js "__defineGetter__";
   js "__defineSetter__"; js "__lookupGetter__"; js "__lookupSetter__"].

(** [(fileOutlines[item.path] || '').trim()]. For a name that the object
    inherits the value is a function or an object, which has no [trim]:
    the call throws a TypeError ([None]). *)
Definition outlineText (fileOutlines : gmap jsstring jsstring) (key : jsstring)
  : option jsstring :=
  match fileOutlines !! key with
  | Some outlineContent => Some (trim outlineContent)
  | None => if existsb (streq key) objectPrototypeNames then None else Some []
  end.

(** [`${commentPrefix} File: ${normalizedPath.replace(/\\/g, '/')} ${commentPrefix === '<!--' ? '-->' : ''}`] *)
Definition pathComment (commentPrefix normalizedPath : jsstring) : jsstring :=
  commentPrefix ++ js " File: " ++ replaceAllChar 92 normalizedPath (js "/")
  ++ js " " ++ (if streq commentPrefix (js "<!--") then js "-->" else []).

(** [`${pathComment}\n\n${outline}`.trim() + '\n'] *)
Definition finalFileContent (comment outline : jsstring) : jsstring :=
  trim (comment ++ js "\n\n" ++ outline) ++ js "\n".

(** The body of the loop over the structure list. *)
Definition scaffoldItem (pf : Platform) (baseDirectory : jsstring)
    (fileOutlines : gmap jsstring jsstring) (st : scaffoldState)
    (item : structureItem) : scaffoldState :=
  let sanitized := replaceAll noFlags sanitizeRegex (path item) [] in
  if truthy sanitized then
    let normalizedPath := normalize pf sanitized in
    let fullPath := joinPath pf baseDirectory normalizedPath in
    match type item with
    | dir =>
        match fsDo pf (Mkdir fullPath) st with
        | (Some message, st1) => pushError normalizedPath message st1
        | (None, st1) => st1
        end
    | file =>
        let parentDir := dirname pf fullPath in
        let '(thrown, st1) :=
          if negb (streq parentDir baseDirectory) && negb (streq parentDir (js "."))
          then fsDo pf (Mkdir parentDir) st
          else (None, st) in
        match thrown with
        | Some message => pushError normalizedPath message st1
        | None =>
            match outlineText fileOutlines (path item) with
            | None =>
                pushError normalizedPath
                  (js "outlineContent.trim is not a function") st1
            | Some outline =>
                let content :=
                  finalFileContent
                    (pathComment (getCommentPrefix pf (path item)) normalizedPath)
                    outline in
                match fsDo pf (WriteFile fullPath content) st1 with
                | (Some message, st2) => pushError normalizedPath message st2
                | (None, st2) => st2
                end
            end
        end
    end
  else st.

(** [scaffoldProject]: the loop, from no call and no error. An empty list
    goes through no iteration. *)
Definition scaffoldRun (pf : Platform) (baseDirectory : jsstring)
    (structureList : list structureItem) (fileOutlines : gmap jsstring jsstring)
  : scaffoldState :=
  fold_left (scaffoldItem pf baseDirectory fileOutlines) structureList
    {| fsCalls := []; errors := [] |}.

Definition scaffoldProject (pf : Platform) (baseDirectory : jsstring)
    (structureList : list structureItem) (fileOutlines : gmap jsstring jsstring)
  : list scaffoldError :=
  errors (scaffoldRun pf baseDirectory structureList fileOutlines).

End Scaffold.
Export Scaffold.

(** ** [src/ipcHandlers.js]: the handler of generate-plan *)

Module IpcHandlers.

(** What the code of this file throws or lets through: the
    CancellationError that this file defines, or any other error. The
    CancellationError of [src/engine.js] is another class, so that for
    [instanceof] here an error of the engine is always of the second
    kind. *)
Inductive thrown :=
| OwnCancellation (message : jsstring)
| OtherError (message : jsstring).

Definition thrownByEngine (e : exn) : thrown :=
  match e with
  | CancellationError message => OtherError message
  | Error message => OtherError message
  end.

(** The surroundings of the handler besides the model: the platform, the
    outcome of the save dialog, the outcome of the call of the client for
    the setup commands, which is no call site of the engine, and the
    user, who can set the token while the handler waits for the dialog,
    for the scaffolding or for the saving. *)
Inductive Phase := SaveDialog | Scaffolding | SavingArtifacts.

Record Desk := {
  platform : Platform;
  dialogCanceled : bool;
  dialogFilePath : option jsstring;
  cancelRequestedIn : Phase -> bool;
  setupCommandsReply : llmResult
}.

(** The platform after [n] calls of [fs.promises]. *)
Definition laterCalls (n : nat) (pf : Platform) : Platform :=
  {| extname := extname pf;
     normalize := normalize pf;
     joinPath := joinPath pf;
     dirname := dirname pf;
     fsError := fun i => fsError pf (n + i);
     fsErrorCode := fun i => fsErrorCode pf (n + i) |}.

(** [promptForSaveFolder]: [None] when the dialog was cancelled, else the
    directory of the chosen path; with the calls of [fs] made. *)
Definition promptForSaveFolder (d : Desk)
  : (thrown + option jsstring) * list fsCall :=
  match dialogFilePath d with
  | Some selectedPath =>
      if dialogCanceled d || negb (truthy selectedPath)
      then (inr None, [])
      else
        let directoryPath := dirname (platform d) selectedPath in
        match fsError (platform d) 0 with
        | Some message =>
            if negb (streq (fsErrorCode (platform d) 0) (js "EEXIST"))
            then (inl (OtherError (js "Failed to create directory: " ++ message)),
                  [Mkdir directoryPath])
            else (inr (Some directoryPath), [Mkdir directoryPath])
        | None => (inr (Some directoryPath), [Mkdir directoryPath])
        end
  | None => (inr None, [])
  end.

(** [runScaffolding] *)
Definition runScaffolding (pf : Platform) (directoryPath : jsstring)
    (proposedStructureList : list structureItem)
    (coreLogicOutlines : gmap jsstring jsstring) : scaffoldState :=
  match proposedStructureList with
  | [] => {| fsCalls := []; errors := [] |}
  | _ => scaffoldRun pf directoryPath proposedStructureList coreLogicOutlines
  end.

(** [saveGeneratedArtifacts]. The artifacts are the own properties of the
    object in the order of [for ... in]; their values are strings, never
    null. *)
Record saveState := {
  saveCalls : list fsCall;
  savedArtifactCount : nat;
  artifactSaveErrors : list scaffoldError
}.

Definition saveArtifact (pf : Platform) (directoryPath : jsstring)
    (st : saveState) (entry : jsstring * jsstring) : saveState :=
  let '(filename, content) := entry in
  let fullFilePath := joinPath pf directoryPath filename in
  let fileDir := dirname pf fullFilePath in
  let '(mkdirFailure, calls) :=
    if negb (streq fileDir directoryPath) && negb (streq fileDir (js "."))
    then
      (match fsError pf (length (saveCalls st)) with
       | Some message =>
           if negb (streq (fsErrorCode pf (length (saveCalls st))) (js "EEXIST"))
           then Some message else None
       | None => None
       end,
       saveCalls st ++ [Mkdir fileDir])
    else (None, saveCalls st) in
  match mkdirFailure with
  | Some message =>
      {| saveCalls := calls;
         savedArtifactCount := savedArtifactCount st;
         artifactSaveErrors :=
           artifactSaveErrors st
           ++ [{| errorPath := filename;
                  errorMessage := js "Failed to create subdirectory: " ++ message |}] |}
  | None =>
      match fsError pf (length calls) with
      | None =>
          {| saveCalls := calls ++ [WriteFile fullFilePath content];
             savedArtifactCount := S (savedArtifactCount st);
             artifactSaveErrors := artifactSaveErrors st |}
      | Some message =>
          {| saveCalls := calls ++ [WriteFile fullFilePath content];
             savedArtifactCount := savedArtifactCount st;
             artifactSaveErrors :=
               artifactSaveErrors st
               ++ [{| errorPath := filename;
                      errorMessage := js "File write error: " ++ message |}] |}
      end
  end.

Definition saveGeneratedArtifacts (pf : Platform) (directoryPath : jsstring)
    (generatedArtifacts : list (jsstring * jsstring)) : saveState :=
  fold_left (saveArtifact pf directoryPath) generatedArtifacts
    {| saveCalls := []; savedArtifactCount := 0; artifactSaveErrors := [] |}.

(** [`cd "${directoryPath}"`] *)
Definition cdCommand (directoryPath : jsstring) : jsstring :=
  js "cd \q" ++ directoryPath ++ js "\q".

Definition isJStr (v : json) : bool :=
  match v with JStr _ => true | _ => false end.

Definition stringOf (v : json) : jsstring :=
  match v with JStr s => s | _ => [] end.

(** The try block of [suggestSetupCommandsLLM] after the call: [None]
    when it throws. *)
Definition parseCommands (llmResponse : jsstring) : option (list jsstring) :=
  let llmResponse := trim llmResponse in
  let llmResponse :=
    if startsWith (js "```json") llmResponse && endsWith (js "```") llmResponse
    then trim (substring llmResponse 7 (len llmResponse - 3))
    else if startsWith (js "```") llmResponse && endsWith (js "```") llmResponse
    then trim (substring llmResponse 3 (len llmResponse - 3))
    else llmResponse in
  match JSON_parse llmResponse with
  | Some (JArr parsedCommands) =>
      if forallb isJStr parsedCommands
      then Some (map stringOf parsedCommands)
      else None
  | _ => None
  end.

(** The catch clause: the commands of the fallback. *)
Definition fallbackCommands (directoryPath : jsstring)
    (artifactList : list jsstring) (proposedStructureList : list structureItem)
  : list jsstring :=
  let hasPackageJson :=
    existsb (streq (js "package.json")) artifactList
    || existsb (fun item => endsWith (js "package.json") (path item))
         proposedStructureList in
  let hasRequirementsTxt :=
    existsb (streq (js "requirements.txt")) artifactList
    || existsb (fun item => endsWith (js "requirements.txt") (path item))
         proposedStructureList in
  [cdCommand directoryPath]
  ++ (if hasPackageJson then [js "npm install"] else [])
  ++ (if hasRequirementsTxt then [js "pip install -r requirements.txt"] else [])
  ++ [js "git init && git add . && git commit -m \qInitial commit from RooCodeGen\q"].

(** The commands with [cd] first, and their text for the display. *)
Definition cdFirst (directoryPath : jsstring) (suggestedCommands : list jsstring)
  : list jsstring :=
  match suggestedCommands with
  | [] => []
  | first :: _ =>
      if negb (streq first (cdCommand directoryPath))
      then cdCommand directoryPath
           :: List.filter (fun cmd => negb (streq cmd (cdCommand directoryPath)))
                suggestedCommands
      else suggestedCommands
  end.

Definition displayCommands (suggestedCommands : list jsstring) : list jsstring :=
  imap (fun index cmd =>
          cmd ++ (if Nat.ltb index (length suggestedCommands - 1)
                  then js " && \\" else []))
    suggestedCommands.

Definition commandSuggestionText (suggestedCommands : list jsstring) : jsstring :=
  match suggestedCommands with
  | [] => []
  | _ =>
      js "\n\nRecommended next steps in your terminal:\n```bash\n"
      ++ join (js "\n") (displayCommands suggestedCommands) ++ js "\n```"
  end.

(** [suggestSetupCommandsLLM], given the token at its start and the
    outcome of its call of the client. The summary of the structure and
    the prompt feed only that call. *)
Definition suggestSetupCommandsLLM (directoryPath : jsstring)
    (artifactList : list jsstring) (proposedStructureList : list structureItem)
    (isCancellationRequested : bool) (reply : llmResult)
  : thrown + (list jsstring * jsstring) :=
  if isCancellationRequested
  then inl (OwnCancellation (js "Cancelled before suggesting setup commands."))
  else
    let suggestedCommands :=
      match reply with
      | Resolved llmResponse =>
          match parseCommands llmResponse with
          | Some parsedCommands => parsedCommands
          | None => fallbackCommands directoryPath artifactList proposedStructureList
          end
      | Rejected _ =>
          fallbackCommands directoryPath artifactList proposedStructureList
      end in
    let suggestedCommands := cdFirst directoryPath suggestedCommands in
    inr (suggestedCommands, commandSuggestionText suggestedCommands).

(** The artifacts of the engine in the order in which it has added them,
    which is the order of [for ... in] and of [Object.keys]. *)
Definition artifactEntries (generatedArtifacts : gmap jsstring jsstring)
  : list (jsstring * jsstring) :=
  let entry name :=
    match generatedArtifacts !! name with
    | Some content => [(name, content)]
    | None => []
    end in
  entry (js ".clinerules-code") ++ entry (js ".rooignore")
  ++ entry (js ".clinerules")
  ++ List.filter (fun e => startsWith (js ".roo/system-prompt-") (fst e))
       (map_to_list generatedArtifacts)
  ++ entry (js ".roomodes") ++ entry (js "roo-plan.md").

(** What the handler answers: [{ cancelled: true }] with or without an
    error text, [{ success: false, error, stage }], or
    [{ success: true, directoryPath, message, errors, suggestedCommands }]. *)
Inductive response :=
| Cancelled (error : option jsstring)
| Failed (error stage : jsstring)
| Succeeded (directoryPath message : jsstring) (errors : list scaffoldError)
    (suggestedCommands : list jsstring).

(** The catch clause of the handler. No error that reaches it has a
    [stage]. *)
Definition answerError (e : thrown) : response :=
  match e with
  | OwnCancellation message =>
      Cancelled (Some (if truthy message then message
                       else js "An unknown critical error occurred."))
  | OtherError message =>
      Failed (if truthy message then message
              else js "An unknown critical error occurred.") (js "Unknown")
  end.

(** The message of the answer before the setup commands. *)
Definition finalMessage (directoryPath : jsstring)
    (proposedStructureList : list structureItem)
    (scaffoldingErrors artifactSaveErrors : list scaffoldError)
    (savedArtifactCount : nat) : jsstring :=
  let scaffoldErrorCount := length scaffoldingErrors in
  let artifactErrorCount := length artifactSaveErrors in
  let complete :=
    js "Project generation complete. Files saved to " ++ directoryPath ++ js "." in
  let withErrors :=
    if Nat.ltb 0 (length (scaffoldingErrors ++ artifactSaveErrors))
    then complete ++ js " " ++ js "Encountered errors: "
         ++ (if Nat.ltb 0 scaffoldErrorCount
             then decimal (N.of_nat scaffoldErrorCount) ++ js " scaffolding error(s)"
             else [])
         ++ (if Nat.ltb 0 scaffoldErrorCount && Nat.ltb 0 artifactErrorCount
             then js " and " else [])
         ++ (if Nat.ltb 0 artifactErrorCount
             then decimal (N.of_nat artifactErrorCount)
                  ++ js " artifact saving error(s)"
             else [])
         ++ js ". Check console logs."
    else complete in
  if Nat.eqb savedArtifactCount 0 && Nat.eqb scaffoldErrorCount 0
     && Nat.eqb (length proposedStructureList) 0
  then js "Plan generated, but no artifacts or structure were created."
  else withErrors.

(** The handler of [generate-plan]: its answer and the calls of
    [fs.promises] made, in their order. The token is new and not set when
    the engine starts. After the engine it is the token of the engine's
    state, which the user can set further while the handler waits, as the
    desk tells; the desk may tell so for a phase in which the handler does
    not wait for anything outside, which the user cannot do. *)
Definition generatePlan (w : World) (d : Desk) (projectIdea : jsstring)
  : response * list fsCall :=
  match runAdvancedReasoningEngine w projectIdea (initialState false) with
  | (inl e, _) => (answerError (thrownByEngine e), [])
  | (inr result, st) =>
      let token := isCancellationRequested st in
      if token
      then (answerError (OwnCancellation (js "Operation cancelled before saving.")), [])
      else
        match promptForSaveFolder d with
        | (inl e, calls) => (answerError e, calls)
        | (inr None, calls) => (Cancelled None, calls)
        | (inr (Some directoryPath), calls) =>
            let token := token || cancelRequestedIn d SaveDialog in
            if token
            then (answerError
                    (OwnCancellation (js "Operation cancelled after save dialog.")),
                  calls)
            else
              let scaffolded :=
                runScaffolding (laterCalls (length calls) (platform d))
                  directoryPath (structureList result) (outlines result) in
              let scaffoldingErrors := errors scaffolded in
              let calls := calls ++ fsCalls scaffolded in
              let token := token || cancelRequestedIn d Scaffolding in
              if token
              then (answerError
                      (OwnCancellation (js "Operation cancelled during scaffolding.")),
                    calls)
              else
                let generatedArtifacts := artifactEntries (artifacts result) in
                let saved :=
                  saveGeneratedArtifacts (laterCalls (length calls) (platform d))
                    directoryPath generatedArtifacts in
                let calls := calls ++ saveCalls saved in
                let token := token || cancelRequestedIn d SavingArtifacts in
                if token
                then (answerError
                        (OwnCancellation
                           (js "Operation cancelled during artifact saving.")),
                      calls)
                else
                  let allErrors := scaffoldingErrors ++ artifactSaveErrors saved in
                  let message :=
                    finalMessage directoryPath (structureList result)
                      scaffoldingErrors (artifactSaveErrors saved)
                      (savedArtifactCount saved) in
                  if token
                  then (answerError
                          (OwnCancellation
                             (js "Operation cancelled before suggesting setup commands.")),
                        calls)
                  else
                    match suggestSetupCommandsLLM directoryPath
                            (map fst generatedArtifacts) (structureList result)
                            token (setupCommandsReply d) with
                    | inl e => (answerError e, calls)
                    | inr (suggestedCommands, commandSuggestionText) =>
                        (Succeeded directoryPath (message ++ commandSuggestionText)
                           allErrors suggestedCommands,
                         calls)
                    end
        end
  end.

End IpcHandlers.
Export IpcHandlers.

(** ** [renderer.js]: the click on the generate button *)

Module Renderer.

(** What the user gets to see after a click: an alert, or a line on the
    console only, or nothing. *)
Inductive feedback :=
| Alert (text : jsstring)
| ConsoleLog (text : jsstring)
| NoFeedback.

(** [result.error], [result.cancelled] and [result.success] of the answer
    of the main process. A success has [errors] but no [error]. *)
Definition resultError (result : response) : option jsstring :=
  match result with
  | Cancelled error => error
  | Failed error _ => Some error
  | Succeeded _ _ _ _ => None
  end.

Definition resultCancelled (result : response) : bool :=
  match result with Cancelled _ => true | _ => false end.

Definition resultSuccess (result : response) : bool :=
  match result with Succeeded _ _ _ _ => true | _ => false end.

(** The checks of the click handler on the answer. *)
Definition showResult (result : response) : feedback :=
  match resultError result with
  | Some error =>
      if truthy error
      then Alert (js "Error during plan generation or saving: " ++ error)
      else if resultCancelled result
      then ConsoleLog (js "Save operation cancelled by user.")
      else if resultSuccess result
      then ConsoleLog (js "Plan generated and saved successfully.")
      else NoFeedback
  | None =>
      if resultCancelled result
      then ConsoleLog (js "Save operation cancelled by user.")
      else if resultSuccess result
      then ConsoleLog (js "Plan generated and saved successfully.")
      else NoFeedback
  end.

(** The click on the generate button, with the text of the idea field.
    The handler of the main process catches what it throws, so that the
    call through the preload script returns its answer. *)
Definition onGenerateClick (w : World) (d : Desk) (value : jsstring) : feedback :=
  let idea := trim value in
  if negb (truthy idea)
  then Alert (js "Please enter a project idea.")
  else showResult (fst (generatePlan w d idea)).

End Renderer.
Export Renderer.

(** ** Vocabulary of the properties *)

Module Vocabulary.

(** The matcher state after the code units [l], read from [x]. *)
Fixpoint consume (x : mstate) (l : jsstring) : mstate :=
  match l with
  | [] => x
  | c :: l' => consume (advance x c (tl (rest x))) l'
  end.

(** A greedy run over a class: one more code unit first, then the
    continuation here. *)
Fixpoint greedyRun {A} (p : N -> bool) (x : mstate) (l : jsstring)
    (k : mstate -> option A) : option A :=
  match l with
  | c :: t => if p c then orElse (greedyRun p (advance x c t) t k) (k x) else k x
  | [] => k x
  end.

(** A lazy run over any code units: the continuation here first, then one
    more code unit. *)
Fixpoint lazyRun {A} (x : mstate) (l : jsstring) (k : mstate -> option A)
  : option A :=
  orElse (k x)
         (match l with
          | c :: t => lazyRun (advance x c t) t k
          | [] => None
          end).

(** The number of leading code units of white space. *)
Fixpoint spaceRun (s : jsstring) : nat :=
  match s with
  | c :: t => if isWhiteSpace c then S (spaceRun t) else O
  | [] => O
  end.

(** From the text of a section on: the length up to and including the
    first "##", or up to the end when there is none. *)
Fixpoint spanEnd (s : jsstring) : nat :=
  if startsWith (js "##") s then 2%nat
  else match s with
       | [] => O
       | _ :: t => S (spanEnd t)
       end.

(** The length of the span of the outline section in a text that starts
    with its heading: the heading, the white space after it, and the text
    up to and including the next "##" or the end. *)
Definition sectionSpan (s : jsstring) : nat :=
  let afterHeading := skipn 23 s in
  (23 + spaceRun afterHeading
   + spanEnd (skipn (spaceRun afterHeading) afterHeading))%nat.

(** After a fence: how much white space [\s*$] takes under the m flag,
    the most that leaves it at the end of a line; [None] when the white
    space reaches no end of line. *)
Fixpoint lineEndAfter (s : jsstring) : option nat :=
  match s with
  | [] => Some O
  | c :: t =>
      if isWhiteSpace c then
        match lineEndAfter t with
        | Some k => Some (S k)
        | None => if isLineTerminator c then Some O else None
        end
      else None
  end.

(** The index just after the first fence that ends its line, with the
    white space taken; [i] is the index of the head of [s]. *)
Fixpoint fenceLineEnd (s : jsstring) (i : nat) : option nat :=
  match (if startsWith (js "```") s then lineEndAfter (skipn 3 s) else None) with
  | Some k => Some (i + 3 + k)%nat
  | None =>
      match s with
      | [] => None
      | _ :: t => fenceLineEnd t (S i)
      end
  end.


(** The heading the section pattern of stage 3 looks for. *)
Definition outlineHeading : jsstring := js "### Core Logic Outlines".

(** The continuation of [matchAt]: the match from [x] up to [y]. *)
Definition matchUpTo (x y : mstate) : option matchResult :=
  Some {| index := pos x;
          whole := firstn (pos y - pos x) (rest x);
          group1 := cap y;
          endIndex := pos y |}.


(** The fence the insertion pattern of stage 3 looks for. *)
Definition fence : jsstring := js "```".

(** The code unit of a dollar sign, special in a replacement text. *)
Definition dollar : N := 36.

(** What follows an optional colon. *)
Definition afterColon (t : jsstring) : jsstring :=
  match t with
  | c :: t' => if c =? 58 then t' else t
  | [] => []
  end.


(** The calls of the attempts [first], ..., [first + n - 1] from one place. *)
Definition attempts (site : CallSite) (first n : nat) : list (CallSite * nat) :=
  map (fun k => (site, k)) (seq first n).


(** A pattern without a capturing group. *)
Fixpoint groupFree (r : regex) : bool :=
  match r with
  | RChar _ | RSet _ | REmpty | RBol | REol => true
  | RSeq r1 r2 | RAlt r1 r2 => groupFree r1 && groupFree r2
  | RQuant _ _ _ r' => groupFree r'
  | RGroup _ => false
  end.

(** A pattern that takes code units of the class [q] only. *)
Fixpoint within (fl : flags) (q : N -> bool) (r : regex) : Prop :=
  match r with
  | RChar a => forall c, charMatches fl a c = true -> q c = true
  | RSet p => forall c, setMatches fl p c = true -> q c = true
  | REmpty | RBol | REol => True
  | RSeq r1 r2 | RAlt r1 r2 => within fl q r1 /\ within fl q r2
  | RQuant _ _ _ r' => within fl q r'
  | RGroup r' => within fl q r'
  end.

(** The class [a-z0-9-] of a mode slug. *)
Definition isSlugCodeUnit (c : N) : bool :=
  ((97 <=? c) && (c <=? 122)) || ((48 <=? c) && (c <=? 57)) || (c =? 45).

(** A text one of whose lines starts with [L]. *)
Definition hasLineStarting (L s : jsstring) : Prop :=
  exists a b,
    s = a ++ L ++ b
    /\ match last a with
       | Some c => isLineTerminator c = true
       | None => True
       end.


(** From a state [x] the matcher has taken the code units [l], all of the
    class [q], and reached [y]. *)
Definition reaches (q : N -> bool) (gf : bool) (x y : mstate) : Prop :=
  exists l, rest x = l ++ rest y
            /\ pos y = (pos x + length l)%nat
            /\ Forall (fun c => q c = true) l
            /\ (gf = true -> cap y = cap x).


(** The calls that a computation adds to the log are all different, come
    from the call sites [sites] and are attempts 1 to 4. *)
Definition callsWithin {A} (sites : list CallSite) (m : M A) : Prop :=
  forall st, exists l,
    llmCalls (snd (m st)) = llmCalls st ++ l
    /\ NoDup l
    /\ Forall (fun c => In (fst c) sites /\ (1 <= snd c <= 4)%nat) l.

(** The call sites that a run can reach. *)
Definition reachableSites : list CallSite :=
  [Stage1; Stage1_5; Stage2; Stage2_5; Stage3; Stage4; Stage4_1; Stage4_5;
   Stage4_5_1; Stage4_6; Stage4_6_1; Stage4_7; Stage5; Stage6; Stage6_1;
   Stage6_5].


(** The names of the artifacts that do not depend on the run. *)
Definition artifactNames : list jsstring :=
  [js ".clinerules-code"; js ".rooignore"; js ".clinerules"; js ".roomodes";
   js "roo-plan.md"].

(** An artifact as a run may hand it over: a known name, or the name of a
    mode-override prompt, and a text that is not empty. *)
Definition wellFormedArtifact (name text : jsstring) : Prop :=
  text <> []
  /\ (In name artifactNames \/ startsWith (js ".roo/system-prompt-") name = true).


(** The code units that the sanitization takes off both ends of a path. *)
Definition isDotOrSlash (c : N) : bool := (c =? 47) || (c =? 46).

Fixpoint dropDotsAndSlashes (s : jsstring) : jsstring :=
  match s with
  | c :: t => if isDotOrSlash c then dropDotsAndSlashes t else s
  | [] => []
  end.

(** A path without the dots and slashes at its start and at its end. *)
Definition stripDotsAndSlashes (s : jsstring) : jsstring :=
  rev (dropDotsAndSlashes (rev (dropDotsAndSlashes s))).

(** The number of leading code units of a class. *)
Fixpoint leadingRun (p : N -> bool) (s : jsstring) : nat :=
  match s with
  | c :: t => if p c then S (leadingRun p t) else O
  | [] => O
  end.

(** The index at which the dots and slashes at the end of a text start:
    the first index from which everything is a dot or a slash. *)
Fixpoint tailStart (s : jsstring) : option nat :=
  match s with
  | [] => None
  | c :: t => if forallb isDotOrSlash (c :: t) then Some O
              else option_map S (tailStart t)
  end.

(** The path of the scaffolding for an item: its path without the dots
    and slashes at both ends, normalized, under the base directory. *)
Definition relativeTarget (pf : Platform) (item : structureItem) : jsstring :=
  normalize pf (stripDotsAndSlashes (path item)).

Definition scaffoldTarget (pf : Platform) (baseDirectory : jsstring)
    (item : structureItem) : jsstring :=
  joinPath pf baseDirectory (relativeTarget pf item).

(** A call of [fs] that the scaffolding makes for an item: the directory
    of a [dir] item, the parent directory of a [file] item, or the file
    with its comment and outline. *)
Definition callFor (pf : Platform) (baseDirectory : jsstring)
    (fileOutlines : gmap jsstring jsstring) (item : structureItem)
    (call : fsCall) : Prop :=
  stripDotsAndSlashes (path item) <> []
  /\ match call with
     | Mkdir directory =>
         match type item with
         | dir => directory = scaffoldTarget pf baseDirectory item
         | file =>
             directory = dirname pf (scaffoldTarget pf baseDirectory item)
             /\ directory <> baseDirectory /\ directory <> js "."
         end
     | WriteFile target content =>
         type item = file
         /\ target = scaffoldTarget pf baseDirectory item
         /\ exists outline,
              outlineText fileOutlines (path item) = Some outline
              /\ content
                 = finalFileContent
                     (pathComment (getCommentPrefix pf (path item))
                        (relativeTarget pf item)) outline
     end.

(** An item of the list for which the scaffolding could not do all, with
    the message of the error. *)
Definition errorFor (pf : Platform) (item : structureItem) (e : scaffoldError)
  : Prop :=
  stripDotsAndSlashes (path item) <> []
  /\ errorPath e = relativeTarget pf item.

(** The content of a written file starts with a comment prefix and
    [ File:], and ends with a line break. *)
Definition commentedContent (content : jsstring) : Prop :=
  exists prefix body,
    In prefix [js "//"; js "#"; js "<!--"; js "--"]
    /\ content = prefix ++ js " File:" ++ body ++ js "\n".


(** The texts with which the handler answers a request to cancel that it
    has seen itself. *)
Definition handlerCancellations : list jsstring :=
  [js "Operation cancelled after save dialog.";
   js "Operation cancelled during scaffolding.";
   js "Operation cancelled during artifact saving."].

(** The message of an error, as the catch clause of the handler reads it. *)
Definition messageOf (e : exn) : jsstring :=
  match e with
  | CancellationError message => message
  | Error message => message
  end.




(** A text that the model has given at a call site, in some attempt. *)
Definition modelText (w : World) (site : CallSite) (text : jsstring) : Prop :=
  exists attempt reason, generateContent w site attempt = Response text reason.

(** A .roomodes text that is the model's: its answer to the mode-set
    call, trimmed and without a wrapping fence, which parses to modes
    with delegate slugs. *)
Definition modelModeSet (w : World) (roomodes : jsstring) : Prop :=
  exists raw,
    modelText w Stage5 raw
    /\ roomodes = stripModesFence (trim raw)
    /\ delegateSlugs w roomodes <> None.

(** A .roomodes text that is the fallback: the serialized mode-set of
    the catch clause, with one mode or with two. *)
Definition fallbackModeSet (w : World) (roomodes : jsstring) : Prop :=
  exists structureResultMd,
    roomodes
    = JSON_stringify2 (numberToString w) (fst (fallbackModes structureResultMd)).

(** A plan that is the model's: its answer to the assembly call, with no
    validation issue; or its answer to the refinement call, with the
    title; or its answer to the review call, other than OK, trimmed. *)
Definition modelPlan (w : World) (plan : jsstring) : Prop :=
  (modelText w Stage6 plan /\ planValidationIssues plan = [])
  \/ (modelText w Stage6_1 plan /\ includes planTitle plan = true)
  \/ (exists response,
        modelText w Stage6_5 response /\ isNotOK response = true
        /\ plan = trim response).

(** A plan that is the fallback: the fixed text around the concise
    command and two mode slugs. *)
Definition fallbackPlanOf (w : World) (plan : jsstring) : Prop :=
  exists conciseCommand primary delegate,
    plan = fallbackPlanText w conciseCommand primary delegate.

End Vocabulary.
Export Vocabulary.

(** ** Example runs *)

Module Examples.

(** A world whose model answers every call with the same text. *)
Definition constantWorld (text : jsstring) : World :=
  {| initializationError := None;
     modelAvailable := true;
     MODEL_NAME := js "gemini-2.5-pro-preview-03-25";
     generateContent := fun _ _ => Response text None;
     cancelRequestedDuring := fun _ _ => false;
     numberToString := fun _ _ => js "0" |}.

(** A world given by the text of each call site; [None] is a network
    error on every attempt. *)
Definition scriptedWorld (script : CallSite -> option jsstring) : World :=
  {| initializationError := None;
     modelAvailable := true;
     MODEL_NAME := js "gemini-2.5-pro-preview-03-25";
     generateContent := fun site _ =>
       match script site with
       | Some text => Response text None
       | None => Exception (js "fetch failed") None
       end;
     cancelRequestedDuring := fun _ _ => false;
     numberToString := fun _ _ => js "0" |}.


(** Stage 1 with an analysis draft and a judge that answers with a
    rewritten analysis, white space around it. *)
Definition rewritingJudge : World :=
  scriptedWorld (fun site =>
    match site with
    | Stage1 => Some (js "Draft analysis")
    | Stage1_5 => Some (js "  **Core functionality and features**: a CLI\n")
    | _ => None
    end).

(** A judge that accepts, in lower case and with white space around. *)
Definition acceptingJudge : World :=
  scriptedWorld (fun site =>
    match site with
    | Stage1 => Some (js "Draft analysis")
    | Stage1_5 | Stage6_5 => Some (js " ok\n")
    | _ => None
    end).


(** The lines of an outline section with two entries, the second one with
    a body of white space only. *)
Definition outlineLinesExample : list jsstring :=
  [js "- `a.js`:"; js "  read the input"; js "- `b.js`:"; js "   "].

Definition emptyOutlineState : outlineState :=
  {| coreLogicOutlines := ∅; currentOutlineFile := None; currentOutline := [] |}.


(** Every value of an object is non-empty after trimming. *)
Definition notBlankValues (o : gmap jsstring jsstring) : Prop :=
  map_Forall (fun _ v => trim v <> []) o.


(** The slugs of the modes a .roomodes text defines, in order. *)
Definition modeSlugs (roomodes : jsstring) : option (list (option json)) :=
  match JSON_parse roomodes with
  | Some v =>
      match getProp v (js "customModes") with
      | Some (JArr modes) => slugsOf modes
      | _ => None
      end
  | None => None
  end.

(** The three ways into the fallback of stage 5 that the specification
    names: the call fails, the response is no JSON, the parsed value has no
    non-empty [customModes] array. *)
Inductive fallbackCause (w : World) (st : State) : Prop :=
| CallFails (message : jsstring) (st' : State) :
    callLLM w Stage5 st = (Rejected message, st') -> fallbackCause w st
| NotJson (raw : jsstring) (st' : State) :
    callLLM w Stage5 st = (Resolved raw, st') ->
    JSON_parse (stripModesFence (trim raw)) = None -> fallbackCause w st
| NoModes (raw : jsstring) (st' : State) (parsed : json) :
    callLLM w Stage5 st = (Resolved raw, st') ->
    JSON_parse (stripModesFence (trim raw)) = Some parsed ->
    (forall mode modes,
       getProp parsed (js "customModes") <> Some (JArr (mode :: modes))) ->
    fallbackCause w st.

(** A structure document of [n] lines. *)
Definition linesDocument (n : nat) : jsstring :=
  join (js "\n") (repeat (js "- item") n).

(** A world whose model is down. *)
Definition deadWorld : World := scriptedWorld (fun _ => None).

(** Modes where only the orchestrator has a slug worth keeping. *)
Definition orchestratorOnly : World :=
  scriptedWorld (fun site =>
    match site with
    | Stage5 =>
        Some (js "```json\n{\qcustomModes\q: [{\qslug\q: \qproject-orchestrator\q}, {\qname\q: \qNo slug\q}]}\n```")
    | _ => None
    end).


(** A structure document whose JSON block holds the two entries of the
    path normalization property. *)
Definition structureDocument : jsstring :=
  js "## Proposed Structure (JSON)\n\n```json\n[\n  {\qtype\q: \qfile\q, \qpath\q: \q./src/index.js/\q},\n  {\qtype\q: \qfile\q, \qpath\q: \qgitignore\q}\n]\n```\n".

Definition indexJsEntry : json :=
  JObj [(js "type", JStr (js "file")); (js "path", JStr (js "./src/index.js/"))].

Definition gitignoreEntry : json :=
  JObj [(js "type", JStr (js "file")); (js "path", JStr (js "gitignore"))].


(** Stage 2 with a structure response that stops at the separator: the
    command half is empty. *)
Definition missingCommand : World :=
  scriptedWorld (fun site =>
    match site with
    | Stage2 =>
        Some (js "## Proposed Structure\n--- CONCISE ONE-SHOT COMMAND BELOW ---\n  ")
    | Stage2_5 => Some (js "OK")
    | _ => None
    end).


(** A run in which every stage gets an answer it accepts. *)
Definition happyWorld : World :=
  scriptedWorld (fun site =>
    match site with
    | Stage1 => Some (js "**Technical requirements**: Python 3, argparse")
    | Stage1_5 | Stage2_5 | Stage6_5 => Some (js "OK")
    | Stage2 =>
        Some (js "## Proposed Structure (JSON)\n```json\n[{\qtype\q: \qfile\q, \qpath\q: \qmain.py\q}]\n```\n--- CONCISE ONE-SHOT COMMAND BELOW ---\nBuild a to-do list CLI in Python.")
    | Stage3 => Some (js "### Core Logic Outlines\n- `main.py`:\n  parse the arguments")
    | Stage4 =>
        Some (js "// .clinerules-code for the to-do CLI\n// Primary Tech Stack: Python")
    | Stage4_5 => Some (js "# .rooignore for the to-do CLI\n__pycache__/")
    | Stage4_6 => Some (js "// General Workspace .clinerules for the to-do CLI")
    | Stage5 => Some (js "{\qcustomModes\q: [{\qslug\q: \qpython-dev\q}]}")
    | Stage6 =>
        Some (js "# Roo Code Execution Plan: to-do CLI\n**Concise Goal:** Build it\n## Phase 1\n1. **Switch to Dev**: <switch_mode><mode_slug>python-dev</mode_slug></switch_mode>\n2. <new_task><mode>python-dev</mode><message>{\qgoal\q: \qwrite main.py\q}</message></new_task>")
    | _ => None
    end).


(** A structure document without an outline section and with two fenced
    blocks, the second one at its end. *)
Definition twoFences : jsstring :=
  js "## Proposed Structure\n```json\n[]\n```\nNotes:\n```text\nmore\n```".

Definition refinedOutlines : jsstring :=
  js "### Core Logic Outlines\n- `main.py`: parse the arguments\n".

Definition refiningWorld : World :=
  scriptedWorld (fun site =>
    match site with
    | Stage3 => Some refinedOutlines
    | _ => None
    end).


(** A rules response inside a fence, with a preamble before the rules. *)
Definition prefacedRules : jsstring :=
  js "```text\nHere is the content:\n// .clinerules-code for the CLI\n// Primary Tech Stack: Python\n```".

Definition prefacedRulesWorld : World :=
  scriptedWorld (fun site =>
    match site with
    | Stage4 => Some prefacedRules
    | _ => None
    end).

(** Ignore rules that are valid, inside a fence; the refinement call gets
    the same answer. *)
Definition fencedIgnore : jsstring :=
  js "```\n# .rooignore for the CLI\n*.log\n```".

Definition fencedIgnoreWorld : World :=
  scriptedWorld (fun site =>
    match site with
    | Stage4_5 | Stage4_5_1 => Some fencedIgnore
    | _ => None
    end).


(** A world whose model gives an answer at the third attempt, after an
    empty response and a rate limit. *)
Definition flakyWorld : World :=
  {| initializationError := None;
     modelAvailable := true;
     MODEL_NAME := js "gemini-2.5-pro-preview-03-25";
     generateContent := fun _ attempt =>
       match attempt with
       | 1%nat => Response (js "  \n") None
       | 2%nat => Exception (js "Too Many Requests") (Some 429)
       | _ => Response (js "An answer") None
       end;
     cancelRequestedDuring := fun _ _ => false;
     numberToString := fun _ _ => js "0" |}.

(** A world whose model refuses every call with the HTTP status 403. *)
Definition forbiddenWorld : World :=
  {| initializationError := None;
     modelAvailable := true;
     MODEL_NAME := js "gemini-2.5-pro-preview-03-25";
     generateContent := fun _ _ => Exception (js "Forbidden") (Some 403);
     cancelRequestedDuring := fun _ _ => false;
     numberToString := fun _ _ => js "0" |}.


(** A world that answers the trigger of a mode-override prompt. *)
Definition footgunWorld : World :=
  scriptedWorld (fun site =>
    match site with
    | Stage4_7 => Some (js "You are a careful reviewer.")
    | _ => None
    end).


(** A world in which the user asks to cancel during the first attempt,
    which fails. *)
Definition cancelledWhileWaiting : World :=
  {| initializationError := None;
     modelAvailable := true;
     MODEL_NAME := js "gemini-2.5-pro-preview-03-25";
     generateContent := fun _ _ => Exception (js "fetch failed") None;
     cancelRequestedDuring := fun _ attempt => (attempt =? 1)%nat;
     numberToString := fun _ _ => js "0" |}.


(** A platform like POSIX on which every call of [fs] succeeds. *)
Definition posixWorld : Platform :=
  {| extname := fun p =>
       match lastIndexOf (js ".") p with
       | Zneg _ => []
       | i => sliceFrom p i
       end;
     normalize := fun p => p;
     joinPath := fun a b => a ++ js "/" ++ b;
     dirname := fun p =>
       match lastIndexOf (js "/") p with
       | Zneg _ => js "."
       | i => substring p 0 i
       end;
     fsError := fun _ => None;
     fsErrorCode := fun _ => [] |}.


(** A desk at which nothing goes wrong: the user picks a path and asks
    for nothing else, the model suggests two commands in a fence. *)
Definition quietDeskWorld : Desk :=
  {| platform := posixWorld;
     dialogCanceled := false;
     dialogFilePath := Some (js "/home/me/todo/placeholder.txt");
     cancelRequestedIn := fun _ => false;
     setupCommandsReply :=
       Resolved (js "```json\n[\qpython -m venv .venv\q, \qgit init\q]\n```") |}.

(** The same desk with a user who asks to cancel during scaffolding. *)
Definition impatientDeskWorld : Desk :=
  {| platform := posixWorld;
     dialogCanceled := false;
     dialogFilePath := Some (js "/home/me/todo/placeholder.txt");
     cancelRequestedIn :=
       fun phase => match phase with Scaffolding => true | _ => false end;
     setupCommandsReply := Rejected (js "LLM call cancelled before starting.") |}.

(** The user asks to cancel while the engine waits for the judge of the
    analysis, who answers. *)
Definition cancelledInReviewWorld : World :=
  {| initializationError := None;
     modelAvailable := true;
     MODEL_NAME := js "gemini-2.5-pro-preview-03-25";
     generateContent := generateContent happyWorld;
     cancelRequestedDuring :=
       fun site _ => match site with Stage1_5 => true | _ => false end;
     numberToString := fun _ _ => js "0" |}.



(** Every attempt meets a network error, and the user asks to cancel
    during the second. *)
Definition cancelledDuringSecond : World :=
  {| initializationError := None;
     modelAvailable := true;
     MODEL_NAME := js "gemini-2.5-pro-preview-03-25";
     generateContent := fun _ _ => Exception (js "fetch failed") None;
     cancelRequestedDuring := fun _ attempt => (attempt =? 2)%nat;
     numberToString := fun _ _ => js "0" |}.

(** A client whose model could not be set up. *)
Definition unavailableWorld : World :=
  {| initializationError := None;
     modelAvailable := false;
     MODEL_NAME := js "gemini-2.5-pro-preview-03-25";
     generateContent := fun _ _ => Response (js "An answer") None;
     cancelRequestedDuring := fun _ _ => false;
     numberToString := fun _ _ => js "0" |}.


(** The first answer for the coding rules is no rules file; asked again,
    the model gives the rules inside a fence, with a preamble. *)
Definition refinedRulesWorld : World :=
  scriptedWorld (fun site =>
    match site with
    | Stage4 => Some (js "I cannot write that file.")
    | Stage4_1 => Some prefacedRules
    | _ => None
    end).

End Examples.
Export Examples.

(** * Properties *)

(** ** Strings *)

Module StringFacts.

Lemma trimStart_fixed (c : N) (t : jsstring) :
  isWhiteSpace c = false -> trimStart (c :: t) = c :: t.
Proof. intros H. simpl. now rewrite H. Qed.

Lemma trimStart_snoc (l : jsstring) (c : N) :
  isWhiteSpace c = false -> trimStart (l ++ [c]) = trimStart l ++ [c].
Proof.
  intros H. induction l as [|x l IH]; simpl.
  - now rewrite H.
  - destruct (isWhiteSpace x); [exact IH | reflexivity].
Qed.

(** What [trimStart] returns is empty or starts with a code unit that is
    not white space. *)
Lemma trimStart_head (s : jsstring) :
  trimStart s = [] \/
  exists c t, trimStart s = c :: t /\ isWhiteSpace c = false.
Proof.
  induction s as [|x s IH]; simpl.
  - now left.
  - destruct (isWhiteSpace x) eqn:E; [exact IH | right; eauto].
Qed.

Lemma trimStart_idem (s : jsstring) : trimStart (trimStart s) = trimStart s.
Proof.
  destruct (trimStart_head s) as [H | (c & t & H & Hc)]; rewrite H.
  - reflexivity.
  - now apply trimStart_fixed.
Qed.

Lemma trimEnd_idem (s : jsstring) : trimEnd (trimEnd s) = trimEnd s.
Proof.
  unfold trimEnd. now rewrite rev_involutive, trimStart_idem.
Qed.

Lemma trimEnd_cons (c : N) (t : jsstring) :
  isWhiteSpace c = false -> trimEnd (c :: t) = c :: trimEnd t.
Proof.
  intros H. unfold trimEnd. simpl.
  now rewrite (trimStart_snoc _ _ H), rev_app_distr.
Qed.

(** Trimming twice is trimming once. *)
Lemma trim_idem (s : jsstring) : trim (trim s) = trim s.
Proof.
  unfold trim.
  destruct (trimStart_head s) as [H | (c & t & H & Hc)]; rewrite H.
  - reflexivity.
  - rewrite (trimEnd_cons _ _ Hc), (trimStart_fixed _ _ Hc).
    rewrite <- (trimEnd_cons _ _ Hc). apply trimEnd_idem.
Qed.

Lemma truthy_nonempty (s : jsstring) : truthy s = true <-> s <> [].
Proof. destruct s; simpl; split; congruence. Qed.

Lemma streq_true (a b : jsstring) : streq a b = true <-> a = b.
Proof. unfold streq. apply bool_decide_eq_true. Qed.

Lemma streq_false (a b : jsstring) : streq a b = false <-> a <> b.
Proof. unfold streq. apply bool_decide_eq_false. Qed.

Lemma trim_nil : trim [] = [].
Proof. reflexivity. Qed.

End StringFacts.
Import StringFacts.

(** ** The LLM client *)

Module LlmFacts.

Lemma retry_resolved (w : World) (site : CallSite) (retries attempt : nat)
    (errors : list jsstring) (st st' : State) (text : jsstring) :
  retry w site retries attempt errors st = (Resolved text, st') ->
  trim text <> [].
Proof.
  revert attempt errors st.
  induction retries as [|n IH]; intros attempt errors st; cbn [retry];
    destruct (isCancellationRequested st); try discriminate;
    destruct (attemptOutcomeOf (generateContent w site attempt)) as [t|m|m] eqn:E;
    try discriminate; try (now apply IH).
  all: intros [= <- _]; clear - E; unfold attemptOutcomeOf in E;
    repeat match type of E with
           | match ?x with _ => _ end = _ => destruct x eqn:?
           | (if ?x then _ else _) = _ => destruct x eqn:?
           end; try discriminate;
    injection E as <-;
    match goal with
    | H : (_ || _)%bool = false |- _ =>
        apply orb_false_iff in H; destruct H as [_ H];
        apply Nat.eqb_neq in H; intros Hn; rewrite Hn in H; now apply H
    end.
Qed.

(** [callLLM] resolves with text that is not blank, as its caller may
    assume: an empty or all-white-space response is retried and at last
    rejected. *)
Lemma callLLM_resolved (w : World) (site : CallSite) (st st' : State)
    (text : jsstring) :
  callLLM w site st = (Resolved text, st') -> trim text <> [].
Proof.
  unfold callLLM.
  repeat match goal with
         | |- (if ?x then _ else _) = _ -> _ => destruct x
         end; try discriminate.
  apply retry_resolved.
Qed.

(** A text that [callLLM] resolves with is a text of the model at that
    call site. *)
Lemma retry_model_text (w : World) (site : CallSite) (retries attempt : nat)
    (errors : list jsstring) (st st' : State) (text : jsstring) :
  retry w site retries attempt errors st = (Resolved text, st') ->
  modelText w site text.
Proof.
  revert attempt errors st.
  induction retries as [|n IH]; intros attempt errors st; cbn [retry];
    destruct (isCancellationRequested st); try discriminate;
    destruct (attemptOutcomeOf (generateContent w site attempt)) as [t|m|m] eqn:E;
    try discriminate; try (now apply IH).
  all: intros [= <- _]; exists attempt; unfold attemptOutcomeOf in E;
    destruct (generateContent w site attempt) as [text' [reason|] | message status];
    repeat match type of E with
           | match ?x with _ => _ end = _ => destruct x eqn:?
           | (if ?x then _ else _) = _ => destruct x eqn:?
           end; try discriminate; injection E as <-; eauto.
Qed.

Lemma callLLM_model_text (w : World) (site : CallSite) (st st' : State)
    (text : jsstring) :
  callLLM w site st = (Resolved text, st') -> modelText w site text.
Proof.
  unfold callLLM.
  repeat match goal with
         | |- (if ?x then _ else _) = _ -> _ => destruct x
         end; try discriminate.
  apply retry_model_text.
Qed.

Lemma trim_nonblank_nonempty (text : jsstring) : trim text <> [] -> text <> [].
Proof. intros H ->. now apply H. Qed.

(** A call on a token already set makes no call to the model. *)
Lemma callLLM_cancelled (w : World) (site : CallSite) (st : State) :
  isCancellationRequested st = true ->
  callLLM w site st = (Rejected (js "LLM call cancelled before starting."), st).
Proof. intros H. unfold callLLM. now rewrite H. Qed.

End LlmFacts.
Import LlmFacts.

(** ** Cancellation before stage 1 *)

(** C8. If the cancellation token is set before stage 1 begins, the run
    ends by throwing the engine's CancellationError, which is no ordinary
    Error; the state is left as it was, so no call to the model was made,
    and nothing is returned: no artifact map. *)
Theorem cancelled_before_stage1 (w : World) (projectIdea : jsstring) (st : State) :
  isCancellationRequested st = true ->
  runAdvancedReasoningEngine w projectIdea st
  = (inl (CancellationError (js "Operation cancelled by user.")), st)
  /\ (forall message,
        CancellationError (js "Operation cancelled by user.") <> Error message)
  /\ (forall result st',
        runAdvancedReasoningEngine w projectIdea st <> (inr result, st')).
Proof.
  intros H.
  assert (E : runAdvancedReasoningEngine w projectIdea st
              = (inl (CancellationError (js "Operation cancelled by user.")), st)).
  { unfold runAdvancedReasoningEngine, engineBody, runAnalysisStage, bind,
      checkCancellation. now rewrite H. }
  split; [exact E | split].
  - discriminate.
  - intros result st'. rewrite E. discriminate.
Qed.

Lemma cancelled_before_stage1_witness :
  isCancellationRequested (initialState true) = true
  /\ runAdvancedReasoningEngine (constantWorld (js "OK")) (js "A to-do list")
       (initialState true)
     = (inl (CancellationError (js "Operation cancelled by user.")),
        initialState true)
  /\ llmCalls (initialState true) = [].
Proof.
  split; [reflexivity | split; [| reflexivity]].
  apply (cancelled_before_stage1 (constantWorld (js "OK")) (js "A to-do list")
           (initialState true)).
  reflexivity.
Defined.

(** ** The OK/replace stages *)

Ltac run_stage :=
  repeat (unfold bind, checkCancellation, awaitLLM, ret, throw;
          repeat match goal with
                 | H : isCancellationRequested ?s = _ |- context [isCancellationRequested ?s] =>
                     rewrite H
                 | H : callLLM ?w ?site ?s = _ |- context [callLLM ?w ?site ?s] =>
                     rewrite H
                 end).

(** Stage 1.5: the judge's answer "OK" keeps the analysis; any other answer
    replaces it, as it is. *)
Lemma analysis_validation (w : World) (projectIdea analysis response : jsstring)
    (st st1 st2 : State) :
  isCancellationRequested st = false ->
  callLLM w Stage1 st = (Resolved analysis, st1) ->
  isCancellationRequested st1 = false ->
  callLLM w Stage1_5 st1 = (Resolved response, st2) ->
  runAnalysisStage w projectIdea st
  = (inr (if streq (toUpperCase (trim response)) (js "OK")
          then analysis else response), st2).
Proof.
  intros H0 H1 H2 H3. unfold runAnalysisStage, isNotOK. run_stage.
  now destruct (streq _ _).
Qed.

(** Stage 6.5: the reviewer's answer "OK" keeps the plan; any other answer,
    trimmed, replaces it. *)
Lemma plan_review (w : World) (finalPlan roomodes structureResultMd response : jsstring)
    (st st1 : State) :
  isCancellationRequested st = false ->
  callLLM w Stage6_5 st = (Resolved response, st1) ->
  runPlanRefinementStage w finalPlan roomodes structureResultMd st
  = (inr (if streq (toUpperCase (trim response)) (js "OK")
          then finalPlan else trim response), st1).
Proof.
  intros H0 H1. unfold runPlanRefinementStage, isNotOK. run_stage.
  now destruct (streq _ _).
Qed.

(** C3, as the code has it. In both OK/replace stages a response that is
    "OK" once trimmed and upper-cased leaves the prior content unchanged.
    Any other response becomes the new content: trimmed in the plan review
    of stage 6.5, as it is (white space included) in the analysis
    validation of stage 1. *)
Theorem ok_replace_stages (w : World)
    (projectIdea analysis finalPlan roomodes structureResultMd response : jsstring)
    (st st1 st2 : State) :
  isCancellationRequested st = false ->
  isCancellationRequested st1 = false ->
  (callLLM w Stage1 st = (Resolved analysis, st1) ->
   callLLM w Stage1_5 st1 = (Resolved response, st2) ->
   (toUpperCase (trim response) = js "OK" ->
    runAnalysisStage w projectIdea st = (inr analysis, st2))
   /\ (toUpperCase (trim response) <> js "OK" ->
       runAnalysisStage w projectIdea st = (inr response, st2)))
  /\ (callLLM w Stage6_5 st1 = (Resolved response, st2) ->
      (toUpperCase (trim response) = js "OK" ->
       runPlanRefinementStage w finalPlan roomodes structureResultMd st1
       = (inr finalPlan, st2))
      /\ (toUpperCase (trim response) <> js "OK" ->
          runPlanRefinementStage w finalPlan roomodes structureResultMd st1
          = (inr (trim response), st2))).
Proof.
  intros H0 H1. split.
  - intros Ha Hv.
    rewrite (analysis_validation _ _ _ _ _ _ _ H0 Ha H1 Hv).
    split; intros H.
    + apply streq_true in H. now rewrite H.
    + apply streq_false in H. now rewrite H.
  - intros Hv. rewrite (plan_review _ _ _ _ _ _ _ H1 Hv).
    split; intros H.
    + apply streq_true in H. now rewrite H.
    + apply streq_false in H. now rewrite H.
Qed.

Lemma ok_replace_stages_witness :
  runAnalysisStage acceptingJudge (js "A to-do list") (initialState false)
  = (inr (js "Draft analysis"),
     {| isCancellationRequested := false;
        llmCalls := [(Stage1, 1%nat); (Stage1_5, 1%nat)] |})
  /\ runPlanRefinementStage acceptingJudge (js "# Plan") (js "{}") (js "# Doc")
       (initialState false)
     = (inr (js "# Plan"),
        {| isCancellationRequested := false; llmCalls := [(Stage6_5, 1%nat)] |}).
Proof.
  split.
  - exact (proj1 (proj1 (ok_replace_stages acceptingJudge (js "A to-do list")
             (js "Draft analysis") (js "# Plan") (js "{}") (js "# Doc")
             (js " ok\n") (initialState false)
             {| isCancellationRequested := false; llmCalls := [(Stage1, 1%nat)] |}
             {| isCancellationRequested := false;
                llmCalls := [(Stage1, 1%nat); (Stage1_5, 1%nat)] |}
             eq_refl eq_refl)
             eq_refl eq_refl) eq_refl).
  - exact (proj1 (proj2 (ok_replace_stages acceptingJudge (js "A to-do list")
             (js "Draft analysis") (js "# Plan") (js "{}") (js "# Doc")
             (js " ok\n") (initialState false) (initialState false)
             {| isCancellationRequested := false; llmCalls := [(Stage6_5, 1%nat)] |}
             eq_refl eq_refl)
             eq_refl) eq_refl).
Defined.

(** C3 fails as stated for stage 1: the judge's rewritten analysis is kept
    with its surrounding white space, not trimmed. *)
Lemma ok_replace_stage1_not_trimmed :
  let response := js "  **Core functionality and features**: a CLI\n" in
  toUpperCase (trim response) <> js "OK"
  /\ fst (runAnalysisStage rewritingJudge (js "A to-do list") (initialState false))
     = inr response
  /\ response <> trim response.
Proof.
  cbv zeta. split; [| split].
  - vm_compute. discriminate.
  - vm_compute. reflexivity.
  - vm_compute. discriminate.
Qed.

(** ** The outline extractor *)

Lemma objSet_notBlank (key value : jsstring) (o : gmap jsstring jsstring) :
  trim value <> [] -> notBlankValues o -> notBlankValues (objSet key value o).
Proof.
  intros Hv Ho. unfold objSet. destruct (streq key _); [exact Ho |].
  now apply map_Forall_insert_2.
Qed.

Lemma saveOutline_notBlank (st : outlineState) :
  notBlankValues (coreLogicOutlines st) -> notBlankValues (saveOutline st).
Proof.
  intros H. unfold saveOutline.
  destruct (currentOutlineFile st) as [name|]; [| exact H].
  destruct (truthy name); simpl; [| exact H].
  destruct (truthy (trim (currentOutline st))) eqn:E; [| exact H].
  apply objSet_notBlank; [| exact H].
  rewrite trim_idem. now apply truthy_nonempty.
Qed.

Lemma outlineStep_notBlank (st : outlineState) (line : jsstring) :
  notBlankValues (coreLogicOutlines st) ->
  notBlankValues (coreLogicOutlines (outlineStep st line)).
Proof.
  intros H. unfold outlineStep.
  destruct (exec noFlags outlineFileRegex line); simpl.
  - now apply saveOutline_notBlank.
  - destruct (fileIsSet _); [| exact H].
    destruct (_ || _)%bool; exact H.
Qed.

Lemma outlineLoop_notBlank (lines : list jsstring) (st : outlineState) :
  notBlankValues (coreLogicOutlines st) ->
  notBlankValues (coreLogicOutlines (fold_left outlineStep lines st)).
Proof.
  revert st. induction lines as [|line lines IH]; intros st H; simpl.
  - exact H.
  - apply IH. now apply outlineStep_notBlank.
Qed.

(** C10. Every value of the outline map is non-empty after trimming: for
    the map [parseOutlinesFromMd] returns on any markdown, and for the
    loop over any lines of a section, from any map that has the property. An
    entry whose accumulated body is empty or white space only adds no key:
    the map is left as it was. *)
Theorem outline_values_not_blank :
  (forall markdownContent key value,
     parseOutlinesFromMd markdownContent !! key = Some value ->
     trim value <> [])
  /\ (forall lines st key value,
        notBlankValues (coreLogicOutlines st) ->
        saveOutline (fold_left outlineStep lines st) !! key = Some value ->
        trim value <> [])
  /\ (forall st,
        trim (currentOutline st) = [] -> saveOutline st = coreLogicOutlines st).
Proof.
  assert (Hloop : forall lines st,
             notBlankValues (coreLogicOutlines st) ->
             notBlankValues (saveOutline (fold_left outlineStep lines st))).
  { intros lines st H. now apply saveOutline_notBlank, outlineLoop_notBlank. }
  split; [| split].
  - intros md key value. unfold parseOutlinesFromMd.
    destruct (capture _) as [content|].
    + intros H.
      exact (Hloop _ emptyOutlineState (map_Forall_empty _) key value H).
    + now rewrite lookup_empty.
  - intros lines st key value Hst H. exact (Hloop lines st Hst key value H).
  - intros st H. unfold saveOutline. rewrite H.
    destruct (currentOutlineFile st); [| reflexivity].
    now rewrite andb_false_r.
Qed.

Lemma outline_values_not_blank_witness :
  saveOutline (fold_left outlineStep outlineLinesExample emptyOutlineState)
    !! js "a.js" = Some (js "read the input")
  /\ trim (js "read the input") <> []
  /\ saveOutline (fold_left outlineStep outlineLinesExample emptyOutlineState)
       !! js "b.js" = None.
Proof.
  assert (E : saveOutline (fold_left outlineStep outlineLinesExample emptyOutlineState)
              !! js "a.js" = Some (js "read the input")) by (vm_compute; reflexivity).
  split; [exact E | split].
  - exact (proj1 (proj2 outline_values_not_blank) outlineLinesExample
             emptyOutlineState (js "a.js") (js "read the input")
             (map_Forall_empty _) E).
  - vm_compute. reflexivity.
Defined.

(** ** Stage 5: the delegate slugs and the fallback mode-set *)

Lemma delegatesOf_spec (slugs : list json) :
  delegatesOf slugs <> []
  /\ ~ In (JStr (js "project-orchestrator")) (delegatesOf slugs).
Proof.
  unfold delegatesOf.
  destruct (List.filter _ slugs) as [|x l] eqn:E.
  - split; [discriminate |]. intros [H | []]. vm_compute in H. discriminate.
  - split; [discriminate |]. rewrite <- E. intros H.
    apply filter_In in H as [_ H]. vm_compute in H. discriminate.
Qed.

Lemma fallbackModes_slugs (structureResultMd : jsstring) :
  snd (fallbackModes structureResultMd) <> []
  /\ ~ In (JStr (js "project-orchestrator")) (snd (fallbackModes structureResultMd)).
Proof.
  unfold fallbackModes. destruct (simpleProjectHeuristic _); simpl;
    (split; [discriminate |]); intros [H | []]; vm_compute in H; discriminate.
Qed.

(** What the stage returns, whatever the state it starts from. *)
Lemma runModesGenerationStage_result (w : World) (structureResultMd : jsstring)
    (st st' : State) (res : modesResult) :
  runModesGenerationStage w structureResultMd st = (inr res, st') ->
  exists raw, res = modesFromRaw w structureResultMd raw
              /\ ((raw = js "{}"
                   /\ exists message, callLLM w Stage5 st = (Rejected message, st'))
                  \/ callLLM w Stage5 st = (Resolved raw, st')).
Proof.
  unfold runModesGenerationStage, bind, checkCancellation, awaitLLM, ret.
  destruct (isCancellationRequested st); [discriminate |].
  destruct (callLLM w Stage5 st) as [[text|message] s] eqn:E; intros [= <- <-].
  - exists text. split; [reflexivity | now right].
  - exists (js "{}"). split; [reflexivity | left; eauto].
Qed.

(** C9. The delegate slugs handed to plan assembly are never empty and
    never hold the slug "project-orchestrator", on a successful parse as on
    the fallback. On a successful parse they are the truthy slugs of the
    parsed modes without "project-orchestrator", and, when none is left,
    the one slug "code", whether or not a mode of that slug exists. *)
Theorem delegate_slugs_invariant (w : World) (structureResultMd : jsstring)
    (st st' : State) (res : modesResult) :
  runModesGenerationStage w structureResultMd st = (inr res, st') ->
  techSpecificSlugs res <> []
  /\ ~ In (JStr (js "project-orchestrator")) (techSpecificSlugs res)
  /\ (parsedModesSuccessfully res = true ->
      exists slugs,
        parsedSlugs w (roomodesResult res) = Some slugs
        /\ (List.filter (fun slug => negb (isOrchestrator slug)) slugs = [] ->
            techSpecificSlugs res = [JStr (js "code")])
        /\ (List.filter (fun slug => negb (isOrchestrator slug)) slugs <> [] ->
            techSpecificSlugs res
            = List.filter (fun slug => negb (isOrchestrator slug)) slugs)).
Proof.
  intros H. apply runModesGenerationStage_result in H as (raw & -> & _).
  unfold modesFromRaw, delegateSlugs.
  destruct (parsedSlugs w (stripModesFence (trim raw))) as [slugs|] eqn:E; simpl.
  - destruct (delegatesOf_spec slugs) as [H1 H2].
    split; [exact H1 | split; [exact H2 |]].
    intros _. exists slugs. split; [exact E |].
    unfold delegatesOf.
    destruct (List.filter _ slugs); split; intros Hf; try reflexivity; congruence.
  - destruct (fallbackModes_slugs structureResultMd) as [H1 H2].
    destruct (fallbackModes structureResultMd) as [modes slugs]; simpl in *.
    split; [exact H1 | split; [exact H2 | discriminate]].
Qed.

Lemma delegate_slugs_invariant_witness :
  exists res st',
    runModesGenerationStage orchestratorOnly (linesDocument 3) (initialState false)
    = (inr res, st')
    /\ parsedModesSuccessfully res = true
    /\ techSpecificSlugs res = [JStr (js "code")]
    /\ techSpecificSlugs res <> [].
Proof.
  eexists _, _. split; [vm_compute; reflexivity |].
  split; [reflexivity | split; [reflexivity |]].
  exact (proj1 (delegate_slugs_invariant orchestratorOnly (linesDocument 3)
                  (initialState false) _ _ eq_refl)).
Defined.

Lemma modesFromRaw_fallback (w : World) (structureResultMd raw : jsstring) :
  parsedModesSuccessfully (modesFromRaw w structureResultMd raw) = false ->
  modesFromRaw w structureResultMd raw
  = {| roomodesResult :=
         JSON_stringify2 (numberToString w) (fst (fallbackModes structureResultMd));
       techSpecificSlugs := snd (fallbackModes structureResultMd);
       parsedModesSuccessfully := false |}.
Proof.
  unfold modesFromRaw.
  destruct (delegateSlugs w _); [discriminate |].
  now destruct (fallbackModes structureResultMd).
Qed.

Lemma parsedSlugs_none_fallback (w : World) (structureResultMd raw : jsstring) :
  parsedSlugs w (stripModesFence (trim raw)) = None ->
  parsedModesSuccessfully (modesFromRaw w structureResultMd raw) = false.
Proof.
  intros H. unfold modesFromRaw, delegateSlugs. rewrite H. simpl.
  now destruct (fallbackModes structureResultMd).
Qed.

(** C2. When mode-set generation falls back, the success flag is false;
    for a structure document of fewer than 20 lines the mode-set holds the
    one mode "developer" and the delegate slugs are ["developer"]; for 20
    lines or more it holds the two modes "project-manager" and "code" and
    the delegate slugs are ["code"]. The fallback is taken when the call
    fails, when the response is no JSON, and when the parsed value has no
    non-empty customModes array. *)
Theorem modes_fallback_shape (w : World) (structureResultMd : jsstring)
    (st st' : State) (res : modesResult) :
  runModesGenerationStage w structureResultMd st = (inr res, st') ->
  (fallbackCause w st -> parsedModesSuccessfully res = false)
  /\ (parsedModesSuccessfully res = false ->
      ((length (splitStr (js "\n") structureResultMd) < 20)%nat ->
       modeSlugs (roomodesResult res) = Some [Some (JStr (js "developer"))]
       /\ techSpecificSlugs res = [JStr (js "developer")])
      /\ ((20 <= length (splitStr (js "\n") structureResultMd))%nat ->
          modeSlugs (roomodesResult res)
          = Some [Some (JStr (js "project-manager")); Some (JStr (js "code"))]
          /\ techSpecificSlugs res = [JStr (js "code")])).
Proof.
  intros H. apply runModesGenerationStage_result in H as (raw & -> & Hraw).
  split.
  - intros Hcause. apply parsedSlugs_none_fallback.
    destruct Hraw as [[-> [m Hm]] | Hr].
    + reflexivity.
    + destruct Hcause as [m s Hc | raw' s Hc Hp | raw' s parsed Hc Hp Hn];
        rewrite Hr in Hc; [discriminate | |]; injection Hc as -> ->;
        unfold parsedSlugs; rewrite Hp; [reflexivity |].
      destruct (truthyJ parsed); [| reflexivity].
      destruct (getProp parsed (js "customModes")) as [[| | | | [|mode modes] |]|] eqn:E;
        try reflexivity.
      now destruct (Hn mode modes).
  - intros Hflag. rewrite (modesFromRaw_fallback _ _ _ Hflag).
    cbn [roomodesResult techSpecificSlugs].
    unfold fallbackModes, simpleProjectHeuristic.
    destruct (Nat.ltb_spec (length (splitStr (js "\n") structureResultMd)) 20)
      as [Hlt | Hge]; cbn [fst snd]; split; intros Hlen; try lia;
      (split; [vm_compute; reflexivity | reflexivity]).
Qed.

Lemma modes_fallback_shape_witness :
  exists res st',
    runModesGenerationStage deadWorld (linesDocument 3) (initialState false)
    = (inr res, st')
    /\ fallbackCause deadWorld (initialState false)
    /\ parsedModesSuccessfully res = false
    /\ (length (splitStr (js "\n") (linesDocument 3)) < 20)%nat
    /\ techSpecificSlugs res = [JStr (js "developer")].
Proof.
  assert (Hc : fallbackCause deadWorld (initialState false)).
  { eapply CallFails. vm_compute. reflexivity. }
  assert (Hl : (length (splitStr (js "\n") (linesDocument 3)) < 20)%nat).
  { vm_compute. lia. }
  eexists _, _. split; [vm_compute; reflexivity |].
  pose proof (modes_fallback_shape deadWorld (linesDocument 3)
                (initialState false) _ _ eq_refl) as [H1 H2].
  split; [exact Hc | split; [exact (H1 Hc) | split; [exact Hl |]]].
  exact (proj2 (proj1 (H2 (H1 Hc)) Hl)).
Defined.

(** ** The structure-list extractor *)

Lemma JSON_parse_truthy (text : jsstring) (v : json) :
  JSON_parse text = Some v -> truthy text = true.
Proof. destruct text; [discriminate | reflexivity]. Qed.

Lemma parseStructure_item (markdownContent text : jsstring) (items : list json)
    (entry : json) (item : structureItem) :
  extractJsonBlock markdownContent = Some text ->
  JSON_parse text = Some (JArr items) ->
  In entry items ->
  structureItemOfJson entry = Some item ->
  In (fixGitignore item) (parseStructureFromJsonMd markdownContent).
Proof.
  intros Hb Hp Hin Hitem. unfold parseStructureFromJsonMd.
  rewrite Hb, (JSON_parse_truthy _ _ Hp), Hp.
  apply in_map. apply list_elem_of_In, list_elem_of_omap.
  exists entry. split; [now apply list_elem_of_In | exact Hitem].
Qed.

(** C5, as the code has it. Whenever the JSON block of a document parses
    to an array that holds the entry with path "./src/index.js/", the
    extracted list holds the path "./src/index.js": the trailing slash is
    gone, the leading "./" stays. Whenever it holds the file entry with
    path "gitignore", the extracted list holds the path ".gitignore". *)
Theorem structure_path_normalization (markdownContent text : jsstring)
    (items : list json) :
  extractJsonBlock markdownContent = Some text ->
  JSON_parse text = Some (JArr items) ->
  (In indexJsEntry items ->
   In {| type := file; path := js "./src/index.js" |}
      (parseStructureFromJsonMd markdownContent))
  /\ (In gitignoreEntry items ->
      In {| type := file; path := js ".gitignore" |}
         (parseStructureFromJsonMd markdownContent)).
Proof.
  intros Hb Hp. split; intros Hin.
  - exact (parseStructure_item _ _ _ _ _ Hb Hp Hin eq_refl).
  - exact (parseStructure_item _ _ _ _ _ Hb Hp Hin eq_refl).
Qed.

Lemma structure_path_normalization_witness :
  parseStructureFromJsonMd structureDocument
  = [{| type := file; path := js "./src/index.js" |};
     {| type := file; path := js ".gitignore" |}]
  /\ In {| type := file; path := js "./src/index.js" |}
        (parseStructureFromJsonMd structureDocument)
  /\ In {| type := file; path := js ".gitignore" |}
        (parseStructureFromJsonMd structureDocument).
Proof.
  pose proof (structure_path_normalization structureDocument
                (js "[\n  {\qtype\q: \qfile\q, \qpath\q: \q./src/index.js/\q},\n  {\qtype\q: \qfile\q, \qpath\q: \qgitignore\q}\n]")
                [indexJsEntry; gitignoreEntry] eq_refl eq_refl) as [H1 H2].
  split; [vm_compute; reflexivity | split].
  - apply H1. now left.
  - apply H2. right. now left.
Defined.

(** C5 fails as stated: the path "./src/index.js/" is extracted as
    "./src/index.js", not "src/index.js". *)
Lemma structure_path_keeps_leading_dot :
  map path (parseStructureFromJsonMd structureDocument)
  = [js "./src/index.js"; js ".gitignore"]
  /\ ~ In (js "src/index.js") (map path (parseStructureFromJsonMd structureDocument)).
Proof.
  split; [vm_compute; reflexivity |].
  vm_compute. intros [H | [H | []]]; discriminate.
Qed.

(** ** Searching and splitting *)

Module SplitFacts.

Lemma startsWith_app (p s : jsstring) : startsWith p (p ++ s) = true.
Proof.
  induction p as [|a p IH]; simpl; [reflexivity |].
  now rewrite N.eqb_refl, IH.
Qed.

Lemma startsWith_spec (p s : jsstring) :
  startsWith p s = true <-> exists t, s = p ++ t.
Proof.
  split.
  - revert s. induction p as [|a p IH]; intros s H; simpl in *.
    + now exists s.
    + destruct s as [|b s]; [discriminate |].
      apply andb_true_iff in H as [Hab H]. apply N.eqb_eq in Hab as ->.
      destruct (IH _ H) as [t ->]. now exists t.
  - intros [t ->]. apply startsWith_app.
Qed.

(** [indexOfFrom] finds the first suffix that starts with the pattern. *)
Lemma indexOfFrom_spec (p s : jsstring) (i : Z) :
  (0 <= i)%Z ->
  (indexOfFrom p s i = (-1)%Z
   /\ forall k, (k <= length s)%nat -> startsWith p (skipn k s) = false)
  \/ (exists k, indexOfFrom p s i = (i + Z.of_nat k)%Z
               /\ (k <= length s)%nat
               /\ startsWith p (skipn k s) = true
               /\ forall j, (j < k)%nat -> startsWith p (skipn j s) = false).
Proof.
  revert i. induction s as [|c s IH]; intros i Hi; simpl.
  - destruct (startsWith p []) eqn:E.
    + right. exists 0%nat. repeat split; try assumption; try lia.
    + left. split; [reflexivity |]. intros k Hk.
      assert (k = 0%nat) as -> by (simpl in Hk; lia). exact E.
  - destruct (startsWith p (c :: s)) eqn:E.
    + right. exists 0%nat. repeat split; try assumption; simpl; lia.
    + destruct (IH (i + 1)%Z ltac:(lia)) as [[H1 H2] | (k & H1 & H2 & H3 & H4)].
      * left. split; [exact H1 |]. intros [|k] Hk; [exact E |].
        simpl. apply H2. simpl in Hk. lia.
      * right. exists (S k). repeat split.
        -- rewrite H1. lia.
        -- simpl. lia.
        -- exact H3.
        -- intros [|j] Hj; [exact E |]. simpl. apply H4. lia.
Qed.

Lemma indexOf_none (p s : jsstring) :
  indexOf p s = (-1)%Z ->
  forall k, (k <= length s)%nat -> startsWith p (skipn k s) = false.
Proof.
  intros H. destruct (indexOfFrom_spec p s 0 ltac:(lia)) as [[_ H2] | (k & H1 & _)].
  - exact H2.
  - unfold indexOf in H. lia.
Qed.

Lemma indexOf_first (p s : jsstring) (n : nat) :
  indexOf p s = Z.of_nat n ->
  startsWith p (skipn n s) = true
  /\ forall j, (j < n)%nat -> startsWith p (skipn j s) = false.
Proof.
  intros H. destruct (indexOfFrom_spec p s 0 ltac:(lia)) as [[H1 _] | (k & H1 & _ & H3 & H4)].
  - unfold indexOf in H. lia.
  - unfold indexOf in H. assert (k = n) as -> by lia. now split.
Qed.

Lemma includes_false (p s : jsstring) :
  includes p s = false <-> indexOf p s = (-1)%Z.
Proof.
  unfold includes. rewrite negb_false_iff. apply Z.eqb_eq.
Qed.

(** Stepping over the rest of a separator. *)
Lemma splitGo_skip (sep s cur : jsstring) (n : nat) :
  (n <= length s)%nat -> splitGo sep s cur n = splitGo sep (skipn n s) cur 0.
Proof.
  revert n. induction s as [|c s IH]; intros n Hn.
  - assert (n = 0%nat) as -> by (simpl in Hn; lia). reflexivity.
  - destruct n as [|n]; [reflexivity |]. simpl. apply IH. simpl in Hn. lia.
Qed.

(** Without an occurrence of the separator there is one piece. *)
Lemma splitGo_none (sep s cur : jsstring) :
  (forall k, (k <= length s)%nat -> startsWith sep (skipn k s) = false) ->
  splitGo sep s cur 0 = [rev cur ++ s].
Proof.
  revert cur. induction s as [|c s IH]; intros cur H.
  - simpl. now rewrite app_nil_r.
  - pose proof (H 0%nat ltac:(lia)) as H0.
    change (skipn 0 (c :: s)) with (c :: s) in H0.
    cbn [splitGo]. rewrite H0, IH.
    + simpl. now rewrite <- app_assoc.
    + intros k Hk. apply (H (S k)). simpl. lia.
Qed.

(** The first piece ends at the first occurrence of the separator. *)
Lemma splitGo_first (sep a b cur : jsstring) :
  sep <> [] ->
  (forall j, (j < length a)%nat -> startsWith sep (skipn j (a ++ sep ++ b)) = false) ->
  splitGo sep (a ++ sep ++ b) cur 0 = (rev cur ++ a) :: splitGo sep b [] 0.
Proof.
  intros Hsep. revert cur. induction a as [|x a IH]; intros cur H.
  - destruct sep as [|c sep]; [congruence |].
    assert (E : startsWith (c :: sep) (c :: sep ++ b) = true)
      by apply (startsWith_app (c :: sep) b).
    simpl app. cbn [splitGo]. rewrite E, app_nil_r. f_equal.
    cbn [length Nat.pred].
    rewrite splitGo_skip by (rewrite length_app; lia).
    now rewrite skipn_app, skipn_all, Nat.sub_diag.
  - pose proof (H 0%nat ltac:(simpl; lia)) as H0.
    change (skipn 0 ((x :: a) ++ sep ++ b)) with (x :: a ++ sep ++ b) in H0.
    simpl app. cbn [splitGo]. rewrite H0, IH.
    + simpl. now rewrite <- app_assoc.
    + intros j Hj. apply (H (S j)). simpl. lia.
Qed.

End SplitFacts.
Import SplitFacts.

(** ** Stage 2: the split on the separator *)

Lemma orDefault_nonempty (x : option jsstring) (fallback : jsstring) :
  fallback <> [] -> orDefault x fallback <> [].
Proof.
  intros H. unfold orDefault. destruct x as [s|]; [| exact H].
  destruct (truthy s) eqn:E; [now apply truthy_nonempty | exact H].
Qed.

Lemma splitStructure_nonempty (raw : jsstring) :
  fst (splitStructure raw) <> [] /\ snd (splitStructure raw) <> [].
Proof.
  unfold splitStructure. simpl. split; now apply orDefault_nonempty.
Qed.

Lemma splitStructure_halves (a b : jsstring) :
  indexOf separator (a ++ separator ++ b) = len a ->
  includes separator b = false ->
  splitStructure (a ++ separator ++ b)
  = (if truthy (trim a) then trim a else structurePlaceholder,
     if truthy (trim b) then trim b else commandPlaceholder).
Proof.
  intros Ha Hb. unfold splitStructure, splitStr.
  rewrite splitGo_first.
  - rewrite (splitGo_none separator b []).
    + reflexivity.
    + now apply indexOf_none, includes_false.
  - discriminate.
  - now apply indexOf_first.
Qed.

Lemma splitStructure_no_separator (raw : jsstring) :
  includes separator raw = false ->
  splitStructure raw
  = (if truthy (trim raw) then trim raw else structurePlaceholder,
     commandPlaceholder).
Proof.
  intros H. unfold splitStructure, splitStr.
  rewrite (splitGo_none separator raw []).
  - reflexivity.
  - now apply indexOf_none, includes_false.
Qed.

(** C7. Once the structure call has answered, stage 2 returns normally,
    whatever the validation call does: the (possibly validated) text is
    split on the separator into the structure markdown before it and the
    concise command after it, both trimmed, and a half that is empty after
    the split is replaced by its fixed placeholder; neither half returned
    is ever empty. *)
Theorem structuring_split (w : World) (projectIdea analysisResult raw : jsstring)
    (st st1 st2 : State) (validation : llmResult) :
  isCancellationRequested st = false ->
  callLLM w Stage2 st = (Resolved raw, st1) ->
  isCancellationRequested st1 = false ->
  callLLM w Stage2_5 st1 = (validation, st2) ->
  let validated :=
    match validation with
    | Resolved response =>
        if streq (toUpperCase (trim response)) (js "OK") then raw else response
    | Rejected _ => raw
    end in
  exists structureResultMd conciseCommand,
    runStructuringStage w projectIdea analysisResult st
    = (inr (structureResultMd, conciseCommand), st2)
    /\ structureResultMd <> [] /\ conciseCommand <> []
    /\ (forall a b,
          validated = a ++ separator ++ b ->
          indexOf separator validated = len a ->
          includes separator b = false ->
          structureResultMd
          = (if truthy (trim a) then trim a else structurePlaceholder)
          /\ conciseCommand
             = (if truthy (trim b) then trim b else commandPlaceholder))
    /\ (includes separator validated = false ->
        structureResultMd
        = (if truthy (trim validated) then trim validated
           else structurePlaceholder)
        /\ conciseCommand = commandPlaceholder).
Proof.
  intros H0 H1 H2 H3 validated.
  exists (fst (splitStructure validated)), (snd (splitStructure validated)).
  split; [| split; [| split; [| split]]].
  - unfold runStructuringStage. run_stage. rewrite <- surjective_pairing.
    do 2 f_equal. f_equal. subst validated. unfold isNotOK.
    destruct validation as [response|message]; [| reflexivity].
    assert (Ht : truthy response = true).
    { apply truthy_nonempty, trim_nonblank_nonempty.
      exact (callLLM_resolved _ _ _ _ _ H3). }
    rewrite Ht. simpl. now destruct (streq _ _).
  - apply splitStructure_nonempty.
  - apply splitStructure_nonempty.
  - intros a b Hv Ha Hb. rewrite Hv in *.
    now rewrite (splitStructure_halves a b Ha Hb).
  - intros Hv. now rewrite (splitStructure_no_separator _ Hv).
Qed.

Lemma structuring_split_witness :
  runStructuringStage missingCommand (js "A to-do list") (js "Analysis")
    (initialState false)
  = (inr (js "## Proposed Structure", commandPlaceholder),
     {| isCancellationRequested := false;
        llmCalls := [(Stage2, 1%nat); (Stage2_5, 1%nat)] |}).
Proof.
  destruct (structuring_split missingCommand (js "A to-do list") (js "Analysis")
              (js "## Proposed Structure\n--- CONCISE ONE-SHOT COMMAND BELOW ---\n  ")
              (initialState false)
              {| isCancellationRequested := false; llmCalls := [(Stage2, 1%nat)] |}
              {| isCancellationRequested := false;
                 llmCalls := [(Stage2, 1%nat); (Stage2_5, 1%nat)] |}
              (Resolved (js "OK")) eq_refl eq_refl eq_refl eq_refl)
    as (md & cmd & Hrun & _ & _ & Hsplit & _).
  destruct (Hsplit (js "## Proposed Structure\n") (js "\n  ")
              eq_refl eq_refl eq_refl) as [-> ->].
  exact Hrun.
Defined.

(** ** A completed run always has its .roomodes and its roo-plan.md *)

Module RunFacts.

Lemma bind_inr {A B} (m : M A) (k : A -> M B) (st st' : State) (b : B) :
  bind m k st = (inr b, st') ->
  exists a s, m st = (inr a, s) /\ k a s = (inr b, st').
Proof.
  unfold bind. destruct (m st) as [[e|a] s]; [discriminate | eauto].
Qed.

Lemma promiseAll5_inr {A B C D E} (a : M A) (b : M B) (c : M C) (d : M D)
    (e : M E) (st st' : State) (xa : A) (xb : B) (xc : C) (xd : D) (xe : E) :
  promiseAll5 a b c d e st = (inr (xa, xb, xc, xd, xe), st') ->
  exists s, fork e st = (inr xe, s).
Proof.
  unfold promiseAll5.
  destruct (fork a st) as [[?|?] ?], (fork b st) as [[?|?] ?],
    (fork c st) as [[?|?] ?], (fork d st) as [[?|?] ?],
    (fork e st) as [[?|?] ?]; try discriminate.
  intros [= _ _ _ _ <- _]. eauto.
Qed.

Lemma modesFromRaw_nonempty (w : World) (structureResultMd raw : jsstring) :
  roomodesResult (modesFromRaw w structureResultMd raw) <> [].
Proof.
  destruct (parsedModesSuccessfully (modesFromRaw w structureResultMd raw)) eqn:F.
  - revert F. unfold modesFromRaw, delegateSlugs.
    destruct (parsedSlugs w (stripModesFence (trim raw))) as [slugs|] eqn:E; simpl.
    + intros _. unfold parsedSlugs in E.
      destruct (JSON_parse (stripModesFence (trim raw))) eqn:P; [| discriminate].
      now apply JSON_parse_truthy, truthy_nonempty in P.
    + now destruct (fallbackModes structureResultMd).
  - rewrite (modesFromRaw_fallback _ _ _ F). simpl. unfold fallbackModes.
    destruct (simpleProjectHeuristic structureResultMd); discriminate.
Qed.

Lemma includes_nonempty (p s : jsstring) :
  p <> [] -> includes p s = true -> s <> [].
Proof.
  intros Hp H ->. destruct p; [congruence | discriminate].
Qed.

Lemma fallbackPlan_nonempty (w : World) (conciseCommand : jsstring)
    (slugs : list json) (st st' : State) (plan : jsstring) :
  fallbackPlan w conciseCommand slugs st = (inr plan, st') -> plan <> [].
Proof.
  unfold fallbackPlan, throw, ret.
  repeat match goal with
         | |- context [match ?x with _ => _ end] => destruct x
         end; try discriminate.
  intros [= <- _]. discriminate.
Qed.

Lemma runPlanAssemblyStage_nonempty (w : World)
    (conciseCommand structureResultMd : jsstring) (slugs : list json)
    (st st' : State) (finalPlan : jsstring) (planIsValid : bool) :
  runPlanAssemblyStage w conciseCommand structureResultMd slugs st
  = (inr (finalPlan, planIsValid), st') ->
  finalPlan <> [].
Proof.
  unfold runPlanAssemblyStage. intros H.
  apply bind_inr in H as ([] & s0 & _ & H).
  apply bind_inr in H as (r & s1 & _ & H).
  apply bind_inr in H as ([plan valid] & s2 & Hdraft & H).
  destruct valid.
  - injection H as <- _ _.
    destruct r as [draft|message]; [| discriminate].
    destruct (truthy draft) eqn:Ht; [| discriminate].
    destruct (planValidationIssues draft).
    + injection Hdraft as <- _. now apply truthy_nonempty.
    + apply bind_inr in Hdraft as ([] & s3 & _ & Hdraft).
      apply bind_inr in Hdraft as (r2 & s4 & _ & Hdraft).
      destruct r2 as [refined|message]; [| discriminate].
      injection Hdraft as <- Hv _.
      apply andb_true_iff in Hv as [Hv _]. now apply truthy_nonempty.
  - apply bind_inr in H as (fb & s3 & Hfb & H).
    injection H as <- _ _. exact (fallbackPlan_nonempty _ _ _ _ _ _ Hfb).
Qed.

Lemma runPlanRefinementStage_nonempty (w : World)
    (finalPlan roomodes structureResultMd : jsstring) (st st' : State)
    (reviewed : jsstring) :
  finalPlan <> [] ->
  runPlanRefinementStage w finalPlan roomodes structureResultMd st
  = (inr reviewed, st') ->
  reviewed <> [].
Proof.
  intros Hp. unfold runPlanRefinementStage, bind, checkCancellation, awaitLLM, ret.
  destruct (isCancellationRequested st); [discriminate |].
  destruct (callLLM w Stage6_5 st) as [[response|message] s] eqn:E.
  - destruct (isNotOK response); intros [= <- _]; [| exact Hp].
    exact (callLLM_resolved _ _ _ _ _ E).
  - now intros [= <- _].
Qed.

Lemma awaitLLM_inr (w : World) (site : CallSite) (st st' : State)
    (r : llmResult) :
  awaitLLM w site st = (inr r, st') -> callLLM w site st = (r, st').
Proof.
  unfold awaitLLM. destruct (callLLM w site st) as [r0 s]. now intros [= <- <-].
Qed.

(** Where the .roomodes text comes from: the model, or the fallback. *)
Lemma modesFromRaw_origin (w : World) (structureResultMd raw : jsstring) :
  raw = js "{}" \/ modelText w Stage5 raw ->
  modelModeSet w (roomodesResult (modesFromRaw w structureResultMd raw))
  \/ fallbackModeSet w (roomodesResult (modesFromRaw w structureResultMd raw)).
Proof.
  intros Hraw. unfold modesFromRaw.
  destruct (delegateSlugs w (stripModesFence (trim raw))) as [slugs|] eqn:E.
  - left. cbn [roomodesResult]. destruct Hraw as [-> | Hraw].
    + vm_compute in E. discriminate.
    + exists raw. split; [exact Hraw |]. split; [reflexivity |]. now rewrite E.
  - right. exists structureResultMd.
    now destruct (fallbackModes structureResultMd).
Qed.

Lemma fallbackPlan_origin (w : World) (conciseCommand : jsstring)
    (slugs : list json) (st st' : State) (plan : jsstring) :
  fallbackPlan w conciseCommand slugs st = (inr plan, st') ->
  fallbackPlanOf w plan.
Proof.
  unfold fallbackPlan, throw, ret.
  repeat match goal with
         | |- context [match ?x with _ => _ end] => destruct x
         end; try discriminate.
  intros [= <- _]. exists conciseCommand. eauto.
Qed.

(** Where the assembled plan comes from: a plan judged valid is the
    model's, any other is the fallback. *)
Lemma runPlanAssemblyStage_origin (w : World)
    (conciseCommand structureResultMd : jsstring) (slugs : list json)
    (st st' : State) (finalPlan : jsstring) (planIsValid : bool) :
  runPlanAssemblyStage w conciseCommand structureResultMd slugs st
  = (inr (finalPlan, planIsValid), st') ->
  modelPlan w finalPlan \/ fallbackPlanOf w finalPlan.
Proof.
  unfold runPlanAssemblyStage. intros H.
  apply bind_inr in H as ([] & s0 & _ & H).
  apply bind_inr in H as (r & s1 & Hr & H).
  apply awaitLLM_inr in Hr.
  apply bind_inr in H as ([plan valid] & s2 & Hdraft & H).
  destruct valid.
  - injection H as <- _ _. left.
    destruct r as [draft|message]; [| discriminate].
    destruct (truthy draft) eqn:Ht; [| discriminate].
    destruct (planValidationIssues draft) eqn:Hi.
    + injection Hdraft as <- _. left.
      split; [exact (callLLM_model_text _ _ _ _ _ Hr) | exact Hi].
    + apply bind_inr in Hdraft as ([] & s3 & _ & Hdraft).
      apply bind_inr in Hdraft as (r2 & s4 & Hr2 & Hdraft).
      apply awaitLLM_inr in Hr2.
      destruct r2 as [refined|message]; [| discriminate].
      injection Hdraft as <- Hv _.
      apply andb_true_iff in Hv as [_ Hv]. right. left.
      split; [exact (callLLM_model_text _ _ _ _ _ Hr2) | exact Hv].
  - apply bind_inr in H as (fb & s3 & Hfb & H).
    injection H as <- _ _. right. exact (fallbackPlan_origin _ _ _ _ _ _ Hfb).
Qed.

(** The review keeps the plan or replaces it by the model's answer. *)
Lemma runPlanRefinementStage_origin (w : World)
    (finalPlan roomodes structureResultMd : jsstring) (st st' : State)
    (reviewed : jsstring) :
  runPlanRefinementStage w finalPlan roomodes structureResultMd st
  = (inr reviewed, st') ->
  reviewed = finalPlan
  \/ exists response,
       modelText w Stage6_5 response /\ isNotOK response = true
       /\ reviewed = trim response.
Proof.
  unfold runPlanRefinementStage, bind, checkCancellation, awaitLLM, ret.
  destruct (isCancellationRequested st); [discriminate |].
  destruct (callLLM w Stage6_5 st) as [[response|message] s] eqn:E.
  - destruct (isNotOK response) eqn:Hn; intros [= <- _]; [| now left].
    right. exists response.
    split; [exact (callLLM_model_text _ _ _ _ _ E) | auto].
  - intros [= <- _]. now left.
Qed.

End RunFacts.
Import RunFacts.

(** C1. Whenever [runAdvancedReasoningEngine] returns normally, whatever
    the model answered and wherever its calls failed, the artifact map has
    an entry ".roomodes" and an entry "roo-plan.md", each with a text that
    is not empty. The .roomodes text is the model's answer to the mode-set
    call, trimmed and without its fence, when that parses to a mode-set,
    and else the serialized fallback mode-set. The plan is an answer of
    the model, to the assembly call, to its refinement call or to the
    review call, and else the fallback plan. *)
Theorem completed_run_artifacts (w : World) (projectIdea : jsstring)
    (st st' : State) (result : engineResult) :
  runAdvancedReasoningEngine w projectIdea st = (inr result, st') ->
  exists roomodes plan,
    artifacts result !! js ".roomodes" = Some roomodes /\ roomodes <> []
    /\ artifacts result !! js "roo-plan.md" = Some plan /\ plan <> []
    /\ (modelModeSet w roomodes \/ fallbackModeSet w roomodes)
    /\ (modelPlan w plan \/ fallbackPlanOf w plan).
Proof.
  unfold runAdvancedReasoningEngine.
  destruct (engineBody w projectIdea st) as [[[m|m]|res] s] eqn:H; try discriminate.
  intros [= <- <-]. unfold engineBody in H.
  apply bind_inr in H as (analysisResult & s1 & _ & H).
  apply bind_inr in H as ([] & s2 & _ & H).
  apply bind_inr in H as ([md0 conciseCommand] & s3 & _ & H).
  apply bind_inr in H as ([] & s4 & _ & H).
  apply bind_inr in H as (md & s5 & _ & H).
  apply bind_inr in H as ([] & s6 & _ & H).
  apply bind_inr in H as ([[[[rules rooignore] workspace] footgun] modes] & s7 & Hpar & H).
  apply bind_inr in H as ([] & s8 & _ & H).
  apply bind_inr in H as ([finalPlan planIsValid] & s9 & Hplan & H).
  apply bind_inr in H as ([] & s10 & _ & H).
  apply bind_inr in H as (reviewed & s11 & Hreview & H).
  apply bind_inr in H as ([] & s12 & _ & H).
  injection H as <- _.
  apply promiseAll5_inr in Hpar as [sm Hmodes]. unfold fork in Hmodes.
  apply runModesGenerationStage_result in Hmodes as (raw & -> & Hraw).
  pose proof (modesFromRaw_nonempty w md raw) as Hroomodes.
  assert (Hmodeset :
            modelModeSet w (roomodesResult (modesFromRaw w md raw))
            \/ fallbackModeSet w (roomodesResult (modesFromRaw w md raw))).
  { apply modesFromRaw_origin. destruct Hraw as [[-> _] | Hraw]; [now left |].
    right. exact (callLLM_model_text _ _ _ _ _ Hraw). }
  pose proof (runPlanAssemblyStage_nonempty _ _ _ _ _ _ _ _ Hplan) as Hfinal.
  pose proof (runPlanAssemblyStage_origin _ _ _ _ _ _ _ _ Hplan) as Horigin.
  assert (Hreviewed : reviewed <> []
                      /\ (modelPlan w reviewed \/ fallbackPlanOf w reviewed)).
  { destruct (_ && _)%bool in Hreview.
    - split; [exact (runPlanRefinementStage_nonempty _ _ _ _ _ _ _ Hfinal Hreview) |].
      apply runPlanRefinementStage_origin in Hreview as [-> | Hresponse];
        [exact Horigin |].
      left. right. right. exact Hresponse.
    - injection Hreview as <- _. auto. }
  destruct Hreviewed as [Hreviewed Hplanorigin].
  exists (roomodesResult (modesFromRaw w md raw)), reviewed.
  cbn [artifacts]. unfold addArtifact at 1 2.
  apply truthy_nonempty in Hroomodes as Hr1. apply truthy_nonempty in Hreviewed as Hr2.
  rewrite Hr1, Hr2.
  split; [| split; [exact Hroomodes
                   | split; [apply lookup_insert_eq
                            | split; [exact Hreviewed | auto]]]].
  rewrite lookup_insert_ne by (vm_compute; discriminate).
  apply lookup_insert_eq.
Qed.

Lemma completed_run_artifacts_witness :
  exists result st',
    runAdvancedReasoningEngine happyWorld (js "A simple to-do list CLI in Python")
      (initialState false) = (inr result, st')
    /\ exists roomodes plan,
         artifacts result !! js ".roomodes" = Some roomodes /\ roomodes <> []
         /\ artifacts result !! js "roo-plan.md" = Some plan /\ plan <> []
         /\ (modelModeSet happyWorld roomodes \/ fallbackModeSet happyWorld roomodes)
         /\ (modelPlan happyWorld plan \/ fallbackPlanOf happyWorld plan).
Proof.
  destruct (runAdvancedReasoningEngine happyWorld
              (js "A simple to-do list CLI in Python") (initialState false))
    as [[e|result] st'] eqn:E.
  - vm_compute in E. discriminate.
  - exists result, st'. split; [reflexivity |].
    exact (completed_run_artifacts _ _ _ _ _ E).
Defined.

(** ** The matcher on the patterns of stage 3 *)

Module RegexFacts.

Lemma matcher_seq {A} (fl : flags) (r1 r2 : regex) (x : mstate)
    (k : mstate -> option A) :
  matcher fl (RSeq r1 r2) x k = matcher fl r1 x (fun y => matcher fl r2 y k).
Proof. reflexivity. Qed.

Lemma matcher_alt {A} (fl : flags) (r1 r2 : regex) (x : mstate)
    (k : mstate -> option A) :
  matcher fl (RAlt r1 r2) x k = orElse (matcher fl r1 x k) (matcher fl r2 x k).
Proof. reflexivity. Qed.

Lemma matcher_group {A} (fl : flags) (r : regex) (x : mstate)
    (k : mstate -> option A) :
  matcher fl (RGroup r) x k
  = matcher fl r x (fun y =>
      k {| pos := pos y; prev := prev y; rest := rest y;
           cap := Some (firstn (pos y - pos x) (rest x)) |}).
Proof. reflexivity. Qed.

Lemma matcher_eol {A} (fl : flags) (x : mstate) (k : mstate -> option A) :
  matcher fl REol x k = if atEol fl x then k x else None.
Proof. reflexivity. Qed.

Lemma matcher_bol {A} (fl : flags) (x : mstate) (k : mstate -> option A) :
  matcher fl RBol x k = if atBol fl x then k x else None.
Proof. reflexivity. Qed.

Lemma matchAt_eq (fl : flags) (r : regex) (x : mstate) :
  matchAt fl r x = matcher fl r x (matchUpTo x).
Proof. reflexivity. Qed.

Lemma consume_rest (l : jsstring) : forall (x : mstate) (t : jsstring),
  rest x = l ++ t -> rest (consume x l) = t.
Proof.
  induction l as [|c l IH]; intros x t H; simpl.
  - exact H.
  - apply IH. simpl. now rewrite H.
Qed.

Lemma consume_pos (l : jsstring) : forall x : mstate,
  pos (consume x l) = (pos x + length l)%nat.
Proof.
  induction l as [|c l IH]; intros x; simpl.
  - lia.
  - rewrite IH. simpl. lia.
Qed.

Lemma consume_cap (l : jsstring) : forall x : mstate,
  cap (consume x l) = cap x.
Proof.
  induction l as [|c l IH]; intros x; simpl; [reflexivity | now rewrite IH].
Qed.

(** A literal matches when the input starts with it. *)
Lemma matcher_str {A} (fl : flags) (L : jsstring) :
  ignoreCase fl = false ->
  forall (x : mstate) (k : mstate -> option A),
    matcher fl (str L) x k
    = if startsWith L (rest x) then k (consume x L) else None.
Proof.
  intros Hfl. induction L as [|c L IH]; intros x k.
  - reflexivity.
  - assert (Hc : forall k' : mstate -> option A,
               matcher fl (RChar c) x k'
               = match rest x with
                 | c' :: t => if c =? c' then k' (advance x c t) else None
                 | [] => None
                 end).
    { intros k'. simpl. unfold charMatches. rewrite Hfl.
      destruct (rest x) as [|c' t]; [reflexivity |].
      destruct (N.eqb_spec c c') as [<- | _]; reflexivity. }
    destruct L as [|c2 L].
    + change (str [c]) with (RChar c). rewrite Hc. simpl.
      destruct (rest x) as [|c' t]; [reflexivity |].
      simpl. now rewrite andb_true_r.
    + change (matcher fl (str (c :: c2 :: L)) x k)
        with (matcher fl (RChar c) x (fun y => matcher fl (str (c2 :: L)) y k)).
      rewrite Hc. cbn [startsWith consume].
      destruct (rest x) as [|c' t] eqn:E; [reflexivity |].
      destruct (c =? c'); [| reflexivity].
      rewrite IH. reflexivity.
Qed.

Lemma repeat_unfold {A} (m : mstate -> (mstate -> option A) -> option A)
    (k : mstate -> option A) (g : bool) (fuel : nat) (x : mstate) :
  repeatMatcher m k g (S fuel) 0 None x
  = let d := fun y : mstate =>
      if Nat.eqb (pos y) (pos x) then None
      else repeatMatcher m k g fuel 0 None y in
    if g then orElse (m x d) (k x) else orElse (k x) (m x d).
Proof. reflexivity. Qed.

Lemma eqb_succ (n : nat) : Nat.eqb (S n) n = false.
Proof. apply Nat.eqb_neq. lia. Qed.

(** A greedy star over a class is a greedy run. *)
Lemma repeat_greedy {A} (m : mstate -> (mstate -> option A) -> option A)
    (p : N -> bool) (k : mstate -> option A) :
  (forall x d, m x d = match rest x with
                       | c :: t => if p c then d (advance x c t) else None
                       | [] => None
                       end) ->
  forall (l : jsstring) (x : mstate) (fuel : nat),
    rest x = l -> (length l < fuel)%nat ->
    repeatMatcher m k true fuel 0 None x = greedyRun p x l k.
Proof.
  intros Hm. induction l as [|c t IH]; intros x fuel Hx Hf;
    (destruct fuel as [|fuel]; [simpl in Hf; lia |]);
    rewrite repeat_unfold; cbv zeta; rewrite Hm, Hx; cbn [greedyRun].
  - reflexivity.
  - destruct (p c); [| reflexivity].
    cbn [pos advance]. rewrite eqb_succ.
    rewrite (IH (advance x c t) fuel eq_refl) by (simpl in Hf; lia).
    reflexivity.
Qed.

Lemma matcher_star_set {A} (fl : flags) (p : N -> bool) (x : mstate)
    (k : mstate -> option A) :
  ignoreCase fl = false ->
  matcher fl (star (RSet p)) x k = greedyRun p x (rest x) k.
Proof.
  intros Hfl. unfold star.
  change (matcher fl (RQuant 0 None true (RSet p)) x k)
    with (repeatMatcher (matcher fl (RSet p)) k true
            (S (0 + length (rest x))) 0 None x).
  apply repeat_greedy; [| reflexivity | lia].
  intros y d. cbn [matcher]. unfold setMatches. now rewrite Hfl.
Qed.

(** A lazy star over any code unit is a lazy run. *)
Lemma repeat_lazy {A} (m : mstate -> (mstate -> option A) -> option A)
    (k : mstate -> option A) :
  (forall x d, m x d = match rest x with
                       | c :: t => d (advance x c t)
                       | [] => None
                       end) ->
  forall (l : jsstring) (x : mstate) (fuel : nat),
    rest x = l -> (length l < fuel)%nat ->
    repeatMatcher m k false fuel 0 None x = lazyRun x l k.
Proof.
  intros Hm. induction l as [|c t IH]; intros x fuel Hx Hf;
    (destruct fuel as [|fuel]; [simpl in Hf; lia |]);
    rewrite repeat_unfold; cbv zeta; rewrite Hm, Hx; cbn [lazyRun].
  - reflexivity.
  - cbn [pos advance]. rewrite eqb_succ.
    rewrite (IH (advance x c t) fuel eq_refl) by (simpl in Hf; lia).
    reflexivity.
Qed.

Lemma matcher_lazy_any {A} (fl : flags) (x : mstate) (k : mstate -> option A) :
  matcher fl (starLazy anyChar) x k = lazyRun x (rest x) k.
Proof.
  unfold starLazy.
  change (matcher fl (RQuant 0 None false anyChar) x k)
    with (repeatMatcher (matcher fl anyChar) k false
            (S (0 + length (rest x))) 0 None x).
  apply repeat_lazy; [| reflexivity | lia].
  intros y d. unfold anyChar. cbn [matcher]. unfold setMatches.
  destruct (rest y); [reflexivity |]. now destruct (ignoreCase fl).
Qed.

(** A greedy run of white space ends where the white space ends, when the
    continuation succeeds there. *)
Lemma greedyRun_longest {A} (k : mstate -> option A) (r : A) :
  forall (l : jsstring) (x : mstate),
    rest x = l ->
    k (consume x (firstn (spaceRun l) l)) = Some r ->
    greedyRun isWhiteSpace x l k = Some r.
Proof.
  induction l as [|c t IH]; intros x Hx Hk; cbn [greedyRun spaceRun] in *.
  - exact Hk.
  - destruct (isWhiteSpace c); [| exact Hk].
    cbn [firstn consume] in Hk. rewrite Hx in Hk. cbn [tl] in Hk.
    now rewrite (IH (advance x c t) eq_refl Hk).
Qed.

Lemma consume_firstn_rest (x : mstate) (l : jsstring) (n : nat) :
  rest x = l -> rest (consume x (firstn n l)) = skipn n l.
Proof.
  intros H. apply consume_rest. now rewrite firstn_skipn.
Qed.

Lemma spaceRun_le (l : jsstring) : (spaceRun l <= length l)%nat.
Proof.
  induction l as [|c t IH]; simpl; [lia |].
  destruct (isWhiteSpace c); simpl; lia.
Qed.

(** The end of the section pattern: "##" here, or the end of the input. *)
Lemma matcher_section_end (x0 z : mstate) :
  matcher noFlags (RAlt (str (js "##")) REol) z (matchUpTo x0)
  = if startsWith (js "##") (rest z) then matchUpTo x0 (consume z (js "##"))
    else match rest z with
         | [] => matchUpTo x0 z
         | _ :: _ => None
         end.
Proof.
  rewrite matcher_alt, (matcher_str noFlags), matcher_eol by reflexivity.
  destruct (startsWith (js "##") (rest z)); [reflexivity |].
  cbn [orElse]. unfold atEol. now destruct (rest z).
Qed.

(** The lazy group of the section pattern ends after the first "##", or at
    the end of the input. *)
Lemma lazyRun_span (x0 g : mstate) :
  forall (l : jsstring) (y : mstate),
    rest y = l ->
    exists gr,
      lazyRun y l
        (fun y' =>
           matcher noFlags (RAlt (str (js "##")) REol)
             {| pos := pos y'; prev := prev y'; rest := rest y';
                cap := Some (firstn (pos y' - pos g) (rest g)) |}
             (matchUpTo x0))
      = Some {| index := pos x0;
                whole := firstn (pos y + spanEnd l - pos x0) (rest x0);
                group1 := gr;
                endIndex := pos y + spanEnd l |}.
Proof.
  set (K := fun y' : mstate =>
              matcher noFlags (RAlt (str (js "##")) REol)
                {| pos := pos y'; prev := prev y'; rest := rest y';
                   cap := Some (firstn (pos y' - pos g) (rest g)) |}
                (matchUpTo x0)).
  assert (HK : forall y',
             K y' = if startsWith (js "##") (rest y')
                    then Some {| index := pos x0;
                                 whole := firstn (pos y' + 2 - pos x0) (rest x0);
                                 group1 := Some (firstn (pos y' - pos g) (rest g));
                                 endIndex := pos y' + 2 |}
                    else match rest y' with
                         | [] => Some {| index := pos x0;
                                         whole := firstn (pos y' - pos x0) (rest x0);
                                         group1 := Some (firstn (pos y' - pos g) (rest g));
                                         endIndex := pos y' |}
                         | _ :: _ => None
                         end).
  { intros y'. unfold K. rewrite matcher_section_end. cbn [rest].
    destruct (startsWith (js "##") (rest y')).
    - unfold matchUpTo. now rewrite consume_pos, consume_cap.
    - now destruct (rest y'). }
  induction l as [|c t IH]; intros y Hy; cbn [lazyRun]; rewrite HK, Hy.
  - eexists. cbn [startsWith js spanEnd orElse]. now rewrite Nat.add_0_r.
  - cbn [spanEnd]. destruct (startsWith (js "##") (c :: t)).
    + eexists. reflexivity.
    + cbn [orElse]. destruct (IH (advance y c t) eq_refl) as [gr Hgr].
      exists gr. rewrite Hgr. cbn [pos advance]. now rewrite Nat.add_succ_r.
Qed.

Lemma prelimOutlineParser_eq :
  prelimOutlineParser
  = RSeq (str outlineHeading)
      (RSeq (star space)
         (RSeq (RGroup (starLazy anyChar)) (RAlt (str (js "##")) REol))).
Proof. reflexivity. Qed.

(** The section pattern at a given index: it matches when the input starts
    with the heading there, and then over the span of the section. *)
Lemma matchAt_prelim (x0 : mstate) :
  (startsWith outlineHeading (rest x0) = false ->
   matchAt noFlags prelimOutlineParser x0 = None)
  /\ (startsWith outlineHeading (rest x0) = true ->
      exists gr,
        matchAt noFlags prelimOutlineParser x0
        = Some {| index := pos x0;
                  whole := firstn (sectionSpan (rest x0)) (rest x0);
                  group1 := gr;
                  endIndex := pos x0 + sectionSpan (rest x0) |}).
Proof.
  rewrite matchAt_eq, prelimOutlineParser_eq, matcher_seq.
  rewrite (matcher_str noFlags) by reflexivity.
  split; intros H; rewrite H; [reflexivity |].
  apply startsWith_spec in H as [t Ht].
  pose proof (consume_rest outlineHeading x0 t Ht) as Hr1.
  pose proof (consume_pos outlineHeading x0) as Hp1.
  change (length outlineHeading) with 23%nat in Hp1.
  revert Hr1 Hp1. generalize (consume x0 outlineHeading). intros x1 Hr1 Hp1.
  rewrite matcher_seq. unfold space.
  rewrite (matcher_star_set noFlags) by reflexivity. rewrite Hr1.
  pose proof (consume_firstn_rest x1 t (spaceRun t) Hr1) as Hr2.
  pose proof (consume_pos (firstn (spaceRun t) t) x1) as Hp2.
  rewrite length_firstn, Hp1 in Hp2.
  pose proof (spaceRun_le t) as Hle.
  assert (Hsec : sectionSpan (rest x0)
                 = (23 + spaceRun t + spanEnd (skipn (spaceRun t) t))%nat).
  { unfold sectionSpan. rewrite Ht. reflexivity. }
  rewrite Hsec. clear Hsec.
  remember (consume x1 (firstn (spaceRun t) t)) as x2 eqn:Ex2.
  destruct (lazyRun_span x0 x2 (rest x2) x2 eq_refl) as [gr Hgr].
  exists gr. apply greedyRun_longest; [exact Hr1 |].
  rewrite <- Ex2, matcher_seq, matcher_group, matcher_lazy_any, Hgr.
  rewrite Hr2, Hp2. do 2 f_equal; [f_equal |]; lia.
Qed.

(** The search for the section pattern stops at the first occurrence of the
    heading. *)
Lemma search_prelim (s : jsstring) :
  forall (i : nat) (p : option N),
    ((forall k, (k <= length s)%nat -> startsWith outlineHeading (skipn k s) = false) ->
     search noFlags prelimOutlineParser i p s = None)
    /\ (forall n,
          startsWith outlineHeading (skipn n s) = true ->
          (forall j, (j < n)%nat -> startsWith outlineHeading (skipn j s) = false) ->
          exists gr,
            search noFlags prelimOutlineParser i p s
            = Some {| index := i + n;
                      whole := firstn (sectionSpan (skipn n s)) (skipn n s);
                      group1 := gr;
                      endIndex := i + n + sectionSpan (skipn n s) |}).
Proof.
  assert (Hnone : forall i p s,
             startsWith outlineHeading s = false ->
             matchAt noFlags prelimOutlineParser
               {| pos := i; prev := p; rest := s; cap := None |} = None).
  { intros i p s' H. now apply (proj1 (matchAt_prelim _)). }
  assert (Hsome : forall i p s,
             startsWith outlineHeading s = true ->
             exists gr,
               matchAt noFlags prelimOutlineParser
                 {| pos := i; prev := p; rest := s; cap := None |}
               = Some {| index := i;
                         whole := firstn (sectionSpan s) s;
                         group1 := gr;
                         endIndex := i + sectionSpan s |}).
  { intros i p s' H.
    exact (proj2 (matchAt_prelim
                    {| pos := i; prev := p; rest := s'; cap := None |}) H). }
  induction s as [|c s IH]; intros i p.
  - split.
    + intros H. cbn [search]. rewrite Hnone; [reflexivity |].
      exact (H 0%nat (Nat.le_refl _)).
    + intros n Hn _. assert (E : skipn n ([] : jsstring) = []) by now destruct n.
      rewrite E in Hn. discriminate.
  - split.
    + intros H. cbn [search]. rewrite Hnone.
      * cbn [orElse]. apply (IH (S i) (Some c)).
        intros k Hk. apply (H (S k)). simpl. lia.
      * exact (H 0%nat (Nat.le_0_l _)).
    + intros [|n] Hn Hfirst.
      * cbn [search]. cbn [skipn] in Hn.
        destruct (Hsome i p (c :: s) Hn) as [gr Hgr].
        exists gr. rewrite Hgr. cbn [orElse skipn].
        now rewrite Nat.add_0_r.
      * cbn [search]. rewrite Hnone.
        -- cbn [orElse].
           destruct (proj2 (IH (S i) (Some c)) n Hn) as [gr Hgr].
           { intros j Hj. apply (Hfirst (S j)). lia. }
           exists gr. rewrite Hgr. cbn [skipn].
           now replace (S i + n)%nat with (i + S n)%nat by lia.
        -- exact (Hfirst 0%nat (Nat.lt_0_succ _)).
Qed.

Lemma exec_prelim_none (md : jsstring) :
  includes outlineHeading md = false ->
  exec noFlags prelimOutlineParser md = None.
Proof.
  intros H. apply search_prelim. now apply indexOf_none, includes_false.
Qed.

Lemma exec_prelim_some (md : jsstring) (n : nat) :
  indexOf outlineHeading md = Z.of_nat n ->
  exists gr,
    exec noFlags prelimOutlineParser md
    = Some {| index := n;
              whole := firstn (sectionSpan (skipn n md)) (skipn n md);
              group1 := gr;
              endIndex := n + sectionSpan (skipn n md) |}.
Proof.
  intros H. apply indexOf_first in H as [H1 H2].
  exact (proj2 (search_prelim md 0 None) n H1 H2).
Qed.

Lemma lineTerminator_whiteSpace (c : N) :
  isLineTerminator c = true -> isWhiteSpace c = true.
Proof.
  intros H. unfold isWhiteSpace. rewrite H. now rewrite !orb_true_r.
Qed.

Lemma lineEndAfter_le (l : jsstring) (k : nat) :
  lineEndAfter l = Some k -> (k <= length l)%nat.
Proof.
  revert k. induction l as [|c t IH]; intros k; simpl.
  - intros [= <-]. lia.
  - destruct (isWhiteSpace c); [| discriminate].
    destruct (lineEndAfter t) as [k'|].
    + intros [= <-]. specialize (IH k' eq_refl). lia.
    + destruct (isLineTerminator c); [| discriminate]. intros [= <-]. lia.
Qed.

(** The greedy white space before [$] under the m flag. *)
Lemma greedyRun_lineEnd (x0 : mstate) :
  forall (l : jsstring) (x : mstate),
    rest x = l ->
    greedyRun isWhiteSpace x l
      (fun y => matcher flagM REol y (matchUpTo x0))
    = match lineEndAfter l with
      | Some k => matchUpTo x0 (consume x (firstn k l))
      | None => None
      end.
Proof.
  induction l as [|c t IH]; intros x Hx; cbn [greedyRun lineEndAfter].
  - rewrite matcher_eol. unfold atEol. now rewrite Hx.
  - destruct (isWhiteSpace c) eqn:Ews.
    + rewrite (IH (advance x c t) eq_refl).
      destruct (lineEndAfter t) as [k|].
      * cbn [orElse firstn consume]. rewrite Hx. reflexivity.
      * cbn [orElse]. rewrite matcher_eol. unfold atEol. rewrite Hx.
        cbn [multiline flagM andb]. now destruct (isLineTerminator c).
    + rewrite matcher_eol. unfold atEol. rewrite Hx. cbn [multiline flagM andb].
      destruct (isLineTerminator c) eqn:Elt; [| reflexivity].
      apply lineTerminator_whiteSpace in Elt. congruence.
Qed.

Lemma structureJsonEndRegex_eq :
  structureJsonEndRegex = RSeq (str fence) (RSeq (star space) REol).
Proof. reflexivity. Qed.

(** The insertion pattern at a given index. *)
Lemma matchAt_fence (x0 : mstate) :
  matchAt flagM structureJsonEndRegex x0
  = match (if startsWith fence (rest x0) then lineEndAfter (skipn 3 (rest x0))
           else None) with
    | Some k => Some {| index := pos x0;
                        whole := firstn (3 + k) (rest x0);
                        group1 := cap x0;
                        endIndex := pos x0 + 3 + k |}
    | None => None
    end.
Proof.
  rewrite matchAt_eq, structureJsonEndRegex_eq, matcher_seq.
  rewrite (matcher_str flagM) by reflexivity.
  destruct (startsWith fence (rest x0)) eqn:H; [| reflexivity].
  apply startsWith_spec in H as [t Ht].
  pose proof (consume_rest fence x0 t Ht) as Hr1.
  pose proof (consume_pos fence x0) as Hp1.
  pose proof (consume_cap fence x0) as Hc1.
  change (length fence) with 3%nat in Hp1.
  revert Hr1 Hp1 Hc1. generalize (consume x0 fence). intros x1 Hr1 Hp1 Hc1.
  rewrite matcher_seq. unfold space.
  rewrite (matcher_star_set flagM) by reflexivity.
  rewrite Hr1, (greedyRun_lineEnd x0 t x1 Hr1).
  assert (Hs : skipn 3 (rest x0) = t) by (rewrite Ht; reflexivity).
  rewrite Hs.
  destruct (lineEndAfter t) as [k|] eqn:Ek; [| reflexivity].
  apply lineEndAfter_le in Ek. unfold matchUpTo.
  rewrite !consume_pos, !consume_cap, length_firstn, Hp1, Hc1.
  do 2 f_equal; [f_equal |]; lia.
Qed.

(** The search for the insertion pattern computes [fenceLineEnd]. *)
Lemma search_fence (s : jsstring) :
  forall (i : nat) (p : option N),
    match search flagM structureJsonEndRegex i p s with
    | Some m => fenceLineEnd s i = Some (index m + length (whole m))%nat
    | None => fenceLineEnd s i = None
    end.
Proof.
  induction s as [|c s IH]; intros i p; cbn [search fenceLineEnd];
    rewrite matchAt_fence; cbn [rest pos].
  - destruct (if startsWith fence [] then _ else _) as [k|] eqn:E; cbn [orElse].
    + discriminate.
    + reflexivity.
  - destruct (if startsWith fence (c :: s) then _ else _) as [k|] eqn:E;
      cbn [orElse].
    + cbn [index whole]. rewrite length_firstn.
      destruct (startsWith fence (c :: s)) eqn:Hs; [| discriminate].
      apply startsWith_spec in Hs as [t Ht]. rewrite Ht in *.
      assert (Hsk : skipn 3 (fence ++ t) = t) by reflexivity.
      rewrite Hsk in E. apply lineEndAfter_le in E.
      rewrite length_app.
      assert (Hlf : length fence = 3%nat) by reflexivity. rewrite Hlf.
      f_equal. lia.
    + apply IH.
Qed.

End RegexFacts.
Import RegexFacts.

(** ** Stage 3: the splice of the refined outlines *)

Module SpliceFacts.

Lemma indexOf_unique (p s : jsstring) (n : nat) :
  startsWith p (skipn n s) = true ->
  (forall j, (j < n)%nat -> startsWith p (skipn j s) = false) ->
  (n <= length s)%nat ->
  indexOf p s = Z.of_nat n.
Proof.
  intros Hn Hfirst Hlen.
  destruct (indexOfFrom_spec p s 0 ltac:(lia)) as [[_ H] | (k & H1 & _ & H3 & H4)].
  - rewrite (H n Hlen) in Hn. discriminate.
  - unfold indexOf. rewrite H1.
    destruct (Nat.lt_trichotomy k n) as [Hl | [-> | Hg]]; [| lia |].
    + rewrite (Hfirst k Hl) in H3. discriminate.
    + rewrite (H4 n Hg) in Hn. discriminate.
Qed.

Lemma startsWith_prefix (p q s : jsstring) :
  startsWith (p ++ q) s = true -> startsWith p s = true.
Proof.
  intros H. apply startsWith_spec in H as [t ->].
  rewrite <- app_assoc. apply startsWith_app.
Qed.

Lemma getSubstitution_plain (matched before after repl : jsstring) :
  ~ In dollar repl -> getSubstitution matched before after repl = repl.
Proof.
  induction repl as [|c repl IH]; intros H; [reflexivity |].
  assert (Hc : c <> 36) by (intros ->; apply H; now left).
  assert (Hr : ~ In dollar repl) by (intros Hin; apply H; now right).
  cbn [getSubstitution].
  destruct c as [|c]; [now rewrite IH |].
  repeat (destruct c as [c|c|]; try (now rewrite IH)).
Qed.

Lemma spanEnd_le (s : jsstring) : (spanEnd s <= length s)%nat.
Proof.
  induction s as [|c t IH]; [simpl; lia |].
  cbn [spanEnd]. destruct (startsWith (js "##") (c :: t)) eqn:E.
  - apply startsWith_spec in E as [u ->]. simpl. lia.
  - simpl. lia.
Qed.

Lemma sectionSpan_bounds (t : jsstring) :
  (23 <= sectionSpan (outlineHeading ++ t) <= length (outlineHeading ++ t))%nat.
Proof.
  unfold sectionSpan. change (skipn 23 (outlineHeading ++ t)) with t.
  pose proof (spaceRun_le t). pose proof (spanEnd_le (skipn (spaceRun t) t)) as H2.
  rewrite length_skipn in H2. rewrite length_app.
  change (length outlineHeading) with 23%nat. lia.
Qed.

Lemma slice_firstn (s : jsstring) (j : nat) :
  slice s 0 (Z.of_nat j) = firstn j s.
Proof.
  unfold slice, sliceIndex, len.
  destruct (Z.ltb_spec 0 0) as [H | _]; [lia |].
  destruct (Z.ltb_spec (Z.of_nat j) 0) as [H | _]; [lia |].
  replace (Z.min 0 (Z.of_nat (length s))) with 0%Z by lia.
  rewrite Z.sub_0_r. cbn [Z.to_nat skipn].
  destruct (Nat.le_gt_cases j (length s)) as [H | H].
  - f_equal. lia.
  - rewrite (firstn_all2 (n := j)) by lia. apply firstn_all2. lia.
Qed.

Lemma sliceFrom_skipn (s : jsstring) (j : nat) :
  sliceFrom s (Z.of_nat j) = skipn j s.
Proof.
  unfold sliceFrom, slice, sliceIndex, len.
  destruct (Z.ltb_spec (Z.of_nat j) 0) as [H | _]; [lia |].
  destruct (Z.ltb_spec (Z.of_nat (length s)) 0) as [H | _]; [lia |].
  destruct (Nat.le_gt_cases j (length s)) as [H | H].
  - replace (Z.to_nat (Z.min (Z.of_nat j) (Z.of_nat (length s)))) with j by lia.
    apply firstn_all2. rewrite length_skipn. lia.
  - replace (Z.to_nat (Z.min (Z.of_nat j) (Z.of_nat (length s))))
      with (length s) by lia.
    rewrite skipn_all, (skipn_all2 (n := j)) by lia. apply firstn_nil.
Qed.

(** The splice when the document has the heading: the span of the section
    at the first heading is replaced. *)
Lemma splice_section (md refined : jsstring) (n : nat) :
  indexOf outlineHeading md = Z.of_nat n ->
  ~ In dollar (trim refined) ->
  spliceOutlines md refined
  = firstn n md ++ js "\n" ++ trim refined ++ js "\n"
    ++ skipn (n + sectionSpan (skipn n md)) md.
Proof.
  intros Hn Hd. unfold spliceOutlines.
  destruct (exec_prelim_some md n Hn) as [gr ->]. cbn [whole].
  pose proof (indexOf_first _ _ _ Hn) as [Hs Hfirst].
  apply startsWith_spec in Hs as [t Ht].
  pose proof (sectionSpan_bounds t) as Hb. rewrite <- Ht in Hb.
  set (span := sectionSpan (skipn n md)) in *.
  assert (Hlen : (n <= length md)%nat).
  { destruct (Nat.le_gt_cases n (length md)) as [H | H]; [exact H |].
    rewrite skipn_all2 in Ht by lia. discriminate. }
  assert (Hw : firstn span (skipn n md)
               = outlineHeading ++ firstn (span - 23) t).
  { rewrite Ht, firstn_app. change (length outlineHeading) with 23%nat.
    rewrite firstn_all2 by (simpl; lia). reflexivity. }
  assert (Hi : indexOf (firstn span (skipn n md)) md = Z.of_nat n).
  { apply indexOf_unique; [| | exact Hlen].
    - apply startsWith_spec. exists (skipn span (skipn n md)).
      now rewrite firstn_skipn.
    - intros j Hj. specialize (Hfirst j Hj).
      destruct (startsWith (firstn span (skipn n md)) (skipn j md)) eqn:E;
        [| reflexivity].
      rewrite Hw in E. apply startsWith_prefix in E. congruence. }
  unfold replaceString. rewrite Hi.
  destruct (Z.eqb_spec (Z.of_nat n) (-1)) as [H | _]; [lia |].
  rewrite Nat2Z.id, getSubstitution_plain.
  - rewrite length_firstn, length_skipn.
    replace (n + Nat.min span (length md - n))%nat with (n + span)%nat.
    + now rewrite <- !app_assoc.
    + rewrite length_skipn in Hb. lia.
  - intros Hin. apply in_app_or in Hin as [Hin | Hin];
      [simpl in Hin; destruct Hin as [H | []]; discriminate |].
    apply in_app_or in Hin as [Hin | Hin]; [now apply Hd |].
    simpl in Hin. destruct Hin as [H | []]. discriminate.
Qed.

(** The splice when the document has no heading: after the first fence
    that ends its line, or at the end. *)
Lemma splice_fence (md refined : jsstring) :
  includes outlineHeading md = false ->
  spliceOutlines md refined
  = match fenceLineEnd md 0 with
    | Some j => firstn j md ++ js "\n\n" ++ trim refined ++ skipn j md
    | None => md ++ js "\n\n" ++ trim refined
    end.
Proof.
  intros H. unfold spliceOutlines. rewrite (exec_prelim_none md H).
  pose proof (search_fence md 0 None) as Hs. unfold exec.
  destruct (search flagM structureJsonEndRegex 0 None md) as [m|]; rewrite Hs.
  - now rewrite slice_firstn, sliceFrom_skipn.
  - reflexivity.
Qed.

Lemma fenceLineEnd_none (s : jsstring) (i : nat) :
  (forall k, (k <= length s)%nat -> startsWith fence (skipn k s) = false) ->
  fenceLineEnd s i = None.
Proof.
  revert i. induction s as [|c s IH]; intros i H;
    pose proof (H 0%nat (Nat.le_0_l _)) as H0; cbn [skipn] in H0;
    unfold fence in H0; cbn [fenceLineEnd]; rewrite H0.
  - reflexivity.
  - apply IH. intros k Hk. apply (H (S k)). simpl. lia.
Qed.

End SpliceFacts.
Import SpliceFacts.

(** C4, as the code has it. After a successful refinement call stage 3
    returns the structure document with the trimmed refined content
    spliced in. (a) When the document holds the heading
    "### Core Logic Outlines", the span matched at its first occurrence
    (from the heading on) is replaced by the content set between two
    newlines, for a content without a dollar sign. (b) When it does not, the
    content, after a blank line, is inserted right after the first "```"
    that is followed by white space only up to an end of line: the first
    such fence, not the last. (c) When there is no such fence, and so when
    there is no "```" at all, the content is appended after a blank
    line. *)
Theorem outline_splice (w : World) (analysisResult md refined : jsstring)
    (st st1 : State) :
  isCancellationRequested st = false ->
  callLLM w Stage3 st = (Resolved refined, st1) ->
  exists updated,
    runOutlineRefinementStage w analysisResult md st = (inr updated, st1)
    /\ (forall n,
          indexOf outlineHeading md = Z.of_nat n ->
          ~ In dollar (trim refined) ->
          updated = firstn n md ++ js "\n" ++ trim refined ++ js "\n"
                    ++ skipn (n + sectionSpan (skipn n md)) md)
    /\ (includes outlineHeading md = false ->
        forall j,
          fenceLineEnd md 0 = Some j ->
          updated = firstn j md ++ js "\n\n" ++ trim refined ++ skipn j md)
    /\ (includes outlineHeading md = false ->
        fenceLineEnd md 0 = None ->
        updated = md ++ js "\n\n" ++ trim refined)
    /\ (includes outlineHeading md = false ->
        includes fence md = false ->
        updated = md ++ js "\n\n" ++ trim refined).
Proof.
  intros H0 H1. exists (spliceOutlines md refined).
  split; [| split; [| split; [| split]]].
  - unfold runOutlineRefinementStage. run_stage. reflexivity.
  - intros n Hn Hd. now apply splice_section.
  - intros Hh j Hj. now rewrite (splice_fence _ _ Hh), Hj.
  - intros Hh Hj. now rewrite (splice_fence _ _ Hh), Hj.
  - intros Hh Hf. rewrite (splice_fence _ _ Hh), fenceLineEnd_none; [reflexivity |].
    now apply indexOf_none, includes_false.
Qed.

Lemma outline_splice_witness :
  runOutlineRefinementStage refiningWorld (js "Analysis") twoFences
    (initialState false)
  = (inr (js "## Proposed Structure\n```json\n[]\n```\n\n### Core Logic Outlines\n- `main.py`: parse the arguments\nNotes:\n```text\nmore\n```"),
     {| isCancellationRequested := false; llmCalls := [(Stage3, 1%nat)] |}).
Proof.
  destruct (outline_splice refiningWorld (js "Analysis") twoFences refinedOutlines
              (initialState false)
              {| isCancellationRequested := false; llmCalls := [(Stage3, 1%nat)] |}
              eq_refl eq_refl) as (updated & Hrun & _ & Hfence & _).
  rewrite Hrun. rewrite (Hfence eq_refl 36%nat eq_refl). reflexivity.
Defined.

(** C4 fails as stated: with two fenced blocks and no outline section the
    content goes after the first block; the document does not continue with
    it after its last block. *)
Lemma splice_not_after_last_fence :
  includes outlineHeading twoFences = false
  /\ endsWith fence twoFences = true
  /\ spliceOutlines twoFences refinedOutlines
     = js "## Proposed Structure\n```json\n[]\n```\n\n### Core Logic Outlines\n- `main.py`: parse the arguments\nNotes:\n```text\nmore\n```"
  /\ ~ (exists sep,
          spliceOutlines twoFences refinedOutlines
          = twoFences ++ sep ++ trim refinedOutlines).
Proof.
  split; [reflexivity | split; [reflexivity | split; [vm_compute; reflexivity |]]].
  intros [sep H].
  assert (E : startsWith twoFences (spliceOutlines twoFences refinedOutlines) = true)
    by (rewrite H; apply startsWith_app).
  vm_compute in E. discriminate.
Qed.

(** ** Stages 4 to 5: which artifacts are normalized *)

Module NormalizationFacts.

Lemma orElse_none_r {A} (a : option A) : orElse a None = a.
Proof. now destruct a. Qed.

(** Without the m flag, [^] matches at the start of the input only. *)
Lemma search_bol_later (fl : flags) (r : regex) :
  multiline fl = false ->
  forall (s : jsstring) (i : nat) (c : N),
    search fl (RSeq RBol r) i (Some c) s = None.
Proof.
  intros Hm.
  assert (Hat : forall i c s,
             matchAt fl (RSeq RBol r)
               {| pos := i; prev := Some c; rest := s; cap := None |} = None).
  { intros i c s. rewrite matchAt_eq, matcher_seq, matcher_bol.
    unfold atBol. cbn [prev]. now rewrite Hm. }
  induction s as [|d s IH]; intros i c; cbn [search]; rewrite Hat;
    cbn [orElse]; [reflexivity | apply IH].
Qed.

Lemma exec_bol (fl : flags) (r : regex) (s : jsstring) :
  multiline fl = false ->
  exec fl (RSeq RBol r) s
  = matchAt fl r {| pos := 0; prev := None; rest := s; cap := None |}.
Proof.
  intros Hm. unfold exec.
  assert (Hat : matchAt fl (RSeq RBol r)
                  {| pos := 0; prev := None; rest := s; cap := None |}
                = matchAt fl r {| pos := 0; prev := None; rest := s; cap := None |})
    by reflexivity.
  destruct s as [|c s]; cbn [search]; rewrite Hat.
  - now rewrite orElse_none_r.
  - now rewrite (search_bol_later fl r Hm), orElse_none_r.
Qed.

Lemma greedyRun_total {A} (p : N -> bool) (k : mstate -> option A) :
  (forall y, k y <> None) ->
  forall (l : jsstring) (x : mstate), greedyRun p x l k <> None.
Proof.
  intros Hk. induction l as [|c t IH]; intros x; cbn [greedyRun].
  - apply Hk.
  - destruct (p c); [| apply Hk].
    specialize (IH (advance x c t)).
    now destruct (greedyRun p (advance x c t) t k).
Qed.

(** A header pattern [^literal.*] holds of the texts that start with the
    literal. *)
Lemma header_test (L s : jsstring) :
  test noFlags (rseq [RBol; str L; star dot]) s = startsWith L s.
Proof.
  unfold test.
  assert (E : rseq [RBol; str L; star dot] = RSeq RBol (RSeq (str L) (star dot)))
    by reflexivity.
  rewrite E, exec_bol by reflexivity.
  rewrite matchAt_eq, matcher_seq, (matcher_str noFlags) by reflexivity.
  cbn [rest].
  destruct (startsWith L s); [| reflexivity].
  unfold dot. rewrite (matcher_star_set noFlags) by reflexivity.
  match goal with
  | |- match ?g with _ => _ end = _ =>
      assert (Hg : g <> None) by (apply greedyRun_total; discriminate);
      now destruct g
  end.
Qed.

Lemma headerValid_rooignore (raw : jsstring) :
  headerValid rooignoreHeaderRegex raw = startsWith (js "# .rooignore for ") raw.
Proof.
  unfold headerValid, rooignoreHeaderRegex. rewrite header_test.
  destruct raw; reflexivity.
Qed.

Lemma headerValid_workspace (raw : jsstring) :
  headerValid workspaceRulesHeaderRegex raw
  = startsWith (js "// General Workspace .clinerules for ") raw.
Proof.
  unfold headerValid, workspaceRulesHeaderRegex. rewrite header_test.
  destruct raw; reflexivity.
Qed.

(** A header stage returns the first response as it is when it starts with
    the header, and otherwise the refined response as it is when that one
    does; no response is changed. *)
Lemma runHeaderStage_first (w : World) (first refinement : CallSite)
    (header : regex) (raw : jsstring) (st st1 : State) :
  isCancellationRequested st = false ->
  callLLM w first st = (Resolved raw, st1) ->
  headerValid header raw = true ->
  runHeaderStage w first refinement header st = (inr (Some raw), st1).
Proof.
  intros H0 H1 Hv. unfold runHeaderStage. run_stage. now rewrite Hv.
Qed.

Lemma runHeaderStage_refined (w : World) (first refinement : CallSite)
    (header : regex) (raw : jsstring) (st st1 st2 : State) (second : llmResult) :
  isCancellationRequested st = false ->
  callLLM w first st = (Resolved raw, st1) ->
  headerValid header raw = false ->
  isCancellationRequested st1 = false ->
  callLLM w refinement st1 = (second, st2) ->
  runHeaderStage w first refinement header st
  = (inr (match second with
          | Resolved refined =>
              if headerValid header refined then Some refined else None
          | Rejected _ => None
          end), st2).
Proof.
  intros H0 H1 Hv H2 H3. unfold runHeaderStage. run_stage. rewrite Hv. run_stage.
  destruct second as [refined|m]; [| reflexivity].
  now destruct (headerValid header refined).
Qed.

(** *** Fences and the preamble *)

Lemma startsWith_short (p s : jsstring) :
  (length s < length p)%nat -> startsWith p s = false.
Proof.
  revert s. induction p as [|a p IH]; intros s H; [simpl in H; lia |].
  destruct s as [|b s]; [reflexivity |]. simpl in *.
  rewrite IH by lia. apply andb_false_r.
Qed.

Lemma lastIndexOfFrom_short (p s : jsstring) :
  forall i best, (length s < length p)%nat -> lastIndexOfFrom p s i best = best.
Proof.
  induction s as [|c s IH]; intros i best H; cbn [lastIndexOfFrom];
    rewrite (startsWith_short _ _ H); [reflexivity |].
  apply IH. simpl in H. lia.
Qed.

Lemma lastIndexOfFrom_suffix (p u : jsstring) :
  p <> [] ->
  forall i best, lastIndexOfFrom p (u ++ p) i best = (i + len u)%Z.
Proof.
  intros Hp. induction u as [|c u IH]; intros i best.
  - destruct p as [|a p]; [congruence |].
    cbn [app lastIndexOfFrom]. rewrite (startsWith_app (a :: p) []) || idtac.
    assert (E : startsWith (a :: p) (a :: p) = true).
    { rewrite <- (app_nil_r (a :: p)) at 2. apply startsWith_app. }
    rewrite E. rewrite lastIndexOfFrom_short by (simpl; lia).
    unfold len. simpl. lia.
  - cbn [app lastIndexOfFrom]. rewrite IH. unfold len. simpl length. lia.
Qed.

Lemma endsWith_app (p u : jsstring) : endsWith p (u ++ p) = true.
Proof. unfold endsWith. rewrite rev_app_distr. apply startsWith_app. Qed.

Lemma lastIndexOf_suffix (p u : jsstring) :
  p <> [] -> lastIndexOf p (u ++ p) = len u.
Proof. intros Hp. unfold lastIndexOf. now rewrite lastIndexOfFrom_suffix. Qed.

Lemma indexOfFrom_char (c : N) (a b : jsstring) :
  ~ In c a -> forall i, indexOfFrom [c] (a ++ c :: b) i = (i + len a)%Z.
Proof.
  induction a as [|x a IH]; intros H i.
  - cbn [app indexOfFrom startsWith]. rewrite N.eqb_refl. cbn [andb].
    unfold len. simpl length. lia.
  - cbn [app indexOfFrom startsWith].
    destruct (N.eqb_spec c x) as [-> | _]; [exfalso; apply H; now left |].
    cbn [andb]. rewrite IH by (intros Hin; apply H; now right).
    unfold len. simpl length. lia.
Qed.

Lemma substring_middle (a b c : jsstring) :
  substring (a ++ b ++ c) (len a) (len a + len b) = b.
Proof.
  unfold substring, clamp.
  assert (Hl : len (a ++ b ++ c) = (len a + len b + len c)%Z)
    by (unfold len; rewrite !length_app; lia).
  rewrite Hl.
  assert (Ha : (0 <= len a)%Z) by (unfold len; lia).
  assert (Hb : (0 <= len b)%Z) by (unfold len; lia).
  assert (Hc : (0 <= len c)%Z) by (unfold len; lia).
  replace (Z.min (Z.max (len a) 0) (len a + len b + len c)) with (len a) by lia.
  replace (Z.min (Z.max (len a + len b) 0) (len a + len b + len c))
    with (len a + len b)%Z by lia.
  replace (Z.min (len a) (len a + len b)) with (len a) by lia.
  replace (Z.max (len a) (len a + len b)) with (len a + len b)%Z by lia.
  replace (Z.to_nat (len a + len b - len a)) with (length b) by (unfold len; lia).
  unfold len. rewrite Nat2Z.id, skipn_app, skipn_all, Nat.sub_diag.
  cbn [skipn app]. change (skipn 0 (b ++ c)) with (b ++ c). rewrite (firstn_app (length b) b c), firstn_all, Nat.sub_diag.
  cbn [firstn]. apply app_nil_r.
Qed.

(** The inside of a wrapping fence. *)
Lemma unfenceRules_wrapped (lang body : jsstring) :
  ~ In 10 lang ->
  unfenceRules (fence ++ lang ++ js "\n" ++ body ++ fence) = trim body.
Proof.
  intros Hl. unfold unfenceRules. change (js "```") with fence.
  assert (E : fence ++ lang ++ js "\n" ++ body ++ fence
              = (fence ++ lang ++ js "\n" ++ body) ++ fence)
    by now rewrite <- !app_assoc.
  assert (He : endsWith fence (fence ++ lang ++ js "\n" ++ body ++ fence) = true)
    by (rewrite E; apply endsWith_app).
  assert (Hlast : lastIndexOf fence (fence ++ lang ++ js "\n" ++ body ++ fence)
                  = (len (fence ++ lang ++ js "\n") + len body)%Z).
  { rewrite E, lastIndexOf_suffix by discriminate.
    unfold len. rewrite !length_app. lia. }
  assert (Hi : (indexOf (js "\n") (fence ++ lang ++ js "\n" ++ body ++ fence) + 1)%Z
               = len (fence ++ lang ++ js "\n")).
  { unfold indexOf. rewrite (app_assoc fence lang).
    change (js "\n" ++ body ++ fence) with (10 :: body ++ fence).
    change (js "\n") with [10].
    rewrite indexOfFrom_char.
    - unfold len. rewrite !length_app. simpl. lia.
    - intros Hin. apply in_app_or in Hin as [Hin | Hin]; [| now apply Hl].
      vm_compute in Hin. intuition discriminate. }
  rewrite startsWith_app, He, Hlast, Hi. cbn [andb]. f_equal.
  replace (fence ++ lang ++ js "\n" ++ body ++ fence)
    with ((fence ++ lang ++ js "\n") ++ body ++ fence) by now rewrite <- !app_assoc.
  apply substring_middle.
Qed.

Lemma substring_inner (a b c : jsstring) :
  substring (a ++ b ++ c) (len a) (len (a ++ b ++ c) - len c) = b.
Proof.
  replace (len (a ++ b ++ c) - len c)%Z with (len a + len b)%Z
    by (unfold len; rewrite !length_app; lia).
  apply substring_middle.
Qed.

Lemma stripModesFence_json (body : jsstring) :
  stripModesFence (js "```json" ++ body ++ fence) = trim body.
Proof.
  unfold stripModesFence. change (js "```") with fence.
  rewrite startsWith_app.
  assert (He : endsWith fence (js "```json" ++ body ++ fence) = true)
    by (rewrite app_assoc; apply endsWith_app).
  rewrite He. cbn [andb]. f_equal.
  apply (substring_inner (js "```json") body fence).
Qed.

Lemma stripModesFence_plain (body : jsstring) :
  startsWith (js "json") body = false ->
  stripModesFence (fence ++ body ++ fence) = trim body.
Proof.
  intros Hj. unfold stripModesFence. change (js "```") with fence.
  assert (Hn : startsWith (js "```json") (fence ++ body ++ fence) = false).
  { destruct body as [|c1 [|c2 [|c3 [|c4 body]]]]; try reflexivity;
      cbn in Hj |- *; rewrite ?andb_false_r; try reflexivity. exact Hj. }
  rewrite Hn, startsWith_app.
  assert (He : endsWith fence (fence ++ body ++ fence) = true)
    by (rewrite app_assoc; apply endsWith_app).
  rewrite He. cbn [andb]. f_equal.
  apply (substring_inner fence body fence).
Qed.

Lemma upperChar_lowerChar (c : N) : upperChar (lowerChar c) = upperChar c.
Proof.
  unfold upperChar, lowerChar.
  destruct (N.leb_spec 65 c), (N.leb_spec c 90); cbn [andb]; try reflexivity.
  destruct (N.leb_spec 97 (c + 32)), (N.leb_spec (c + 32) 122),
    (N.leb_spec 97 c), (N.leb_spec c 122); cbn [andb]; lia.
Qed.

Lemma toUpperCase_toLowerCase (s : jsstring) :
  toUpperCase (toLowerCase s) = toUpperCase s.
Proof.
  unfold toUpperCase, toLowerCase. rewrite map_map.
  apply map_ext, upperChar_lowerChar.
Qed.

Lemma isWhiteSpace_printable (c : N) : 33 <= c < 160 -> isWhiteSpace c = false.
Proof.
  intros H. unfold isWhiteSpace, isLineTerminator.
  repeat match goal with
         | |- context [N.eqb ?a ?b] => destruct (N.eqb_spec a b); [lia |]
         end.
  destruct (N.leb_spec 0x2000 c); [lia | reflexivity].
Qed.

Lemma isWhiteSpace_upperChar (c : N) : isWhiteSpace (upperChar c) = isWhiteSpace c.
Proof.
  unfold upperChar.
  destruct (N.leb_spec 97 c), (N.leb_spec c 122); cbn [andb]; try reflexivity.
  now rewrite !isWhiteSpace_printable by lia.
Qed.

Lemma isWhiteSpace_lowerChar (c : N) : isWhiteSpace (lowerChar c) = isWhiteSpace c.
Proof.
  unfold lowerChar.
  destruct (N.leb_spec 65 c), (N.leb_spec c 90); cbn [andb]; try reflexivity.
  now rewrite !isWhiteSpace_printable by lia.
Qed.

(** [\s] takes the same code units with and without the i flag. *)
Lemma matcher_star_space {A} (fl : flags) (x : mstate) (k : mstate -> option A) :
  matcher fl (star space) x k = greedyRun isWhiteSpace x (rest x) k.
Proof.
  unfold star, space.
  change (matcher fl (RQuant 0 None true (RSet isWhiteSpace)) x k)
    with (repeatMatcher (matcher fl (RSet isWhiteSpace)) k true
            (S (0 + length (rest x))) 0 None x).
  apply repeat_greedy; [| reflexivity | lia].
  intros y d. cbn [matcher]. unfold setMatches.
  destruct (rest y) as [|c t]; [reflexivity |].
  destruct (ignoreCase fl); [| reflexivity].
  now rewrite isWhiteSpace_upperChar, isWhiteSpace_lowerChar, !orb_diag.
Qed.

(** Under the i flag a literal matches the input that starts with it up
    to the case of its letters. *)
Lemma matcher_str_ci {A} (fl : flags) (L : jsstring) :
  ignoreCase fl = true ->
  forall (x : mstate) (k : mstate -> option A),
    matcher fl (str L) x k
    = if startsWith (toUpperCase L) (toUpperCase (rest x))
      then k (consume x (firstn (length L) (rest x))) else None.
Proof.
  intros Hfl. induction L as [|c L IH]; intros x k.
  - reflexivity.
  - assert (Hc : forall k' : mstate -> option A,
               matcher fl (RChar c) x k'
               = match rest x with
                 | c' :: t => if upperChar c =? upperChar c'
                              then k' (advance x c' t) else None
                 | [] => None
                 end).
    { intros k'. simpl. unfold charMatches. now rewrite Hfl. }
    destruct L as [|c2 L].
    + change (str [c]) with (RChar c). rewrite Hc.
      destruct (rest x) as [|c' t] eqn:E; [reflexivity |].
      cbn [toUpperCase map startsWith length firstn consume]. rewrite andb_true_r.
      rewrite E. reflexivity.
    + change (matcher fl (str (c :: c2 :: L)) x k)
        with (matcher fl (RChar c) x (fun y => matcher fl (str (c2 :: L)) y k)).
      rewrite Hc.
      destruct (rest x) as [|c' t] eqn:E; [reflexivity |].
      change (length (c :: c2 :: L)) with (S (length (c2 :: L))).
      cbn [toUpperCase map startsWith firstn consume]. rewrite E. cbn [tl].
      destruct (upperChar c =? upperChar c'); [| reflexivity].
      cbn [andb]. rewrite IH. reflexivity.
Qed.

Lemma matcher_opt_char {A} (fl : flags) (a : N) (x : mstate)
    (k : mstate -> option A) :
  matcher fl (opt (RChar a)) x k
  = match rest x with
    | c :: t => if charMatches fl a c then orElse (k (advance x c t)) (k x)
                else k x
    | [] => k x
    end.
Proof.
  unfold opt.
  change (matcher fl (RQuant 0 (Some 1%nat) true (RChar a)) x k)
    with (repeatMatcher (matcher fl (RChar a)) k true
            (S (0 + length (rest x))) 0 (Some 1%nat) x).
  cbn [repeatMatcher Nat.eqb negb andb matcher].
  destruct (rest x) as [|c t]; [reflexivity |].
  destruct (charMatches fl a c); [| reflexivity].
  cbn [pos advance]. rewrite eqb_succ. reflexivity.
Qed.

Lemma skipn_spaceRun (l : jsstring) : skipn (spaceRun l) l = trimStart l.
Proof.
  induction l as [|c l IH]; [reflexivity |]. simpl.
  destruct (isWhiteSpace c); [exact IH | reflexivity].
Qed.

Lemma charMatches_colon (fl : flags) (c : N) :
  charMatches fl 58 c = (c =? 58).
Proof.
  unfold charMatches. destruct (ignoreCase fl); [| apply N.eqb_sym].
  unfold upperChar. cbn [N.leb N.compare andb].
  change ((97 <=? 58) && (58 <=? 122)) with false. cbv iota.
  destruct (N.leb_spec 97 c), (N.leb_spec c 122); cbn [andb];
    try apply N.eqb_sym.
  destruct (N.eqb_spec 58 (c - 32)), (N.eqb_spec c 58); try reflexivity; lia.
Qed.

(** The pattern after the group: " the content", an optional colon and
    the white space after it. *)
Lemma preamble_tail (x0 y : mstate) (C t : jsstring) :
  rest y = C ++ t ->
  toUpperCase C = toUpperCase (js " the content") ->
  exists m,
    matcher flagI
      (RSeq (str (js " the content")) (RSeq (opt (RChar 58)) (star space)))
      y (matchUpTo x0) = Some m
    /\ index m = pos x0
    /\ skipn (endIndex m - pos y) (C ++ t) = trimStart (afterColon t).
Proof.
  intros Hy HC.
  assert (Hlen : length C = 12%nat).
  { apply (f_equal (@length N)) in HC. unfold toUpperCase in HC.
    now rewrite length_map in HC. }
  rewrite matcher_seq, (matcher_str_ci flagI) by reflexivity.
  rewrite Hy. unfold toUpperCase at 2. rewrite map_app.
  fold (toUpperCase C). rewrite HC, startsWith_app.
  change (length (js " the content")) with 12%nat.
  rewrite <- Hlen, firstn_app, firstn_all, Nat.sub_diag.
  cbn [firstn]. rewrite app_nil_r.
  pose proof (consume_rest C y t Hy) as Hr.
  pose proof (consume_pos C y) as Hp.
  generalize dependent (consume y C). intros y1 Hr Hp.
  rewrite matcher_seq, matcher_opt_char, Hr.
  assert (Hrun : forall y2 : mstate,
             exists m,
               matcher flagI (star space) y2 (matchUpTo x0) = Some m
               /\ index m = pos x0
               /\ endIndex m = (pos y2 + spaceRun (rest y2))%nat).
  { intros y2. rewrite matcher_star_space.
    eexists. split; [apply greedyRun_longest; reflexivity |].
    cbn [index endIndex]. split; [reflexivity |].
    rewrite consume_pos, length_firstn. pose proof (spaceRun_le (rest y2)). lia. }
  assert (Hskip : forall n l, skipn (length C + n) (C ++ l) = skipn n l).
  { intros n l. rewrite skipn_app, skipn_all2 by lia.
    cbn [app]. f_equal. lia. }
  destruct t as [|c t'].
  - destruct (Hrun y1) as (m & -> & Hi & He). exists m.
    split; [reflexivity | split; [exact Hi |]].
    rewrite He, Hr. cbn [spaceRun afterColon trimStart].
    replace (pos y1 + 0 - pos y)%nat with (length C + 0)%nat by lia.
    now rewrite Hskip.
  - rewrite charMatches_colon. cbn [afterColon].
    destruct (c =? 58).
    + destruct (Hrun (advance y1 c t')) as (m & -> & Hi & He). exists m.
      split; [reflexivity | split; [exact Hi |]].
      rewrite He. cbn [pos rest advance].
      replace (S (pos y1) + spaceRun t' - pos y)%nat
        with (length C + S (spaceRun t'))%nat by lia.
      rewrite Hskip. cbn [skipn]. apply skipn_spaceRun.
    + destruct (Hrun y1) as (m & -> & Hi & He). exists m.
      split; [reflexivity | split; [exact Hi |]].
      rewrite He, Hr.
      replace (pos y1 + spaceRun (c :: t') - pos y)%nat
        with (length C + spaceRun (c :: t'))%nat by lia.
      rewrite Hskip. apply skipn_spaceRun.
Qed.

Lemma toUpperCase_app (a b : jsstring) :
  toUpperCase (a ++ b) = toUpperCase a ++ toUpperCase b.
Proof. apply map_app. Qed.

(** After the group has taken [g], the rest of the preamble pattern. *)
Lemma preamble_group (g C t : jsstring) (n : nat) :
  length g = n ->
  toUpperCase C = toUpperCase (js " the content") ->
  exists m,
    (let x0 := {| pos := 0; prev := None; rest := g ++ C ++ t; cap := None |} in
     let y := consume x0 (firstn n (g ++ C ++ t)) in
     matcher flagI
       (RSeq (str (js " the content")) (RSeq (opt (RChar 58)) (star space)))
       {| pos := pos y; prev := prev y; rest := rest y;
          cap := Some (firstn (pos y - pos x0) (rest x0)) |}
       (matchUpTo x0)) = Some m
    /\ index m = 0%nat
    /\ skipn (endIndex m) (g ++ C ++ t) = trimStart (afterColon t).
Proof.
  intros Hn HC. cbv zeta.
  rewrite <- Hn, firstn_app, firstn_all, Nat.sub_diag. cbn [firstn].
  rewrite app_nil_r.
  set (x0 := {| pos := 0; prev := None; rest := g ++ C ++ t; cap := None |}).
  pose proof (consume_rest g x0 (C ++ t) eq_refl) as Hr.
  pose proof (consume_pos g x0) as Hp. cbn [pos x0] in Hp.
  generalize dependent (consume x0 g). intros y Hr Hp.
  destruct (preamble_tail x0
              {| pos := pos y; prev := prev y; rest := rest y;
                 cap := Some (firstn (pos y - pos x0) (rest x0)) |}
              C t Hr HC) as (m & Hm & Hi & Hs).
  exists m. split; [exact Hm | split; [exact Hi |]].
  cbn [pos] in Hs.
  assert (He : (pos y <= endIndex m)%nat).
  { destruct (Nat.le_gt_cases (pos y) (endIndex m)) as [H | H]; [exact H |].
    replace (endIndex m - pos y)%nat with 0%nat in Hs by lia.
    rewrite skipn_O in Hs. apply (f_equal (@length N)) in Hs.
    rewrite length_app in Hs.
    assert (length C = 12%nat).
    { apply (f_equal (@length N)) in HC. unfold toUpperCase in HC.
      now rewrite length_map in HC. }
    pose proof (length_skipn (spaceRun (afterColon t)) (afterColon t)) as Hk.
    rewrite skipn_spaceRun in Hk.
    assert (length (afterColon t) <= length t)%nat.
    { destruct t as [|c t']; [simpl; lia |]. cbn [afterColon].
      destruct (c =? 58); simpl; lia. }
    lia. }
  replace (endIndex m) with (length g + (endIndex m - pos y))%nat by lia.
  rewrite skipn_app, skipn_all2 by lia. cbn [app].
  replace (length g + (endIndex m - pos y) - length g)%nat
    with (endIndex m - pos y)%nat by lia.
  exact Hs.
Qed.

(** A leading "here is the content" or "here's the content", in any case
    of its letters, goes with the colon and the white space after it. *)
Lemma stripPreamble_strips (h t : jsstring) :
  toLowerCase h = js "here is the content"
  \/ toLowerCase h = js "here's the content" ->
  stripPreamble (h ++ t) = trimStart (afterColon t).
Proof.
  intros H.
  assert (Hu : toUpperCase h = toUpperCase (js "here is the content")
               \/ toUpperCase h = toUpperCase (js "here's the content")).
  { rewrite <- (toUpperCase_toLowerCase h). destruct H as [-> | ->]; auto. }
  clear H.
  unfold stripPreamble, replaceFirst.
  assert (E : preambleRegex
              = RSeq RBol
                  (RSeq (RGroup (RAlt (str (js "here is")) (str (js "here's"))))
                     (RSeq (str (js " the content"))
                        (RSeq (opt (RChar 58)) (star space)))))
    by reflexivity.
  rewrite E, exec_bol by reflexivity.
  rewrite matchAt_eq, matcher_seq, matcher_group, matcher_alt.
  rewrite !(matcher_str_ci flagI) by reflexivity.
  cbn [rest]. rewrite toUpperCase_app.
  destruct Hu as [Hu | Hu].
  - assert (Hsplit : exists g C,
               h = g ++ C /\ length g = 7%nat
               /\ toUpperCase C = toUpperCase (js " the content")).
    { exists (firstn 7 h), (skipn 7 h). split; [symmetry; apply firstn_skipn |].
      split.
      - rewrite length_firstn. apply (f_equal (@length N)) in Hu.
        unfold toUpperCase in Hu. rewrite length_map in Hu. simpl in Hu. lia.
      - unfold toUpperCase. rewrite <- skipn_map. fold (toUpperCase h).
        now rewrite Hu. }
    rewrite Hu.
    change (startsWith (toUpperCase (js "here is"))
              (toUpperCase (js "here is the content") ++ toUpperCase t)) with true.
    cbv iota.
    destruct Hsplit as (g & C & -> & Hg & HC). rewrite <- app_assoc.
    destruct (preamble_group g C t 7 Hg HC) as (m & Hm & Hi & Hs).
    cbv zeta in Hm. cbn [rest] in Hm. change (length (js "here is")) with 7%nat.
    rewrite Hm. cbn [orElse]. rewrite Hi, Hs. reflexivity.
  - assert (Hsplit : exists g C,
               h = g ++ C /\ length g = 6%nat
               /\ toUpperCase C = toUpperCase (js " the content")).
    { exists (firstn 6 h), (skipn 6 h). split; [symmetry; apply firstn_skipn |].
      split.
      - rewrite length_firstn. apply (f_equal (@length N)) in Hu.
        unfold toUpperCase in Hu. rewrite length_map in Hu. simpl in Hu. lia.
      - unfold toUpperCase. rewrite <- skipn_map. fold (toUpperCase h).
        now rewrite Hu. }
    rewrite Hu.
    change (startsWith (toUpperCase (js "here is"))
              (toUpperCase (js "here's the content") ++ toUpperCase t)) with false.
    change (startsWith (toUpperCase (js "here's"))
              (toUpperCase (js "here's the content") ++ toUpperCase t)) with true.
    cbv iota. cbn [orElse].
    destruct Hsplit as (g & C & -> & Hg & HC). rewrite <- app_assoc.
    destruct (preamble_group g C t 6 Hg HC) as (m & Hm & Hi & Hs).
    cbv zeta in Hm. cbn [rest] in Hm. change (length (js "here's")) with 6%nat.
    rewrite Hm. rewrite Hi, Hs. reflexivity.
Qed.

(** *** The stages on their first response *)

Lemma runRulesGenerationStage_first (w : World) (md raw : jsstring)
    (st st1 : State) :
  isCancellationRequested st = false ->
  callLLM w Stage4 st = (Resolved raw, st1) ->
  isValidRules (normalizeRules raw) = true ->
  runRulesGenerationStage w md st = (inr (Some (normalizeRules raw)), st1).
Proof.
  intros H0 H1 Hv. unfold runRulesGenerationStage. run_stage. now rewrite Hv.
Qed.

(** The coding rules on their second response: it is normalized like the
    first one before it is validated. *)
Lemma runRulesGenerationStage_refined (w : World) (md raw : jsstring)
    (st st1 st2 : State) (second : llmResult) :
  isCancellationRequested st = false ->
  callLLM w Stage4 st = (Resolved raw, st1) ->
  isValidRules (normalizeRules raw) = false ->
  isCancellationRequested st1 = false ->
  callLLM w Stage4_1 st1 = (second, st2) ->
  runRulesGenerationStage w md st
  = (inr (match second with
          | Resolved refined =>
              if isValidRules (normalizeRules refined)
              then Some (normalizeRules refined) else None
          | Rejected _ => None
          end), st2).
Proof.
  intros H0 H1 Hv H2 H3. unfold runRulesGenerationStage. run_stage.
  rewrite Hv. run_stage.
  destruct second as [refined|message]; [| reflexivity].
  now destruct (isValidRules (normalizeRules refined)).
Qed.

(** A resolved call never gives a blank text. *)
Lemma isBlank_resolved (w : World) (site : CallSite) (st st1 : State)
    (raw : jsstring) :
  callLLM w site st = (Resolved raw, st1) -> isBlank raw = false.
Proof.
  intros H. apply callLLM_resolved in H. unfold isBlank.
  apply orb_false_iff. split.
  - apply negb_false_iff, truthy_nonempty. now apply trim_nonblank_nonempty.
  - apply Nat.eqb_neq. now destruct (trim raw).
Qed.

Lemma runFootgun_first (w : World) (analysisResult md raw target : jsstring)
    (st st1 : State) :
  isCancellationRequested st = false ->
  capture (exec flagI footgunRegex (analysisResult ++ js "\n" ++ md)) = Some target ->
  callLLM w Stage4_7 st = (Resolved raw, st1) ->
  runFootgunPromptGenerationStage w analysisResult md st
  = (inr {| footgunPromptResult := Some raw;
            footgunTargetMode := Some (toLowerCase (trim target)) |}, st1).
Proof.
  intros H0 Hc H1. unfold runFootgunPromptGenerationStage. rewrite Hc.
  run_stage. now rewrite (isBlank_resolved _ _ _ _ _ H1).
Qed.

End NormalizationFacts.
Import NormalizationFacts.

(** C6, as the code has it. Of the five artifacts generated side by side
    only the coding rules are normalized in full before they are validated:
    the response is trimmed, a wrapping fence gives way to the trimmed text
    between its first line and its closing fence, and a leading "here is the
    content" or "here's the content", in any case of its letters, goes with
    its colon and the white space after it; the stage validates and returns
    that text, for the first response and, when that one is not valid, for
    the response to the refinement call alike. The mode-set is parsed from the trimmed response without a
    wrapping fence, the preamble staying. The ignore rules and the workspace
    rules are validated as received, valid when they start with their
    header, and returned as received, from the first or from the refinement
    call. The mode-override prompt is returned as received. *)
Theorem normalization_by_artifact (w : World) (analysisResult md raw : jsstring)
    (st st1 : State) :
  isCancellationRequested st = false ->
  (callLLM w Stage4 st = (Resolved raw, st1) ->
   (isValidRules (normalizeRules raw) = true ->
    runRulesGenerationStage w md st = (inr (Some (normalizeRules raw)), st1))
   /\ (isValidRules (normalizeRules raw) = false ->
       isCancellationRequested st1 = false ->
       forall second st2,
         callLLM w Stage4_1 st1 = (second, st2) ->
         runRulesGenerationStage w md st
         = (inr (match second with
                 | Resolved refined =>
                     if isValidRules (normalizeRules refined)
                     then Some (normalizeRules refined) else None
                 | Rejected _ => None
                 end), st2)))
  /\ (forall lang body,
        ~ In 10 lang ->
        trim raw = fence ++ lang ++ js "\n" ++ body ++ fence ->
        unfenceRules (trim raw) = trim body)
  /\ (forall h t,
        toLowerCase h = js "here is the content"
        \/ toLowerCase h = js "here's the content" ->
        unfenceRules (trim raw) = h ++ t ->
        normalizeRules raw = trimStart (afterColon t))
  /\ (callLLM w Stage5 st = (Resolved raw, st1) ->
      runModesGenerationStage w md st = (inr (modesFromRaw w md raw), st1)
      /\ (parsedModesSuccessfully (modesFromRaw w md raw) = true ->
          roomodesResult (modesFromRaw w md raw) = stripModesFence (trim raw)))
  /\ (forall body,
        trim raw = js "```json" ++ body ++ fence ->
        stripModesFence (trim raw) = trim body)
  /\ (forall body,
        startsWith (js "json") body = false ->
        trim raw = fence ++ body ++ fence ->
        stripModesFence (trim raw) = trim body)
  /\ (callLLM w Stage4_5 st = (Resolved raw, st1) ->
      (startsWith (js "# .rooignore for ") raw = true ->
       runRooignoreGenerationStage w md st = (inr (Some raw), st1))
      /\ (startsWith (js "# .rooignore for ") raw = false ->
          isCancellationRequested st1 = false ->
          forall second st2,
            callLLM w Stage4_5_1 st1 = (second, st2) ->
            runRooignoreGenerationStage w md st
            = (inr (match second with
                    | Resolved refined =>
                        if startsWith (js "# .rooignore for ") refined
                        then Some refined else None
                    | Rejected _ => None
                    end), st2)))
  /\ (callLLM w Stage4_6 st = (Resolved raw, st1) ->
      (startsWith (js "// General Workspace .clinerules for ") raw = true ->
       runWorkspaceRulesGenerationStage w md st = (inr (Some raw), st1))
      /\ (startsWith (js "// General Workspace .clinerules for ") raw = false ->
          isCancellationRequested st1 = false ->
          forall second st2,
            callLLM w Stage4_6_1 st1 = (second, st2) ->
            runWorkspaceRulesGenerationStage w md st
            = (inr (match second with
                    | Resolved refined =>
                        if startsWith (js "// General Workspace .clinerules for ")
                             refined
                        then Some refined else None
                    | Rejected _ => None
                    end), st2)))
  /\ (forall target,
        capture (exec flagI footgunRegex (analysisResult ++ js "\n" ++ md))
        = Some target ->
        callLLM w Stage4_7 st = (Resolved raw, st1) ->
        runFootgunPromptGenerationStage w analysisResult md st
        = (inr {| footgunPromptResult := Some raw;
                  footgunTargetMode := Some (toLowerCase (trim target)) |}, st1)).
Proof.
  intros H0. repeat apply conj.
  - intros H1. split.
    + now apply runRulesGenerationStage_first.
    + intros Hv H2 second st2 H3.
      now apply (runRulesGenerationStage_refined _ _ raw _ st1).
  - intros lang body Hl ->. now apply unfenceRules_wrapped.
  - intros h t Hh Hu. unfold normalizeRules. rewrite Hu.
    now apply stripPreamble_strips.
  - intros H1. split.
    + unfold runModesGenerationStage. run_stage. reflexivity.
    + unfold modesFromRaw.
      destruct (delegateSlugs w (stripModesFence (trim raw))); [reflexivity |].
      destruct (fallbackModes md). discriminate.
  - intros body ->. apply stripModesFence_json.
  - intros body Hj ->. now apply stripModesFence_plain.
  - intros H1. split.
    + intros Hv. apply (runHeaderStage_first _ _ _ _ _ _ _ H0 H1).
      now rewrite headerValid_rooignore.
    + intros Hv H2 second st2 H3.
      unfold runRooignoreGenerationStage.
      rewrite (runHeaderStage_refined _ _ _ _ _ _ _ _ second H0 H1
                 ltac:(now rewrite headerValid_rooignore) H2 H3).
      destruct second as [refined|]; [| reflexivity].
      now rewrite headerValid_rooignore.
  - intros H1. split.
    + intros Hv. apply (runHeaderStage_first _ _ _ _ _ _ _ H0 H1).
      now rewrite headerValid_workspace.
    + intros Hv H2 second st2 H3.
      unfold runWorkspaceRulesGenerationStage.
      rewrite (runHeaderStage_refined _ _ _ _ _ _ _ _ second H0 H1
                 ltac:(now rewrite headerValid_workspace) H2 H3).
      destruct second as [refined|]; [| reflexivity].
      now rewrite headerValid_workspace.
  - intros target Hc H1. now apply runFootgun_first.
Qed.

Lemma normalization_by_artifact_witness :
  runRulesGenerationStage prefacedRulesWorld [] (initialState false)
  = (inr (Some (js "// .clinerules-code for the CLI\n// Primary Tech Stack: Python")),
     {| isCancellationRequested := false; llmCalls := [(Stage4, 1%nat)] |})
  /\ runRulesGenerationStage refinedRulesWorld [] (initialState false)
     = (inr (Some (js "// .clinerules-code for the CLI\n// Primary Tech Stack: Python")),
        {| isCancellationRequested := false;
           llmCalls := [(Stage4, 1%nat); (Stage4_1, 1%nat)] |}).
Proof.
  split.
  - destruct (normalization_by_artifact prefacedRulesWorld [] [] prefacedRules
                (initialState false)
                {| isCancellationRequested := false; llmCalls := [(Stage4, 1%nat)] |}
                eq_refl) as (Hrules & _).
    destruct (Hrules eq_refl) as [Hfirst _].
    rewrite (Hfirst eq_refl). reflexivity.
  - destruct (normalization_by_artifact refinedRulesWorld [] []
                (js "I cannot write that file.") (initialState false)
                {| isCancellationRequested := false; llmCalls := [(Stage4, 1%nat)] |}
                eq_refl) as (Hrules & _).
    destruct (Hrules eq_refl) as [_ Hsecond].
    rewrite (Hsecond eq_refl eq_refl (Resolved prefacedRules)
               {| isCancellationRequested := false;
                  llmCalls := [(Stage4, 1%nat); (Stage4_1, 1%nat)] |} eq_refl).
    reflexivity.
Defined.

(** C6 fails as stated: ignore rules inside a fence are valid once
    normalized, but the stage tests them as received, asks for a refinement,
    tests that as received too and gives the artifact up. *)
Lemma rooignore_validated_as_received :
  callLLM fencedIgnoreWorld Stage4_5 (initialState false)
  = (Resolved fencedIgnore,
     {| isCancellationRequested := false; llmCalls := [(Stage4_5, 1%nat)] |})
  /\ normalizeRules fencedIgnore = js "# .rooignore for the CLI\n*.log"
  /\ headerValid rooignoreHeaderRegex (normalizeRules fencedIgnore) = true
  /\ runRooignoreGenerationStage fencedIgnoreWorld [] (initialState false)
     = (inr None,
        {| isCancellationRequested := false;
           llmCalls := [(Stage4_5, 1%nat); (Stage4_5_1, 1%nat)] |}).
Proof. repeat split; vm_compute; reflexivity. Qed.

(** ** The LLM client and the run as a whole *)

Module ClientFacts.

Lemma attempts_cons (site : CallSite) (first n : nat) :
  attempts site first (S n) = (site, first) :: attempts site (S first) n.
Proof. reflexivity. Qed.

Lemma attempts_snoc (site : CallSite) (first n : nat) :
  attempts site first (S n) = attempts site first n ++ [(site, (first + n)%nat)].
Proof. unfold attempts. now rewrite seq_S, map_app. Qed.

Lemma attempts_length (site : CallSite) (first n : nat) :
  length (attempts site first n) = n.
Proof. unfold attempts. now rewrite length_map, length_seq. Qed.

(** What [retry] does on a token that is not set: it makes between one
    and [retries + 1] attempts, numbered from [attempt] on; every attempt
    but the last failed in a way that is retried, with no cancellation
    requested meanwhile; the token is left as the last attempt left it. *)
Lemma retry_trace (w : World) (site : CallSite) :
  forall (retries attempt : nat) (errors : list jsstring) (st : State),
    isCancellationRequested st = false ->
    exists n,
      (1 <= n <= S retries)%nat
      /\ llmCalls (snd (retry w site retries attempt errors st))
         = llmCalls st ++ attempts site attempt n
      /\ (forall k, (attempt <= k < attempt + n - 1)%nat ->
            cancelRequestedDuring w site k = false
            /\ exists m, attemptOutcomeOf (generateContent w site k) = Retry m)
      /\ isCancellationRequested (snd (retry w site retries attempt errors st))
         = cancelRequestedDuring w site (attempt + n - 1).
Proof.
  induction retries as [|r IH]; intros attempt errors st Hst.
  - exists 1%nat. cbn [retry]. rewrite Hst. cbn [orb].
    replace (attempt + 1 - 1)%nat with attempt by lia.
    destruct (attemptOutcomeOf (generateContent w site attempt));
      (split; [lia | split; [reflexivity | split; [intros k Hk; lia | reflexivity]]]).
  - cbn [retry]. rewrite Hst. cbn [orb].
    destruct (attemptOutcomeOf (generateContent w site attempt)) as [t|m|m] eqn:E.
    1, 2: exists 1%nat; replace (attempt + 1 - 1)%nat with attempt by lia;
      (split; [lia | split; [reflexivity | split; [intros k Hk; lia | reflexivity]]]).
    destruct (cancelRequestedDuring w site attempt) eqn:Hc.
    + exists 1%nat. replace (attempt + 1 - 1)%nat with attempt by lia.
      destruct r; cbn [retry isCancellationRequested snd llmCalls]; rewrite ?Hc;
        (split; [lia | split; [reflexivity | split; [intros k Hk; lia | reflexivity]]]).
    + destruct (IH (S attempt) (errors ++ [m])
                  {| isCancellationRequested := false;
                     llmCalls := llmCalls st ++ [(site, attempt)] |} eq_refl)
        as (n & Hn & Hcalls & Hbefore & Hflag).
      exists (S n). split; [lia |]. split; [| split].
      * rewrite Hcalls. cbn [llmCalls]. rewrite <- app_assoc. reflexivity.
      * intros k Hk. destruct (Nat.eq_dec k attempt) as [-> | Hne].
        -- split; [exact Hc | eauto].
        -- apply Hbefore. lia.
      * rewrite Hflag. f_equal. lia.
Qed.

(** The calls of [callLLM]: none when it rejects at once, else those of
    [retry] with three retries. *)
Lemma callLLM_trace (w : World) (site : CallSite) (st : State) :
  exists n,
    (n <= 4)%nat
    /\ llmCalls (snd (callLLM w site st)) = llmCalls st ++ attempts site 1 n
    /\ (forall k, (1 <= k < n)%nat ->
          cancelRequestedDuring w site k = false
          /\ exists m, attemptOutcomeOf (generateContent w site k) = Retry m).
Proof.
  unfold callLLM.
  destruct (isCancellationRequested st) eqn:Hst;
    [exists 0%nat; cbn [snd attempts seq map]; rewrite app_nil_r;
     split; [lia | split; [reflexivity | intros k Hk; lia]] |].
  destruct (match initializationError w with Some e => truthy e | None => false end);
    [exists 0%nat; cbn [snd attempts seq map]; rewrite app_nil_r;
     split; [lia | split; [reflexivity | intros k Hk; lia]] |].
  destruct (negb (modelAvailable w));
    [exists 0%nat; cbn [snd attempts seq map]; rewrite app_nil_r;
     split; [lia | split; [reflexivity | intros k Hk; lia]] |].
  destruct (retry_trace w site 3 1 [] st Hst) as (n & Hn & Hcalls & Hbefore & _).
  exists n. split; [lia | split; [exact Hcalls |]].
  intros k Hk. apply Hbefore. lia.
Qed.

(** A text that [retry] resolves with is the text of the response to the
    last attempt made. *)
Lemma retry_resolved_reply (w : World) (site : CallSite) :
  forall (retries attempt : nat) (errors : list jsstring) (st st' : State)
    (text : jsstring),
    retry w site retries attempt errors st = (Resolved text, st') ->
    exists k reason,
      (attempt <= k <= attempt + retries)%nat
      /\ last (llmCalls st') = Some (site, k)
      /\ generateContent w site k = Response text reason
      /\ match reason with Some r => truthy r = false | None => True end.
Proof.
  induction retries as [|r IH]; intros attempt errors st st' text; cbn [retry];
    destruct (isCancellationRequested st); try discriminate;
    destruct (attemptOutcomeOf (generateContent w site attempt)) as [t|m|m] eqn:E;
    try discriminate.
  3: { intros H. destruct (IH _ _ _ _ _ H) as (k & reason & Hk & Hrest).
       exists k, reason. split; [lia | exact Hrest]. }
  all: intros [= <- <-]; exists attempt;
    unfold attemptOutcomeOf in E;
    destruct (generateContent w site attempt) as [text' [reason|] | message status];
    repeat match type of E with
           | match ?x with _ => _ end = _ => destruct x eqn:?
           | (if ?x then _ else _) = _ => destruct x eqn:?
           end; try discriminate; injection E as <-;
    eexists; (split; [lia | split; [apply last_snoc | split; [reflexivity |]]]);
    [assumption | exact I].
Qed.






End ClientFacts.
Import ClientFacts.

(** Whatever the model does, one call of [callLLM] makes at most four
    attempts, and they are numbered 1, 2, 3, 4 in this order. It makes
    none, and rejects leaving the token as it is, when the token is set,
    when the initialization has failed or when the model is missing. *)
Theorem callLLM_attempt_bound (w : World) (site : CallSite) (st : State) :
  (exists n,
     (n <= 4)%nat
     /\ llmCalls (snd (callLLM w site st)) = llmCalls st ++ attempts site 1 n)
  /\ (isCancellationRequested st = true
      \/ (exists e, initializationError w = Some e /\ e <> [])
      \/ modelAvailable w = false ->
      exists message, callLLM w site st = (Rejected message, st)).
Proof.
  split.
  - destruct (callLLM_trace w site st) as (n & Hn & Hcalls & _). eauto.
  - unfold callLLM. intros [Hst | [(e & He & Hne) | Hm]].
    + rewrite Hst. eauto.
    + destruct (isCancellationRequested st); [eauto |].
      rewrite He. apply truthy_nonempty in Hne. rewrite Hne. eauto.
    + destruct (isCancellationRequested st); [eauto |].
      destruct (match initializationError w with
                | Some e => truthy e
                | None => false
                end); [eauto |].
      rewrite Hm. cbn [negb]. eauto.
Qed.

Lemma callLLM_attempt_bound_witness :
  exists message,
    callLLM unavailableWorld Stage1 (initialState false)
    = (Rejected message, initialState false).
Proof.
  exact (proj2 (callLLM_attempt_bound unavailableWorld Stage1 (initialState false))
           (or_intror (or_intror eq_refl))).
Defined.

(** No attempt follows a request to cancel: when [callLLM] has made [n]
    attempts, no cancellation was requested during the attempts before the
    last one, and each of them failed in a way that is retried. *)
Theorem callLLM_stops_on_cancellation (w : World) (site : CallSite) (st : State)
    (n : nat) :
  llmCalls (snd (callLLM w site st)) = llmCalls st ++ attempts site 1 n ->
  forall k, (1 <= k < n)%nat ->
    cancelRequestedDuring w site k = false
    /\ exists m, attemptOutcomeOf (generateContent w site k) = Retry m.
Proof.
  intros H. destruct (callLLM_trace w site st) as (n' & _ & Hcalls & Hbefore).
  rewrite Hcalls in H. apply app_inv_head in H.
  apply (f_equal (@length _)) in H. rewrite !attempts_length in H. now subst n'.
Qed.

Lemma callLLM_stops_on_cancellation_witness :
  callLLM cancelledDuringSecond Stage1 (initialState false)
  = (Rejected (js "LLM call cancelled before attempt 3."),
     {| isCancellationRequested := true;
        llmCalls := [(Stage1, 1%nat); (Stage1, 2%nat)] |})
  /\ cancelRequestedDuring cancelledDuringSecond Stage1 1 = false
  /\ exists m,
       attemptOutcomeOf (generateContent cancelledDuringSecond Stage1 1)
       = Retry m.
Proof.
  split; [reflexivity |].
  exact (callLLM_stops_on_cancellation cancelledDuringSecond Stage1
           (initialState false) 2 eq_refl 1%nat (conj (le_n 1) (le_n 2))).
Defined.

(** A text that [callLLM] resolves with is the text of the response to the
    last attempt it made; that response was not blocked and its text is not
    blank. *)
Theorem callLLM_resolves_with_last_reply (w : World) (site : CallSite)
    (st st' : State) (text : jsstring) :
  callLLM w site st = (Resolved text, st') ->
  exists k reason,
    (1 <= k <= 4)%nat
    /\ last (llmCalls st') = Some (site, k)
    /\ generateContent w site k = Response text reason
    /\ match reason with Some r => truthy r = false | None => True end
    /\ trim text <> [].
Proof.
  intros H. pose proof (callLLM_resolved _ _ _ _ _ H) as Ht.
  unfold callLLM in H.
  repeat match type of H with
         | (if ?x then _ else _) = _ => destruct x
         end; try discriminate.
  destruct (retry_resolved_reply _ _ _ _ _ _ _ _ H) as (k & reason & Hk & Hl & Hg & Hr).
  exists k, reason. repeat split; try assumption; lia.
Qed.

Lemma callLLM_resolves_with_last_reply_witness :
  exists k reason,
    (1 <= k <= 4)%nat
    /\ last [(Stage2, 1%nat); (Stage2, 2%nat); (Stage2, 3%nat)] = Some (Stage2, k)
    /\ generateContent flakyWorld Stage2 k = Response (js "An answer") reason
    /\ match reason with Some r => truthy r = false | None => True end
    /\ trim (js "An answer") <> [].
Proof.
  exact (callLLM_resolves_with_last_reply flakyWorld Stage2 (initialState false)
           {| isCancellationRequested := false;
              llmCalls := [(Stage2, 1%nat); (Stage2, 2%nat); (Stage2, 3%nat)] |}
           (js "An answer") eq_refl).
Defined.



(** A client error, an HTTP status from 400 to 499 other than 429, is not
    retried: [callLLM] rejects after the one attempt. *)
Theorem callLLM_client_error_not_retried (w : World) (site : CallSite)
    (st : State) (message : jsstring) (status : N) :
  isCancellationRequested st = false ->
  initializationError w = None ->
  modelAvailable w = true ->
  generateContent w site 1 = Exception message (Some status) ->
  400 <= status < 500 ->
  status <> 429 ->
  exists reason,
    callLLM w site st
    = (Rejected reason,
       {| isCancellationRequested := cancelRequestedDuring w site 1;
          llmCalls := llmCalls st ++ [(site, 1%nat)] |})
    /\ (includes (js "API key not valid") message = false ->
        includes (js "LLM call blocked") message = false ->
        reason = js "LLM call failed with client error " ++ decimal status
                 ++ js ": " ++ message).
Proof.
  intros Hst Hi Hm Hg Hs Hn. unfold callLLM.
  rewrite Hst, Hi, Hm. cbn [negb retry]. rewrite Hst, Hg. cbn [orb attemptOutcomeOf].
  assert (Hb : (400 <=? status) && (status <? 500) && negb (status =? 429) = true).
  { apply andb_true_iff. split; [apply andb_true_iff; split |].
    - apply N.leb_le. lia.
    - apply N.ltb_lt. lia.
    - apply negb_true_iff, N.eqb_neq, Hn. }
  rewrite Hb.
  destruct (includes (js "API key not valid") message);
    [| destruct (includes (js "LLM call blocked") message)];
    eexists; (split; [reflexivity |]); intros; congruence.
Qed.

Lemma callLLM_client_error_not_retried_witness :
  exists reason,
    callLLM forbiddenWorld Stage1 (initialState false)
    = (Rejected reason,
       {| isCancellationRequested := false; llmCalls := [(Stage1, 1%nat)] |})
    /\ (includes (js "API key not valid") (js "Forbidden") = false ->
        includes (js "LLM call blocked") (js "Forbidden") = false ->
        reason = js "LLM call failed with client error " ++ decimal 403
                 ++ js ": " ++ js "Forbidden").
Proof.
  apply (callLLM_client_error_not_retried forbiddenWorld Stage1
           (initialState false) (js "Forbidden") 403); try reflexivity.
  - split; [discriminate | reflexivity].
  - discriminate.
Defined.

Module EngineFacts.

Lemma bind_inl {A B} (m : M A) (k : A -> M B) (st st' : State) (e : exn) :
  m st = (inl e, st') -> bind m k st = (inl e, st').
Proof. intros H. unfold bind. now rewrite H. Qed.

Lemma bind_step {A B} (m : M A) (k : A -> M B) (st st' : State) (a : A) :
  m st = (inr a, st') -> bind m k st = k a st'.
Proof. intros H. unfold bind. now rewrite H. Qed.

Lemma checkCancellation_inr (st st' : State) (u : unit) :
  checkCancellation st = (inr u, st') ->
  isCancellationRequested st = false /\ st' = st.
Proof.
  unfold checkCancellation. destruct (isCancellationRequested st); [discriminate |].
  now intros [= _ <-].
Qed.

Lemma includes_app (a p b : jsstring) : includes p (a ++ p ++ b) = true.
Proof.
  destruct (includes p (a ++ p ++ b)) eqn:E; [reflexivity |].
  apply includes_false in E.
  pose proof (indexOf_none _ _ E (length a)) as H.
  rewrite skipn_app, skipn_all, Nat.sub_diag, skipn_O in H. cbn [app] in H.
  rewrite startsWith_app in H.
  discriminate H. rewrite !length_app. lia.
Qed.

End EngineFacts.
Import EngineFacts.

(** The two stages the run cannot do without. When the analysis call is
    rejected the engine throws an ordinary error that names the stage and
    carries the message of the rejection, and makes no further call; so it
    does when the structure call is rejected. A rejection caused by a
    request to cancel during the call is reported in this way too, as an
    error and not as a cancellation. *)
Theorem critical_stage_failure (w : World) (projectIdea analysisResult : jsstring)
    (st st1 st2 : State) (message : jsstring) :
  isCancellationRequested st = false ->
  (callLLM w Stage1 st = (Rejected message, st1) ->
   runAdvancedReasoningEngine w projectIdea st
   = (inl (Error (js "Advanced Reasoning Engine failed: Analysis stage failed: "
                  ++ message)), st1))
  /\ (runAnalysisStage w projectIdea st = (inr analysisResult, st1) ->
      isCancellationRequested st1 = false ->
      callLLM w Stage2 st1 = (Rejected message, st2) ->
      runAdvancedReasoningEngine w projectIdea st
      = (inl (Error (js "Advanced Reasoning Engine failed: Structuring stage failed: "
                     ++ message)), st2)).
Proof.
  intros H0. split.
  - intros H1. unfold runAdvancedReasoningEngine, engineBody.
    rewrite (bind_inl _ _ _ st1
               (Error (js "Analysis stage failed: " ++ message))).
    + reflexivity.
    + unfold runAnalysisStage. run_stage. reflexivity.
  - intros Ha H1 H2. unfold runAdvancedReasoningEngine, engineBody.
    rewrite (bind_step _ _ _ _ _ Ha).
    rewrite (bind_step checkCancellation _ st1 st1 tt)
      by (unfold checkCancellation; now rewrite H1).
    rewrite (bind_inl _ _ _ st2
               (Error (js "Structuring stage failed: " ++ message))).
    + reflexivity.
    + unfold runStructuringStage. run_stage. reflexivity.
Qed.

Lemma critical_stage_failure_witness :
  runAdvancedReasoningEngine cancelledWhileWaiting (js "A to-do list")
    (initialState false)
  = (inl (Error (js "Advanced Reasoning Engine failed: Analysis stage failed: LLM call cancelled before attempt 2.")),
     {| isCancellationRequested := true; llmCalls := [(Stage1, 1%nat)] |}).
Proof.
  destruct (critical_stage_failure cancelledWhileWaiting (js "A to-do list") []
              (initialState false)
              {| isCancellationRequested := true; llmCalls := [(Stage1, 1%nat)] |}
              (initialState false)
              (js "LLM call cancelled before attempt 2.") eq_refl) as [H _].
  exact (H eq_refl).
Defined.

(** A run that returns normally has seen no request to cancel: the token
    is not set when the run starts, nor when it returns. *)
Theorem completed_run_not_cancelled (w : World) (projectIdea : jsstring)
    (st st' : State) (result : engineResult) :
  runAdvancedReasoningEngine w projectIdea st = (inr result, st') ->
  isCancellationRequested st = false /\ isCancellationRequested st' = false.
Proof.
  unfold runAdvancedReasoningEngine.
  destruct (engineBody w projectIdea st) as [[[m|m]|res] s] eqn:H; try discriminate.
  intros [= <- <-]. unfold engineBody in H.
  apply bind_inr in H as (analysisResult & s1 & Ha & H).
  apply bind_inr in H as ([] & s2 & _ & H).
  apply bind_inr in H as ([md0 conciseCommand] & s3 & _ & H).
  apply bind_inr in H as ([] & s4 & _ & H).
  apply bind_inr in H as (md & s5 & _ & H).
  apply bind_inr in H as ([] & s6 & _ & H).
  apply bind_inr in H as ([[[[rules rooignore] workspace] footgun] modes] & s7 & _ & H).
  apply bind_inr in H as ([] & s8 & _ & H).
  apply bind_inr in H as ([finalPlan planIsValid] & s9 & _ & H).
  apply bind_inr in H as ([] & s10 & _ & H).
  apply bind_inr in H as (reviewed & s11 & _ & H).
  apply bind_inr in H as ([] & s12 & Hlast & H).
  injection H as _ <-.
  apply checkCancellation_inr in Hlast as [Hlast ->]. split; [| exact Hlast].
  unfold runAnalysisStage in Ha.
  apply bind_inr in Ha as ([] & s0 & Hfirst & _).
  now apply checkCancellation_inr in Hfirst.
Qed.

Lemma completed_run_not_cancelled_witness :
  exists result st',
    runAdvancedReasoningEngine happyWorld (js "A simple to-do list CLI in Python")
      (initialState false) = (inr result, st')
    /\ isCancellationRequested (initialState false) = false
    /\ isCancellationRequested st' = false.
Proof.
  destruct (runAdvancedReasoningEngine happyWorld
              (js "A simple to-do list CLI in Python") (initialState false))
    as [[e|result] st'] eqn:E.
  - vm_compute in E. discriminate.
  - exists result, st'. split; [reflexivity |].
    exact (completed_run_not_cancelled _ _ _ _ _ E).
Defined.

(** The refinement of the mode-override prompt is never asked for: the
    stage calls the model from its first call site only, since a call that
    resolves never resolves with a blank text. *)
Theorem footgun_prompt_never_refined (w : World) (analysisResult md : jsstring)
    (st : State) :
  exists n,
    (n <= 4)%nat
    /\ llmCalls (snd (runFootgunPromptGenerationStage w analysisResult md st))
       = llmCalls st ++ attempts Stage4_7 1 n.
Proof.
  unfold runFootgunPromptGenerationStage.
  destruct (capture _);
    [| exists 0%nat; cbn [ret snd attempts seq map]; rewrite app_nil_r;
       split; [lia | reflexivity]].
  unfold bind at 1. unfold checkCancellation.
  destruct (isCancellationRequested st) eqn:Hst;
    [exists 0%nat; cbn [snd attempts seq map]; rewrite app_nil_r;
     split; [lia | reflexivity] |].
  destruct (callLLM_trace w Stage4_7 st) as (n & Hn & Hcalls & _).
  exists n. split; [exact Hn |]. rewrite <- Hcalls.
  unfold bind, awaitLLM.
  destruct (callLLM w Stage4_7 st) as [[text|message] s] eqn:E; cbn [snd].
  - rewrite (isBlank_resolved _ _ _ _ _ E). reflexivity.
  - reflexivity.
Qed.

(** The plan of the assembly stage always carries the title of a plan:
    that of the model when it passed the validation or the refinement, and
    else the fallback plan. *)
Theorem assembled_plan_has_title (w : World)
    (conciseCommand structureResultMd : jsstring) (slugs : list json)
    (st st' : State) (finalPlan : jsstring) (planIsValid : bool) :
  runPlanAssemblyStage w conciseCommand structureResultMd slugs st
  = (inr (finalPlan, planIsValid), st') ->
  includes planTitle finalPlan = true.
Proof.
  unfold runPlanAssemblyStage. intros H.
  apply bind_inr in H as ([] & s0 & _ & H).
  apply bind_inr in H as (r & s1 & _ & H).
  apply bind_inr in H as ([plan valid] & s2 & Hdraft & H).
  destruct valid.
  - injection H as <- _ _.
    destruct r as [draft|message]; [| discriminate].
    destruct (truthy draft) eqn:Ht; [| discriminate].
    destruct (planValidationIssues draft) eqn:Hv.
    + injection Hdraft as <- _. unfold planValidationIssues in Hv.
      destruct (includes planTitle draft); [reflexivity | discriminate].
    + apply bind_inr in Hdraft as ([] & s3 & _ & Hdraft).
      apply bind_inr in Hdraft as (r2 & s4 & _ & Hdraft).
      destruct r2 as [refined|message]; [| discriminate].
      injection Hdraft as <- Hr _.
      now apply andb_true_iff in Hr as [_ Hr].
  - apply bind_inr in H as (fb & s3 & Hfb & H).
    injection H as <- _ _. unfold fallbackPlan, throw, ret in Hfb.
    repeat match type of Hfb with
           | match ?x with _ => _ end _ = _ => destruct x
           end; try discriminate.
    injection Hfb as <- _. unfold fallbackPlanText.
    change (js "\n# Roo Code Execution Plan: Fallback Plan\n\n**Concise Goal:** ")
      with (js "\n" ++ planTitle ++ js " Fallback Plan\n\n**Concise Goal:** ").
    rewrite <- !app_assoc. apply includes_app.
Qed.

Lemma assembled_plan_has_title_witness :
  exists plan st',
    runPlanAssemblyStage deadWorld (js "Build it") [] [JStr (js "code")]
      (initialState false) = (inr (plan, false), st')
    /\ includes planTitle plan = true.
Proof.
  destruct (runPlanAssemblyStage deadWorld (js "Build it") [] [JStr (js "code")]
              (initialState false)) as [[e|[plan valid]] st'] eqn:E.
  - vm_compute in E. discriminate.
  - assert (valid = false) as -> by (vm_compute in E; congruence).
    exists plan, st'. split; [reflexivity |].
    exact (assembled_plan_has_title _ _ _ _ _ _ _ _ E).
Defined.

(** ** What the patterns let through *)

Module MatcherFacts.

Lemma reaches_refl (q : N -> bool) (gf : bool) (x : mstate) : reaches q gf x x.
Proof.
  exists []. split; [reflexivity |]. split; [simpl; lia |].
  split; [constructor | reflexivity].
Qed.

Lemma reaches_trans (q : N -> bool) (g1 g2 : bool) (x y z : mstate) :
  reaches q g1 x y -> reaches q g2 y z -> reaches q (g1 && g2) x z.
Proof.
  intros (l1 & Hr1 & Hp1 & Hq1 & Hc1) (l2 & Hr2 & Hp2 & Hq2 & Hc2).
  exists (l1 ++ l2). rewrite Hr1, Hr2, Hp2, Hp1, length_app, <- app_assoc.
  split; [reflexivity |]. split; [lia |]. split; [now apply Forall_app |].
  intros Hg. apply andb_true_iff in Hg as [Hg1 Hg2].
  now rewrite Hc2, Hc1.
Qed.

Lemma reaches_weaken (q : N -> bool) (g : bool) (x y : mstate) :
  reaches q true x y -> reaches q g x y.
Proof.
  intros (l & Hr & Hp & Hq & Hc). exists l. auto.
Qed.

Lemma reaches_advance (q : N -> bool) (x : mstate) (c : N) (t : jsstring) :
  rest x = c :: t -> q c = true -> reaches q true x (advance x c t).
Proof.
  intros Hr Hq. exists [c]. cbn [rest pos cap advance length app].
  split; [exact Hr |]. split; [lia |]. split; [| reflexivity].
  constructor; [exact Hq | constructor].
Qed.

Lemma repeat_eq {A} (m : mstate -> (mstate -> option A) -> option A)
    (k : mstate -> option A) (g : bool) (fuel mn : nat) (mx : option nat)
    (x : mstate) :
  repeatMatcher m k g fuel mn mx x
  = match mx with
    | Some O => k x
    | _ =>
        match fuel with
        | O => None
        | S fuel' =>
            let d := fun y : mstate =>
              if Nat.eqb mn 0 && Nat.eqb (pos y) (pos x) then None
              else repeatMatcher m k g fuel' (Nat.pred mn)
                     (option_map Nat.pred mx) y in
            if negb (Nat.eqb mn 0) then m x d
            else if g then orElse (m x d) (k x)
            else orElse (k x) (m x d)
        end
    end.
Proof. destruct fuel; reflexivity. Qed.

Lemma orElse_some {A} (a b : option A) (r : A) :
  orElse a b = Some r -> a = Some r \/ b = Some r.
Proof. destruct a; cbn; auto. Qed.

(** A result of a quantified pattern is a result of the continuation, at
    a state that the iterations reach. *)
Lemma repeat_result {A} (q : N -> bool) (gf : bool)
    (m : mstate -> (mstate -> option A) -> option A) :
  (forall x d res, m x d = Some res ->
     exists y, d y = Some res /\ reaches q gf x y) ->
  forall (fuel : nat) (k : mstate -> option A) (g : bool) (mn : nat)
         (mx : option nat) (x : mstate) (res : A),
    repeatMatcher m k g fuel mn mx x = Some res ->
    exists y, k y = Some res /\ reaches q gf x y.
Proof.
  intros Hm. induction fuel as [|fuel IH]; intros k g mn mx x res H;
    rewrite repeat_eq in H.
  - destruct mx as [[|n]|]; try discriminate.
    exists x. split; [exact H | apply reaches_refl].
  - assert (Hk : k x = Some res -> exists y, k y = Some res /\ reaches q gf x y)
      by (intros Hx; exists x; split; [exact Hx | apply reaches_refl]).
    assert (Hd : m x (fun y : mstate =>
                        if Nat.eqb mn 0 && Nat.eqb (pos y) (pos x) then None
                        else repeatMatcher m k g fuel (Nat.pred mn)
                               (option_map Nat.pred mx) y) = Some res ->
                 exists y, k y = Some res /\ reaches q gf x y).
    { intros Hx. apply Hm in Hx as (y & Hy & Hxy).
      destruct (Nat.eqb mn 0 && Nat.eqb (pos y) (pos x)); [discriminate |].
      apply IH in Hy as (z & Hz & Hyz). exists z. split; [exact Hz |].
      rewrite <- (andb_diag gf). now apply (reaches_trans q gf gf x y z). }
    destruct mx as [[|n]|]; [now apply Hk | |]; cbv zeta in H;
      (destruct (negb (Nat.eqb mn 0)); [now apply Hd |]);
      (destruct g; apply orElse_some in H as [H | H]; auto).
Qed.

(** A result of the matcher is a result of its continuation, at a state
    that the pattern reaches. *)
Lemma matcher_result {A} (fl : flags) (q : N -> bool) (r : regex) :
  within fl q r ->
  forall (x : mstate) (k : mstate -> option A) (res : A),
    matcher fl r x k = Some res ->
    exists y, k y = Some res /\ reaches q (groupFree r) x y.
Proof.
  induction r as [a | p | | r1 IH1 r2 IH2 | r1 IH1 r2 IH2 | mn mx g r' IH
                  | r' IH | |]; intros Hw x k res H; cbn [groupFree].
  - cbn [matcher] in H. destruct (rest x) as [|c t] eqn:E; [discriminate |].
    destruct (charMatches fl a c) eqn:Hc; [| discriminate].
    exists (advance x c t). split; [exact H |].
    apply reaches_advance; [exact E | now apply Hw].
  - cbn [matcher] in H. destruct (rest x) as [|c t] eqn:E; [discriminate |].
    destruct (setMatches fl p c) eqn:Hc; [| discriminate].
    exists (advance x c t). split; [exact H |].
    apply reaches_advance; [exact E | now apply Hw].
  - exists x. split; [exact H | apply reaches_refl].
  - destruct Hw as [Hw1 Hw2]. rewrite matcher_seq in H.
    apply (IH1 Hw1) in H as (y & Hy & Hxy).
    apply (IH2 Hw2) in Hy as (z & Hz & Hyz).
    exists z. split; [exact Hz | now apply (reaches_trans q _ _ x y z)].
  - destruct Hw as [Hw1 Hw2]. rewrite matcher_alt in H.
    apply orElse_some in H as [H | H].
    + apply (IH1 Hw1) in H as (y & Hy & (l & Hr & Hp & Hq & Hc)).
      exists y. split; [exact Hy |]. exists l. repeat split; auto.
      intros Hg. apply andb_true_iff in Hg as [Hg _]. auto.
    + apply (IH2 Hw2) in H as (y & Hy & (l & Hr & Hp & Hq & Hc)).
      exists y. split; [exact Hy |]. exists l. repeat split; auto.
      intros Hg. apply andb_true_iff in Hg as [_ Hg]. auto.
  - change (matcher fl (RQuant mn mx g r') x k)
      with (repeatMatcher (matcher fl r') k g (S (mn + length (rest x))) mn mx x)
      in H.
    apply (repeat_result q (groupFree r') (matcher fl r')) in H; [exact H |].
    intros x' d res' Hx. now apply (IH Hw).
  - rewrite matcher_group in H.
    apply (IH Hw) in H as (y & Hy & (l & Hr & Hp & Hq & Hc)).
    eexists. split; [exact Hy |]. exists l. cbn [rest pos cap].
    repeat split; auto. discriminate.
  - rewrite matcher_bol in H. destruct (atBol fl x); [| discriminate].
    exists x. split; [exact H | apply reaches_refl].
  - rewrite matcher_eol in H. destruct (atEol fl x); [| discriminate].
    exists x. split; [exact H | apply reaches_refl].
Qed.

(** A match found by the search loop is a match at some index. *)
Lemma search_some (fl : flags) (r : regex) (s : jsstring) :
  forall (i : nat) (p : option N) (m : matchResult),
    search fl r i p s = Some m ->
    exists n,
      (n <= length s)%nat
      /\ matchAt fl r
           {| pos := i + n;
              prev := match n with O => p | S j => nth_error s j end;
              rest := skipn n s; cap := None |} = Some m.
Proof.
  induction s as [|c s IH]; intros i p m H; cbn [search] in H;
    apply orElse_some in H as [H | H]; try discriminate.
  - exists 0%nat. rewrite Nat.add_0_r. split; [simpl; lia | exact H].
  - exists 0%nat. rewrite Nat.add_0_r. split; [simpl; lia | exact H].
  - apply IH in H as (n & Hn & H). exists (S n). split; [simpl; lia |].
    replace (i + S n)%nat with (S i + n)%nat by lia.
    destruct n as [|j]; exact H.
Qed.

Lemma within_true (fl : flags) (r : regex) : within fl (fun _ => true) r.
Proof. induction r; cbn; auto. Qed.

(** The first state, from left to right, at which the continuation of a
    lazy run has a result. *)
Lemma lazyRun_first {A} (k : mstate -> option A) (res : A) :
  forall (l : jsstring) (x : mstate),
    rest x = l ->
    lazyRun x l k = Some res ->
    exists n,
      (n <= length l)%nat
      /\ k (consume x (firstn n l)) = Some res
      /\ forall j, (j < n)%nat -> k (consume x (firstn j l)) = None.
Proof.
  induction l as [|c t IH]; intros x Hx H; cbn [lazyRun] in H.
  - apply orElse_some in H as [H | H]; [| discriminate].
    exists 0%nat. split; [simpl; lia |]. split; [exact H | intros j Hj; lia].
  - destruct (k x) as [r0|] eqn:Hk; cbn [orElse] in H.
    + exists 0%nat. split; [simpl; lia |].
      split; [cbn [firstn consume]; congruence | intros j Hj; lia].
    + apply (IH (advance x c t) eq_refl) in H as (n & Hn & Hres & Hmin).
      exists (S n). split; [simpl; lia |].
      cbn [firstn consume]. rewrite Hx. cbn [tl]. split; [exact Hres |].
      intros [|j] Hj; [exact Hk |].
      cbn [firstn consume]. rewrite Hx. cbn [tl]. apply Hmin. lia.
Qed.

Lemma lineEndAfter_terminator (c : N) (t : jsstring) :
  isLineTerminator c = true -> lineEndAfter (c :: t) <> None.
Proof.
  intros H. cbn [lineEndAfter]. rewrite (lineTerminator_whiteSpace _ H), H.
  now destruct (lineEndAfter t).
Qed.

End MatcherFacts.
Import MatcherFacts.

Module OutlineFacts.

Lemma outlineSectionRegex_eq :
  outlineSectionRegex
  = RSeq RBol
      (RSeq (RQuant 2 (Some 3%nat) true (RChar 35))
         (RSeq (star space)
            (RSeq (str (js "Core Logic Outlines"))
               (RSeq (star space)
                  (RSeq (RGroup (starLazy anyChar))
                     (RAlt (RSeq RBol
                              (RSeq (RQuant 2 None true (RChar 35)) space))
                           (RSeq (star space) REol))))))).
Proof. reflexivity. Qed.

(** The end of the section pattern, under the m flag, holds before any
    line terminator. *)
Lemma section_end_at_terminator (x0 y : mstate) (c : N) (t : jsstring) :
  rest y = c :: t ->
  isLineTerminator c = true ->
  matcher flagM
    (RAlt (RSeq RBol (RSeq (RQuant 2 None true (RChar 35)) space))
          (RSeq (star space) REol)) y (matchUpTo x0) <> None.
Proof.
  intros Hy Hc. rewrite matcher_alt.
  assert (H2 : matcher flagM (RSeq (star space) REol) y (matchUpTo x0) <> None).
  { rewrite matcher_seq. unfold space.
    rewrite (matcher_star_set flagM) by reflexivity.
    rewrite (greedyRun_lineEnd x0 (rest y) y eq_refl), Hy.
    pose proof (lineEndAfter_terminator c t Hc) as Hl.
    destruct (lineEndAfter (c :: t)); [discriminate | congruence]. }
  destruct (matcher flagM (RSeq RBol _) y (matchUpTo x0)); [discriminate |].
  exact H2.
Qed.

(** The text that the section pattern captures stops before the first
    line terminator: it is within one line. *)
Lemma section_group_one_line (x0 : mstate) (m : matchResult) (g : jsstring) :
  matchAt flagM outlineSectionRegex x0 = Some m ->
  group1 m = Some g ->
  Forall (fun c => isLineTerminator c = false) g.
Proof.
  intros H Hg. rewrite matchAt_eq, outlineSectionRegex_eq in H.
  do 5 (rewrite matcher_seq in H;
        apply (matcher_result flagM (fun _ => true) _ (within_true _ _)) in H
          as (? & H & _); cbv beta in H).
  rewrite matcher_seq in H.
  match type of H with matcher _ _ ?y _ = _ => rename y into y5 end.
  rewrite matcher_group, matcher_lazy_any in H.
  apply (lazyRun_first _ _ (rest y5) y5 eq_refl) in H as (n & Hn & H & Hmin).
  apply (matcher_result flagM (fun _ => true) _ (within_true _ _)) in H
    as (z & H & (l & _ & _ & _ & Hcap)).
  specialize (Hcap eq_refl). cbn [cap] in Hcap.
  unfold matchUpTo in H. injection H as <-. cbn [group1] in Hg.
  rewrite Hcap in Hg. injection Hg as <-.
  rewrite consume_pos, length_firstn.
  replace (pos y5 + Nat.min n (length (rest y5)) - pos y5)%nat with n by lia.
  apply List.Forall_forall. intros c Hin.
  destruct (isLineTerminator c) eqn:Hc; [exfalso | reflexivity].
  apply In_nth_error in Hin as (j & Hj).
  assert (Hjn : (j < n)%nat).
  { assert (nth_error (firstn n (rest y5)) j <> None) by congruence.
    apply nth_error_Some in H. rewrite length_firstn in H. lia. }
  specialize (Hmin j Hjn). revert Hmin.
  apply section_end_at_terminator with (c := c) (t := skipn (S j) (rest y5)); [| exact Hc].
  cbn [rest].
  rewrite (consume_firstn_rest y5 (rest y5) j eq_refl).
  rewrite nth_error_firstn in Hj.
  destruct (Nat.ltb_spec j n) as [_ | Hge]; [| lia].
  clear - Hj. revert j Hj. generalize (rest y5). intros l.
  induction l as [|a l IH]; intros [|j] Hj; try discriminate.
  - now injection Hj as ->.
  - cbn [skipn]. now apply IH.
Qed.

Lemma startsWith_newline_in (s : jsstring) (k : nat) :
  startsWith (js "\n") (skipn k s) = true -> In 10 s.
Proof.
  intros H. apply startsWith_spec in H as [t Ht].
  rewrite <- (firstn_skipn k s), Ht. apply in_or_app. right. now left.
Qed.

(** One line, read from the start of the loop, leaves nothing to save. *)
Lemma one_line_saves_nothing (line : jsstring) :
  saveOutline (outlineStep emptyOutlineState line) = ∅.
Proof.
  unfold outlineStep. destruct (exec noFlags outlineFileRegex line); [| reflexivity].
  unfold saveOutline at 1. cbn [currentOutlineFile currentOutline coreLogicOutlines].
  rewrite trim_nil. cbn [truthy]. now rewrite andb_false_r.
Qed.

(** The section of the outlines, when found, is one line. *)
Lemma section_is_one_line (markdownContent : jsstring) (m : matchResult)
    (g : jsstring) :
  exec flagM outlineSectionRegex markdownContent = Some m ->
  group1 m = Some g ->
  splitStr (js "\n") g = [g].
Proof.
  intros E Hg. apply search_some in E as (n & _ & E).
  pose proof (section_group_one_line _ _ _ E Hg) as Hline.
  unfold splitStr. rewrite splitGo_none; [reflexivity |].
  intros k _. destruct (startsWith (js "\n") (skipn k g)) eqn:Hs; [| reflexivity].
  apply startsWith_newline_in in Hs.
  rewrite List.Forall_forall in Hline. now apply Hline in Hs.
Qed.

End OutlineFacts.
Import OutlineFacts.

(** The outline extractor returns the empty map on every document. Under
    the m flag the end of its section pattern holds at the end of the first
    line of the section, so the captured text is within one line: at most
    one entry is started and it has no body to save. *)
Theorem parseOutlinesFromMd_empty (markdownContent : jsstring) :
  parseOutlinesFromMd markdownContent = ∅.
Proof.
  unfold parseOutlinesFromMd.
  destruct (exec flagM outlineSectionRegex markdownContent) as [m|] eqn:E;
    [| reflexivity].
  unfold capture. destruct (group1 m) as [g|] eqn:Hg; [| reflexivity].
  destruct (truthy g); [| reflexivity].
  cbv zeta. rewrite (section_is_one_line _ _ _ E Hg). cbn [fold_left].
  apply one_line_saves_nothing.
Qed.

Module FootgunFacts.

Lemma slugChar_eq : slugChar = RSet isSlugCodeUnit.
Proof. reflexivity. Qed.

Ltac bounds :=
  repeat match goal with
         | |- context [N.leb ?a ?b] => destruct (N.leb_spec a b)
         | |- context [N.eqb ?a ?b] => destruct (N.eqb_spec a b)
         | H : context [N.leb ?a ?b] |- _ => destruct (N.leb_spec a b)
         | H : context [N.eqb ?a ?b] |- _ => destruct (N.eqb_spec a b)
         end.

(** What [[a-z0-9-]] takes under the i flag: a slug code unit or an upper
    case letter. *)
Lemma slug_under_i (c : N) :
  setMatches flagI isSlugCodeUnit c = true ->
  isSlugCodeUnit (lowerChar c) = true /\ isWhiteSpace c = false.
Proof.
  unfold setMatches, flagI, ignoreCase. intros H.
  assert (Hr : (48 <= c <= 57) \/ c = 45 \/ (65 <= c <= 90) \/ (97 <= c <= 122)).
  { unfold isSlugCodeUnit, upperChar, lowerChar in H.
    destruct (N.leb_spec 97 c), (N.leb_spec c 122), (N.leb_spec 65 c),
      (N.leb_spec c 90), (N.leb_spec 48 c), (N.leb_spec c 57),
      (N.eqb_spec c 45); try lia; cbn in H; bounds; cbn in H;
      try discriminate; lia. }
  split; [| apply isWhiteSpace_printable; lia].
  unfold isSlugCodeUnit, lowerChar.
  destruct (N.leb_spec 65 c), (N.leb_spec c 90); cbn [andb]; bounds;
    cbn; try reflexivity; lia.
Qed.

Lemma trim_fixed (g : jsstring) :
  Forall (fun c => isWhiteSpace c = false) g -> trim g = g.
Proof.
  intros H. unfold trim.
  assert (Hs : forall l, Forall (fun c => isWhiteSpace c = false) l ->
                         trimStart l = l).
  { intros [|c l] Hl; [reflexivity |]. inversion Hl; subst.
    now apply trimStart_fixed. }
  rewrite (Hs g H). unfold trimEnd.
  rewrite Hs by now apply Forall_rev. apply rev_involutive.
Qed.

Lemma footgunRegex_eq :
  footgunRegex
  = RSeq (str (js "override system prompt for mode"))
      (RSeq (plus space) (RGroup (plus slugChar))).
Proof. reflexivity. Qed.

(** The text that the trigger pattern captures is made of slug code units
    and upper case letters. *)
Lemma footgun_group (s g : jsstring) :
  capture (exec flagI footgunRegex s) = Some g ->
  g <> [] /\ Forall (fun c => setMatches flagI isSlugCodeUnit c = true) g.
Proof.
  unfold capture.
  destruct (exec flagI footgunRegex s) as [m|] eqn:E; [| discriminate].
  destruct (group1 m) as [g'|] eqn:Hg; [| discriminate].
  destruct (truthy g') eqn:Ht; [| discriminate]. intros [= ->].
  split; [now apply truthy_nonempty |].
  apply search_some in E as (n & _ & E).
  rewrite matchAt_eq, footgunRegex_eq in E.
  do 2 (rewrite matcher_seq in E;
        apply (matcher_result flagI (fun _ => true) _ (within_true _ _)) in E
          as (? & E & _); cbv beta in E).
  rewrite matcher_group in E.
  apply (matcher_result flagI (fun c => setMatches flagI isSlugCodeUnit c)) in E
    as (z & E & (l & Hr & Hp & Hq & _)); [| intros c Hc; exact Hc].
  unfold matchUpTo in E. injection E as <-. cbn [group1 cap] in Hg.
  injection Hg as <-. rewrite Hp, Hr.
  match goal with
  | |- Forall _ (firstn ?k _) => replace k with (length l) by lia
  end.
  rewrite firstn_app, firstn_all, Nat.sub_diag. cbn [firstn].
  now rewrite app_nil_r.
Qed.

End FootgunFacts.
Import FootgunFacts.

(** The mode that a mode-override prompt is for is a slug: not empty and
    made of lower case letters, digits and hyphens only, whatever the
    analysis and the structure document say. The name of its artifact,
    ".roo/system-prompt-" and the slug, therefore names a file of the
    directory ".roo". *)
Theorem footgun_target_is_slug (w : World) (analysisResult md : jsstring)
    (st st' : State) (f : footgunResult) (target : jsstring) :
  runFootgunPromptGenerationStage w analysisResult md st = (inr f, st') ->
  footgunTargetMode f = Some target ->
  target <> [] /\ Forall (fun c => isSlugCodeUnit c = true) target.
Proof.
  unfold runFootgunPromptGenerationStage.
  destruct (capture _) as [g|] eqn:Hc;
    [| unfold ret; intros [= <- _]; discriminate].
  apply footgun_group in Hc as [Hne Hall].
  assert (Hslug : toLowerCase (trim g) <> []
                  /\ Forall (fun c => isSlugCodeUnit c = true)
                       (toLowerCase (trim g))).
  { rewrite trim_fixed.
    - split.
      + destruct g; [congruence | discriminate].
      + unfold toLowerCase. apply List.Forall_map.
        eapply List.Forall_impl; [| exact Hall].
        intros c Hcm. now apply slug_under_i.
    - eapply List.Forall_impl; [| exact Hall].
      intros c Hcm. now apply slug_under_i. }
  intros H Ht.
  apply bind_inr in H as ([] & s0 & _ & H).
  apply bind_inr in H as (r & s1 & _ & H).
  destruct r as [result|message]; [| injection H as <- _; discriminate].
  destruct (isBlank result).
  - apply bind_inr in H as ([] & s2 & _ & H).
    apply bind_inr in H as (r2 & s3 & _ & H).
    destruct r2 as [refined|message]; [| injection H as <- _; discriminate].
    destruct (isBlank refined); injection H as <- _; [discriminate |].
    cbn [footgunTargetMode] in Ht. now injection Ht as <-.
  - injection H as <- _. cbn [footgunTargetMode] in Ht. now injection Ht as <-.
Qed.

Lemma footgun_target_is_slug_witness :
  exists f st',
    runFootgunPromptGenerationStage footgunWorld
      (js "Please Override System Prompt for Mode  Code-Review now.") []
      (initialState false) = (inr f, st')
    /\ footgunTargetMode f = Some (js "code-review")
    /\ js "code-review" <> []
    /\ Forall (fun c => isSlugCodeUnit c = true) (js "code-review").
Proof.
  destruct (runFootgunPromptGenerationStage footgunWorld
              (js "Please Override System Prompt for Mode  Code-Review now.") []
              (initialState false)) as [[e|f] st'] eqn:E.
  - vm_compute in E. discriminate.
  - exists f, st'. split; [reflexivity |].
    assert (Ht : footgunTargetMode f = Some (js "code-review"))
      by (vm_compute in E; injection E as <- _; reflexivity).
    split; [exact Ht |].
    exact (footgun_target_is_slug _ _ _ _ _ _ _ E Ht).
Defined.

Module HeaderFacts.

Lemma last_firstn_S (s : jsstring) (j : nat) (c : N) :
  nth_error s j = Some c -> last (firstn (S j) s) = Some c.
Proof.
  revert j. induction s as [|a s IH]; intros [|j] H; try discriminate.
  - now injection H as ->.
  - cbn [nth_error] in H. apply IH in H.
    change (firstn (S (S j)) (a :: s)) with (a :: firstn (S j) s).
    destruct (firstn (S j) s) eqn:E; [discriminate | exact H].
Qed.

(** Under the m flag [^literal] holds of a text one of whose lines starts
    with the literal. *)
Lemma test_line_start (L s : jsstring) :
  test flagM (RSeq RBol (str L)) s = true -> hasLineStarting L s.
Proof.
  unfold test, exec.
  destruct (search flagM (RSeq RBol (str L)) 0 None s) as [m|] eqn:E;
    [| discriminate].
  intros _. apply search_some in E as (n & Hn & E).
  rewrite matchAt_eq, matcher_seq, matcher_bol in E.
  destruct (atBol flagM _) eqn:Hb; [| discriminate].
  rewrite (matcher_str flagM) in E by reflexivity. cbn [rest] in E.
  destruct (startsWith L (skipn n s)) eqn:Hs; [| discriminate].
  apply startsWith_spec in Hs as [b Hb'].
  exists (firstn n s), b. split.
  - now rewrite <- Hb', firstn_skipn.
  - unfold atBol in Hb. cbn [prev] in Hb. destruct n as [|j]; [reflexivity |].
    destruct (nth_error s j) as [c|] eqn:Hc.
    + rewrite (last_firstn_S _ _ _ Hc). exact Hb.
    + apply nth_error_None in Hc. lia.
Qed.

Lemma isValidRules_spec (text : jsstring) :
  isValidRules text = true ->
  startsWith (js "// .clinerules-code for ") text = true
  /\ hasLineStarting (js "// Primary Tech Stack:") text.
Proof.
  unfold isValidRules. intros H.
  apply andb_true_iff in H as [H Ht]. apply andb_true_iff in H as [_ Hh].
  split.
  - unfold rulesHeaderRegex in Hh. now rewrite header_test in Hh.
  - now apply test_line_start.
Qed.

Lemma runHeaderStage_some (w : World) (first refinement : CallSite)
    (header : regex) (st st' : State) (text : jsstring) :
  runHeaderStage w first refinement header st = (inr (Some text), st') ->
  headerValid header text = true.
Proof.
  unfold runHeaderStage. intros H.
  apply bind_inr in H as ([] & s0 & _ & H).
  apply bind_inr in H as (r & s1 & _ & H).
  destruct r as [result|message]; [| discriminate].
  destruct (headerValid header result) eqn:Hv; [now injection H as <- _ |].
  apply bind_inr in H as ([] & s2 & _ & H).
  apply bind_inr in H as (r2 & s3 & _ & H).
  destruct r2 as [refined|message]; [| discriminate].
  destruct (headerValid header refined) eqn:Hv2; [| discriminate].
  now injection H as <- _.
Qed.

End HeaderFacts.
Import HeaderFacts.

(** An artifact that a validating stage hands over passes the validation:
    coding rules start with their header and have a line that starts with
    "// Primary Tech Stack:", ignore rules and workspace rules start with
    their headers. *)
Theorem validated_artifacts_carry_headers (w : World) (md text : jsstring)
    (st st' : State) :
  (runRulesGenerationStage w md st = (inr (Some text), st') ->
   startsWith (js "// .clinerules-code for ") text = true
   /\ hasLineStarting (js "// Primary Tech Stack:") text)
  /\ (runRooignoreGenerationStage w md st = (inr (Some text), st') ->
      startsWith (js "# .rooignore for ") text = true)
  /\ (runWorkspaceRulesGenerationStage w md st = (inr (Some text), st') ->
      startsWith (js "// General Workspace .clinerules for ") text = true).
Proof.
  split; [| split].
  - unfold runRulesGenerationStage. intros H.
    apply bind_inr in H as ([] & s0 & _ & H).
    apply bind_inr in H as (r & s1 & _ & H).
    destruct r as [raw|message]; [| discriminate].
    destruct (isValidRules (normalizeRules raw)) eqn:Hv.
    + injection H as <- _. now apply isValidRules_spec.
    + apply bind_inr in H as ([] & s2 & _ & H).
      apply bind_inr in H as (r2 & s3 & _ & H).
      destruct r2 as [refined|message]; [| discriminate].
      destruct (isValidRules (normalizeRules refined)) eqn:Hv2; [| discriminate].
      injection H as <- _. now apply isValidRules_spec.
  - intros H. apply runHeaderStage_some in H. now rewrite headerValid_rooignore in H.
  - intros H. apply runHeaderStage_some in H. now rewrite headerValid_workspace in H.
Qed.

Lemma validated_artifacts_carry_headers_witness :
  startsWith (js "// .clinerules-code for ")
    (js "// .clinerules-code for the CLI\n// Primary Tech Stack: Python") = true
  /\ hasLineStarting (js "// Primary Tech Stack:")
       (js "// .clinerules-code for the CLI\n// Primary Tech Stack: Python").
Proof.
  destruct (validated_artifacts_carry_headers prefacedRulesWorld []
              (js "// .clinerules-code for the CLI\n// Primary Tech Stack: Python")
              (initialState false)
              {| isCancellationRequested := false; llmCalls := [(Stage4, 1%nat)] |})
    as [H _].
  apply H. vm_compute. reflexivity.
Defined.

Module StructureFacts.

Lemma upperChar_backtick (c : N) : (96 =? upperChar c) = (96 =? c).
Proof.
  unfold upperChar.
  destruct (N.leb_spec 97 c), (N.leb_spec c 122); cbn [andb]; try reflexivity.
  destruct (N.eqb_spec 96 (c - 32)), (N.eqb_spec 96 c); try reflexivity; lia.
Qed.

Lemma fence_under_i (s : jsstring) :
  startsWith (toUpperCase fence) (toUpperCase s) = startsWith fence s.
Proof.
  destruct s as [|c1 [|c2 [|c3 s]]]; cbn [toUpperCase map fence js startsWith];
    change (upperChar 96) with 96; change (N_of_ascii "`") with 96;
    rewrite ?upperChar_backtick; reflexivity.
Qed.

Lemma includes_at (p s : jsstring) (a b : jsstring) :
  s = a ++ p ++ b -> includes p s = true.
Proof. intros ->. apply includes_app. Qed.

Lemma suffix_step (q : N -> bool) (g : bool) (s : jsstring) (x y : mstate) :
  (exists l, s = l ++ rest x) -> reaches q g x y -> exists l, s = l ++ rest y.
Proof.
  intros [l0 ->] (l & Hr & _). exists (l0 ++ l). now rewrite Hr, app_assoc.
Qed.

Lemma primaryRegex_eq :
  primaryRegex
  = RSeq (RQuant 2 (Some 3%nat) true (RChar 35))
      (RSeq (star space)
         (RSeq (str (js "Proposed "))
            (RSeq (opt (str (js "File ")))
               (RSeq (str (js "Structure"))
                  (RSeq (opt (RSeq (star space) (str (js "(JSON)"))))
                     (RSeq (starLazy anyChar)
                        (RSeq (str fence)
                           (rseq [opt (str (js "json")); star space;
                                  RGroup (starLazy anyChar); star space;
                                  str (js "```")])))))))).
Proof. reflexivity. Qed.

Lemma fallbackRegex_eq :
  fallbackRegex
  = RSeq (str (js "```json"))
      (rseq [star space; RGroup (starLazy anyChar); star space; str (js "```")]).
Proof. reflexivity. Qed.

(** Both patterns of the extractor need a fence. *)
Lemma exec_primary_fence (md : jsstring) (m : matchResult) :
  exec flagIM primaryRegex md = Some m -> includes fence md = true.
Proof.
  intros E. apply search_some in E as (n & _ & E).
  rewrite matchAt_eq, primaryRegex_eq in E.
  assert (Hsuf : exists l, md = l ++ rest {| pos := 0 + n;
                    prev := match n with O => None | S j => nth_error md j end;
                    rest := skipn n md; cap := None |}).
  { exists (firstn n md). cbn [rest]. now rewrite firstn_skipn. }
  revert E Hsuf. generalize ({| pos := 0 + n;
                    prev := match n with O => None | S j => nth_error md j end;
                    rest := skipn n md; cap := None |}) at 1 3.
  intros x E Hsuf.
  do 7 (rewrite matcher_seq in E;
        apply (matcher_result flagIM (fun _ => true) _ (within_true _ _)) in E
          as (? & E & Hreach); cbv beta in E;
        apply (suffix_step _ _ md _ _ Hsuf) in Hreach; clear Hsuf;
        rename Hreach into Hsuf).
  rewrite matcher_seq, (matcher_str_ci flagIM) in E by reflexivity.
  rewrite fence_under_i in E.
  match type of E with
  | (if startsWith fence (rest ?y) then _ else _) = _ =>
      destruct (startsWith fence (rest y)) eqn:Hs; [| discriminate];
      apply startsWith_spec in Hs as [t Ht]; rewrite Ht in Hsuf
  end.
  destruct Hsuf as [l Hl]. exact (includes_at _ _ _ _ Hl).
Qed.

Lemma exec_fallback_fence (md : jsstring) (m : matchResult) :
  exec flagM fallbackRegex md = Some m -> includes fence md = true.
Proof.
  intros E. apply search_some in E as (n & _ & E).
  rewrite matchAt_eq, fallbackRegex_eq, matcher_seq in E.
  rewrite (matcher_str flagM) in E by reflexivity. cbn [rest] in E.
  destruct (startsWith (js "```json") (skipn n md)) eqn:Hs; [| discriminate].
  apply startsWith_spec in Hs as [t Ht].
  apply (includes_at fence md (firstn n md) (js "json" ++ t)).
  rewrite <- (firstn_skipn n md) at 1. now rewrite Ht.
Qed.

Lemma replaceAllChar_gone (c : N) (s repl : jsstring) :
  ~ In c repl -> ~ In c (replaceAllChar c s repl).
Proof.
  intros Hr. unfold replaceAllChar. intros H.
  apply in_flat_map in H as (x & _ & H).
  destruct (N.eqb_spec x c) as [Heq | Hne]; [now apply Hr |].
  destruct H as [H | []]. now apply Hne.
Qed.

Lemma replaceFirst_erase_in (fl : flags) (r : regex) (s : jsstring) (c : N) :
  In c (replaceFirst fl r s []) -> In c s.
Proof.
  unfold replaceFirst. destruct (exec fl r s) as [m|]; [| auto].
  cbn [app]. intros H. apply in_app_or in H as [H | H].
  - rewrite <- (firstn_skipn (index m) s). apply in_or_app. now left.
  - rewrite <- (firstn_skipn (endIndex m) s). apply in_or_app. now right.
Qed.

End StructureFacts.
Import StructureFacts.

(** A document without a fence has no structure: the extractor returns
    the empty list. *)
Theorem structure_needs_fence (markdownContent : jsstring) :
  includes fence markdownContent = false ->
  parseStructureFromJsonMd markdownContent = [].
Proof.
  intros H. unfold parseStructureFromJsonMd, extractJsonBlock.
  destruct (exec flagIM primaryRegex markdownContent) as [m|] eqn:E1.
  { apply exec_primary_fence in E1. congruence. }
  destruct (exec flagM fallbackRegex markdownContent) as [m|] eqn:E2.
  { apply exec_fallback_fence in E2. congruence. }
  reflexivity.
Qed.

Lemma structure_needs_fence_witness :
  parseStructureFromJsonMd
    (js "## Proposed Structure\n[{\qtype\q: \qfile\q, \qpath\q: \qmain.py\q}]")
  = [].
Proof. apply structure_needs_fence. reflexivity. Defined.

(** The paths of the extracted items have no backslash, and none of them
    is "gitignore" in any case of its letters. *)
Theorem structure_paths_normalized (markdownContent : jsstring) :
  Forall (fun item => ~ In 92 (path item)
                      /\ toLowerCase (path item) <> js "gitignore")
    (parseStructureFromJsonMd markdownContent).
Proof.
  unfold parseStructureFromJsonMd.
  destruct (extractJsonBlock markdownContent) as [text|]; [| constructor].
  destruct (truthy text); [| constructor].
  destruct (JSON_parse text) as [[]|]; try constructor.
  apply List.Forall_map, List.Forall_forall. intros item Hin.
  assert (Hp : ~ In 92 (path item)).
  { assert (exists v, structureItemOfJson v = Some item) as [v Hv].
    { apply list_elem_of_In, list_elem_of_omap in Hin as (v & _ & Hv). eauto. }
    unfold structureItemOfJson in Hv.
    repeat match type of Hv with
           | match ?x with _ => _ end = _ => destruct x
           | (if ?x then _ else _) = _ => destruct x
           end; try discriminate.
    all: injection Hv as <-; cbn [path]; intros H;
      apply replaceFirst_erase_in in H;
      revert H; apply replaceAllChar_gone; cbn; intuition discriminate. }
  unfold fixGitignore.
  destruct (streq (toLowerCase (path item)) (js "gitignore")) eqn:E; cbn [path].
  - split; [cbn; intuition discriminate | discriminate].
  - split; [exact Hp | now apply streq_false].
Qed.

(** ** The calls of a run *)

Module CallFacts.

Lemma callsWithin_ret {A} (sites : list CallSite) (a : A) :
  callsWithin sites (ret a).
Proof.
  intros st. exists []. cbn [ret snd]. rewrite app_nil_r.
  split; [reflexivity | split; constructor].
Qed.

Lemma callsWithin_throw {A} (sites : list CallSite) (e : exn) :
  callsWithin sites (@throw A e).
Proof.
  intros st. exists []. cbn [throw snd]. rewrite app_nil_r.
  split; [reflexivity | split; constructor].
Qed.

Lemma callsWithin_check (sites : list CallSite) :
  callsWithin sites checkCancellation.
Proof.
  intros st. exists []. unfold checkCancellation. rewrite app_nil_r.
  destruct (isCancellationRequested st); (split; [reflexivity | split; constructor]).
Qed.

Lemma attempts_NoDup (site : CallSite) (first n : nat) :
  NoDup (attempts site first n).
Proof.
  unfold attempts. generalize (seq_NoDup n first).
  induction (seq first n) as [|k l IH]; intros H; cbn [map]; [constructor |].
  inversion H as [|? ? Hk Hl]; subst. constructor; [| now apply IH].
  intros Hin. apply list_elem_of_In, in_map_iff in Hin as (k' & [= ->] & Hin).
  now apply Hk, list_elem_of_In.
Qed.

Lemma callsWithin_await (w : World) (site : CallSite) :
  callsWithin [site] (awaitLLM w site).
Proof.
  intros st. destruct (callLLM_trace w site st) as (n & Hn & Hcalls & _).
  exists (attempts site 1 n). unfold awaitLLM.
  destruct (callLLM w site st) as [r s] eqn:E. cbn [snd] in *.
  split; [exact Hcalls |]. split; [apply attempts_NoDup |].
  unfold attempts. apply List.Forall_map, List.Forall_forall.
  intros k Hk. apply in_seq in Hk. cbn [fst snd]. split; [now left | lia].
Qed.

Lemma callsWithin_weaken {A} (s1 s2 : list CallSite) (m : M A) :
  incl s1 s2 -> callsWithin s1 m -> callsWithin s2 m.
Proof.
  intros Hi Hm st. destruct (Hm st) as (l & Hl & Hn & Hf).
  exists l. split; [exact Hl | split; [exact Hn |]].
  eapply List.Forall_impl; [| exact Hf]. intros c [Hc Hk]. split; [now apply Hi | exact Hk].
Qed.

(** One computation after another, from call sites that differ. The rest
    need only be considered for the values that the first part returns. *)
Lemma callsWithin_bind {A B} (s1 s2 : list CallSite) (m : M A) (k : A -> M B) :
  callsWithin s1 m ->
  (forall a, (exists st s, m st = (inr a, s)) -> callsWithin s2 (k a)) ->
  (forall s, In s s1 -> ~ In s s2) ->
  callsWithin (s1 ++ s2) (bind m k).
Proof.
  intros Hm Hk Hd st. destruct (Hm st) as (l1 & Hl1 & Hn1 & Hf1).
  unfold bind. destruct (m st) as [[e|a] s] eqn:E; cbn [snd] in *.
  - exists l1. split; [exact Hl1 | split; [exact Hn1 |]].
    eapply List.Forall_impl; [| exact Hf1].
    intros c [Hc Hr]. split; [apply in_or_app; now left | exact Hr].
  - destruct (Hk a (ex_intro _ st (ex_intro _ s E)) s) as (l2 & Hl2 & Hn2 & Hf2).
    exists (l1 ++ l2). rewrite Hl2, Hl1, <- app_assoc.
    split; [reflexivity |]. split.
    + apply NoDup_app. split; [exact Hn1 |]. split; [| exact Hn2].
      intros c H1 H2. rewrite List.Forall_forall in Hf1, Hf2.
      apply list_elem_of_In in H1, H2.
      apply (Hd (fst c)); [apply Hf1, H1 | apply Hf2, H2].
    + apply Forall_app. split.
      * eapply List.Forall_impl; [| exact Hf1].
        intros c [Hc Hr]. split; [apply in_or_app; now left | exact Hr].
      * eapply List.Forall_impl; [| exact Hf2].
        intros c [Hc Hr]. split; [apply in_or_app; now right | exact Hr].
Qed.

(** A step that calls nothing, then the rest. *)
Lemma callsWithin_then {A B} (sites : list CallSite) (m : M A) (k : A -> M B) :
  callsWithin [] m ->
  (forall a, callsWithin sites (k a)) ->
  callsWithin sites (bind m k).
Proof.
  intros Hm Hk. apply (callsWithin_bind [] sites); auto.
Qed.

(** A call, then the rest from other call sites; a text that the call
    resolved with is not blank. *)
Lemma callsWithin_call {B} (w : World) (site : CallSite) (sites : list CallSite)
    (k : llmResult -> M B) :
  ~ In site sites ->
  (forall r, (forall text, r = Resolved text -> isBlank text = false) ->
             callsWithin sites (k r)) ->
  callsWithin (site :: sites) (bind (awaitLLM w site) k).
Proof.
  intros Hn Hk. apply (callsWithin_bind [site] sites).
  - apply callsWithin_await.
  - intros r (st & s & E). apply Hk. intros text ->.
    unfold awaitLLM in E. destruct (callLLM w site st) as [r' s'] eqn:E'.
    injection E as -> ->. exact (isBlank_resolved _ _ _ _ _ E').
  - intros s [<- | []]. exact Hn.
Qed.

Ltac calls :=
  repeat first
    [ apply callsWithin_ret
    | apply callsWithin_throw
    | apply callsWithin_check
    | apply callsWithin_then; [apply callsWithin_check | intros []]
    | apply callsWithin_call; [cbn; intuition discriminate | intros [?|?] ?]
    | match goal with
      | |- callsWithin _ (if ?b then _ else _) => destruct b
      | |- callsWithin _ (match ?x with _ => _ end) => destruct x
      end ].

Lemma runAnalysisStage_calls (w : World) (projectIdea : jsstring) :
  callsWithin [Stage1; Stage1_5] (runAnalysisStage w projectIdea).
Proof. unfold runAnalysisStage. calls. Qed.

Lemma runStructuringStage_calls (w : World) (projectIdea analysisResult : jsstring) :
  callsWithin [Stage2; Stage2_5] (runStructuringStage w projectIdea analysisResult).
Proof. unfold runStructuringStage. calls. Qed.

Lemma runOutlineRefinementStage_calls (w : World) (analysisResult md : jsstring) :
  callsWithin [Stage3] (runOutlineRefinementStage w analysisResult md).
Proof. unfold runOutlineRefinementStage. calls. Qed.

Lemma runRulesGenerationStage_calls (w : World) (md : jsstring) :
  callsWithin [Stage4; Stage4_1] (runRulesGenerationStage w md).
Proof. unfold runRulesGenerationStage. calls. Qed.

Lemma runRooignoreGenerationStage_calls (w : World) (md : jsstring) :
  callsWithin [Stage4_5; Stage4_5_1] (runRooignoreGenerationStage w md).
Proof. unfold runRooignoreGenerationStage, runHeaderStage. calls. Qed.

Lemma runWorkspaceRulesGenerationStage_calls (w : World) (md : jsstring) :
  callsWithin [Stage4_6; Stage4_6_1] (runWorkspaceRulesGenerationStage w md).
Proof. unfold runWorkspaceRulesGenerationStage, runHeaderStage. calls. Qed.

Lemma runFootgunPromptGenerationStage_calls (w : World)
    (analysisResult md : jsstring) :
  callsWithin [Stage4_7] (runFootgunPromptGenerationStage w analysisResult md).
Proof.
  unfold runFootgunPromptGenerationStage.
  destruct (capture _); [| apply callsWithin_ret].
  apply callsWithin_then; [apply callsWithin_check | intros []].
  apply callsWithin_call; [cbn; intuition discriminate |].
  intros [result|message] Hr; [| apply callsWithin_ret].
  rewrite (Hr result eq_refl). apply callsWithin_ret.
Qed.

Lemma runModesGenerationStage_calls (w : World) (md : jsstring) :
  callsWithin [Stage5] (runModesGenerationStage w md).
Proof. unfold runModesGenerationStage. calls. Qed.

Lemma fallbackPlan_calls (w : World) (conciseCommand : jsstring)
    (slugs : list json) :
  callsWithin [] (fallbackPlan w conciseCommand slugs).
Proof. unfold fallbackPlan. calls. Qed.

Lemma runPlanAssemblyStage_calls (w : World) (conciseCommand md : jsstring)
    (slugs : list json) :
  callsWithin [Stage6; Stage6_1] (runPlanAssemblyStage w conciseCommand md slugs).
Proof.
  unfold runPlanAssemblyStage.
  apply callsWithin_then; [apply callsWithin_check | intros []].
  apply callsWithin_call; [cbn; intuition discriminate | intros r _].
  apply (callsWithin_bind [Stage6_1] []).
  - calls.
  - intros [finalPlan planIsValid] _. destruct planIsValid; [apply callsWithin_ret |].
    apply callsWithin_then; [apply fallbackPlan_calls | intros plan].
    apply callsWithin_ret.
  - intros s _ [].
Qed.

Lemma runPlanRefinementStage_calls (w : World) (finalPlan roomodes md : jsstring) :
  callsWithin [Stage6_5] (runPlanRefinementStage w finalPlan roomodes md).
Proof. unfold runPlanRefinementStage. calls. Qed.

Lemma fork_calls {A} (sites : list CallSite) (m : M A) (st : State) :
  callsWithin sites m ->
  NoDup (llmCalls (snd (fork m st)))
  /\ Forall (fun c => In (fst c) sites /\ (1 <= snd c <= 4)%nat)
       (llmCalls (snd (fork m st))).
Proof.
  intros Hm. unfold fork.
  destruct (Hm {| isCancellationRequested := isCancellationRequested st;
                  llmCalls := [] |}) as (l & Hl & Hn & Hf).
  rewrite Hl. cbn [llmCalls app]. now split.
Qed.

Lemma promiseAll5_state {A B C D E} (a : M A) (b : M B) (c : M C) (d : M D)
    (e : M E) (st : State) :
  llmCalls (snd (promiseAll5 a b c d e st))
  = llmCalls st ++ llmCalls (snd (fork a st)) ++ llmCalls (snd (fork b st))
    ++ llmCalls (snd (fork c st)) ++ llmCalls (snd (fork d st))
    ++ llmCalls (snd (fork e st)).
Proof.
  unfold promiseAll5.
  destruct (fork a st) as [[?|?] ?], (fork b st) as [[?|?] ?],
    (fork c st) as [[?|?] ?], (fork d st) as [[?|?] ?],
    (fork e st) as [[?|?] ?]; reflexivity.
Qed.

Lemma NoDup_app_sites (s1 s2 : list CallSite) (l1 l2 : list (CallSite * nat)) :
  (forall s, In s s1 -> ~ In s s2) ->
  NoDup l1 /\ Forall (fun c => In (fst c) s1 /\ (1 <= snd c <= 4)%nat) l1 ->
  NoDup l2 /\ Forall (fun c => In (fst c) s2 /\ (1 <= snd c <= 4)%nat) l2 ->
  NoDup (l1 ++ l2)
  /\ Forall (fun c => In (fst c) (s1 ++ s2) /\ (1 <= snd c <= 4)%nat) (l1 ++ l2).
Proof.
  intros Hd [Hn1 Hf1] [Hn2 Hf2]. split.
  - apply NoDup_app. split; [exact Hn1 |]. split; [| exact Hn2].
    intros c H1 H2. rewrite List.Forall_forall in Hf1, Hf2.
    apply list_elem_of_In in H1, H2.
    apply (Hd (fst c)); [apply Hf1, H1 | apply Hf2, H2].
  - apply Forall_app. split.
    + eapply List.Forall_impl; [| exact Hf1].
      intros c [Hc Hr]. split; [apply in_or_app; now left | exact Hr].
    + eapply List.Forall_impl; [| exact Hf2].
      intros c [Hc Hr]. split; [apply in_or_app; now right | exact Hr].
Qed.

(** The five stages side by side, from call sites that differ. *)
Lemma parallel_calls (w : World) (analysisResult md : jsstring) :
  callsWithin [Stage4; Stage4_1; Stage4_5; Stage4_5_1; Stage4_6; Stage4_6_1;
               Stage4_7; Stage5]
    (promiseAll5
       (runRulesGenerationStage w md)
       (runRooignoreGenerationStage w md)
       (runWorkspaceRulesGenerationStage w md)
       (runFootgunPromptGenerationStage w analysisResult md)
       (runModesGenerationStage w md)).
Proof.
  intros st. eexists. split; [apply promiseAll5_state |].
  pose proof (fork_calls _ _ st (runRulesGenerationStage_calls w md)) as Ha.
  pose proof (fork_calls _ _ st (runRooignoreGenerationStage_calls w md)) as Hb.
  pose proof (fork_calls _ _ st (runWorkspaceRulesGenerationStage_calls w md)) as Hc.
  pose proof (fork_calls _ _ st
                (runFootgunPromptGenerationStage_calls w analysisResult md)) as Hd.
  pose proof (fork_calls _ _ st (runModesGenerationStage_calls w md)) as He.
  assert (Hde := NoDup_app_sites [Stage4_7] [Stage5] _ _
                   ltac:(intros s H1 H2; cbn in H1, H2; intuition congruence)
                   Hd He).
  assert (Hcde := NoDup_app_sites [Stage4_6; Stage4_6_1] [Stage4_7; Stage5] _ _
                    ltac:(intros s H1 H2; cbn in H1, H2; intuition congruence)
                    Hc Hde).
  assert (Hbcde := NoDup_app_sites [Stage4_5; Stage4_5_1]
                     [Stage4_6; Stage4_6_1; Stage4_7; Stage5] _ _
                     ltac:(intros s H1 H2; cbn in H1, H2; intuition congruence)
                     Hb Hcde).
  exact (NoDup_app_sites [Stage4; Stage4_1]
           [Stage4_5; Stage4_5_1; Stage4_6; Stage4_6_1; Stage4_7; Stage5] _ _
           ltac:(intros s H1 H2; cbn in H1, H2; intuition congruence)
           Ha Hbcde).
Qed.

Lemma engineBody_calls (w : World) (projectIdea : jsstring) :
  callsWithin reachableSites (engineBody w projectIdea).
Proof.
  unfold engineBody, reachableSites.
  apply (callsWithin_bind [Stage1; Stage1_5]);
    [apply runAnalysisStage_calls | intros analysisResult _
     | intros s H1 H2; cbn in H1, H2; intuition congruence].
  apply callsWithin_then; [apply callsWithin_check | intros []].
  apply (callsWithin_bind [Stage2; Stage2_5]);
    [apply runStructuringStage_calls | intros [md0 conciseCommand] _
     | intros s H1 H2; cbn in H1, H2; intuition congruence].
  apply callsWithin_then; [apply callsWithin_check | intros []].
  apply (callsWithin_bind [Stage3]);
    [apply runOutlineRefinementStage_calls | intros md _
     | intros s H1 H2; cbn in H1, H2; intuition congruence].
  apply callsWithin_then; [apply callsWithin_check | intros []].
  apply (callsWithin_bind
           [Stage4; Stage4_1; Stage4_5; Stage4_5_1; Stage4_6; Stage4_6_1;
            Stage4_7; Stage5]);
    [apply parallel_calls
     | intros [[[[rules rooignore] workspace] footgun] modes] _
     | intros s H1 H2; cbn in H1, H2; intuition congruence].
  apply callsWithin_then;
    [intros st; exists []; rewrite app_nil_r;
     destruct (isCancellationRequested st);
     (split; [reflexivity | split; constructor])
    | intros []].
  apply (callsWithin_bind [Stage6; Stage6_1]);
    [apply runPlanAssemblyStage_calls | intros [finalPlan planIsValid] _
     | intros s H1 H2; cbn in H1, H2; intuition congruence].
  apply callsWithin_then; [apply callsWithin_check | intros []].
  apply (callsWithin_bind [Stage6_5] []);
    [| intros reviewed _ | intros s _ []].
  - destruct (_ && _)%bool; [apply runPlanRefinementStage_calls | apply callsWithin_ret].
  - apply callsWithin_then; [apply callsWithin_check | intros []].
    apply callsWithin_ret.
Qed.

End CallFacts.
Import CallFacts.

(** The calls of a run. Whatever the model answers, the engine makes at
    most 64 calls to it: each of the 16 call sites that a run can reach is
    used for one call of the client at most, of at most four attempts, so
    no attempt of a call site is made twice. The refinement of the
    mode-override prompt is not among those call sites. *)
Theorem run_call_discipline (w : World) (projectIdea : jsstring) (st : State) :
  exists l,
    llmCalls (snd (runAdvancedReasoningEngine w projectIdea st)) = llmCalls st ++ l
    /\ NoDup l
    /\ Forall (fun c => In (fst c) reachableSites /\ (1 <= snd c <= 4)%nat) l
    /\ (length l <= 64)%nat.
Proof.
  destruct (engineBody_calls w projectIdea st) as (l & Hl & Hn & Hf).
  exists l. split; [| split; [exact Hn | split; [exact Hf |]]].
  - unfold runAdvancedReasoningEngine.
    destruct (engineBody w projectIdea st) as [[[m|m]|res] s]; exact Hl.
  - change 64%nat with (length (list_prod reachableSites [1; 2; 3; 4]%nat)).
    apply submseteq_length, NoDup_submseteq; [exact Hn |].
    intros [site k] Hin. apply list_elem_of_In.
    rewrite List.Forall_forall in Hf. apply list_elem_of_In, Hf in Hin.
    cbn [fst snd] in Hin. destruct Hin as [Hs Hk].
    apply in_prod; [exact Hs |]. cbn. lia.
Qed.

(** ** The artifacts of a run *)

Module ArtifactFacts.

Lemma addArtifact_wellFormed (name : jsstring) (value : option jsstring)
    (m : gmap jsstring jsstring) :
  In name artifactNames ->
  map_Forall wellFormedArtifact m ->
  map_Forall wellFormedArtifact (addArtifact name value m).
Proof.
  intros Hn Hm. unfold addArtifact. destruct value as [text|]; [| exact Hm].
  destruct (truthy text) eqn:Ht; [| exact Hm].
  apply map_Forall_insert_2; [| exact Hm].
  split; [now apply truthy_nonempty | now left].
Qed.

Lemma addFootgun_wellFormed (f : footgunResult) (m : gmap jsstring jsstring) :
  map_Forall wellFormedArtifact m ->
  map_Forall wellFormedArtifact (addFootgun f m).
Proof.
  intros Hm. unfold addFootgun.
  destruct (footgunPromptResult f) as [prompt|]; [| exact Hm].
  destruct (footgunTargetMode f) as [target|]; [| exact Hm].
  destruct (truthy prompt) eqn:Ht; [| exact Hm].
  destruct (truthy target); [| exact Hm]. cbn [andb].
  apply map_Forall_insert_2; [| exact Hm].
  split; [now apply truthy_nonempty |]. right. apply startsWith_app.
Qed.

End ArtifactFacts.
Import ArtifactFacts.

(** Every artifact of a completed run has a text that is not empty, and
    its name is one of ".clinerules-code", ".rooignore", ".clinerules",
    ".roomodes" and "roo-plan.md", or starts with ".roo/system-prompt-". *)
Theorem artifacts_well_formed (w : World) (projectIdea : jsstring)
    (st st' : State) (result : engineResult) :
  runAdvancedReasoningEngine w projectIdea st = (inr result, st') ->
  forall name text,
    artifacts result !! name = Some text -> wellFormedArtifact name text.
Proof.
  unfold runAdvancedReasoningEngine.
  destruct (engineBody w projectIdea st) as [[[m|m]|res] s] eqn:H; try discriminate.
  intros [= <- <-]. unfold engineBody in H.
  apply bind_inr in H as (analysisResult & s1 & _ & H).
  apply bind_inr in H as ([] & s2 & _ & H).
  apply bind_inr in H as ([md0 conciseCommand] & s3 & _ & H).
  apply bind_inr in H as ([] & s4 & _ & H).
  apply bind_inr in H as (md & s5 & _ & H).
  apply bind_inr in H as ([] & s6 & _ & H).
  apply bind_inr in H as ([[[[rules rooignore] workspace] footgun] modes] & s7 & _ & H).
  apply bind_inr in H as ([] & s8 & _ & H).
  apply bind_inr in H as ([finalPlan planIsValid] & s9 & _ & H).
  apply bind_inr in H as ([] & s10 & _ & H).
  apply bind_inr in H as (reviewed & s11 & _ & H).
  apply bind_inr in H as ([] & s12 & _ & H).
  injection H as <- _. cbn [artifacts].
  assert (Hall : map_Forall wellFormedArtifact
                   (addArtifact (js "roo-plan.md") (Some reviewed)
                      (addArtifact (js ".roomodes") (Some (roomodesResult modes))
                         (addFootgun footgun
                            (addArtifact (js ".clinerules") workspace
                               (addArtifact (js ".rooignore") rooignore
                                  (addArtifact (js ".clinerules-code") rules ∅))))))).
  { repeat first [ apply addArtifact_wellFormed; [cbn; tauto |]
                 | apply addFootgun_wellFormed ].
    apply map_Forall_empty. }
  intros name text Hl. exact (Hall name text Hl).
Qed.

Lemma artifacts_well_formed_witness :
  exists result st',
    runAdvancedReasoningEngine happyWorld (js "A simple to-do list CLI in Python")
      (initialState false) = (inr result, st')
    /\ forall name text,
         artifacts result !! name = Some text -> wellFormedArtifact name text.
Proof.
  destruct (runAdvancedReasoningEngine happyWorld
              (js "A simple to-do list CLI in Python") (initialState false))
    as [[e|result] st'] eqn:E.
  - vm_compute in E. discriminate.
  - exists result, st'. split; [reflexivity |].
    exact (artifacts_well_formed _ _ _ _ _ E).
Defined.

(** The .roomodes text of the mode-set stage always parses as JSON, to a
    value whose customModes is an array that is not empty: it is the text
    of the model once that has been checked, or the serialized fallback. *)
Theorem roomodes_always_parses (w : World) (structureResultMd : jsstring)
    (st st' : State) (res : modesResult) :
  runModesGenerationStage w structureResultMd st = (inr res, st') ->
  exists parsed mode modes,
    JSON_parse (roomodesResult res) = Some parsed
    /\ getProp parsed (js "customModes") = Some (JArr (mode :: modes)).
Proof.
  intros H. apply runModesGenerationStage_result in H as (raw & -> & _).
  destruct (parsedModesSuccessfully (modesFromRaw w structureResultMd raw)) eqn:F.
  - revert F. unfold modesFromRaw, delegateSlugs.
    destruct (parsedSlugs w (stripModesFence (trim raw))) as [slugs|] eqn:E;
      cbn [option_map]; [| now destruct (fallbackModes structureResultMd)].
    intros _. cbn [roomodesResult]. unfold parsedSlugs in E.
    destruct (JSON_parse (stripModesFence (trim raw))) as [parsed|] eqn:P;
      [| discriminate].
    destruct (truthyJ parsed); [| discriminate].
    destruct (getProp parsed (js "customModes"))
      as [[| b | m e | s | l | members]|] eqn:G; try discriminate.
    destruct l as [|mode modes]; [discriminate |].
    exists parsed, mode, modes. split; [reflexivity | exact G].
  - rewrite (modesFromRaw_fallback _ _ _ F). cbn [roomodesResult].
    unfold fallbackModes.
    destruct (simpleProjectHeuristic structureResultMd); cbn [fst];
      eexists _, _, _; (split; [vm_compute; reflexivity | reflexivity]).
Qed.

Lemma roomodes_always_parses_witness :
  exists res st',
    runModesGenerationStage deadWorld (linesDocument 3) (initialState false)
    = (inr res, st')
    /\ exists parsed mode modes,
         JSON_parse (roomodesResult res) = Some parsed
         /\ getProp parsed (js "customModes") = Some (JArr (mode :: modes)).
Proof.
  destruct (runModesGenerationStage deadWorld (linesDocument 3)
              (initialState false)) as [[e|res] st'] eqn:E.
  - vm_compute in E. discriminate.
  - exists res, st'. split; [reflexivity |].
    exact (roomodes_always_parses _ _ _ _ _ E).
Defined.

(** ** Scaffolding *)

Module SanitizeFacts.

Lemma dotOrSlash_eq : dotOrSlash = RSet isDotOrSlash.
Proof. reflexivity. Qed.

Lemma sanitizeRegex_eq :
  sanitizeRegex
  = RAlt (RSeq RBol (plus (RSet isDotOrSlash)))
         (RSeq (plus (RSet isDotOrSlash)) REol).
Proof. reflexivity. Qed.

(** One or more code units of a class: one, then a greedy run. *)
Lemma matcher_plus_set {A} (p : N -> bool) (x : mstate) (k : mstate -> option A) :
  matcher noFlags (plus (RSet p)) x k
  = match rest x with
    | c :: t => if p c then greedyRun p (advance x c t) t k else None
    | [] => None
    end.
Proof.
  unfold plus.
  change (matcher noFlags (RQuant 1 None true (RSet p)) x k)
    with (repeatMatcher (matcher noFlags (RSet p)) k true
            (S (1 + length (rest x))) 1 None x).
  rewrite repeat_eq. cbv zeta. cbn [Nat.eqb negb andb Nat.pred option_map].
  cbn [matcher]. destruct (rest x) as [|c t] eqn:E; [reflexivity |].
  unfold setMatches. cbn [ignoreCase noFlags].
  destruct (p c); [| reflexivity].
  apply repeat_greedy; [| reflexivity | simpl; lia].
  intros y d. cbn [matcher]. unfold setMatches. reflexivity.
Qed.

(** A greedy run before the end of the input takes all that is left or
    fails. *)
Lemma greedyRun_to_end {A} (p : N -> bool) (k : mstate -> option A) :
  forall (l : jsstring) (x : mstate),
    rest x = l ->
    greedyRun p x l (fun y => matcher noFlags REol y k)
    = if forallb p l then k (consume x l) else None.
Proof.
  induction l as [|c t IH]; intros x Hx; cbn [greedyRun forallb consume].
  - rewrite matcher_eol. unfold atEol. now rewrite Hx.
  - assert (Hk : matcher noFlags REol x k = None).
    { rewrite matcher_eol. unfold atEol. now rewrite Hx. }
    rewrite Hk, Hx. cbn [tl].
    destruct (p c); [| reflexivity]. cbn [andb].
    rewrite (IH (advance x c t) eq_refl). now rewrite orElse_none_r.
Qed.

(** A greedy run before a continuation that holds everywhere takes the
    longest run. *)
Lemma greedyRun_all {A} (p : N -> bool) (k : mstate -> option A) :
  (forall y, k y <> None) ->
  forall (l : jsstring) (x : mstate),
    rest x = l ->
    greedyRun p x l k = k (consume x (firstn (leadingRun p l) l)).
Proof.
  intros Hk. induction l as [|c t IH]; intros x Hx; cbn [greedyRun leadingRun].
  - reflexivity.
  - destruct (p c); [| reflexivity].
    cbn [firstn consume]. rewrite Hx. cbn [tl].
    rewrite (IH (advance x c t) eq_refl).
    destruct (k _) eqn:E; [reflexivity | now apply Hk in E].
Qed.

Lemma matchUpTo_some (x y : mstate) : matchUpTo x y <> None.
Proof. discriminate. Qed.

(** Where the input starts with a dot or a slash at the start of the
    text, the pattern takes the run of them. *)
Lemma matchAt_leading (x : mstate) (c : N) (t : jsstring) :
  prev x = None ->
  rest x = c :: t ->
  isDotOrSlash c = true ->
  exists m,
    matchAt noFlags sanitizeRegex x = Some m
    /\ index m = pos x
    /\ endIndex m = (pos x + S (leadingRun isDotOrSlash t))%nat.
Proof.
  intros Hp Hr Hc. rewrite matchAt_eq, sanitizeRegex_eq, matcher_alt.
  rewrite matcher_seq, matcher_bol. unfold atBol. rewrite Hp.
  rewrite matcher_plus_set, Hr, Hc.
  rewrite (greedyRun_all _ _ (matchUpTo_some x) t (advance x c t) eq_refl).
  cbn [orElse matchUpTo]. eexists. split; [reflexivity |].
  cbn [index endIndex]. split; [reflexivity |].
  rewrite consume_pos, length_firstn. cbn [pos advance].
  assert (leadingRun isDotOrSlash t <= length t)%nat.
  { clear. induction t as [|a t IH]; cbn; [lia |].
    destruct (isDotOrSlash a); simpl; lia. }
  lia.
Qed.

(** Where the input does not start with a dot or a slash the pattern does
    not hold. *)
Lemma matchAt_no_lead (x : mstate) :
  match rest x with
  | c :: _ => isDotOrSlash c = false
  | [] => True
  end ->
  matchAt noFlags sanitizeRegex x = None.
Proof.
  intros H. rewrite matchAt_eq, sanitizeRegex_eq, matcher_alt.
  rewrite !matcher_seq, matcher_bol, !matcher_plus_set.
  destruct (rest x) as [|c t]; [now destruct (atBol noFlags x) |].
  rewrite H. now destruct (atBol noFlags x).
Qed.

(** Inside the text the pattern holds of dots and slashes up to the end. *)
Lemma matchAt_interior (x : mstate) (c0 : N) :
  prev x = Some c0 ->
  (forallb isDotOrSlash (rest x) && truthy (rest x) = false ->
   matchAt noFlags sanitizeRegex x = None)
  /\ (forallb isDotOrSlash (rest x) && truthy (rest x) = true ->
      exists m,
        matchAt noFlags sanitizeRegex x = Some m
        /\ index m = pos x
        /\ endIndex m = (pos x + length (rest x))%nat).
Proof.
  intros Hp. rewrite matchAt_eq, sanitizeRegex_eq, matcher_alt.
  rewrite !matcher_seq, matcher_bol. unfold atBol. rewrite Hp.
  cbn [multiline noFlags andb orElse]. rewrite matcher_plus_set.
  destruct (rest x) as [|c t] eqn:Hr; cbn [forallb truthy].
  - split; [reflexivity | discriminate].
  - rewrite andb_true_r.
    destruct (isDotOrSlash c); cbn [andb]; [| split; [reflexivity | discriminate]].
    rewrite (greedyRun_to_end _ _ t (advance x c t) eq_refl).
    destruct (forallb isDotOrSlash t); split; try discriminate; try reflexivity.
    intros _. eexists. split; [reflexivity |]. cbn [matchUpTo index endIndex].
    split; [reflexivity |]. rewrite consume_pos. cbn [pos advance length]. lia.
Qed.

Lemma tailStart_lt (s : jsstring) (j : nat) :
  tailStart s = Some j -> (j < length s)%nat.
Proof.
  revert j. induction s as [|c t IH]; intros j H; [discriminate |].
  cbn [tailStart] in H. destruct (forallb isDotOrSlash (c :: t)).
  - injection H as <-. simpl. lia.
  - destruct (tailStart t) as [j'|]; [| discriminate].
    injection H as <-. specialize (IH j' eq_refl). simpl. lia.
Qed.

(** The search inside the text finds the dots and slashes at the end. *)
Lemma search_interior (s : jsstring) :
  forall (i : nat) (c0 : N),
    (tailStart s = None -> search noFlags sanitizeRegex i (Some c0) s = None)
    /\ (forall j, tailStart s = Some j ->
          exists m,
            search noFlags sanitizeRegex i (Some c0) s = Some m
            /\ index m = (i + j)%nat
            /\ endIndex m = (i + length s)%nat).
Proof.
  induction s as [|c t IH]; intros i c0.
  - split; [| discriminate]. intros _. cbn [search].
    now rewrite matchAt_no_lead.
  - cbn [search tailStart].
    destruct (matchAt_interior
                {| pos := i; prev := Some c0; rest := c :: t; cap := None |}
                c0 eq_refl) as [Hnone Hsome].
    cbn [rest pos truthy] in Hnone, Hsome. rewrite andb_true_r in Hnone, Hsome.
    destruct (forallb isDotOrSlash (c :: t)).
    + split; [discriminate |]. intros j [= <-].
      destruct (Hsome eq_refl) as (m & -> & Hi & He). exists m.
      cbn [orElse]. split; [reflexivity |]. split; [lia | exact He].
    + rewrite (Hnone eq_refl). cbn [orElse].
      destruct (IH (S i) c) as [IHn IHs]. split.
      * intros H. apply IHn. now destruct (tailStart t).
      * intros j H. destruct (tailStart t) as [j'|]; [| discriminate].
        injection H as <-. destruct (IHs j' eq_refl) as (m & -> & Hi & He).
        exists m. split; [reflexivity |]. cbn [length]. split; lia.
Qed.

(** So does the search from a place where no dot or slash starts the
    input, wherever that is. *)
Lemma search_no_lead (r : jsstring) (i : nat) (p : option N) :
  match r with
  | c :: _ => isDotOrSlash c = false
  | [] => True
  end ->
  (tailStart r = None -> search noFlags sanitizeRegex i p r = None)
  /\ (forall j, tailStart r = Some j ->
        exists m,
          search noFlags sanitizeRegex i p r = Some m
          /\ index m = (i + j)%nat
          /\ endIndex m = (i + length r)%nat).
Proof.
  intros H. destruct r as [|c t].
  - split; [| discriminate]. intros _. cbn [search]. now rewrite matchAt_no_lead.
  - cbn [search tailStart forallb]. rewrite H. cbn [andb].
    rewrite matchAt_no_lead by (cbn [rest]; exact H). cbn [orElse].
    destruct (search_interior t (S i) c) as [IHn IHs]. split.
    + intros Ht. apply IHn. now destruct (tailStart t).
    + intros j Ht. destruct (tailStart t) as [j'|]; [| discriminate].
      injection Ht as <-. destruct (IHs j' eq_refl) as (m & -> & Hi & He).
      exists m. split; [reflexivity |]. cbn [length]. split; lia.
Qed.

Lemma drop_no_lead (s : jsstring) :
  match dropDotsAndSlashes s with
  | c :: _ => isDotOrSlash c = false
  | [] => True
  end.
Proof.
  induction s as [|c t IH]; cbn [dropDotsAndSlashes]; [exact I |].
  destruct (isDotOrSlash c) eqn:E; [exact IH | exact E].
Qed.

Lemma drop_skipn (s : jsstring) :
  dropDotsAndSlashes s = skipn (leadingRun isDotOrSlash s) s.
Proof.
  induction s as [|c t IH]; cbn [dropDotsAndSlashes leadingRun]; [reflexivity |].
  destruct (isDotOrSlash c); [exact IH | reflexivity].
Qed.

Lemma leadingRun_le (p : N -> bool) (s : jsstring) :
  (leadingRun p s <= length s)%nat.
Proof.
  induction s as [|c t IH]; cbn [leadingRun length]; [lia |].
  destruct (p c); lia.
Qed.

Lemma drop_snoc (l : jsstring) (c : N) :
  dropDotsAndSlashes (l ++ [c])
  = if forallb isDotOrSlash l then (if isDotOrSlash c then [] else [c])
    else dropDotsAndSlashes l ++ [c].
Proof.
  induction l as [|a l IH]; cbn [app dropDotsAndSlashes forallb].
  - reflexivity.
  - destruct (isDotOrSlash a); [exact IH | reflexivity].
Qed.

Lemma forallb_rev (p : N -> bool) (l : jsstring) :
  forallb p (rev l) = forallb p l.
Proof.
  induction l as [|a l IH]; [reflexivity |].
  cbn [rev forallb]. rewrite forallb_app, IH. cbn [forallb].
  rewrite andb_true_r. apply andb_comm.
Qed.

(** Without the dots and slashes at its end. *)
Lemma tailStart_strip (r : jsstring) :
  match tailStart r with
  | Some j => firstn j r
  | None => r
  end = rev (dropDotsAndSlashes (rev r)).
Proof.
  induction r as [|c t IH]; [reflexivity |].
  cbn [rev tailStart forallb]. rewrite drop_snoc, forallb_rev.
  destruct (forallb isDotOrSlash t) eqn:Ht.
  - rewrite andb_true_r. destruct (isDotOrSlash c); [reflexivity |].
    destruct t as [|a t]; [reflexivity |].
    cbn [tailStart]. rewrite Ht. reflexivity.
  - rewrite andb_false_r, rev_app_distr. cbn [rev app]. rewrite <- IH.
    destruct (tailStart t); reflexivity.
Qed.

Lemma replaceAllGo_step (f : nat) (fl : flags) (r : regex) (s repl : jsstring)
    (lastIndex next : nat) :
  replaceAllGo (S f) fl r s repl lastIndex next
  = match execFrom fl r s lastIndex with
    | None => skipn next s
    | Some m =>
        let lastIndex' :=
          if Nat.eqb (endIndex m) (index m) then S (endIndex m) else endIndex m in
        if Nat.leb next (index m)
        then firstn (index m - next) (skipn next s) ++ repl
             ++ replaceAllGo f fl r s repl lastIndex' (endIndex m)
        else replaceAllGo f fl r s repl lastIndex' next
    end.
Proof. reflexivity. Qed.

(** The rounds of the replacement once the search is at the end of the
    text: nothing more is found. *)
Lemma replaceAllGo_end (fuel : nat) (s : jsstring) :
  replaceAllGo fuel noFlags sanitizeRegex s [] (length s) (length s) = [].
Proof.
  destruct fuel; [apply skipn_all |]. rewrite replaceAllGo_step.
  unfold execFrom. rewrite Nat.ltb_irrefl, skipn_all.
  cbn [search]. rewrite matchAt_no_lead by exact I. reflexivity.
Qed.

(** The rounds of the replacement from a place where no dot or slash
    starts the rest of the text. *)
Lemma replaceAllGo_no_lead (fuel : nat) (s : jsstring) (k : nat) :
  (k <= length s)%nat ->
  match skipn k s with
  | c :: _ => isDotOrSlash c = false
  | [] => True
  end ->
  replaceAllGo (S fuel) noFlags sanitizeRegex s [] k k
  = rev (dropDotsAndSlashes (rev (skipn k s))).
Proof.
  intros Hk Hr. rewrite <- tailStart_strip, replaceAllGo_step.
  unfold execFrom. cbv zeta. destruct (Nat.ltb_spec (length s) k) as [Hlt | _]; [lia |].
  destruct (search_no_lead (skipn k s) k
              (match k with O => None | S j => nth_error s j end) Hr)
    as [Hnone Hsome].
  destruct (tailStart (skipn k s)) as [j|] eqn:Ht.
  - destruct (Hsome j eq_refl) as (m & -> & Hi & He).
    pose proof (tailStart_lt _ _ Ht) as Hj. rewrite length_skipn in Hj, He.
    rewrite Hi, He.
    destruct (Nat.eqb_spec (k + (length s - k)) (k + j)) as [Heq | _]; [lia |].
    destruct (Nat.leb_spec k (k + j)) as [_ | Hgt]; [| lia].
    replace (k + j - k)%nat with j by lia.
    replace (k + (length s - k))%nat with (length s) by lia.
    rewrite replaceAllGo_end. cbn [app]. apply app_nil_r.
  - now rewrite (Hnone eq_refl).
Qed.

End SanitizeFacts.
Import SanitizeFacts.

(** The sanitization of a path in the scaffolding takes off the dots and
    slashes at its start and at its end, and nothing else: what is left
    neither starts nor ends with a dot or a slash. A name such as
    ".gitignore" loses its dot. *)
Theorem sanitized_path (p : jsstring) :
  replaceAll noFlags sanitizeRegex p [] = stripDotsAndSlashes p
  /\ match stripDotsAndSlashes p with
     | c :: _ => isDotOrSlash c = false
     | [] => True
     end
  /\ match rev (stripDotsAndSlashes p) with
     | c :: _ => isDotOrSlash c = false
     | [] => True
     end.
Proof.
  split; [| split].
  - unfold replaceAll, stripDotsAndSlashes.
    destruct p as [|c t]; [reflexivity |].
    destruct (isDotOrSlash c) eqn:Hc.
    + rewrite replaceAllGo_step. unfold execFrom at 1.
      cbn [Nat.ltb Nat.leb skipn search].
      destruct (matchAt_leading
                  {| pos := 0; prev := None; rest := c :: t; cap := None |}
                  c t eq_refl eq_refl Hc) as (m & -> & Hi & He).
      cbn [orElse pos Nat.add] in *. cbv zeta. rewrite Hi, He.
      cbn [Nat.eqb Nat.leb Nat.sub firstn app].
      rewrite replaceAllGo_no_lead.
      * cbn [dropDotsAndSlashes skipn Nat.add]. rewrite Hc.
        now rewrite (drop_skipn t).
      * pose proof (leadingRun_le isDotOrSlash t). simpl. lia.
      * cbn [Nat.add skipn]. rewrite <- (drop_skipn t). apply drop_no_lead.
    + rewrite (replaceAllGo_no_lead _ (c :: t) 0).
      * cbn [skipn dropDotsAndSlashes]. now rewrite Hc.
      * lia.
      * exact Hc.
  - unfold stripDotsAndSlashes.
    pose proof (drop_no_lead p) as H. rewrite <- tailStart_strip.
    destruct (dropDotsAndSlashes p) as [|c t] eqn:E; [exact I |].
    destruct (tailStart (c :: t)) as [[|j]|]; [exact I | exact H | exact H].
  - unfold stripDotsAndSlashes. rewrite rev_involutive. apply drop_no_lead.
Qed.

Module ScaffoldFacts.

Lemma sanitized_eq (p : jsstring) :
  replaceAll noFlags sanitizeRegex p [] = stripDotsAndSlashes p.
Proof.
  unfold replaceAll, stripDotsAndSlashes.
  destruct p as [|c t]; [reflexivity |].
  destruct (isDotOrSlash c) eqn:Hc.
  - rewrite replaceAllGo_step. unfold execFrom at 1.
    cbn [Nat.ltb Nat.leb skipn search].
    destruct (matchAt_leading
                {| pos := 0; prev := None; rest := c :: t; cap := None |}
                c t eq_refl eq_refl Hc) as (m & -> & Hi & He).
    cbn [orElse pos Nat.add] in *. cbv zeta. rewrite Hi, He.
    cbn [Nat.eqb Nat.leb Nat.sub firstn app].
    rewrite replaceAllGo_no_lead.
    + cbn [dropDotsAndSlashes skipn Nat.add]. rewrite Hc.
      now rewrite (drop_skipn t).
    + pose proof (leadingRun_le isDotOrSlash t). simpl. lia.
    + cbn [Nat.add skipn]. rewrite <- (drop_skipn t). apply drop_no_lead.
  - rewrite (replaceAllGo_no_lead _ (c :: t) 0).
    + cbn [skipn dropDotsAndSlashes]. now rewrite Hc.
    + lia.
    + exact Hc.
Qed.

(** What one round of the loop adds: at most two calls and one error, all
    for its item; nothing for a path of dots and slashes, something for
    any other. *)
Lemma scaffoldItem_trace (pf : Platform) (baseDirectory : jsstring)
    (fileOutlines : gmap jsstring jsstring) (st : scaffoldState)
    (item : structureItem) :
  exists calls errs,
    scaffoldItem pf baseDirectory fileOutlines st item
    = {| fsCalls := fsCalls st ++ calls; errors := errors st ++ errs |}
    /\ (length calls <= 2)%nat
    /\ (length errs <= 1)%nat
    /\ Forall (callFor pf baseDirectory fileOutlines item) calls
    /\ Forall (errorFor pf item) errs
    /\ (stripDotsAndSlashes (path item) = [] -> calls = [] /\ errs = [])
    /\ (stripDotsAndSlashes (path item) <> [] -> calls <> [] \/ errs <> []).
Proof.
  unfold scaffoldItem. rewrite sanitized_eq.
  fold (relativeTarget pf item). fold (scaffoldTarget pf baseDirectory item).
  destruct (truthy (stripDotsAndSlashes (path item))) eqn:Ht.
  2: { exists [], []. rewrite !app_nil_r. destruct st.
       split; [reflexivity |]. split; [simpl; lia |]. split; [simpl; lia |].
       split; [constructor |]. split; [constructor |].
       split; [auto |]. intros Hne. apply truthy_nonempty in Hne. congruence. }
  assert (Hne : stripDotsAndSlashes (path item) <> []) by now apply truthy_nonempty.
  clear Ht.
  set (target := scaffoldTarget pf baseDirectory item).
  set (parent := dirname pf target).
  set (comment := pathComment (getCommentPrefix pf (path item))
                    (relativeTarget pf item)).
  assert (Herr : forall message,
             errorFor pf item
               {| errorPath := relativeTarget pf item; errorMessage := message |})
    by (intros; split; [exact Hne | reflexivity]).
  assert (Hdir : type item = dir ->
                 callFor pf baseDirectory fileOutlines item (Mkdir target)).
  { intros Hty. split; [exact Hne |]. now rewrite Hty. }
  assert (Hparent : type item = file ->
             negb (streq parent baseDirectory) && negb (streq parent (js ".")) = true ->
             callFor pf baseDirectory fileOutlines item (Mkdir parent)).
  { intros Hty Hb. apply andb_true_iff in Hb as [H1 H2].
    apply negb_true_iff, streq_false in H1, H2.
    split; [exact Hne |]. rewrite Hty. auto. }
  assert (Hwrite : forall outline,
             type item = file ->
             outlineText fileOutlines (path item) = Some outline ->
             callFor pf baseDirectory fileOutlines item
               (WriteFile target (finalFileContent comment outline))).
  { intros outline Hty Ho. split; [exact Hne |]. split; [exact Hty |].
    split; [reflexivity |]. exists outline. auto. }
  assert (Hfin : forall calls errs s,
             s = {| fsCalls := fsCalls st ++ calls; errors := errors st ++ errs |} ->
             (length calls <= 2)%nat -> (length errs <= 1)%nat ->
             Forall (callFor pf baseDirectory fileOutlines item) calls ->
             Forall (errorFor pf item) errs ->
             calls <> [] \/ errs <> [] ->
             exists calls errs,
               s = {| fsCalls := fsCalls st ++ calls; errors := errors st ++ errs |}
               /\ (length calls <= 2)%nat
               /\ (length errs <= 1)%nat
               /\ Forall (callFor pf baseDirectory fileOutlines item) calls
               /\ Forall (errorFor pf item) errs
               /\ (stripDotsAndSlashes (path item) = [] -> calls = [] /\ errs = [])
               /\ (stripDotsAndSlashes (path item) <> [] -> calls <> [] \/ errs <> [])).
  { intros calls errs s Heq H1 H2 H3 H4 H5. exists calls, errs.
    repeat (split; [assumption |]). split; [congruence | auto]. }
  unfold fsDo, pushError. destruct (type item) eqn:Hty.
  - destruct (fsError pf (length (fsCalls st))) as [message|]; cbn [fsCalls errors].
    + apply (Hfin [Mkdir target]
               [{| errorPath := relativeTarget pf item; errorMessage := message |}]);
        [reflexivity | simpl; lia | simpl; lia | | | left; discriminate];
        repeat match goal with |- Forall _ _ => constructor end; auto.
    + apply (Hfin [Mkdir target] []);
        [now rewrite app_nil_r | simpl; lia | simpl; lia | | | left; discriminate];
        repeat match goal with |- Forall _ _ => constructor end; auto.
  - destruct (negb (streq parent baseDirectory) && negb (streq parent (js ".")))
      eqn:Hb.
    + destruct (fsError pf (length (fsCalls st))) as [message|]; cbn [fsCalls errors].
      { apply (Hfin [Mkdir parent]
                 [{| errorPath := relativeTarget pf item; errorMessage := message |}]);
          [reflexivity | simpl; lia | simpl; lia | | | left; discriminate];
          repeat match goal with |- Forall _ _ => constructor end; auto. }
      destruct (outlineText fileOutlines (path item)) as [outline|] eqn:Ho.
      * cbn [fsCalls errors]. rewrite length_app. cbn [length].
        destruct (fsError pf (length (fsCalls st) + 1)) as [message|];
          cbn [fsCalls errors]; rewrite <- app_assoc; cbn [app].
        -- apply (Hfin [Mkdir parent; WriteFile target (finalFileContent comment outline)]
                    [{| errorPath := relativeTarget pf item;
                        errorMessage := message |}]);
             [reflexivity | simpl; lia | simpl; lia | | | left; discriminate];
             repeat match goal with |- Forall _ _ => constructor end; auto.
        -- apply (Hfin [Mkdir parent; WriteFile target (finalFileContent comment outline)]
                    []);
             [now rewrite app_nil_r | simpl; lia | simpl; lia | |
              | left; discriminate];
             repeat match goal with |- Forall _ _ => constructor end; auto.
      * cbn [fsCalls errors].
        apply (Hfin [Mkdir parent]
                 [{| errorPath := relativeTarget pf item;
                     errorMessage := js "outlineContent.trim is not a function" |}]);
          [reflexivity | simpl; lia | simpl; lia | | | left; discriminate];
          repeat match goal with |- Forall _ _ => constructor end; auto.
    + destruct (outlineText fileOutlines (path item)) as [outline|] eqn:Ho.
      * destruct (fsError pf (length (fsCalls st))) as [message|];
          cbn [fsCalls errors].
        -- apply (Hfin [WriteFile target (finalFileContent comment outline)]
                    [{| errorPath := relativeTarget pf item;
                        errorMessage := message |}]);
             [reflexivity | simpl; lia | simpl; lia | | | left; discriminate];
             repeat match goal with |- Forall _ _ => constructor end; auto.
        -- apply (Hfin [WriteFile target (finalFileContent comment outline)] []);
             [now rewrite app_nil_r | simpl; lia | simpl; lia | |
              | left; discriminate];
             repeat match goal with |- Forall _ _ => constructor end; auto.
      * apply (Hfin []
                 [{| errorPath := relativeTarget pf item;
                     errorMessage := js "outlineContent.trim is not a function" |}]);
          [now rewrite app_nil_r | simpl; lia | simpl; lia | | | right; discriminate];
          repeat match goal with |- Forall _ _ => constructor end; auto.
Qed.

(** The loop adds calls and errors for the items of the list only. *)
Lemma scaffold_fold (pf : Platform) (baseDirectory : jsstring)
    (fileOutlines : gmap jsstring jsstring) (structureList : list structureItem) :
  forall st : scaffoldState,
    exists calls errs,
      fold_left (scaffoldItem pf baseDirectory fileOutlines) structureList st
      = {| fsCalls := fsCalls st ++ calls; errors := errors st ++ errs |}
      /\ (length calls <= 2 * length structureList)%nat
      /\ (length errs <= length structureList)%nat
      /\ Forall (fun call => exists item,
                   In item structureList
                   /\ callFor pf baseDirectory fileOutlines item call) calls
      /\ Forall (fun e => exists item,
                   In item structureList /\ errorFor pf item e) errs.
Proof.
  induction structureList as [|item l IH]; intros st.
  - exists [], []. rewrite !app_nil_r. destruct st.
    split; [reflexivity |]. split; [simpl; lia |]. split; [simpl; lia |].
    split; constructor.
  - cbn [fold_left].
    destruct (scaffoldItem_trace pf baseDirectory fileOutlines st item)
      as (c1 & e1 & -> & Hc1 & He1 & Hf1 & Hg1 & _).
    destruct (IH {| fsCalls := fsCalls st ++ c1; errors := errors st ++ e1 |})
      as (c2 & e2 & -> & Hc2 & He2 & Hf2 & Hg2).
    exists (c1 ++ c2), (e1 ++ e2). cbn [fsCalls errors]. rewrite <- !app_assoc.
    split; [reflexivity |].
    split; [rewrite length_app; simpl; lia |].
    split; [rewrite length_app; simpl; lia |].
    split; apply Forall_app; split.
    + eapply List.Forall_impl; [| exact Hf1]. intros c Hc. exists item.
      split; [now left | exact Hc].
    + eapply List.Forall_impl; [| exact Hf2]. intros c (it & Hin & Hc).
      exists it. split; [now right | exact Hc].
    + eapply List.Forall_impl; [| exact Hg1]. intros e He. exists item.
      split; [now left | exact He].
    + eapply List.Forall_impl; [| exact Hg2]. intros e (it & Hin & He).
      exists it. split; [now right | exact He].
Qed.

Lemma strip_all_dots (p : jsstring) :
  forallb isDotOrSlash p = true -> stripDotsAndSlashes p = [].
Proof.
  intros H. unfold stripDotsAndSlashes.
  assert (E : dropDotsAndSlashes p = []).
  { induction p as [|c t IH]; [reflexivity |].
    cbn [forallb] in H. apply andb_true_iff in H as [Hc Ht].
    cbn [dropDotsAndSlashes]. rewrite Hc. now apply IH. }
  now rewrite E.
Qed.

(** White space before a text that does not start with white space stays
    out of [trimStart]. *)
Lemma trimStart_app (x y : jsstring) (c : N) (t : jsstring) :
  y = c :: t -> isWhiteSpace c = false ->
  trimStart (x ++ y) = trimStart x ++ y.
Proof.
  intros -> Hc. induction x as [|a x IH]; cbn [app trimStart].
  - now rewrite Hc.
  - destruct (isWhiteSpace a); [exact IH | reflexivity].
Qed.

Lemma trimStart_all_space (w y : jsstring) :
  forallb isWhiteSpace w = true -> trimStart (w ++ y) = trimStart y.
Proof.
  intros H. induction w as [|a w IH]; [reflexivity |].
  cbn [forallb] in H. apply andb_true_iff in H as [Ha Hw].
  cbn [app trimStart]. rewrite Ha. now apply IH.
Qed.

(** A text that starts and ends with code units that are no white space
    stays whole at the start of a longer text that is trimmed. *)
Lemma trim_keeps (a r : jsstring) (c d : N) (a' a'' : jsstring) :
  a = c :: a' -> a = a'' ++ [d] ->
  isWhiteSpace c = false -> isWhiteSpace d = false ->
  trim (a ++ r) = a ++ trimEnd r.
Proof.
  intros Ha Hd Hc Hdw. unfold trim.
  assert (E : trimStart (a ++ r) = a ++ r)
    by (rewrite Ha; cbn [app]; now apply trimStart_fixed).
  rewrite E. unfold trimEnd. rewrite rev_app_distr.
  rewrite (trimStart_app (rev r) (rev a) d (rev a''))
    by (rewrite ?Hd, ?rev_app_distr; auto).
  now rewrite rev_app_distr, rev_involutive.
Qed.

Lemma trimEnd_all_space (z w : jsstring) :
  forallb isWhiteSpace w = true -> trimEnd (z ++ w) = trimEnd z.
Proof.
  intros H. unfold trimEnd. rewrite rev_app_distr.
  now rewrite trimStart_all_space by now rewrite forallb_rev.
Qed.

(** White space after a text goes with the trimming. *)
Lemma trim_app_space (z w : jsstring) :
  forallb isWhiteSpace w = true -> trim (z ++ w) = trim z.
Proof.
  intros H. unfold trim.
  destruct (trimStart_head z) as [Hz | (c & t & Hz & Hc)].
  - assert (Hall : trimStart (z ++ w) = []).
    { clear - H Hz. induction z as [|a z IH]; cbn [app trimStart] in *.
      - rewrite <- (app_nil_r w). rewrite trimStart_all_space by exact H.
        reflexivity.
      - destruct (isWhiteSpace a); [now apply IH | discriminate]. }
    now rewrite Hall, Hz.
  - assert (Hall : trimStart (z ++ w) = trimStart z ++ w).
    { clear - Hz Hc. induction z as [|a z IH]; cbn [app trimStart] in *;
        [discriminate |].
      destruct (isWhiteSpace a); [now apply IH | reflexivity]. }
    rewrite Hall. now apply trimEnd_all_space.
Qed.

Lemma getCommentPrefix_values (pf : Platform) (filePath : jsstring) :
  In (getCommentPrefix pf filePath) [js "//"; js "#"; js "<!--"; js "--"].
Proof.
  unfold getCommentPrefix.
  repeat match goal with
         | |- context [if ?b then _ else _] => destruct b
         end; cbn; auto.
Qed.

(** A file of the scaffolding starts with its comment and ends with a
    line break. *)
Lemma finalFileContent_shape (prefix rel outline : jsstring) :
  In prefix [js "//"; js "#"; js "<!--"; js "--"] ->
  exists body,
    finalFileContent (pathComment prefix rel) outline
    = prefix ++ js " File:" ++ body ++ js "\n".
Proof.
  intros Hp. unfold finalFileContent, pathComment.
  set (r := js " " ++ replaceAllChar 92 rel (js "/") ++ js " "
            ++ (if streq prefix (js "<!--") then js "-->" else [])
            ++ js "\n\n" ++ outline).
  assert (E : (prefix ++ js " File: " ++ replaceAllChar 92 rel (js "/") ++ js " "
               ++ (if streq prefix (js "<!--") then js "-->" else []))
              ++ js "\n\n" ++ outline
              = (prefix ++ js " File:") ++ r).
  { unfold r. rewrite <- !app_assoc. reflexivity. }
  rewrite E. exists (trimEnd r).
  assert (K : trim ((prefix ++ js " File:") ++ r)
              = (prefix ++ js " File:") ++ trimEnd r).
  { cbn [In] in Hp. destruct Hp as [<- | [<- | [<- | [<- | []]]]].
    - eapply (trim_keeps _ r 47 58 _ (js "// File")); reflexivity.
    - eapply (trim_keeps _ r 35 58 _ (js "# File")); reflexivity.
    - eapply (trim_keeps _ r 60 58 _ (js "<!-- File")); reflexivity.
    - eapply (trim_keeps _ r 45 58 _ (js "-- File")); reflexivity. }
  rewrite K. now rewrite <- !app_assoc.
Qed.

(** On a platform whose [fs] never fails, an item that is not named like
    an inherited property leaves no error. *)
Lemma scaffoldItem_no_error (pf : Platform) (baseDirectory : jsstring)
    (fileOutlines : gmap jsstring jsstring) (st : scaffoldState)
    (item : structureItem) :
  (forall n, fsError pf n = None) ->
  outlineText fileOutlines (path item) <> None ->
  errors (scaffoldItem pf baseDirectory fileOutlines st item) = errors st.
Proof.
  intros Hfs Ho. unfold scaffoldItem, fsDo.
  destruct (truthy _); [| reflexivity].
  destruct (type item).
  - now rewrite Hfs.
  - destruct (negb _ && negb _); rewrite ?Hfs;
      (destruct (outlineText fileOutlines (path item)); [| congruence]);
      cbn [fsCalls]; rewrite ?Hfs; reflexivity.
Qed.

End ScaffoldFacts.
Import ScaffoldFacts.

Module ScaffoldRunFacts.

Lemma scaffoldRun_trace (pf : Platform) (baseDirectory : jsstring)
    (structureList : list structureItem) (fileOutlines : gmap jsstring jsstring) :
  (length (fsCalls (scaffoldRun pf baseDirectory structureList fileOutlines))
   <= 2 * length structureList)%nat
  /\ (length (errors (scaffoldRun pf baseDirectory structureList fileOutlines))
      <= length structureList)%nat
  /\ Forall (fun call => exists item,
               In item structureList
               /\ callFor pf baseDirectory fileOutlines item call)
       (fsCalls (scaffoldRun pf baseDirectory structureList fileOutlines))
  /\ Forall (fun e => exists item,
               In item structureList /\ errorFor pf item e)
       (errors (scaffoldRun pf baseDirectory structureList fileOutlines)).
Proof.
  unfold scaffoldRun.
  destruct (scaffold_fold pf baseDirectory fileOutlines structureList
              {| fsCalls := []; errors := [] |})
    as (calls & errs & -> & H1 & H2 & H3 & H4).
  cbn [fsCalls errors app]. auto.
Qed.

(** What is done stays done through the rest of the loop. *)
Lemma fold_keeps (pf : Platform) (baseDirectory : jsstring)
    (fileOutlines : gmap jsstring jsstring) (l : list structureItem)
    (st : scaffoldState) :
  (forall call, In call (fsCalls st) ->
     In call (fsCalls (fold_left (scaffoldItem pf baseDirectory fileOutlines) l st)))
  /\ (forall e, In e (errors st) ->
        In e (errors (fold_left (scaffoldItem pf baseDirectory fileOutlines) l st))).
Proof.
  destruct (scaffold_fold pf baseDirectory fileOutlines l st)
    as (calls & errs & -> & _).
  cbn [fsCalls errors]. split; intros x Hx; apply in_or_app; now left.
Qed.

Lemma fold_no_error (pf : Platform) (baseDirectory : jsstring)
    (fileOutlines : gmap jsstring jsstring) (l : list structureItem) :
  (forall n, fsError pf n = None) ->
  (forall item, In item l -> type item = file ->
     stripDotsAndSlashes (path item) <> [] ->
     outlineText fileOutlines (path item) <> None) ->
  forall st,
    errors (fold_left (scaffoldItem pf baseDirectory fileOutlines) l st)
    = errors st.
Proof.
  intros Hfs. induction l as [|item l IH]; intros Hok st; [reflexivity |].
  cbn [fold_left]. rewrite IH by (intros; apply Hok; auto; now right).
  unfold scaffoldItem, fsDo. rewrite sanitized_eq.
  destruct (truthy (stripDotsAndSlashes (path item))) eqn:Ht; [| reflexivity].
  apply truthy_nonempty in Ht.
  destruct (type item) eqn:Hty.
  - now rewrite Hfs.
  - specialize (Hok item (or_introl eq_refl) Hty Ht).
    destruct (negb _ && negb _); rewrite ?Hfs;
      (destruct (outlineText fileOutlines (path item)); [| congruence]);
      cbn [fsCalls]; rewrite ?Hfs; reflexivity.
Qed.

(** On a platform whose [fs] never fails, the round of a file item writes
    the file, or reports the outline that could not be trimmed. *)
Lemma scaffoldItem_file (pf : Platform) (baseDirectory : jsstring)
    (fileOutlines : gmap jsstring jsstring) (st : scaffoldState)
    (item : structureItem) :
  (forall n, fsError pf n = None) ->
  type item = file ->
  stripDotsAndSlashes (path item) <> [] ->
  match outlineText fileOutlines (path item) with
  | Some outline =>
      In (WriteFile (scaffoldTarget pf baseDirectory item)
            (finalFileContent
               (pathComment (getCommentPrefix pf (path item))
                  (relativeTarget pf item)) outline))
        (fsCalls (scaffoldItem pf baseDirectory fileOutlines st item))
  | None =>
      In {| errorPath := relativeTarget pf item;
            errorMessage := js "outlineContent.trim is not a function" |}
        (errors (scaffoldItem pf baseDirectory fileOutlines st item))
  end.
Proof.
  intros Hfs Hty Hne. unfold scaffoldItem, fsDo, pushError. rewrite sanitized_eq.
  fold (relativeTarget pf item). fold (scaffoldTarget pf baseDirectory item).
  apply truthy_nonempty in Hne. rewrite Hne, Hty.
  destruct (negb _ && negb _); rewrite ?Hfs;
    destruct (outlineText fileOutlines (path item)); cbn [fsCalls errors];
    rewrite ?Hfs; cbn [fsCalls errors];
    repeat (apply in_or_app; right); now left.
Qed.

Lemma drop_length (s : jsstring) :
  (length (dropDotsAndSlashes s) <= length s)%nat.
Proof.
  induction s as [|c t IH]; [reflexivity |].
  cbn [dropDotsAndSlashes]. destruct (isDotOrSlash c); simpl; lia.
Qed.

Lemma drop_lead (lead s : jsstring) :
  forallb isDotOrSlash lead = true ->
  dropDotsAndSlashes (lead ++ s) = dropDotsAndSlashes s.
Proof.
  intros H. induction lead as [|c t IH]; [reflexivity |].
  cbn [forallb] in H. apply andb_true_iff in H as [Hc Ht].
  cbn [app dropDotsAndSlashes]. rewrite Hc. now apply IH.
Qed.

Lemma drop_fixed_app (s t : jsstring) :
  s <> [] -> dropDotsAndSlashes s = s -> dropDotsAndSlashes (s ++ t) = s ++ t.
Proof.
  intros Hne H. destruct s as [|c s]; [congruence |].
  cbn [app dropDotsAndSlashes] in *.
  destruct (isDotOrSlash c); [| reflexivity].
  pose proof (drop_length s) as Hl. rewrite H in Hl. simpl in Hl. lia.
Qed.

Lemma strip_fixed (name : jsstring) :
  stripDotsAndSlashes name = name ->
  dropDotsAndSlashes name = name
  /\ dropDotsAndSlashes (rev name) = rev name.
Proof.
  unfold stripDotsAndSlashes. intros H.
  assert (Hl : length (dropDotsAndSlashes name) = length name).
  { pose proof (drop_length name) as H1.
    pose proof (drop_length (rev (dropDotsAndSlashes name))) as H2.
    rewrite length_rev in H2.
    apply (f_equal (@length N)) in H. rewrite length_rev in H. lia. }
  assert (Hd : dropDotsAndSlashes name = name).
  { destruct name as [|c t]; [reflexivity |].
    cbn [dropDotsAndSlashes] in *. destruct (isDotOrSlash c); [| reflexivity].
    pose proof (drop_length t). simpl in Hl. lia. }
  split; [exact Hd |]. rewrite Hd in H.
  apply (f_equal (@rev N)) in H. now rewrite rev_involutive in H.
Qed.

(** Dots and slashes around a name go, the name stays. *)
Lemma strip_around (lead name trail : jsstring) :
  forallb isDotOrSlash lead = true ->
  forallb isDotOrSlash trail = true ->
  name <> [] ->
  stripDotsAndSlashes name = name ->
  stripDotsAndSlashes (lead ++ name ++ trail) = name.
Proof.
  intros Hlead Htrail Hne Hfix. apply strip_fixed in Hfix as [Hd Hr].
  unfold stripDotsAndSlashes.
  rewrite drop_lead by exact Hlead.
  rewrite drop_fixed_app by assumption.
  rewrite rev_app_distr, drop_lead by now rewrite forallb_rev.
  rewrite Hr. apply rev_involutive.
Qed.

Lemma no_outline_parsed (markdownContent : jsstring) (key : jsstring) :
  parseOutlinesFromMd markdownContent !! key = None.
Proof.
  unfold parseOutlinesFromMd.
  destruct (exec flagM outlineSectionRegex markdownContent) as [m|] eqn:E;
    [| reflexivity].
  unfold capture. destruct (group1 m) as [g|] eqn:Hg; [| reflexivity].
  destruct (truthy g); [| reflexivity].
  cbv zeta. rewrite (section_is_one_line _ _ _ E Hg). cbn [fold_left].
  now rewrite one_line_saves_nothing.
Qed.

End ScaffoldRunFacts.
Import ScaffoldRunFacts.

(** Whatever the platform, the list and the outlines, every call of [fs]
    that [scaffoldProject] makes is for an item of the list whose path has
    more than dots and slashes at its ends: the directory of a [dir] item,
    the parent directory of a [file] item, or the file itself with its
    comment and outline, under the base directory joined with the
    normalized stripped path. Each error carries the normalized path of
    such an item. There are at most two calls and one error for an
    item. *)
Theorem scaffold_calls_and_errors (pf : Platform) (baseDirectory : jsstring)
    (structureList : list structureItem) (fileOutlines : gmap jsstring jsstring) :
  (length (fsCalls (scaffoldRun pf baseDirectory structureList fileOutlines))
   <= 2 * length structureList)%nat
  /\ (length (scaffoldProject pf baseDirectory structureList fileOutlines)
      <= length structureList)%nat
  /\ Forall (fun call => exists item,
               In item structureList
               /\ callFor pf baseDirectory fileOutlines item call)
       (fsCalls (scaffoldRun pf baseDirectory structureList fileOutlines))
  /\ Forall (fun e => exists item,
               In item structureList /\ errorFor pf item e)
       (scaffoldProject pf baseDirectory structureList fileOutlines).
Proof.
  apply scaffoldRun_trace.
Qed.

(** When no call of [fs] fails, a [file] item whose path is a name between
    runs of dots and slashes is written under the base directory at the
    normalized name alone: the dots and slashes around it are lost, so
    that .gitignore is written as gitignore. *)
Theorem scaffold_writes_stripped_name (pf : Platform) (baseDirectory : jsstring)
    (structureList : list structureItem) (fileOutlines : gmap jsstring jsstring)
    (item : structureItem) (lead name trail outline : jsstring) :
  (forall n, fsError pf n = None) ->
  In item structureList ->
  type item = file ->
  path item = lead ++ name ++ trail ->
  forallb isDotOrSlash lead = true ->
  forallb isDotOrSlash trail = true ->
  name <> [] ->
  stripDotsAndSlashes name = name ->
  outlineText fileOutlines (path item) = Some outline ->
  In (WriteFile (joinPath pf baseDirectory (normalize pf name))
        (finalFileContent
           (pathComment (getCommentPrefix pf (path item)) (normalize pf name))
           outline))
    (fsCalls (scaffoldRun pf baseDirectory structureList fileOutlines)).
Proof.
  intros Hfs Hin Hty Hpath Hlead Htrail Hne Hfix Ho.
  assert (Hs : stripDotsAndSlashes (path item) = name)
    by (rewrite Hpath; now apply strip_around).
  apply in_split in Hin as (l1 & l2 & ->).
  unfold scaffoldRun. rewrite fold_left_app. cbn [fold_left].
  apply fold_keeps.
  set (st := fold_left _ l1 _).
  pose proof (scaffoldItem_file pf baseDirectory fileOutlines st item Hfs Hty) as H.
  rewrite Ho in H. unfold scaffoldTarget, relativeTarget in H.
  rewrite Hs in H. now apply H.
Qed.

Lemma scaffold_writes_stripped_name_witness :
  In (WriteFile (js "/tmp/out/gitignore") (js "// File: gitignore" ++ js "\n"))
    (fsCalls (scaffoldRun posixWorld (js "/tmp/out")
                [{| type := dir; path := js "src" |};
                 {| type := file; path := js ".gitignore" |}] ∅)).
Proof.
  apply (scaffold_writes_stripped_name posixWorld (js "/tmp/out")
           [{| type := dir; path := js "src" |};
            {| type := file; path := js ".gitignore" |}] ∅
           {| type := file; path := js ".gitignore" |}
           (js ".") (js "gitignore") [] []);
    try reflexivity.
  - right. left. reflexivity.
  - discriminate.
Defined.

(** When no call of [fs] fails, [scaffoldProject] returns no error exactly
    when no [file] item that it does not skip is named like a property
    that every object inherits (toString, constructor, ...) without an
    outline of its own: for such a name the value looked up is not a
    string, and trimming it throws. *)
Theorem scaffold_errors_without_fs_failure (pf : Platform)
    (baseDirectory : jsstring) (structureList : list structureItem)
    (fileOutlines : gmap jsstring jsstring) :
  (forall n, fsError pf n = None) ->
  scaffoldProject pf baseDirectory structureList fileOutlines = []
  <-> (forall item,
         In item structureList -> type item = file ->
         stripDotsAndSlashes (path item) <> [] ->
         outlineText fileOutlines (path item) <> None).
Proof.
  intros Hfs. unfold scaffoldProject, scaffoldRun. split.
  - intros Hnil item Hin Hty Hne Ho.
    apply in_split in Hin as (l1 & l2 & ->).
    rewrite fold_left_app in Hnil. cbn [fold_left] in Hnil.
    set (st := fold_left _ l1 _) in Hnil.
    pose proof (scaffoldItem_file pf baseDirectory fileOutlines st item
                  Hfs Hty Hne) as H.
    rewrite Ho in H.
    apply (proj2 (fold_keeps pf baseDirectory fileOutlines l2 _)) in H.
    rewrite Hnil in H. destruct H.
  - intros Hok. now rewrite fold_no_error.
Qed.

Lemma scaffold_errors_without_fs_failure_witness :
  scaffoldProject posixWorld (js "/tmp/out")
    [{| type := file; path := js "src/toString.js" |};
     {| type := file; path := js "toString" |}] ∅ <> [].
Proof.
  intros H.
  apply (proj1 (scaffold_errors_without_fs_failure posixWorld (js "/tmp/out")
                  [{| type := file; path := js "src/toString.js" |};
                   {| type := file; path := js "toString" |}] ∅
                  (fun _ => eq_refl)) H
           {| type := file; path := js "toString" |});
    [right; left; reflexivity | reflexivity | discriminate | reflexivity].
Defined.

(** Every file that [scaffoldProject] writes starts with one of the four
    comment prefixes followed by [ File:], and ends with a line break. *)
Theorem scaffold_file_content (pf : Platform) (baseDirectory : jsstring)
    (structureList : list structureItem) (fileOutlines : gmap jsstring jsstring)
    (target content : jsstring) :
  In (WriteFile target content)
    (fsCalls (scaffoldRun pf baseDirectory structureList fileOutlines)) ->
  commentedContent content.
Proof.
  intros Hin.
  destruct (scaffoldRun_trace pf baseDirectory structureList fileOutlines)
    as (_ & _ & Hcalls & _).
  rewrite List.Forall_forall in Hcalls.
  destruct (Hcalls _ Hin) as (item & _ & _ & _ & _ & outline & _ & ->).
  destruct (finalFileContent_shape (getCommentPrefix pf (path item))
              (relativeTarget pf item) outline
              (getCommentPrefix_values pf (path item))) as (body & ->).
  exists (getCommentPrefix pf (path item)), body.
  split; [apply getCommentPrefix_values | reflexivity].
Qed.

Lemma scaffold_file_content_witness :
  commentedContent (js "<!-- File: README.md -->" ++ js "\n").
Proof.
  apply (scaffold_file_content posixWorld (js "/tmp/out")
           [{| type := file; path := js "README.md" |}] ∅
           (js "/tmp/out/README.md")).
  left. reflexivity.
Defined.

(** Scaffolding with the outlines that [parseOutlinesFromMd] extracts
    from a document writes no outline: every file holds its path comment
    and a line break, whatever the document says. *)
Theorem scaffolded_files_hold_no_outline (pf : Platform)
    (baseDirectory : jsstring) (structureList : list structureItem)
    (markdownContent : jsstring) :
  Forall (fun call =>
            match call with
            | Mkdir _ => True
            | WriteFile _ content =>
                exists item,
                  In item structureList
                  /\ content
                     = trim (pathComment (getCommentPrefix pf (path item))
                               (relativeTarget pf item)) ++ js "\n"
            end)
    (fsCalls (scaffoldRun pf baseDirectory structureList
                (parseOutlinesFromMd markdownContent))).
Proof.
  destruct (scaffoldRun_trace pf baseDirectory structureList
              (parseOutlinesFromMd markdownContent)) as (_ & _ & Hcalls & _).
  eapply List.Forall_impl; [| exact Hcalls].
  intros [d | target content] (item & Hin & Hcall); [exact I |].
  destruct Hcall as (_ & _ & _ & outline & Ho & ->).
  exists item. split; [exact Hin |].
  unfold outlineText in Ho. rewrite no_outline_parsed in Ho.
  destruct (existsb _ _); [discriminate |]. injection Ho as <-.
  unfold finalFileContent. rewrite app_nil_r.
  now rewrite trim_app_space.
Qed.

(** ** The handler of generate-plan *)

Module HandlerFacts.

Lemma saveArtifact_trace (pf : Platform) (directoryPath : jsstring)
    (st : saveState) (entry : jsstring * jsstring) :
  exists calls errs,
    saveArtifact pf directoryPath st entry
    = {| saveCalls := saveCalls st ++ calls;
         savedArtifactCount := savedArtifactCount st + (1 - length errs);
         artifactSaveErrors := artifactSaveErrors st ++ errs |}
    /\ (length errs <= 1)%nat
    /\ (1 <= length calls <= 2)%nat
    /\ Forall (fun e => errorPath e = fst entry) errs
    /\ Forall (fun call =>
                 match call with
                 | Mkdir directory =>
                     directory
                     = dirname pf (joinPath pf directoryPath (fst entry))
                 | WriteFile target content =>
                     target = joinPath pf directoryPath (fst entry)
                     /\ content = snd entry
                 end) calls
    /\ (errs = [] ->
        In (WriteFile (joinPath pf directoryPath (fst entry)) (snd entry)) calls).
Proof.
  destruct entry as [filename content]. unfold saveArtifact. cbn [fst snd].
  set (fullFilePath := joinPath pf directoryPath filename).
  set (fileDir := dirname pf fullFilePath).
  assert (Hfin : forall calls errs s,
             s = {| saveCalls := saveCalls st ++ calls;
                    savedArtifactCount := savedArtifactCount st + (1 - length errs);
                    artifactSaveErrors := artifactSaveErrors st ++ errs |} ->
             (length errs <= 1)%nat -> (1 <= length calls <= 2)%nat ->
             Forall (fun e => errorPath e = filename) errs ->
             Forall (fun call =>
                       match call with
                       | Mkdir directory => directory = fileDir
                       | WriteFile target c => target = fullFilePath /\ c = content
                       end) calls ->
             (errs = [] -> In (WriteFile fullFilePath content) calls) ->
             exists calls errs,
               s = {| saveCalls := saveCalls st ++ calls;
                      savedArtifactCount := savedArtifactCount st + (1 - length errs);
                      artifactSaveErrors := artifactSaveErrors st ++ errs |}
               /\ (length errs <= 1)%nat /\ (1 <= length calls <= 2)%nat
               /\ Forall (fun e => errorPath e = filename) errs
               /\ Forall (fun call =>
                            match call with
                            | Mkdir directory => directory = fileDir
                            | WriteFile target c =>
                                target = fullFilePath /\ c = content
                            end) calls
               /\ (errs = [] -> In (WriteFile fullFilePath content) calls))
    by (intros calls errs s; intros; exists calls, errs; auto 10).
  destruct (negb (streq fileDir directoryPath) && negb (streq fileDir (js "."))).
  - destruct (match fsError pf (length (saveCalls st)) with
              | Some message =>
                  if negb (streq (fsErrorCode pf (length (saveCalls st))) (js "EEXIST"))
                  then Some message else None
              | None => None
              end) as [message|].
    + apply (Hfin [Mkdir fileDir]
               [{| errorPath := filename;
                   errorMessage := js "Failed to create subdirectory: " ++ message |}]);
        [ cbn [length]; f_equal; lia | simpl; lia | simpl; lia
        | repeat constructor | repeat constructor | discriminate ].
    + destruct (fsError pf (length (saveCalls st ++ [Mkdir fileDir]))) as [message|].
      * apply (Hfin [Mkdir fileDir; WriteFile fullFilePath content]
                 [{| errorPath := filename;
                     errorMessage := js "File write error: " ++ message |}]);
          [ rewrite <- app_assoc; cbn [length app]; f_equal; lia
          | simpl; lia | simpl; lia
          | repeat constructor | repeat constructor | discriminate ].
      * apply (Hfin [Mkdir fileDir; WriteFile fullFilePath content] []);
          [ rewrite <- app_assoc, app_nil_r; cbn [length app]; f_equal; lia
          | simpl; lia | simpl; lia
          | repeat constructor | repeat constructor | intros _; right; now left ].
  - destruct (fsError pf (length (saveCalls st))) as [message|].
    + apply (Hfin [WriteFile fullFilePath content]
               [{| errorPath := filename;
                   errorMessage := js "File write error: " ++ message |}]);
        [ cbn [length]; f_equal; lia | simpl; lia | simpl; lia
        | repeat constructor | repeat constructor | discriminate ].
    + apply (Hfin [WriteFile fullFilePath content] []);
        [ rewrite app_nil_r; cbn [length]; f_equal; lia | simpl; lia | simpl; lia
        | repeat constructor | repeat constructor | intros _; now left ].
Qed.

(** The loop of the saving: one write or one error for each artifact. *)
Lemma save_fold (pf : Platform) (directoryPath : jsstring)
    (generatedArtifacts : list (jsstring * jsstring)) :
  forall st : saveState,
    exists calls errs saved,
      fold_left (saveArtifact pf directoryPath) generatedArtifacts st
      = {| saveCalls := saveCalls st ++ calls;
           savedArtifactCount := savedArtifactCount st + saved;
           artifactSaveErrors := artifactSaveErrors st ++ errs |}
      /\ (saved + length errs = length generatedArtifacts)%nat
      /\ (length generatedArtifacts <= length calls
          <= 2 * length generatedArtifacts)%nat
      /\ Forall (fun e => In (errorPath e) (map fst generatedArtifacts)) errs
      /\ Forall (fun call =>
                   exists entry,
                     In entry generatedArtifacts
                     /\ match call with
                        | Mkdir directory =>
                            directory
                            = dirname pf (joinPath pf directoryPath (fst entry))
                        | WriteFile target content =>
                            target = joinPath pf directoryPath (fst entry)
                            /\ content = snd entry
                        end) calls.
Proof.
  induction generatedArtifacts as [|entry l IH]; intros st.
  - exists [], [], 0%nat. rewrite !app_nil_r, Nat.add_0_r. destruct st.
    split; [reflexivity |]. split; [reflexivity |]. split; [simpl; lia |].
    split; constructor.
  - cbn [fold_left].
    destruct (saveArtifact_trace pf directoryPath st entry)
      as (c1 & e1 & -> & He1 & Hc1 & Hp1 & Hf1 & _).
    destruct (IH {| saveCalls := saveCalls st ++ c1;
                    savedArtifactCount := savedArtifactCount st + (1 - length e1);
                    artifactSaveErrors := artifactSaveErrors st ++ e1 |})
      as (c2 & e2 & n2 & -> & Hn2 & Hc2 & Hp2 & Hf2).
    exists (c1 ++ c2), (e1 ++ e2), (1 - length e1 + n2)%nat.
    cbn [saveCalls savedArtifactCount artifactSaveErrors].
    rewrite <- !app_assoc, !length_app.
    split; [f_equal; lia |]. split; [simpl; lia |]. split; [simpl; lia |].
    split; apply Forall_app; split.
    + eapply List.Forall_impl; [| exact Hp1]. intros e ->. now left.
    + eapply List.Forall_impl; [| exact Hp2]. intros e He. now right.
    + eapply List.Forall_impl; [| exact Hf1]. intros c Hc. exists entry.
      split; [now left | exact Hc].
    + eapply List.Forall_impl; [| exact Hf2]. intros c (en & Hin & Hc).
      exists en. split; [now right | exact Hc].
Qed.

Lemma cdFirst_head (directoryPath : jsstring) (suggestedCommands : list jsstring) :
  suggestedCommands <> [] ->
  exists rest,
    cdFirst directoryPath suggestedCommands = cdCommand directoryPath :: rest
    /\ (forall cmd, In cmd rest -> In cmd suggestedCommands)
    /\ (forall cmd, In cmd suggestedCommands -> cmd <> cdCommand directoryPath ->
          In cmd rest)
    /\ (hd [] suggestedCommands <> cdCommand directoryPath ->
        ~ In (cdCommand directoryPath) rest).
Proof.
  destruct suggestedCommands as [|first t]; [congruence |]. intros _.
  unfold cdFirst. destruct (streq first (cdCommand directoryPath)) eqn:E;
    cbn [negb hd].
  - apply streq_true in E. subst first. exists t.
    split; [reflexivity |]. split; [intros; now right |].
    split; [| congruence].
    intros cmd [<- | H] Hne; [congruence | exact H].
  - exists (List.filter (fun cmd => negb (streq cmd (cdCommand directoryPath)))
              (first :: t)).
    split; [reflexivity |]. split; [| split].
    + intros cmd H. now apply List.filter_In in H.
    + intros cmd H Hne. apply List.filter_In. split; [exact H |].
      apply negb_true_iff. now apply streq_false.
    + intros _ H. apply List.filter_In in H as [_ H].
      apply negb_true_iff, streq_false in H. congruence.
Qed.

Lemma fallbackCommands_shape (directoryPath : jsstring)
    (artifactList : list jsstring) (proposedStructureList : list structureItem) :
  exists middle,
    fallbackCommands directoryPath artifactList proposedStructureList
    = cdCommand directoryPath :: middle
      ++ [js "git init && git add . && git commit -m \qInitial commit from RooCodeGen\q"]
    /\ (length middle <= 2)%nat.
Proof.
  unfold fallbackCommands. cbv zeta.
  destruct (existsb _ _ || existsb _ _); destruct (existsb _ _ || existsb _ _);
    [ exists [js "npm install"; js "pip install -r requirements.txt"]
    | exists [js "npm install"]
    | exists [js "pip install -r requirements.txt"]
    | exists [] ];
    (split; [reflexivity | simpl; lia]).
Qed.

(** With the token not set, [suggestSetupCommandsLLM] returns, and its
    commands are none or start with [cd]. *)
Lemma suggest_returns (directoryPath : jsstring) (artifactList : list jsstring)
    (proposedStructureList : list structureItem) (reply : llmResult) :
  exists suggestedCommands,
    suggestSetupCommandsLLM directoryPath artifactList proposedStructureList
      false reply
    = inr (suggestedCommands, commandSuggestionText suggestedCommands)
    /\ (suggestedCommands = []
        \/ exists rest, suggestedCommands = cdCommand directoryPath :: rest).
Proof.
  unfold suggestSetupCommandsLLM. cbv zeta.
  eexists. split; [reflexivity |].
  match goal with |- cdFirst _ ?l = [] \/ _ => destruct l as [|first t] eqn:E end;
    [now left | right].
  destruct (cdFirst_head directoryPath (first :: t)) as (rest & -> & _);
    [discriminate | eauto].
Qed.

End HandlerFacts.
Import HandlerFacts.

(** [saveGeneratedArtifacts] accounts for every artifact once: it is
    counted as saved or it has an error, under its own name. Each call of
    [fs] is for an artifact: its file, with its content, under the
    directory, or the directory of that file. *)
Theorem saved_artifacts_accounted (pf : Platform) (directoryPath : jsstring)
    (generatedArtifacts : list (jsstring * jsstring)) :
  (savedArtifactCount (saveGeneratedArtifacts pf directoryPath generatedArtifacts)
   + length (artifactSaveErrors
               (saveGeneratedArtifacts pf directoryPath generatedArtifacts))
   = length generatedArtifacts)%nat
  /\ (length generatedArtifacts
      <= length (saveCalls (saveGeneratedArtifacts pf directoryPath generatedArtifacts))
      <= 2 * length generatedArtifacts)%nat
  /\ Forall (fun e => In (errorPath e) (map fst generatedArtifacts))
       (artifactSaveErrors
          (saveGeneratedArtifacts pf directoryPath generatedArtifacts))
  /\ Forall (fun call =>
               exists entry,
                 In entry generatedArtifacts
                 /\ match call with
                    | Mkdir directory =>
                        directory
                        = dirname pf (joinPath pf directoryPath (fst entry))
                    | WriteFile target content =>
                        target = joinPath pf directoryPath (fst entry)
                        /\ content = snd entry
                    end)
       (saveCalls (saveGeneratedArtifacts pf directoryPath generatedArtifacts)).
Proof.
  unfold saveGeneratedArtifacts.
  destruct (save_fold pf directoryPath generatedArtifacts
              {| saveCalls := []; savedArtifactCount := 0;
                 artifactSaveErrors := [] |})
    as (calls & errs & saved & -> & H1 & H2 & H3 & H4).
  cbn [saveCalls savedArtifactCount artifactSaveErrors app Nat.add]. auto.
Qed.

(** Unless the token is set when it starts, [suggestSetupCommandsLLM]
    always returns: a call of the client that is rejected, also because
    of a request to cancel, or whose text is no JSON array of strings
    gives the fallback, which is [cd], at most two install commands and
    the git command. The commands returned are none, when the model
    answered with an empty array, or start with [cd] into the directory;
    no command of the model other than that [cd] is lost, and when the
    model did not put it first it occurs once. *)
Theorem setup_commands_start_with_cd (directoryPath : jsstring)
    (artifactList : list jsstring) (proposedStructureList : list structureItem)
    (reply : llmResult) :
  exists suggestedCommands,
    suggestSetupCommandsLLM directoryPath artifactList proposedStructureList
      false reply
    = inr (suggestedCommands, commandSuggestionText suggestedCommands)
    /\ (suggestedCommands = []
        \/ exists rest, suggestedCommands = cdCommand directoryPath :: rest)
    /\ (suggestedCommands = [] ->
        exists llmResponse,
          reply = Resolved llmResponse /\ parseCommands llmResponse = Some [])
    /\ (forall llmResponse parsedCommands,
          reply = Resolved llmResponse ->
          parseCommands llmResponse = Some parsedCommands ->
          (forall cmd, In cmd parsedCommands -> cmd <> cdCommand directoryPath ->
             In cmd suggestedCommands)
          /\ (hd [] parsedCommands <> cdCommand directoryPath ->
              parsedCommands <> [] ->
              exists rest,
                suggestedCommands = cdCommand directoryPath :: rest
                /\ ~ In (cdCommand directoryPath) rest))
    /\ ((forall llmResponse, reply = Resolved llmResponse ->
           parseCommands llmResponse = None) ->
        exists middle,
          suggestedCommands
          = cdCommand directoryPath :: middle
            ++ [js "git init && git add . && git commit -m \qInitial commit from RooCodeGen\q"]
          /\ (length middle <= 2)%nat).
Proof.
  unfold suggestSetupCommandsLLM. cbv zeta.
  set (fallback := fallbackCommands directoryPath artifactList proposedStructureList).
  destruct (fallbackCommands_shape directoryPath artifactList proposedStructureList)
    as (middle & Hfb & Hmid). fold fallback in Hfb.
  assert (Hcd : cdFirst directoryPath fallback = fallback).
  { rewrite Hfb. unfold cdFirst.
    destruct (streq (cdCommand directoryPath) (cdCommand directoryPath)) eqn:E;
      [reflexivity |].
    apply streq_false in E. congruence. }
  assert (Hfallback : forall r,
             (forall llmResponse, r = Resolved llmResponse ->
                parseCommands llmResponse = None) ->
             exists suggestedCommands,
               inr (cdFirst directoryPath fallback,
                    commandSuggestionText (cdFirst directoryPath fallback))
               = (inr (suggestedCommands, commandSuggestionText suggestedCommands)
                  : thrown + (list jsstring * jsstring))
               /\ (suggestedCommands = []
                   \/ exists rest, suggestedCommands = cdCommand directoryPath :: rest)
               /\ (suggestedCommands = [] ->
                   exists llmResponse,
                     r = Resolved llmResponse
                     /\ parseCommands llmResponse = Some [])
               /\ (forall llmResponse parsedCommands,
                     r = Resolved llmResponse ->
                     parseCommands llmResponse = Some parsedCommands ->
                     (forall cmd, In cmd parsedCommands ->
                        cmd <> cdCommand directoryPath -> In cmd suggestedCommands)
                     /\ (hd [] parsedCommands <> cdCommand directoryPath ->
                         parsedCommands <> [] ->
                         exists rest,
                           suggestedCommands = cdCommand directoryPath :: rest
                           /\ ~ In (cdCommand directoryPath) rest))
               /\ ((forall llmResponse, r = Resolved llmResponse ->
                      parseCommands llmResponse = None) ->
                   exists middle,
                     suggestedCommands
                     = cdCommand directoryPath :: middle
                       ++ [js "git init && git add . && git commit -m \qInitial commit from RooCodeGen\q"]
                     /\ (length middle <= 2)%nat)).
  { intros r Hr. exists fallback. rewrite Hcd.
    split; [reflexivity |].
    split; [right; rewrite Hfb; eauto |].
    split; [rewrite Hfb; discriminate |].
    split; [intros llmResponse parsed E1 E2; rewrite (Hr _ E1) in E2; discriminate |].
    intros _. exists middle. auto. }
  destruct reply as [llmResponse | message].
  2: { apply Hfallback. intros ? [=]. }
  destruct (parseCommands llmResponse) as [parsedCommands|] eqn:Hparse.
  2: { apply Hfallback. intros ? [= <-]. exact Hparse. }
  exists (cdFirst directoryPath parsedCommands).
  split; [reflexivity |].
  destruct parsedCommands as [|first t] eqn:Hp.
  - split; [now left |]. split; [intros _; eauto |].
    split; [| intros H; specialize (H _ eq_refl); congruence].
    intros r p [= <-] E. rewrite Hparse in E. injection E as <-.
    split; [intros cmd [] | congruence].
  - rewrite <- Hp in *.
    assert (Hne : parsedCommands <> []) by (rewrite Hp; discriminate).
    destruct (cdFirst_head directoryPath parsedCommands Hne)
      as (rest & Hc & Hin & Hkeep & Honce).
    rewrite Hc.
    split; [right; eauto |]. split; [discriminate |].
    split; [| intros H; specialize (H _ eq_refl); congruence].
    intros r p [= <-] E. rewrite Hparse in E. injection E as <-.
    split.
    + intros cmd Hcmd Hneq. right. now apply Hkeep.
    + intros Hhd _. exists rest. split; [reflexivity | now apply Honce].
Qed.

Module AnswerFacts.

(** The token is not set when the engine returns. *)
Lemma returned_token (w : World) (projectIdea : jsstring) (st st' : State)
    (result : engineResult) :
  runAdvancedReasoningEngine w projectIdea st = (inr result, st') ->
  isCancellationRequested st' = false.
Proof.
  unfold runAdvancedReasoningEngine.
  destruct (engineBody w projectIdea st) as [[[m|m]|res] s] eqn:H; try discriminate.
  intros [= <- <-]. unfold engineBody in H.
  apply bind_inr in H as (analysisResult & s1 & _ & H).
  apply bind_inr in H as ([] & s2 & _ & H).
  apply bind_inr in H as ([md0 conciseCommand] & s3 & _ & H).
  apply bind_inr in H as ([] & s4 & _ & H).
  apply bind_inr in H as (md & s5 & _ & H).
  apply bind_inr in H as ([] & s6 & _ & H).
  apply bind_inr in H as ([[[[rules rooignore] workspace] footgun] modes] & s7 & _ & H).
  apply bind_inr in H as ([] & s8 & _ & H).
  apply bind_inr in H as ([finalPlan planIsValid] & s9 & _ & H).
  apply bind_inr in H as ([] & s10 & _ & H).
  apply bind_inr in H as (reviewed & s11 & _ & H).
  apply bind_inr in H as ([] & s12 & Hlast & H).
  injection H as _ <-.
  now apply checkCancellation_inr in Hlast as [Hlast ->].
Qed.

Lemma promptForSaveFolder_cases (d : Desk) :
  (promptForSaveFolder d = (inr None, [])
   /\ (dialogCanceled d = true \/ dialogFilePath d = None
       \/ dialogFilePath d = Some []))
  \/ exists selectedPath,
       dialogCanceled d = false /\ dialogFilePath d = Some selectedPath
       /\ selectedPath <> []
       /\ ((exists message,
              fsError (platform d) 0 = Some message
              /\ fsErrorCode (platform d) 0 <> js "EEXIST"
              /\ promptForSaveFolder d
                 = (inl (OtherError (js "Failed to create directory: " ++ message)),
                    [Mkdir (dirname (platform d) selectedPath)]))
           \/ promptForSaveFolder d
              = (inr (Some (dirname (platform d) selectedPath)),
                 [Mkdir (dirname (platform d) selectedPath)])).
Proof.
  unfold promptForSaveFolder.
  destruct (dialogFilePath d) as [selectedPath|]; [| left; auto].
  destruct (dialogCanceled d); [left; auto |].
  destruct selectedPath as [|c t]; [left; auto |].
  right. exists (c :: t). cbn [orb truthy negb].
  split; [reflexivity |]. split; [reflexivity |]. split; [discriminate |].
  destruct (fsError (platform d) 0) as [message|]; [| now right].
  destruct (streq (fsErrorCode (platform d) 0) (js "EEXIST")) eqn:E; cbn [negb].
  - now right.
  - left. exists message. apply streq_false in E. auto.
Qed.


End AnswerFacts.
Import AnswerFacts.

(** The handler answers that the generation was cancelled only after the
    engine has returned normally: when the save dialog was cancelled or
    gave no path, with no error text and without a call of [fs]; or when
    the user asked to cancel during the dialog, the scaffolding or the
    saving, with the text of that phase and after the folder was made. An
    error of the engine, its CancellationError too, is never answered as a
    cancellation. *)
Theorem cancelled_answer (w : World) (d : Desk) (projectIdea : jsstring)
    (error : option jsstring) (calls : list fsCall) :
  generatePlan w d projectIdea = (Cancelled error, calls) ->
  exists result st,
    runAdvancedReasoningEngine w projectIdea (initialState false)
    = (inr result, st)
    /\ ((error = None /\ calls = []
         /\ (dialogCanceled d = true \/ dialogFilePath d = None
             \/ dialogFilePath d = Some []))
        \/ exists message selectedPath rest,
             error = Some message /\ In message handlerCancellations
             /\ dialogFilePath d = Some selectedPath
             /\ calls = Mkdir (dirname (platform d) selectedPath) :: rest
             /\ exists phase, cancelRequestedIn d phase = true).
Proof.
  unfold generatePlan.
  destruct (runAdvancedReasoningEngine w projectIdea (initialState false))
    as [[e|result] st] eqn:Erun.
  { destruct e; cbn [thrownByEngine answerError]; discriminate. }
  cbv zeta. rewrite (returned_token _ _ _ _ _ Erun). cbn [orb].
  intros H. exists result, st. split; [reflexivity |].
  destruct (promptForSaveFolder_cases d)
    as [[Hp Hd] | (selectedPath & Hc & Hf & Hne & [(m & _ & _ & Hp) | Hp])];
    rewrite Hp in H.
  - injection H as <- <-. left. auto.
  - cbn [answerError] in H. discriminate.
  - right. cbn [length app] in H.
    destruct (cancelRequestedIn d SaveDialog) eqn:E1.
    { injection H as <- <-. exists (js "Operation cancelled after save dialog."),
        selectedPath, []. split; [reflexivity |].
      split; [left; reflexivity |]. eauto. }
    destruct (cancelRequestedIn d Scaffolding) eqn:E2.
    { injection H as <- <-. exists (js "Operation cancelled during scaffolding."),
        selectedPath. eexists. split; [reflexivity |].
      split; [right; left; reflexivity |]. eauto. }
    destruct (cancelRequestedIn d SavingArtifacts) eqn:E3.
    { injection H as <- <-.
      exists (js "Operation cancelled during artifact saving."), selectedPath.
      eexists. split; [reflexivity |].
      split; [right; right; left; reflexivity |]. eauto. }
    destruct (suggest_returns (dirname (platform d) selectedPath)
                (map fst (artifactEntries (artifacts result)))
                (structureList result) (setupCommandsReply d))
      as (cmds & Hs & _).
    cbn [orb] in H. rewrite Hs in H. discriminate.
Qed.

Lemma cancelled_answer_witness :
  exists calls,
    generatePlan happyWorld impatientDeskWorld (js "A to-do list")
    = (Cancelled (Some (js "Operation cancelled during scaffolding.")), calls)
    /\ hd_error calls = Some (Mkdir (js "/home/me/todo")).
Proof.
  destruct (generatePlan happyWorld impatientDeskWorld (js "A to-do list"))
    as [r calls] eqn:E.
  destruct r as [error | |]; try (vm_compute in E; discriminate).
  destruct (cancelled_answer _ _ _ _ _ E)
    as (result & st & _ & [(He & _) | (m & p & rest & -> & _ & Hp & -> & _)]).
  - subst error. vm_compute in E. discriminate.
  - injection Hp as <-. exists (Mkdir (dirname (platform impatientDeskWorld)
                                        (js "/home/me/todo/placeholder.txt")) :: rest).
    split; [| reflexivity]. vm_compute in E. injection E as Hm _.
    now rewrite <- Hm.
Defined.

(** The handler answers with a failure in two cases only, always with the
    stage Unknown. Either the engine has thrown, and the answer carries
    the message of its error and nothing was written: this is so for the
    CancellationError of the engine as well, which the handler does not
    recognize as its own. Or the chosen folder could not be made. Errors
    of the scaffolding, of the saving and of the call for the setup
    commands never fail the answer. *)
Theorem failed_answer (w : World) (d : Desk) (projectIdea : jsstring)
    (error stage : jsstring) (calls : list fsCall) :
  generatePlan w d projectIdea = (Failed error stage, calls) ->
  stage = js "Unknown"
  /\ ((exists e st,
         runAdvancedReasoningEngine w projectIdea (initialState false)
         = (inl e, st)
         /\ error = (if truthy (messageOf e) then messageOf e
                     else js "An unknown critical error occurred.")
         /\ calls = [])
      \/ (exists result st selectedPath message,
            runAdvancedReasoningEngine w projectIdea (initialState false)
            = (inr result, st)
            /\ dialogFilePath d = Some selectedPath
            /\ fsError (platform d) 0 = Some message
            /\ fsErrorCode (platform d) 0 <> js "EEXIST"
            /\ error = js "Failed to create directory: " ++ message
            /\ calls = [Mkdir (dirname (platform d) selectedPath)])).
Proof.
  unfold generatePlan.
  destruct (runAdvancedReasoningEngine w projectIdea (initialState false))
    as [[e|result] st] eqn:Erun.
  { intros H. assert (E : answerError (thrownByEngine e)
                          = Failed (if truthy (messageOf e) then messageOf e
                                    else js "An unknown critical error occurred.")
                              (js "Unknown")) by now destruct e.
    rewrite E in H. injection H as <- <- <-.
    split; [reflexivity |]. left. eauto. }
  cbv zeta. rewrite (returned_token _ _ _ _ _ Erun). cbn [orb].
  intros H.
  destruct (promptForSaveFolder_cases d)
    as [[Hp Hd] | (selectedPath & Hc & Hf & Hne & [(m & Hm & Hcode & Hp) | Hp])];
    rewrite Hp in H.
  - discriminate.
  - cbn [answerError truthy app] in H.
    assert (Ht : truthy (js "Failed to create directory: " ++ m) = true)
      by reflexivity.
    rewrite Ht in H. injection H as <- <- <-.
    split; [reflexivity |]. right. exists result, st, selectedPath, m. auto 10.
  - exfalso. cbn [length app] in H.
    destruct (cancelRequestedIn d SaveDialog); [discriminate |].
    destruct (cancelRequestedIn d Scaffolding); [discriminate |].
    destruct (cancelRequestedIn d SavingArtifacts); [discriminate |].
    destruct (suggest_returns (dirname (platform d) selectedPath)
                (map fst (artifactEntries (artifacts result)))
                (structureList result) (setupCommandsReply d))
      as (cmds & Hs & _).
    cbn [orb] in H. rewrite Hs in H. discriminate.
Qed.

Lemma failed_answer_witness :
  generatePlan cancelledInReviewWorld quietDeskWorld (js "A to-do list")
  = (Failed (js "Operation cancelled by user.") (js "Unknown"), []).
Proof.
  destruct (generatePlan cancelledInReviewWorld quietDeskWorld (js "A to-do list"))
    as [r calls] eqn:E.
  destruct r as [| error stage |]; try (vm_compute in E; discriminate).
  destruct (failed_answer _ _ _ _ _ _ E)
    as (-> & [(e & st & Hrun & -> & ->) | (result & st & p & m & Hrun & _)]).
  - vm_compute in Hrun. injection Hrun as <- _. reflexivity.
  - vm_compute in Hrun. discriminate.
Defined.



(** ** The click on the generate button *)

Module ClickFacts.

(** The answers of the handler, case by case. *)
Lemma generatePlan_cases (w : World) (d : Desk) (projectIdea : jsstring) :
  (exists e st error,
     runAdvancedReasoningEngine w projectIdea (initialState false) = (inl e, st)
     /\ error <> []
     /\ fst (generatePlan w d projectIdea) = Failed error (js "Unknown"))
  \/ exists result st,
       runAdvancedReasoningEngine w projectIdea (initialState false)
       = (inr result, st)
       /\ ((fst (generatePlan w d projectIdea) = Cancelled None
            /\ (dialogCanceled d = true \/ dialogFilePath d = None
                \/ dialogFilePath d = Some []))
           \/ (exists message,
                 fst (generatePlan w d projectIdea)
                 = Failed (js "Failed to create directory: " ++ message)
                     (js "Unknown"))
           \/ (exists message phase,
                 fst (generatePlan w d projectIdea) = Cancelled (Some message)
                 /\ In message handlerCancellations
                 /\ cancelRequestedIn d phase = true)
           \/ (exists directoryPath message allErrors suggestedCommands selectedPath,
                 fst (generatePlan w d projectIdea)
                 = Succeeded directoryPath message allErrors suggestedCommands
                 /\ dialogCanceled d = false
                 /\ dialogFilePath d = Some selectedPath
                 /\ selectedPath <> []
                 /\ forall phase, cancelRequestedIn d phase = false)).
Proof.
  unfold generatePlan.
  destruct (runAdvancedReasoningEngine w projectIdea (initialState false))
    as [[e|result] st] eqn:Erun.
  { left. exists e, st.
    exists (if truthy (messageOf e) then messageOf e
            else js "An unknown critical error occurred.").
    split; [reflexivity |]. split.
    - destruct (truthy (messageOf e)) eqn:Ht; [| discriminate].
      now apply truthy_nonempty.
    - now destruct e. }
  right. exists result, st. split; [reflexivity |].
  cbv zeta. rewrite (returned_token _ _ _ _ _ Erun). cbn [orb].
  destruct (promptForSaveFolder_cases d)
    as [[Hp Hd] | (selectedPath & Hc & Hf & Hne & [(m & _ & _ & Hp) | Hp])];
    rewrite Hp.
  - left. auto.
  - right. left. exists m. reflexivity.
  - right. right. cbn [length app].
    destruct (cancelRequestedIn d SaveDialog) eqn:E1.
    { left. exists (js "Operation cancelled after save dialog."), SaveDialog.
      split; [reflexivity |]. split; [left; reflexivity | exact E1]. }
    destruct (cancelRequestedIn d Scaffolding) eqn:E2.
    { left. exists (js "Operation cancelled during scaffolding."), Scaffolding.
      split; [reflexivity |]. split; [right; left; reflexivity | exact E2]. }
    destruct (cancelRequestedIn d SavingArtifacts) eqn:E3.
    { left. exists (js "Operation cancelled during artifact saving."),
        SavingArtifacts.
      split; [reflexivity |]. split; [right; right; left; reflexivity | exact E3]. }
    right. cbn [orb].
    destruct (suggest_returns (dirname (platform d) selectedPath)
                (map fst (artifactEntries (artifacts result)))
                (structureList result) (setupCommandsReply d))
      as (cmds & -> & _).
    cbn [fst]. do 4 eexists. exists selectedPath.
    split; [reflexivity |]. split; [exact Hc |]. split; [exact Hf |].
    split; [exact Hne |]. intros []; assumption.
Qed.

End ClickFacts.
Import ClickFacts.

(** A click on the generate button always gives feedback, and the
    feedback is an alert unless the idea is not blank, the engine has
    returned normally, and either the save dialog was cancelled or the
    handler answered with a success, for which the user chose a path and
    never asked to cancel. Every error of the engine, a folder that
    cannot be made, and every request to cancel that the handler sees
    end in an alert. *)
Theorem click_feedback (w : World) (d : Desk) (value : jsstring)
    (shown : feedback) :
  onGenerateClick w d value = shown ->
  (forall text, shown <> Alert text) ->
  trim value <> []
  /\ exists result st,
       runAdvancedReasoningEngine w (trim value) (initialState false)
       = (inr result, st)
       /\ ((shown = ConsoleLog (js "Save operation cancelled by user.")
            /\ (dialogCanceled d = true \/ dialogFilePath d = None
                \/ dialogFilePath d = Some []))
           \/ (shown = ConsoleLog (js "Plan generated and saved successfully.")
               /\ dialogCanceled d = false
               /\ (exists selectedPath,
                     dialogFilePath d = Some selectedPath /\ selectedPath <> [])
               /\ forall phase, cancelRequestedIn d phase = false)).
Proof.
  unfold onGenerateClick. cbv zeta. intros <- Hno.
  destruct (truthy (trim value)) eqn:Ht; cbn [negb] in *.
  2: { exfalso. now apply (Hno (js "Please enter a project idea.")). }
  split; [now apply truthy_nonempty |].
  destruct (generatePlan_cases w d (trim value))
    as [(e & st & error & Hrun & Hne & Hg)
       | (result & st & Hrun
          & [(Hg & Hd) | [(m & Hg) | [(m & phase & Hg & Hin & Hph)
             | (dir & msg & errs & cmds & p & Hg & Hc & Hf & Hp & Hph)]]])];
    rewrite Hg in *; unfold showResult in *;
    cbn [resultError resultCancelled resultSuccess] in *.
  - exfalso. apply truthy_nonempty in Hne. rewrite Hne in Hno.
    now apply (Hno (js "Error during plan generation or saving: " ++ error)).
  - exists result, st. split; [exact Hrun |]. left. auto.
  - exfalso.
    assert (Hm : truthy (js "Failed to create directory: " ++ m) = true)
      by reflexivity.
    rewrite Hm in Hno.
    now apply (Hno (js "Error during plan generation or saving: "
                    ++ js "Failed to create directory: " ++ m)).
  - exfalso.
    assert (Hm : truthy m = true).
    { cbn [handlerCancellations In] in Hin.
      destruct Hin as [<- | [<- | [<- | []]]]; reflexivity. }
    rewrite Hm in Hno.
    now apply (Hno (js "Error during plan generation or saving: " ++ m)).
  - exists result, st. split; [exact Hrun |]. right. eauto 10.
Qed.

Lemma click_feedback_witness :
  onGenerateClick happyWorld quietDeskWorld (js "  A to-do list ")
  = ConsoleLog (js "Plan generated and saved successfully.").
Proof.
  destruct (onGenerateClick happyWorld quietDeskWorld (js "  A to-do list "))
    as [text | text |] eqn:E; try (vm_compute in E; discriminate).
  destruct (click_feedback _ _ _ _ E ltac:(intros t; discriminate))
    as (_ & result & st & _ & [(_ & Hd) | (H & _)]).
  - destruct Hd as [Hd | [Hd | Hd]]; discriminate.
  - exact H.
Defined.
